(* ===== verification/_CoqProject ===== *)
-Q . S2P
Prelude.v
Torch.v
PyString.v
ParallelUtils.v
ParallelState.v
RngTracker.v
Tensor.v
TensorParallel.v
FlashInfer.v
Batch.v
PagedAttention.v
ModelWorker.v
Concurrency.v
KVStore.v
KVCopies.v
KVSafety.v
KVPipeline.v
Transfer.v
WorkerService.v
Setup.v
ModelUtils.v
Triton.v
CacheOps.v
Rotary.v
RotaryReal.v
CrossEntropy.v
Heads.v
Activations.v
Llama.v
ModelSpec.v
Causal.v
Decoder.v
LlamaSpec.v
ModelInit.v
LlamaTheorems.v
DenseLlama.v
Opt.v
OptSpec.v
OptInit.v
OptTheorems.v
DenseOpt.v
Serving.v
KVOverlap.v
PageRows.v
Offload.v
ModelLoading.v
OptLoading.v
GetModel.v
Startup.v
