(* ===== verification/Prelude.v ===== *)
(** * LMServe's inference worker, verified

    A library of definitions and theorems on the Python part of LMServe: the
    worker processes under [src/runtime/worker/llm_worker/] that hold a
    tensor-parallel language model and its key/value cache, and that the Rust
    engine drives by gRPC.  (File names below are relative to that directory.)

    ** The program

    The engine sends a worker batches of requests ([Infer]).  [model_worker.py]
    sorts them, lays them out as one flat batch with the plans of the paged
    attention kernels, runs the model ([models/llama.py], [models/qwen2.py],
    [models/opt.py]) and samples a token per request.  The layers of the model
    are cut over the ranks of a model-parallel group ([models/parallel/]).  The
    keys and values live in pages of a GPU cache, which a second process,
    [kv_worker.py], copies to and from host memory and disk and between
    machines, layer by layer, while the model runs; events and queues order the
    two.  The kernels of [ops/triton/] copy blocks and rotate heads.

    ** The files

    - [Prelude]: exceptions ([res]), state ([M]), Python's integers, lists and
      slices, and their lemmas and tactics.  [PyString]: strings and [int].
    - [Torch], [Tensor]: scalars, matrices and the collectives of
      [torch.distributed], as classes of parameters with their documented laws.
    - [ParallelUtils], [ParallelState], [TensorParallel]: [models/parallel/utils.py],
      [initialize.py], and [mappings.py] with [layers.py].
    - [RngTracker]: [models/parallel/random.py].  [CrossEntropy]: [cross_entropy.py].
    - [FlashInfer]: the interface of the flashinfer package and a reference
      instance.  [Batch]: [models/input_params.py], [_make_inputs] and the two
      wrapper builders of [model_worker.py], [models/layers/attention.py].
      [PagedAttention]: the theorems on both.
    - [ModelWorker]: the rest of [model_worker.py] and [models/sampler.py].
    - [Concurrency]: interleavings.  [KVStore]: the state and operations of
      [kv_worker.py]; [KVCopies]: the theorems on the copies; [KVSafety]: the
      type invariant of the store; [KVPipeline]: the events and queues between
      the two processes, as a step relation; [KVOverlap]: its effect on the memory;
      [Transfer]: the transfers between workers.
    - [Triton], [CacheOps]: [ops/cache_ops.py], [ops/triton/cache_kernels.py];
      [Rotary], [RotaryReal]: [models/layers/rotary_embedding.py],
      [ops/rotary_embedding_ops.py], [ops/triton/rotary_embedding.py].
    - [Heads]: rows cut into heads, and attention that works head by head.
    - [Activations]: [models/layers/activations.py].
    - [ModelSpec]: what the specifications of the models share: serial
      attention and linear layers, their shards, stacks of decoder layers.
    - [Llama]: [models/llama.py] and [models/qwen2.py]; [LlamaSpec]: the serial
      transformer and the lemmas of the refinement; [ModelInit]: what the
      constructors build; [LlamaTheorems]: what the model guarantees.
    - [Opt]: [models/opt.py]; [OptSpec], [OptInit], [OptTheorems]: in the same way.
    - [Causal], [Decoder]: a dense causal decoder, on a whole text and without
      caches, and the contract ([DecoderLaws]) a model owes the workers that
      serve it; [DenseLlama], [DenseOpt]: Llama and OPT keep it.
    - [Serving]: the workers of all ranks and their client, as a step relation.
      [PageRows], [Offload]: the same with their KV workers and parked sequences.
    - [ModelUtils]: [models/utils.py], the [load_weights] methods and
      [get_model_size]; [ModelLoading], [OptLoading]: checkpoints of Llama (and
      Qwen2) and of OPT.
    - [WorkerService]: the handlers of [cli.py] and the start of the KV worker.
    - [Setup]: [utils.py] and the [ModelConfig] of [models/__init__.py];
      [GetModel]: its [get_model].
    - [Startup]: [serve] of [cli.py] and [ModelWorker.__init__], from the launch of
      the processes to where [Serving] starts.

    ** How the code is represented

    Python integers are [Z]; tensors of int32 and bytes keep their range.  A
    function that can raise returns [res]; one that also changes an object is in
    the state monad [M], which keeps the state at the point of the exception.
    Records keep the attributes of the classes, definitions the names of the
    functions.  The ranks of a group run in step, so a tensor of the parallel
    layers is the list of the ranks' tensors and a collective is a function on
    such lists; the process groups themselves ([ParallelState], [Setup]) are the
    state of one process.  Code that is not in the repository
    (torch, flashinfer, CUDA streams, nixl, numpy's files) is a parameter: a
    class or a section variable with the laws its documentation states, with a
    concrete instance for the witnesses.  Floating-point numbers are an abstract
    type with operations; laws on them ([Scalar], [DotSplit], ...) are only
    assumed where a theorem compares two ways to sum.  [RotaryReal] and
    [CrossEntropy] compute with real numbers.

    ** What is proved

    - From end to end: processes launched on a repository with the checkpoint of a
      Llama, Qwen2 or OPT model come up with the same model ([Startup], [GetModel]), and
      then generate, whatever batches, chunks, pages and shared prefixes the client
      sends, the text that greedy decoding with the dense model of the checkpoint
      generates from each prompt alone; no such batch raises ([Serving], for every
      model that keeps the contract).  Nor does it show when sequences are parked in
      host memory or on disk and brought back to other pages ([Offload]).
    - The model: on every number of ranks, the batched, paged, sharded Llama
      computes a serial transformer on each request alone; the number of ranks
      and the other requests of a batch are not observable ([LlamaTheorems]);
      OPT too computes its serial decoder on each request ([OptTheorems]); the
      weight files of a repository leave every rank of Llama with its shards
      ([ModelLoading]), and OPT checkpoints with output biases never load
      ([OptLoading]), those without do ([GetModel]).
    - The parallel layers equal their serial counterparts, forward and
      constructors ([TensorParallel]); the process groups and their lifetime
      ([ParallelState], [Setup]); the parallel loss is the serial one and its
      backward pass the derivative ([CrossEntropy]); the invariant and the
      isolation of generator states, and that a checkpoint recomputes with the
      numbers of its first run ([RngTracker]).
    - One batched attention call over the plans of [_make_inputs] is causal
      attention per request; prefilling in chunks changes nothing
      ([PagedAttention]).
    - [execute], [init_cache] and [warmup] of the worker ([ModelWorker]).
    - The KV worker: what each copy does, that a block saved and restored is the
      block, that disk tasks may interleave ([KVCopies]); that its store stays
      well formed whatever is requested ([KVSafety]), from the start of its
      process on, and when that start never ends ([WorkerService]); that kernels and
      copies are ordered layer by layer, and when the protocol terminates or blocks
      ([KVPipeline]), and that a pass with overlapped copies leaves what copies before
      and after it leave ([KVOverlap]); transfers ([Transfer]).
    - The kernels of [CacheOps] and [Rotary], in every order of their programs;
      that rotary scores depend on distances only ([RotaryReal]).

    ** Bounds and fuel

    Recursion is structural.  A loop of the source that waits for another process
    is a transition of [KVPipeline.step], where blocking is a state, or takes
    fuel: [await_xfer] of [Transfer] and [wait_socket] of [WorkerService] return
    [None] when it is used up.  The theorems give a number of polls from which
    every fuel yields the result, or show that no fuel does.

    ** Not modelled

    - What the machine owes the KV worker (shared and pinned memory, old files) is
      [WorkerService.memory_ok].
    - The answers of the model hub, the disk and the file readers are parameters
      ([ModelUtils.hub]); so are sysfs and [nvidia-smi] ([Setup]).
    - gRPC servers, signals and logging; the release of CUDA and NIXL objects
      ([KVWorker.__del__]).
    - In [Serving], the client stays within [admissible]: it never rewrites a slot
      that another sequence has cached, which excludes a prompt that is cached whole
      and whose last token is fed again into a shared page.  In [Offload], a copy and
      a batch follow each other; that overlapping them layer by layer makes no
      difference is the subject of [KVOverlap].  How the rows of a token lie in the
      bytes of its block is a parameter.
    - The gradients of [CheckpointFunction.backward] beyond the recomputed
      outputs, which [torch.autograd] computes.
    - [src/benchmarks/]: load generators around the running system.
    - The engine, scheduler and router are Rust; what the worker relies on from
      them (block lists, the flags of [execute]) are hypotheses.
    - Rounding of floating point, device timing, and memory reuse by torch. *)
From stdpp Require Export base list list_numbers strings gmap sorting.
#[export] Set Default Goal Selector "!".

(** ** Exceptions and the error monad

    A Python expression either returns a value or raises; the constructors of
    [exc] are the exception classes the modelled code raises or lets through. *)
Inductive exc :=
  | AssertionError | ValueError | IndexError | KeyError | TypeError
  | AttributeError | NameError | RuntimeError | ZeroDivisionError
  | FileNotFoundError | ImportError | CudaError | PlainException.

#[export] Instance exc_eq_dec : EqDecision exc.
Proof. solve_decision. Defined.

Inductive res (A : Type) : Type :=
  | Ok (a : A)
  | Raise (e : exc).
Arguments Ok {A} a.
Arguments Raise {A} e.

#[export] Instance res_ret : MRet res := λ A a, Ok a.
#[export] Instance res_bind : MBind res := λ A B f m,
  match m with Ok a => f a | Raise e => Raise e end.
#[export] Instance res_fmap : FMap res := λ A B f m,
  match m with Ok a => Ok (f a) | Raise e => Raise e end.

#[export] Instance res_eq_dec {A} `{EqDecision A} : EqDecision (res A).
Proof. solve_decision. Defined.

(** [assert c] *)
Definition py_assert (b : bool) : res unit :=
  if b then Ok tt else Raise AssertionError.

(** [if not c: raise e] *)
Definition py_require (b : bool) (e : exc) : res unit :=
  if b then Ok tt else Raise e.

Lemma Ok_bind {A B} (a : A) (f : A → res B) : Ok a ≫= f = f a.
Proof. done. Qed.

Lemma bind_Ok {A B} (m : res A) (f : A → res B) (b : B) :
  m ≫= f = Ok b ↔ ∃ a, m = Ok a ∧ f a = Ok b.
Proof.
  destruct m as [a|e]; simpl; split; [by eauto| |done|].
  - by intros (? & [= <-] & ?).
  - by intros (? & ? & ?).
Qed.

Lemma fmap_Ok {A B} (m : res A) (f : A → B) (b : B) :
  f <$> m = Ok b ↔ ∃ a, m = Ok a ∧ b = f a.
Proof.
  destruct m as [a|e]; simpl; split; [intros [= <-]; by eauto| |done|].
  - by intros (? & [= <-] & ->).
  - by intros (? & ? & ?).
Qed.

Lemma py_assert_Ok b u : py_assert b = Ok u ↔ b = true.
Proof. destruct b, u; naive_solver. Qed.

Lemma py_require_Ok b e u : py_require b e = Ok u ↔ b = true.
Proof. destruct b, u; naive_solver. Qed.

(** [res_inv] takes apart hypotheses saying that a monadic computation
    returned. *)
Ltac res_inv :=
  repeat match goal with
  | H : mret _ = Ok _ |- _ => injection H as H; subst
  | H : Ok _ = Ok _ |- _ => injection H as H; subst
  | H : Raise _ = Ok _ |- _ => discriminate H
  | H : Ok _ = Raise _ |- _ => discriminate H
  | H : mbind _ _ = Ok _ |- _ => apply bind_Ok in H; destruct H as (? & ? & ?)
  | H : _ <$> _ = Ok _ |- _ => apply fmap_Ok in H; destruct H as (? & ? & ?)
  | H : py_assert _ = Ok _ |- _ => apply py_assert_Ok in H
  | H : py_require _ _ = Ok _ |- _ => apply py_require_Ok in H
  end.

(** [bool_prop] turns boolean tests of the code into propositions. *)
Ltac bool_prop :=
  repeat match goal with
  | H : andb _ _ = true |- _ => apply andb_true_iff in H; destruct H
  | H : andb _ _ = false |- _ => apply andb_false_iff in H
  | H : orb _ _ = true |- _ => apply orb_true_iff in H
  | H : orb _ _ = false |- _ => apply orb_false_iff in H; destruct H
  | H : negb _ = true |- _ => apply negb_true_iff in H
  | H : negb _ = false |- _ => apply negb_false_iff in H
  | H : (_ =? _)%Z = true |- _ => apply Z.eqb_eq in H
  | H : (_ =? _)%Z = false |- _ => apply Z.eqb_neq in H
  | H : (_ <? _)%Z = true |- _ => apply Z.ltb_lt in H
  | H : (_ <? _)%Z = false |- _ => apply Z.ltb_ge in H
  | H : (_ <=? _)%Z = true |- _ => apply Z.leb_le in H
  | H : (_ <=? _)%Z = false |- _ => apply Z.leb_gt in H
  | H : (_ =? _)%nat = true |- _ => apply Nat.eqb_eq in H
  | H : (_ =? _)%nat = false |- _ => apply Nat.eqb_neq in H
  | H : bool_decide _ = true |- _ => apply bool_decide_eq_true in H
  | H : bool_decide _ = false |- _ => apply bool_decide_eq_false in H
  end.

(** Sequencing a fallible function over a list ([for x in l: ...] building a
    list). *)
Lemma mapM_res_Ok {A B} (f : A → res B) (l : list A) (k : list B) :
  mapM f l = Ok k ↔ Forall2 (λ x y, f x = Ok y) l k.
Proof.
  revert k; induction l as [|x l IH]; intros k; simpl.
  - split; [intros H; res_inv; constructor | inversion 1; done].
  - split.
    + intros H; res_inv. constructor; [done|]. by apply IH.
    + inversion 1 as [|? y ? k' Hx Hl]; subst. rewrite Hx; simpl.
      apply IH in Hl. by rewrite Hl.
Qed.

Lemma mapM_res_total {A B} (f : A → res B) (g : A → B) (l : list A) :
  (∀ x, x ∈ l → f x = Ok (g x)) → mapM f l = Ok (g <$> l).
Proof.
  intros H. apply mapM_res_Ok, Forall2_fmap_r, Forall_Forall2_diag.
  by apply Forall_forall.
Qed.

Lemma mapM_res_fmap {A B C} (f : B → res C) (g : A → B) (l : list A) :
  mapM f (g <$> l) = mapM (λ x, f (g x)) l.
Proof. induction l as [|x l IH]; [done|]. rewrite fmap_cons. cbn [mapM]. by rewrite IH. Qed.

(** Folding a fallible state transformer over a list ([for x in l: s = f(s, x)]). *)
Fixpoint foldM {S A} (f : S → A → res S) (s : S) (l : list A) : res S :=
  match l with
  | [] => Ok s
  | x :: l => s' ← f s x; foldM f s' l
  end.

Lemma foldM_app {S A} (f : S → A → res S) s l1 l2 :
  foldM f s (l1 ++ l2) = s' ← foldM f s l1; foldM f s' l2.
Proof.
  revert s; induction l1 as [|x l1 IH]; intros s; simpl; [done|].
  destruct (f s x); simpl; [apply IH | done].
Qed.

Lemma foldM_fmap {S A B} (f : S → B → res S) (g : A → B) s (l : list A) :
  foldM f s (g <$> l) = foldM (λ s x, f s (g x)) s l.
Proof.
  revert s; induction l as [|x l IH]; intros s; csimpl; [done|].
  destruct (f s (g x)); simpl; auto.
Qed.

Lemma foldM_ext {S A} (f g : S → A → res S) s l :
  (∀ s x, x ∈ l → f s x = g s x) → foldM f s l = foldM g s l.
Proof.
  revert s; induction l as [|x l IH]; intros s Hfg; simpl; [done|].
  rewrite Hfg by set_solver. destruct (g s x); simpl; [|done].
  apply IH. set_solver.
Qed.

Lemma foldM_concat {S A} (f : S → A → res S) s (ls : list (list A)) :
  foldM f s (concat ls) = foldM (foldM f) s ls.
Proof.
  revert s; induction ls as [|l ls IH]; intros s; simpl; [done|].
  rewrite foldM_app. destruct (foldM f s l); simpl; auto.
Qed.

Lemma foldM_pure {S A} (f : S → A → res S) (g : S → A → S) s l :
  (∀ s x, x ∈ l → f s x = Ok (g s x)) → foldM f s l = Ok (foldl g s l).
Proof.
  revert s; induction l as [|x l IH]; intros s H; simpl; [done|].
  rewrite H by set_solver; simpl. apply IH. set_solver.
Qed.

Lemma foldM_pure_inv {S A} (P : S → Prop) (f : S → A → res S) (g : S → A → S) s l :
  (∀ s x, x ∈ l → P s → f s x = Ok (g s x) ∧ P (g s x)) →
  P s → foldM f s l = Ok (foldl g s l) ∧ P (foldl g s l).
Proof.
  revert s; induction l as [|x l IH]; intros s H Hs; simpl; [done|].
  destruct (H s x) as [-> Hg]; [set_solver|done|]. simpl. apply IH; [|done].
  intros. apply H; [set_solver|done].
Qed.

(** An invariant of the body of a loop is an invariant of the loop. *)
Lemma foldM_inv {S A} (f : S → A → res S) (P : S → Prop) s l s' :
  (∀ s x s', x ∈ l → P s → f s x = Ok s' → P s') →
  P s → foldM f s l = Ok s' → P s'.
Proof.
  revert s; induction l as [|x l IH]; intros s Hf Hs H; simpl in H; res_inv; [done|].
  eapply IH; [| |done]; [|eapply Hf; [|done|done]; set_solver].
  intros ????. apply Hf. set_solver.
Qed.

(** ** Python integers and lists

    A Python [int] is a [Z]; [//] and [%] are [Z.div] and [Z.modulo] (floor
    division, remainder with the divisor's sign) with a zero divisor raising. *)
Open Scope Z_scope.

Definition py_floordiv (a b : Z) : res Z :=
  if b =? 0 then Raise ZeroDivisionError else Ok (a / b).

Definition py_mod (a b : Z) : res Z :=
  if b =? 0 then Raise ZeroDivisionError else Ok (a `mod` b).

Lemma py_floordiv_pos a b : 0 < b → py_floordiv a b = Ok (a / b).
Proof. unfold py_floordiv. destruct (Z.eqb_spec b 0); [lia | done]. Qed.

Lemma py_mod_pos a b : 0 < b → py_mod a b = Ok (a `mod` b).
Proof. unfold py_mod. destruct (Z.eqb_spec b 0); [lia | done]. Qed.

(** [range(a, b)] *)
Definition py_range (a b : Z) : list Z := seqZ a (b - a).

(** [len(l)] *)
Definition len {A} (l : list A) : Z := Z.of_nat (length l).

(** [l[i]]: a negative index counts from the end, any other index out of range
    raises [IndexError]. *)
Definition py_get {A} (l : list A) (i : Z) : res A :=
  let j := if i <? 0 then i + len l else i in
  if j <? 0 then Raise IndexError
  else match l !! Z.to_nat j with Some x => Ok x | None => Raise IndexError end.

(** [l[i] = x] under the same rule. *)
Definition py_set {A} (l : list A) (i : Z) (x : A) : res (list A) :=
  let j := if i <? 0 then i + len l else i in
  if (j <? 0) || (len l <=? j) then Raise IndexError
  else Ok (<[Z.to_nat j := x]> l).

(** [l[a:b]] with bounds that are not negative. *)
Definition py_slice {A} (l : list A) (a b : Z) : list A :=
  take (Z.to_nat b - Z.to_nat a) (drop (Z.to_nat a) l).

(** [d[k]] on a dict. *)
Definition py_lookup {K V} `{Countable K} (d : gmap K V) (k : K) : res V :=
  match d !! k with Some v => Ok v | None => Raise KeyError end.

(** [sum(l)] *)
Fixpoint sumZ (l : list Z) : Z :=
  match l with [] => 0 | x :: l => x + sumZ l end.

(** [np.cumsum([0] + l)]: the running sums, starting with 0. *)
Fixpoint cumsum_from (acc : Z) (l : list Z) : list Z :=
  match l with
  | [] => [acc]
  | x :: l => acc :: cumsum_from (acc + x) l
  end.
Definition cumsum0 (l : list Z) : list Z := cumsum_from 0 l.

Section py_list.
Context {A : Type}.
Implicit Types l : list A.

Lemma len_nonneg l : 0 ≤ len l.
Proof. unfold len; lia. Qed.

Lemma len_app l k : len (l ++ k) = len l + len k.
Proof. unfold len; rewrite length_app; lia. Qed.

Lemma len_cons x l : len (x :: l) = 1 + len l.
Proof. unfold len; simpl; lia. Qed.

Lemma len_fmap {B} (f : A → B) l : len (f <$> l) = len l.
Proof. unfold len; by rewrite length_fmap. Qed.

Lemma py_get_nonneg l i :
  0 ≤ i → py_get l i = match l !! Z.to_nat i with
                       | Some x => Ok x | None => Raise IndexError end.
Proof. intros. unfold py_get. destruct (Z.ltb_spec i 0); [lia|].
  destruct (Z.ltb_spec i 0); [lia | done]. Qed.

Lemma py_get_Ok l i x :
  0 ≤ i → py_get l i = Ok x ↔ l !! Z.to_nat i = Some x.
Proof. intros. rewrite py_get_nonneg by done. destruct (l !! _); naive_solver. Qed.

Lemma py_get_is_Ok l i : 0 ≤ i < len l → ∃ x, l !! Z.to_nat i = Some x ∧ py_get l i = Ok x.
Proof.
  intros Hi. destruct (lookup_lt_is_Some_2 l (Z.to_nat i)) as [x Hx].
  { unfold len in Hi; lia. }
  exists x; split; [done|]. apply py_get_Ok; [lia | done].
Qed.

Lemma py_set_in l i x :
  0 ≤ i < len l → py_set l i x = Ok (<[Z.to_nat i := x]> l).
Proof.
  intros. unfold py_set. destruct (Z.ltb_spec i 0); [lia|].
  destruct (Z.ltb_spec i 0); [lia|]. destruct (Z.leb_spec (len l) i); [lia | done].
Qed.

Lemma py_slice_app_l (l k : list A) : py_slice (l ++ k) 0 (len l) = l.
Proof. unfold py_slice, len. by rewrite Nat2Z.id, Z2Nat.inj_0, Nat.sub_0_r, drop_0, take_app_length. Qed.

(** Where every element of a list has a value. *)
Lemma omap_imap {B} (f : A → option B) (g : nat → B) l :
  (∀ i x, l !! i = Some x → f x = Some (g i)) → omap f l = g <$> seq 0 (length l).
Proof.
  revert g. induction l as [|x l IH]; intros g Hf; [done|]. csimpl.
  rewrite (Hf 0%nat x eq_refl). f_equal. rewrite (IH (g ∘ S)); [|intros i y; apply (Hf (S i))].
  by rewrite <-fmap_S_seq, <-list_fmap_compose.
Qed.

Lemma last_drop (n : nat) l : (n < length l)%nat → last (drop n l) = last l.
Proof. intros Hn. rewrite <-(take_drop n l) at 2. rewrite last_app.
  destruct (last (drop n l)) eqn:E; [done|]. apply last_None in E.
  apply (f_equal length) in E. rewrite length_drop in E. simpl in E. lia. Qed.

Lemma py_slice_0 l n : py_slice l 0 n = take (Z.to_nat n) l.
Proof. unfold py_slice. by rewrite Nat.sub_0_r, drop_0. Qed.

Lemma py_slice_all l : py_slice l 0 (len l) = l.
Proof. rewrite <-(app_nil_r l) at 1. apply py_slice_app_l. Qed.

Lemma lookup_py_slice l a b (i : nat) :
  0 ≤ a ≤ b → Z.of_nat i < b - a → py_slice l a b !! i = l !! (Z.to_nat a + i)%nat.
Proof. intros. unfold py_slice. rewrite lookup_take_lt by lia. by rewrite lookup_drop. Qed.

Lemma len_py_slice l a b :
  0 ≤ a ≤ b → b ≤ len l → len (py_slice l a b) = b - a.
Proof. intros. unfold py_slice, len in *. rewrite length_take, length_drop. lia. Qed.

Lemma py_slice_cat l a b c :
  0 ≤ a ≤ b → b ≤ c → py_slice l a b ++ py_slice l b c = py_slice l a c.
Proof.
  intros. unfold py_slice.
  replace (Z.to_nat b) with (Z.to_nat a + (Z.to_nat b - Z.to_nat a))%nat at 3 by lia.
  rewrite <-drop_drop, take_take_drop. f_equal; lia.
Qed.
End py_list.

Lemma lookup_py_range a b (i : nat) :
  Z.of_nat i < b - a → py_range a b !! i = Some (a + Z.of_nat i).
Proof. intros. apply lookup_seqZ; lia. Qed.

Lemma elem_of_py_range a b x : x ∈ py_range a b ↔ a ≤ x < b.
Proof. unfold py_range. rewrite elem_of_seqZ. lia. Qed.

Lemma length_py_range a b : length (py_range a b) = Z.to_nat (b - a).
Proof. apply length_seqZ. Qed.

Lemma NoDup_py_range a b : NoDup (py_range a b).
Proof. apply NoDup_seqZ. Qed.

Lemma py_range_empty a b : b ≤ a → py_range a b = [].
Proof. intros. unfold py_range. apply seqZ_nil. lia. Qed.

Lemma py_range_app a b c : a ≤ b ≤ c → py_range a b ++ py_range b c = py_range a c.
Proof.
  intros. unfold py_range.
  replace (c - a) with ((b - a) + (c - b)) by lia.
  rewrite seqZ_app by lia. by replace (a + (b - a)) with b by lia.
Qed.

Lemma py_range_snoc a b : a ≤ b → py_range a (b + 1) = py_range a b ++ [b].
Proof.
  intros. rewrite <-(py_range_app a b (b + 1)) by lia. f_equal.
  unfold py_range. by replace (b + 1 - b) with 1 by lia.
Qed.

Lemma py_range_cons a b : a < b → py_range a b = a :: py_range (a + 1) b.
Proof. intros. unfold py_range. rewrite seqZ_cons by lia. f_equal; f_equal; lia. Qed.

Lemma py_range_shift a b c : py_range (a + c) (b + c) = (λ x, x + c) <$> py_range a b.
Proof.
  apply list_eq; intros i. rewrite list_lookup_fmap.
  destruct (decide (Z.of_nat i < b - a)).
  - rewrite !lookup_py_range by lia. simpl. f_equal; lia.
  - rewrite !lookup_ge_None_2; [done| |]; rewrite length_py_range; lia.
Qed.

(** A comprehension over a range depends on the indices of the range only. *)
Lemma py_range_seq (n : nat) : py_range 0 (Z.of_nat n) = Z.of_nat <$> seq 0 n.
Proof.
  apply list_eq. intros i. rewrite list_lookup_fmap. destruct (decide (i < n)%nat).
  - rewrite lookup_py_range, lookup_seq_lt by lia. done.
  - rewrite lookup_seq_ge, lookup_ge_None_2 by (rewrite ?length_py_range; lia). done.
Qed.

Lemma fmap_range_ext {A} (f g : Z → A) a b :
  (∀ x, a ≤ x < b → f x = g x) → f <$> py_range a b = g <$> py_range a b.
Proof.
  intros H. apply list_fmap_ext. intros i x Hx. apply H, elem_of_py_range.
  by apply list_elem_of_lookup_2 with i.
Qed.

Lemma fmap_list_ext {A B} (f g : A → B) (l : list A) :
  (∀ x, x ∈ l → f x = g x) → f <$> l = g <$> l.
Proof.
  intros H. apply list_fmap_ext. intros i x Hx. apply H. by apply list_elem_of_lookup_2 with i.
Qed.

Lemma sumZ_app l k : sumZ (l ++ k) = sumZ l + sumZ k.
Proof. induction l; simpl; lia. Qed.

Lemma sumZ_nonneg l : Forall (λ x, 0 ≤ x) l → 0 ≤ sumZ l.
Proof. induction 1; simpl; lia. Qed.

Lemma sumZ_perm l k : l ≡ₚ k → sumZ l = sumZ k.
Proof. induction 1; simpl; lia. Qed.

Lemma length_cumsum_from acc l : length (cumsum_from acc l) = S (length l).
Proof. revert acc; induction l; intros; simpl; auto. Qed.

(** Entry [i] of the running sums is the sum of the first [i] elements. *)
Lemma lookup_cumsum_from acc l (i : nat) :
  (i ≤ length l)%nat → cumsum_from acc l !! i = Some (acc + sumZ (take i l)).
Proof.
  revert acc i; induction l as [|x l IH]; intros acc i Hi; simpl in *.
  - assert (i = 0%nat) as -> by lia. simpl. f_equal; lia.
  - destruct i as [|i]; simpl; [f_equal; lia|].
    rewrite IH by lia. f_equal; lia.
Qed.

Lemma lookup_cumsum0 l (i : nat) :
  (i ≤ length l)%nat → cumsum0 l !! i = Some (sumZ (take i l)).
Proof. intros. unfold cumsum0. by rewrite lookup_cumsum_from. Qed.

Lemma sumZ_len_concat {A} (ls : list (list A)) : sumZ (len <$> ls) = len (concat ls).
Proof. induction ls as [|l ls IH]; csimpl; [done|]. rewrite len_app. lia. Qed.

Lemma elem_of_concat_fmap {A B} (f : A → list B) (l : list A) (y : B) :
  y ∈ concat (f <$> l) ↔ ∃ x, x ∈ l ∧ y ∈ f x.
Proof. induction l as [|x l IH]; csimpl; set_solver. Qed.

Lemma StronglySorted_weaken {A} (R S : A → A → Prop) (l : list A) :
  (∀ a b, R a b → S a b) → StronglySorted R l → StronglySorted S l.
Proof. intros HRS. induction 1; constructor; [done|]. eapply Forall_impl; eauto. Qed.

Lemma foldl_pointwise {S A} (f g : S → A → S) (s : S) (l : list A) :
  (∀ s x, f s x = g s x) → foldl f s l = foldl g s l.
Proof. intros Hfg. revert s; induction l as [|x l IH]; intros s; simpl; [done|]. by rewrite Hfg. Qed.

Lemma fmap_zip {A B C D} (g : C → D) (f : A → B → C) (l : list A) (k : list B) :
  g <$> zip_with f l k = zip_with (λ x y, g (f x y)) l k.
Proof. revert k; induction l as [|x l IH]; intros [|y k]; csimpl; f_equal; auto. Qed.

Lemma fmap_concat {A B} (g : A → B) (ls : list (list A)) :
  g <$> concat ls = concat (fmap (M := list) g <$> ls).
Proof. induction ls as [|l ls IH]; csimpl; [done|]. by rewrite fmap_app, IH. Qed.

Lemma concat_app_perm {A B} (f g : A → list B) (l : list A) :
  concat ((λ x, f x ++ g x) <$> l) ≡ₚ concat (f <$> l) ++ concat (g <$> l).
Proof.
  induction l as [|x l IH]; csimpl; [done|]. rewrite IH, <-!app_assoc.
  apply Permutation_app_head. rewrite !app_assoc. apply Permutation_app_tail, Permutation_app_comm.
Qed.

(** Gluing lists of equal lengths commutes with pairing them up. *)
Lemma NoDup_concat_fmap {A B} (f : A → list B) (l : list A) :
  NoDup l → (∀ x, x ∈ l → NoDup (f x)) →
  (∀ x y z, x ∈ l → y ∈ l → z ∈ f x → z ∈ f y → x = y) → NoDup (concat (f <$> l)).
Proof.
  induction 1 as [|x l Hx Hl IH]; intros Hnd Hinj; csimpl; [constructor|].
  apply NoDup_app. split; [apply Hnd; left|]. split.
  - intros z Hz (y & Hy & Hzy)%elem_of_concat_fmap. apply Hx.
    rewrite (Hinj x y z); [done|by left|by right|done..].
  - apply IH; [intros; apply Hnd; by right|].
    intros y y' z ??. apply Hinj; by right.
Qed.

Lemma concat_concat_fmap {X A} (f : X → list (list A)) (l : list X) :
  concat (concat (f <$> l)) = concat ((λ x, concat (f x)) <$> l).
Proof. induction l as [|x l IH]; csimpl; [done|]. by rewrite concat_app, IH. Qed.

Lemma zip_concat {X A B} (f : X → list A) (g : X → list B) (l : list X) :
  (∀ x, x ∈ l → length (f x) = length (g x)) →
  zip (concat (f <$> l)) (concat (g <$> l)) = concat ((λ x, zip (f x) (g x)) <$> l).
Proof.
  induction l as [|x l IH]; intros Hl; csimpl; [done|].
  rewrite zip_with_app by (apply Hl; set_solver).
  rewrite IH; [done|]. intros; apply Hl; set_solver.
Qed.

Lemma sumZ_len_fmap {A B} (f : A → list B) (l : list A) :
  sumZ ((λ x, len (f x)) <$> l) = len (concat (f <$> l)).
Proof. rewrite <-sumZ_len_concat, <-list_fmap_compose. done. Qed.

(** Block [i] of a concatenation is found between the running sums [i] and
    [i+1] of the block lengths (the CSR layout). *)
Lemma concat_block {A} (ls : list (list A)) (i : nat) l :
  ls !! i = Some l →
  py_slice (concat ls) (sumZ (len <$> take i ls)) (sumZ (len <$> take (S i) ls)) = l.
Proof.
  intros Hl. rewrite !sumZ_len_concat, (take_S_r _ _ _ Hl), concat_app; simpl.
  rewrite <-(take_drop_middle _ _ _ Hl) at 1. rewrite concat_app; simpl.
  rewrite app_nil_r, len_app. unfold py_slice, len.
  replace (Z.to_nat (Z.of_nat (length (concat (take i ls)))))
    with (length (concat (take i ls))) by lia.
  rewrite drop_app_length.
  replace (Z.to_nat _ - _)%nat with (length l) by lia.
  by rewrite take_app_length.
Qed.

Section filter_extremes.
Context {A : Type} (P : A → Prop) `{!∀ x, Decision (P x)}.

Lemma filter_all (l : list A) : (∀ x, x ∈ l → P x) → filter P l = l.
Proof.
  induction l as [|x l IH]; intros Hl; [done|].
  rewrite filter_cons_True, IH; [done| |]; intros; apply Hl; set_solver.
Qed.

Lemma filter_none (l : list A) : (∀ x, x ∈ l → ¬ P x) → filter P l = [].
Proof.
  induction l as [|x l IH]; intros Hl; [done|].
  rewrite filter_cons_False, IH; [done| |]; intros; apply Hl; set_solver.
Qed.
End filter_extremes.

(** Inserting a list of entries. *)
Section insert_all.
Context {K A : Type} `{Countable K}.

Definition insert_all (m : gmap K A) (l : list (K * A)) : gmap K A :=
  foldl (λ m '(k, v), <[k := v]> m) m l.

Lemma lookup_insert_all_fresh m l k :
  k ∉ l.*1 → insert_all m l !! k = m !! k.
Proof.
  revert m; induction l as [|[k' v'] l IH]; intros m Hk; csimpl in *; [done|].
  rewrite not_elem_of_cons in Hk. destruct Hk as [Hne Hk].
  rewrite IH by done. by rewrite lookup_insert_ne.
Qed.

Lemma lookup_insert_all m l k v :
  NoDup l.*1 → (k, v) ∈ l → insert_all m l !! k = Some v.
Proof.
  revert m; induction l as [|[k' v'] l IH]; intros m Hnd Hin; csimpl in *; [set_solver|].
  apply NoDup_cons in Hnd as [Hk' Hnd].
  apply elem_of_cons in Hin as [[= -> ->]|Hin]; [|by apply IH].
  rewrite lookup_insert_all_fresh by done. by rewrite lookup_insert_eq.
Qed.
End insert_all.

(** [for i, x in enumerate(l)] *)
Definition py_enumerate {A} (l : list A) : list (Z * A) := zip (py_range 0 (len l)) l.

Lemma lookup_enumerate {A} (l : list A) (i : nat) x :
  l !! i = Some x → py_enumerate l !! i = Some (Z.of_nat i, x).
Proof.
  intros Hi. apply lookup_zip_with_Some. eexists _, _. split; [done|]. split; [|done].
  apply lookup_lt_Some in Hi. rewrite lookup_py_range by (unfold len; lia). done.
Qed.

Lemma elem_of_enumerate {A} (l : list A) i x :
  (i, x) ∈ py_enumerate l ↔ 0 ≤ i ∧ l !! Z.to_nat i = Some x.
Proof.
  split.
  - intros (j & (i' & x' & [= -> ->] & Hi & Hx)%lookup_zip_with_Some)%list_elem_of_lookup.
    apply list_elem_of_lookup_2 in Hi as Hr. apply elem_of_py_range in Hr.
    pose proof (lookup_lt_Some _ _ _ Hi) as Hlt. rewrite length_py_range in Hlt.
    rewrite lookup_py_range in Hi by lia. simplify_eq. split; [lia|].
    by replace (Z.to_nat (0 + Z.of_nat j)) with j by lia.
  - intros [Hi Hx]. apply list_elem_of_lookup. exists (Z.to_nat i).
    rewrite (lookup_enumerate _ _ _ Hx). by rewrite Z2Nat.id by lia.
Qed.

Lemma snd_enumerate {A} (l : list A) : (py_enumerate l).*2 = l.
Proof. apply snd_zip. rewrite length_py_range. unfold len. lia. Qed.

Lemma enumerate_snoc {A} (l : list A) x :
  py_enumerate (l ++ [x]) = py_enumerate l ++ [(len l, x)].
Proof.
  unfold py_enumerate. rewrite len_app. change (len [x]) with 1.
  rewrite py_range_snoc by apply len_nonneg. rewrite zip_with_app; [done|].
  rewrite length_py_range. unfold len. lia.
Qed.

(** ** [list.sort(key=...)]

    Python's sort is stable; insertion from the right is the reference
    algorithm. *)
Section stable_sort.
Context {A : Type} (key : A → Z).

Fixpoint insert_key (x : A) (l : list A) : list A :=
  match l with
  | [] => [x]
  | y :: l' => if key x <=? key y then x :: l else y :: insert_key x l'
  end.

Definition sort_key (l : list A) : list A := foldr insert_key [] l.

Lemma insert_key_perm x l : insert_key x l ≡ₚ x :: l.
Proof.
  induction l as [|y l IH]; simpl; [done|].
  destruct (key x <=? key y); [done|]. rewrite IH. apply Permutation_swap.
Qed.

Lemma sort_key_perm l : sort_key l ≡ₚ l.
Proof. induction l as [|x l IH]; simpl; [done|]. by rewrite insert_key_perm, IH. Qed.

Lemma insert_key_sorted x l :
  StronglySorted (λ a b, key a ≤ key b) l →
  StronglySorted (λ a b, key a ≤ key b) (insert_key x l).
Proof.
  induction 1 as [|y l Hl IH Hy]; simpl; [by repeat constructor|].
  destruct (Z.leb_spec (key x) (key y)).
  - constructor; [by constructor|]. constructor; [done|].
    eapply Forall_impl; [done|]. simpl; lia.
  - constructor; [done|]. rewrite insert_key_perm. constructor; [lia | done].
Qed.

Lemma sort_key_sorted l : StronglySorted (λ a b, key a ≤ key b) (sort_key l).
Proof. induction l; simpl; [constructor | by apply insert_key_sorted]. Qed.

Lemma insert_key_stable x l k :
  filter (λ a, key a = k) (insert_key x l) = filter (λ a, key a = k) (x :: l).
Proof.
  induction l as [|y l IH]; simpl; [done|].
  destruct (Z.leb_spec (key x) (key y)); [done|].
  rewrite filter_cons, IH, !filter_cons.
  repeat case_decide; (done || lia).
Qed.

(** Elements with equal keys keep their order. *)
Lemma sort_key_stable l k :
  filter (λ a, key a = k) (sort_key l) = filter (λ a, key a = k) l.
Proof.
  induction l as [|x l IH]; simpl; [done|].
  rewrite insert_key_stable, !filter_cons, IH. done.
Qed.

(** A sorted list is the elements below a threshold, then the others. *)
Lemma sorted_split l t :
  StronglySorted (λ a b, key a ≤ key b) l →
  l = filter (λ a, key a < t) l ++ filter (λ a, ¬ key a < t) l.
Proof.
  induction 1 as [|x l Hl IH Hx]; [done|].
  rewrite !filter_cons. destruct (decide (key x < t)).
  - rewrite decide_False by tauto. simpl. by rewrite <-IH.
  - rewrite decide_True by done. rewrite Forall_forall in Hx.
    rewrite filter_none, filter_all; [done| |]; intros y Hy; specialize (Hx y Hy); lia.
Qed.
End stable_sort.

(** ** State and exceptions

    Code that mutates shared state: a computation takes the state, returns a
    value or raises, and leaves a state behind in both cases (a Python
    exception does not roll anything back). *)
Definition M (S A : Type) : Type := S → res A * S.

#[export] Instance M_ret {S} : MRet (M S) := λ A a s, (Ok a, s).
#[export] Instance M_bind {S} : MBind (M S) := λ A B f m s,
  match m s with
  | (Ok a, s') => f a s'
  | (Raise e, s') => (Raise e, s')
  end.

#[export] Instance M_fmap {S} : FMap (M S) := λ A B f m s,
  match m s with
  | (Ok a, s') => (Ok (f a), s')
  | (Raise e, s') => (Raise e, s')
  end.

Definition raise {S A} (e : exc) : M S A := λ s, (Raise e, s).
Definition get_st {S} : M S S := λ s, (Ok s, s).
Definition gets {S A} (f : S → A) : M S A := λ s, (Ok (f s), s).
Definition modify {S} (f : S → S) : M S unit := λ s, (Ok tt, f s).
Definition lift {S A} (r : res A) : M S A := λ s, (r, s).
Definition when {S} (b : bool) (m : M S unit) : M S unit :=
  if b then m else mret tt.

(** [for x in l: body(x)] *)
Fixpoint for_ {S A} (l : list A) (body : A → M S unit) : M S unit :=
  match l with
  | [] => mret tt
  | x :: l => _ ← body x; for_ l body
  end.

(** [try: m finally: fin]: the finalizer runs on both exits, and an exception
    of its own replaces the pending one. *)
Definition try_finally {S A} (m : M S A) (fin : M S unit) : M S A := λ s,
  let '(r, s1) := m s in
  match fin s1 with
  | (Ok _, s2) => (r, s2)
  | (Raise e, s2) => (Raise e, s2)
  end.

Lemma M_bind_eq {S A B} (m : M S A) (f : A → M S B) s :
  (m ≫= f) s = match m s with (Ok a, s') => f a s' | (Raise e, s') => (Raise e, s') end.
Proof. done. Qed.

Lemma M_bind_Ok {S A B} (m : M S A) (f : A → M S B) s a s' :
  m s = (Ok a, s') → (m ≫= f) s = f a s'.
Proof. intros H. by rewrite M_bind_eq, H. Qed.

Lemma M_bind_Raise {S A B} (m : M S A) (f : A → M S B) s e s' :
  m s = (Raise e, s') → (m ≫= f) s = (Raise e, s').
Proof. intros H. by rewrite M_bind_eq, H. Qed.

Lemma for_pure {S A} (l : list A) (body : A → M S unit) (f : S → A → S) s :
  (∀ x s, x ∈ l → body x s = (Ok tt, f s x)) →
  for_ l body s = (Ok tt, foldl f s l).
Proof.
  revert s; induction l as [|x l IH]; intros s H; [done|]. simpl.
  rewrite (M_bind_Ok _ _ _ tt (f s x)) by (apply H; set_solver).
  apply IH. intros. apply H. set_solver.
Qed.

Lemma for_pure_inv {S A} (P : S → Prop) (l : list A) (body : A → M S unit)
    (f : S → A → S) s :
  (∀ x s, x ∈ l → P s → body x s = (Ok tt, f s x) ∧ P (f s x)) →
  P s → for_ l body s = (Ok tt, foldl f s l) ∧ P (foldl f s l).
Proof.
  revert s; induction l as [|x l IH]; intros s H Hs; [done|]. simpl.
  destruct (H x s) as [Hx HP]; [set_solver|done|].
  rewrite (M_bind_Ok _ _ _ _ _ Hx). apply IH; [|done]. intros. apply H; [set_solver|done].
Qed.

(** An invariant of the loop body holds after the loop, also when the body
    raises. *)
Lemma for_inv {S A} (l : list A) (body : A → M S unit) (P : S → Prop) s :
  (∀ x s, x ∈ l → P s → P (body x s).2) → P s → P (for_ l body s).2.
Proof.
  revert s; induction l as [|x l IH]; intros s H Hs; [done|]. simpl.
  rewrite M_bind_eq. pose proof (H x s ltac:(set_solver) Hs) as Hx.
  destruct (body x s) as [[[]|e] s']; simpl in *; [|done].
  apply IH; [|done]. intros. apply H; [set_solver|done].
Qed.

(** [steps] evaluates the next statements of a stateful computation. *)
Ltac steps :=
  repeat (rewrite M_bind_eq; cbv [mret M_ret raise get_st gets modify lift when]; simpl).

Create HintDb py.
Create Rewrite HintDb py.
#[export] Hint Rewrite @len_app @len_cons @len_fmap : py.
#[export] Hint Resolve len_nonneg NoDup_py_range sort_key_perm sort_key_sorted : py.
