(* ===== verification/Torch.v ===== *)
(** * Interface to the tensor library

    The repository calls PyTorch; its code is not part of the repository, so the
    calls are operations of the classes below, and the classes ending in [Laws]
    state the documented behaviour the repository relies on.  Every theorem
    about code that calls the library is proved for any implementation of these
    interfaces; the concrete implementations at the end of the file are the ones
    the witnesses run. *)
From S2P Require Import Prelude.

(** ** torch.distributed: process groups *)

(** [new_group ranks backend timeout], and the size of a group and the
    caller's place in it ([get_world_size(group=g)], [get_rank(group=g)]); the
    caller is given by its global rank. *)
Class Dist := {
  group : Type;
  new_group : list Z → option string → option Z → group;
  group_world_size : group → Z;
  group_rank : Z → group → Z;
}.

(** A group has the ranks it was created with, numbered in that order. *)
Class DistLaws `{Dist} : Prop := {
  group_world_size_new ranks b t : group_world_size (new_group ranks b t) = len ranks;
  group_rank_new ranks b t (i : nat) r :
    NoDup ranks → ranks !! i = Some r →
    group_rank r (new_group ranks b t) = Z.of_nat i;
}.

(** ** torch.LongTensor: a four-dimensional integer tensor *)

(** [LongTensor(l).reshape(a, b, c, d)], [t[i, j, k, m]] and the index tuples of
    [torch.where(t == x)]. *)
Class LongTensor := {
  ltensor : Type;
  lt_reshape : list Z → Z → Z → Z → Z → res ltensor;
  lt_at : ltensor → Z → Z → Z → Z → Z;
  lt_where_eq : ltensor → Z → list (Z * Z * Z * Z);
}.

(** Row-major layout. *)
Definition row_major (b c d i j k m : Z) : Z := ((i * b + j) * c + k) * d + m.

Definition in_shape (a b c d i j k m : Z) : Prop :=
  0 ≤ i < a ∧ 0 ≤ j < b ∧ 0 ≤ k < c ∧ 0 ≤ m < d.

Class LongTensorLaws `{LongTensor} : Prop := {
  lt_reshape_ok l a b c d :
    0 < a → 0 < b → 0 < c → 0 < d → a * b * c * d = len l →
    ∃ t, lt_reshape l a b c d = Ok t ∧
      (∀ i j k m, in_shape a b c d i j k m →
         l !! Z.to_nat (row_major b c d i j k m) = Some (lt_at t i j k m)) ∧
      (∀ x, NoDup (lt_where_eq t x)) ∧
      (∀ x i j k m, (i, j, k, m) ∈ lt_where_eq t x ↔
         in_shape a b c d i j k m ∧ lt_at t i j k m = x);
}.

(** ** Implementations *)

(** A process group is its list of ranks. *)
#[export] Instance list_dist : Dist := {|
  group := list Z;
  new_group ranks _ _ := ranks;
  group_world_size g := len g;
  group_rank r g := match list_find (λ x, x = r) g with
                    | Some (i, _) => Z.of_nat i | None => -1 end;
|}.

#[export] Instance list_dist_laws : DistLaws.
Proof.
  split; [done|]. intros ranks b t i r Hnd Hi; simpl.
  rewrite (proj2 (list_find_Some (λ x, x = r) ranks i r)); [done|].
  split_and!; [done|done|]. intros j y Hj Hji ->.
  pose proof (NoDup_lookup _ _ _ _ Hnd Hi Hj). lia.
Qed.

(** A tensor is its shape and its elements in row-major order. *)
Definition all_indices (a b c d : Z) : list (Z * Z * Z * Z) :=
  i ← py_range 0 a; j ← py_range 0 b; k ← py_range 0 c; m ← py_range 0 d; [(i, j, k, m)].

Record flat_tensor := { ft_shape : Z * Z * Z * Z; ft_data : list Z }.

Definition ft_at (t : flat_tensor) (i j k m : Z) : Z :=
  let '(a, b, c, d) := ft_shape t in
  default 0 (ft_data t !! Z.to_nat (row_major b c d i j k m)).

#[export] Instance flat_long_tensor : LongTensor := {|
  ltensor := flat_tensor;
  lt_reshape l a b c d :=
    if a * b * c * d =? len l
    then Ok {| ft_shape := (a, b, c, d); ft_data := l |}
    else Raise RuntimeError;
  lt_at := ft_at;
  lt_where_eq t x :=
    let '(a, b, c, d) := ft_shape t in
    filter (λ '(i, j, k, m), ft_at t i j k m = x) (all_indices a b c d);
|}.

Lemma row_major_bounds a b c d i j k m :
  in_shape a b c d i j k m → 0 ≤ row_major b c d i j k m < a * b * c * d.
Proof.
  unfold in_shape, row_major. intros (Hi & Hj & Hk & Hm).
  assert (∀ p q x y, 0 ≤ x < p → 0 ≤ y < q → 0 ≤ x * q + y < p * q) as H by (intros; nia).
  repeat apply H; lia.
Qed.

Lemma elem_of_all_indices a b c d i j k m :
  (i, j, k, m) ∈ all_indices a b c d ↔ in_shape a b c d i j k m.
Proof.
  unfold all_indices, in_shape. repeat setoid_rewrite list_elem_of_bind.
  setoid_rewrite list_elem_of_singleton. setoid_rewrite elem_of_py_range. split.
  - intros (? & (? & (? & (? & [= -> -> -> ->] & ?) & ?) & ?) & ?). done.
  - intros (? & ? & ? & ?). do 4 (eexists; split; [|done]). done.
Qed.

Lemma NoDup_bind_pairs {A B} (l : list A) (f : A → list B) :
  NoDup l → (∀ x, x ∈ l → NoDup (f x)) →
  (∀ x y z, x ∈ l → y ∈ l → z ∈ f x → z ∈ f y → x = y) → NoDup (l ≫= f).
Proof.
  induction 1 as [|x l Hx Hl IH]; intros Hnd Hdisj; csimpl; [constructor|].
  apply NoDup_app; split_and!.
  - apply Hnd. set_solver.
  - intros z Hz (y & Hzy & Hy)%list_elem_of_bind. apply Hx.
    rewrite (Hdisj x y z); [done|set_solver..].
  - apply IH; [set_solver|]. intros. eapply Hdisj; set_solver.
Qed.

Lemma NoDup_all_indices a b c d : NoDup (all_indices a b c d).
Proof.
  unfold all_indices.
  repeat (apply NoDup_bind_pairs; [apply NoDup_py_range|intros ? _|]).
  - apply NoDup_singleton.
  - intros ??? _ _. set_solver.
  - intros ??? _ _. repeat setoid_rewrite list_elem_of_bind. set_solver.
  - intros ??? _ _. repeat setoid_rewrite list_elem_of_bind. set_solver.
  - intros ??? _ _. repeat setoid_rewrite list_elem_of_bind. set_solver.
Qed.

#[export] Instance flat_long_tensor_laws : LongTensorLaws.
Proof.
  split. intros l a b c d Ha Hb Hc Hd Hl.
  exists {| ft_shape := (a, b, c, d); ft_data := l |}. split_and!.
  - simpl. by rewrite (proj2 (Z.eqb_eq _ _) Hl).
  - intros i j k m Hs. simpl. unfold ft_at; simpl.
    destruct (lookup_lt_is_Some_2 l (Z.to_nat (row_major b c d i j k m))) as [x Hx];
      [|by rewrite Hx].
    apply row_major_bounds in Hs. unfold len in Hl. lia.
  - intros x. simpl. apply NoDup_filter, NoDup_all_indices.
  - intros x i j k m. simpl. rewrite list_elem_of_filter, elem_of_all_indices. naive_solver.
Qed.
