(* ===== verification/PyString.v ===== *)
(** * Python strings

    The string methods and the integer parser the code uses, on ASCII strings. *)
From Stdlib Require Import Ascii.
From stdpp Require Import strings pretty.
From S2P Require Import Prelude.

(** [str.lower] and [in] *)
Definition ascii_lower (c : ascii) : ascii :=
  let n := nat_of_ascii c in
  if bool_decide (65 ≤ n ∧ n ≤ 90)%nat then ascii_of_nat (n + 32) else c.
Fixpoint lower (s : string) : string :=
  match s with
  | EmptyString => EmptyString
  | String c s => String (ascii_lower c) (lower s)
  end.
Fixpoint contains (sub s : string) : bool :=
  String.prefix sub s
  || match s with EmptyString => false | String _ s => contains sub s end.

(** [s.split(sep)] *)
Fixpoint split (sep : ascii) (s : string) : list string :=
  match s with
  | EmptyString => [""%string]
  | String c s =>
      if decide (c = sep) then ""%string :: split sep s
      else match split sep s with
           | p :: ps => String c p :: ps
           | [] => [String c EmptyString]
           end
  end.

(** [str.isspace] on a character, and [s.strip()] *)
Definition is_space (c : ascii) : bool :=
  let n := nat_of_ascii c in bool_decide (9 ≤ n ≤ 13 ∨ 28 ≤ n ≤ 32)%nat.
Fixpoint lstrip (s : string) : string :=
  match s with
  | EmptyString => EmptyString
  | String c r => if is_space c then lstrip r else s
  end.
Fixpoint rstrip (s : string) : string :=
  match s with
  | EmptyString => EmptyString
  | String c r => match rstrip r with
                  | EmptyString => if is_space c then EmptyString else String c EmptyString
                  | r => String c r
                  end
  end.
Definition strip (s : string) : string := lstrip (rstrip s).

(** [s.removeprefix(p)] *)
Definition removeprefix (p s : string) : string :=
  if String.prefix p s
  then String.substring (String.length p) (String.length s - String.length p) s else s.

(** [s.endswith(suf)] *)
Definition endswith (suf s : string) : bool :=
  let n := (String.length s - String.length suf)%nat in
  (String.length suf <=? String.length s)%nat
  && String.eqb (String.substring n (String.length suf) s) suf.

(** [os.path.join(a, b)] *)
Definition path_join (a b : string) : string :=
  if String.prefix "/" b then b
  else if String.eqb a "" || endswith "/" a then (a +:+ b)%string else (a +:+ "/" +:+ b)%string.

(** [int(s)]: a sign and decimal digits, single underscores between them, spaces
    around. *)
Definition digit_of (c : ascii) : option Z :=
  let n := nat_of_ascii c in
  if bool_decide (48 ≤ n ≤ 57)%nat then Some (Z.of_nat n - 48) else None.
Fixpoint int_digits (acc : Z) (after_digit : bool) (s : string) : res Z :=
  match s with
  | EmptyString => if after_digit then Ok acc else Raise ValueError
  | String c s =>
      match digit_of c with
      | Some d => int_digits (10 * acc + d) true s
      | None => if bool_decide (c = "_"%char) && after_digit then int_digits acc false s
                else Raise ValueError
      end
  end.
Definition py_int (s : string) : res Z :=
  match strip s with
  | String "-" r => Z.opp <$> int_digits 0 false r
  | String "+" r => int_digits 0 false r
  | r => int_digits 0 false r
  end.

(** ** Lemmas *)

(** [no_char x]: the string does not have the character [x]. *)
Fixpoint no_char (x : ascii) (s : string) : bool :=
  match s with
  | EmptyString => true
  | String c s => bool_decide (c ≠ x) && no_char x s
  end.

Lemma string_cons_app c (a b : string) : (String c a +:+ b = String c (a +:+ b))%string.
Proof. done. Qed.
Lemma string_app_assoc (a b c : string) : ((a +:+ b) +:+ c = a +:+ (b +:+ c))%string.
Proof. induction a as [|x a IH]; [done|]. by rewrite !string_cons_app, IH. Qed.
Lemma string_length_app (a b : string) :
  String.length (a +:+ b) = (String.length a + String.length b)%nat.
Proof. induction a as [|x a IH]; [done|]. rewrite string_cons_app. simpl. by rewrite IH. Qed.

Lemma no_char_app x a b : no_char x (a +:+ b) = no_char x a && no_char x b.
Proof.
  induction a as [|c a IH]; [done|]. rewrite string_cons_app. simpl. by rewrite IH, andb_assoc.
Qed.

(** A string contains the characters of the strings it contains. *)
Lemma prefix_chars x sub s : String.prefix sub s = true → no_char x s = true → no_char x sub = true.
Proof.
  revert s. induction sub as [|c sub IH]; intros [|c' s]; try done. simpl.
  destruct (ascii_dec c c') as [<-|]; [|done]. intros Hp [-> Hs]%andb_prop. simpl. by eapply IH.
Qed.
Lemma contains_chars x sub s : contains sub s = true → no_char x s = true → no_char x sub = true.
Proof.
  induction s as [|c s IH].
  - cbn [contains]. rewrite orb_false_r. apply prefix_chars.
  - cbn [contains]. intros [Hp|Hc]%orb_prop Hs; [by eapply prefix_chars|].
    apply IH; [done|]. simpl in Hs. by apply andb_prop in Hs as [_ Hs].
Qed.

Lemma split_one sep s : no_char sep s = true → split sep s = [s].
Proof.
  induction s as [|c s IH]; [done|]. simpl. intros [Hc Hs]%andb_prop.
  apply bool_decide_eq_true in Hc. rewrite decide_False, IH by done. done.
Qed.

Lemma split_app sep a b :
  no_char sep a = true → split sep (a +:+ String sep b) = a :: split sep b.
Proof.
  induction a as [|c a IH]; [intros _; simpl; by rewrite decide_True|]. rewrite string_cons_app. simpl. intros [Hc Ha]%andb_prop.
  apply bool_decide_eq_true in Hc. rewrite decide_False by done. by rewrite IH.
Qed.

Lemma split_concat sep ps :
  ps ≠ [] → Forall (λ p, no_char sep p = true) ps →
  split sep (String.concat (String sep EmptyString) ps) = ps.
Proof.
  intros Hne Hps. induction Hps as [|p ps Hp _ IH]; [done|]. destruct ps as [|p' ps].
  - by apply split_one.
  - change (String.concat _ (p :: p' :: ps))
      with (p +:+ String sep (String.concat (String sep EmptyString) (p' :: ps)))%string.
    rewrite split_app by done. by rewrite IH.
Qed.

(** *** Numbers *)

Lemma digit_of_pretty (d : N) : (d < 10)%N → digit_of (pretty_N_char d) = Some (Z.of_N d).
Proof.
  intros Hd. assert (d ∈ ((λ n, N.of_nat n) <$> seq 0 10)) as Hin.
  { apply list_elem_of_fmap. exists (N.to_nat d). split; [lia|]. apply elem_of_seq. lia. }
  revert Hin. simpl. rewrite !elem_of_cons, elem_of_nil.
  by intros [->|[->|[->|[->|[->|[->|[->|[->|[->|[->|[]]]]]]]]]]].
Qed.

(** Reading the digits of [x] in front of [s]. *)
Lemma int_digits_go x s :
  (0 < x)%N → ∀ acc b, ∃ k, int_digits acc b (pretty_N_go x s) = int_digits k true s ∧
    (acc = 0 → k = Z.of_N x).
Proof.
  revert s. induction (N.lt_wf_0 x) as [x _ IH]. intros s Hx acc b.
  rewrite pretty_N_go_step by done.
  assert (x mod 10 < 10)%N as Hm by (by apply N.mod_lt). pose proof (N.div_mod x 10 ltac:(done)).
  destruct (decide (x / 10 = 0)%N) as [E|E].
  - rewrite E, pretty_N_go_0. simpl. rewrite digit_of_pretty by done. eexists. split; [done|]. lia.
  - destruct (IH (x / 10)%N ltac:(apply N.div_lt; lia)
      (String (pretty_N_char (x mod 10)) s) ltac:(lia) acc b) as (k & -> & Hk).
    simpl. rewrite digit_of_pretty by done. eexists. split; [done|]. intros H0. rewrite Hk by done. lia.
Qed.

Lemma int_digits_pretty (n : N) : int_digits 0 false (pretty n) = Ok (Z.of_N n).
Proof.
  unfold pretty, pretty_N. case_decide as E; [by subst|].
  destruct (int_digits_go n "" ltac:(lia) 0 false) as (k & -> & Hk). simpl. by rewrite Hk.
Qed.

(** A string of digits is not changed by [strip]. *)
Fixpoint all_digits (s : string) : bool :=
  match s with EmptyString => true | String c s => bool_decide (is_Some (digit_of c)) && all_digits s end.

Lemma digit_no_space c : is_Some (digit_of c) → is_space c = false.
Proof.
  unfold digit_of, is_space. case_bool_decide; [|by intros []]. intros _.
  apply bool_decide_eq_false. lia.
Qed.

Lemma strip_digits s : all_digits s = true → strip s = s.
Proof.
  intros Hs. unfold strip. assert (rstrip s = s) as ->.
  - induction s as [|c s IH]; [done|]. simpl in *. apply andb_prop in Hs as [Hc%bool_decide_eq_true Hs].
    rewrite IH by done. destruct s; [|done]. by rewrite digit_no_space.
  - destruct s as [|c s]; [done|]. simpl in *. apply andb_prop in Hs as [Hc%bool_decide_eq_true _].
    by rewrite digit_no_space.
Qed.

Lemma all_digits_go x s : all_digits s = true → all_digits (pretty_N_go x s) = true.
Proof.
  revert s. induction (N.lt_wf_0 x) as [x _ IH]. intros s Hs.
  destruct (decide (x = 0%N)) as [->|Hx]; [by rewrite pretty_N_go_0|].
  rewrite pretty_N_go_step by lia. apply IH; [by apply N.div_lt; lia|]. simpl.
  rewrite digit_of_pretty by (by apply N.mod_lt). by rewrite bool_decide_true.
Qed.

Lemma all_digits_pretty (n : N) : all_digits (pretty n) = true.
Proof. unfold pretty, pretty_N. case_decide; [done|]. by apply all_digits_go. Qed.

(** [int(str(n)) == n] *)
Lemma py_int_digits s : all_digits s = true → py_int s = int_digits 0 false s.
Proof.
  intros Hs. unfold py_int. rewrite strip_digits by done. destruct s as [|c s]; [done|].
  simpl in Hs. apply andb_prop in Hs as [Hc%bool_decide_eq_true _].
  destruct c as [[] [] [] [] [] [] [] []]; try done; by destruct Hc.
Qed.

Lemma py_int_pretty (n : N) : py_int (pretty n) = Ok (Z.of_N n).
Proof. rewrite py_int_digits by apply all_digits_pretty. apply int_digits_pretty. Qed.

(** The name of a number has digits only. *)
Lemma no_char_pretty_go c x s :
  (∀ y, pretty_N_char y ≠ c) → no_char c s = true → no_char c (pretty_N_go x s) = true.
Proof.
  intros Hc. revert s. induction (N.lt_wf_0 x) as [x _ IH]. intros s Hs.
  destruct (decide (x = 0%N)) as [->|Hx]; [by rewrite pretty_N_go_0|].
  rewrite pretty_N_go_step by lia. apply IH; [by apply N.div_lt; lia|].
  simpl. by rewrite bool_decide_true.
Qed.

Lemma no_char_pretty_N c (i : N) : (∀ y, pretty_N_char y ≠ c) → no_char c (pretty i) = true.
Proof.
  intros Hc. unfold pretty, pretty_N. case_decide.
  - simpl. rewrite bool_decide_true; [done|]. exact (Hc 0%N).
  - by apply no_char_pretty_go.
Qed.
Lemma no_char_pretty c (i : nat) : (∀ y, pretty_N_char y ≠ c) → no_char c (pretty i) = true.
Proof. apply no_char_pretty_N. Qed.

Ltac not_a_digit :=
  let x := fresh "x" in intros x; unfold pretty_N_char;
  repeat match goal with |- context [match ?y with _ => _ end] => destruct y end; done.

(** *** Spaces at the end *)

Fixpoint spaces (s : string) : bool :=
  match s with EmptyString => true | String c s => is_space c && spaces s end.
Fixpoint no_spaces (s : string) : bool :=
  match s with EmptyString => true | String c s => negb (is_space c) && no_spaces s end.

Lemma rstrip_spaces s t : no_spaces s = true → spaces t = true → rstrip (s +:+ t) = s.
Proof.
  intros Hs Ht. assert (rstrip t = ""%string) as E.
  { clear Hs. induction t as [|c t IH]; [done|]. simpl in *. apply andb_prop in Ht as [Hc Ht].
    by rewrite IH, Hc. }
  induction s as [|c s IH]; [done|]. rewrite string_cons_app. simpl in *.
  apply andb_prop in Hs as [Hc%negb_true_iff Hs]. rewrite IH by done. destruct s; [by rewrite Hc|done].
Qed.

Lemma strip_spaces s t : no_spaces s = true → spaces t = true → strip (s +:+ t) = s.
Proof.
  intros Hs Ht. unfold strip. rewrite rstrip_spaces by done. destruct s as [|c s]; [done|].
  simpl in *. by apply andb_prop in Hs as [->%negb_true_iff _].
Qed.

Lemma no_spaces_app a b : no_spaces (a +:+ b) = no_spaces a && no_spaces b.
Proof. induction a as [|c a IH]; [done|]. rewrite string_cons_app. simpl. by rewrite IH, andb_assoc. Qed.

Lemma no_spaces_digits s : all_digits s = true → no_spaces s = true.
Proof.
  induction s as [|c s IH]; [done|]. simpl. intros [Hc%bool_decide_eq_true Hs]%andb_prop.
  by rewrite digit_no_space, IH.
Qed.

Lemma no_spaces_concat sep ps :
  no_spaces sep = true → Forall (λ p, no_spaces p = true) ps → no_spaces (String.concat sep ps) = true.
Proof.
  intros Hsep. induction 1 as [|p ps Hp Hps IH]; [done|]. destruct ps as [|p' ps]; [done|].
  change (String.concat sep (p :: p' :: ps)) with (p +:+ sep +:+ String.concat sep (p' :: ps))%string.
  by rewrite !no_spaces_app, Hp, Hsep, IH.
Qed.

Lemma contains_char x s : contains (String x EmptyString) s = negb (no_char x s).
Proof.
  induction s as [|c s IH]; [done|]. cbn [contains]. rewrite IH. simpl.
  destruct (ascii_dec x c) as [<-|Hne].
  - rewrite bool_decide_false by auto. by destruct s.
  - by rewrite bool_decide_true by auto.
Qed.
