(* ===== verification/ParallelUtils.v ===== *)
(** * Integer helpers of tensor parallelism

    [runtime/worker/llm_worker/models/parallel/utils.py]: divisibility checks
    and the ranges of vocabulary ids owned by the ranks. *)
From S2P Require Import Prelude.

(** [assert numerator % denominator == 0] *)
Definition ensure_divisibility (numerator denominator : Z) : res unit :=
  r ← py_mod numerator denominator; py_assert (r =? 0).

Definition divide_and_check_no_remainder (numerator denominator : Z) : res Z :=
  _ ← ensure_divisibility numerator denominator;
  py_floordiv numerator denominator.

Module VocabUtility.

Definition vocab_range_from_per_partition_vocab_size
    (per_partition_vocab_size rank world_size : Z) : Z * Z :=
  let index_f := rank * per_partition_vocab_size in
  let index_l := index_f + per_partition_vocab_size in
  (index_f, index_l).

Definition vocab_range_from_global_vocab_size
    (global_vocab_size rank world_size : Z) : res (Z * Z) :=
  per_partition_vocab_size ←
    divide_and_check_no_remainder global_vocab_size world_size;
  Ok (vocab_range_from_per_partition_vocab_size
        per_partition_vocab_size rank world_size).

End VocabUtility.

(** ** Lemmas shared with the clients *)

Lemma ensure_divisibility_Ok a b :
  0 < b → ensure_divisibility a b = if a `mod` b =? 0 then Ok tt else Raise AssertionError.
Proof. intros. unfold ensure_divisibility. by rewrite py_mod_pos. Qed.

Lemma ensure_divisibility_mult a b : 0 < b → ensure_divisibility (a * b) b = Ok tt.
Proof. intros. rewrite ensure_divisibility_Ok by done. by rewrite Z.mod_mul by lia. Qed.

Lemma divide_Ok a b q :
  0 < b → divide_and_check_no_remainder a b = Ok q ↔ a = q * b.
Proof.
  intros Hb. unfold divide_and_check_no_remainder.
  rewrite ensure_divisibility_Ok, py_floordiv_pos by done.
  pose proof (Z.div_mod a b ltac:(lia)).
  destruct (Z.eqb_spec (a `mod` b) 0); simpl; split.
  - intros [= <-]. lia.
  - intros ->. by rewrite Z.div_mul by lia.
  - done.
  - intros ->. by rewrite Z.mod_mul in * by lia.
Qed.

Lemma divide_mult q b : 0 < b → divide_and_check_no_remainder (q * b) b = Ok q.
Proof. intros. by apply divide_Ok. Qed.

Lemma divide_error a b :
  0 < b → a `mod` b ≠ 0 → divide_and_check_no_remainder a b = Raise AssertionError.
Proof.
  intros Hb Hr. unfold divide_and_check_no_remainder.
  rewrite ensure_divisibility_Ok by done. by destruct (Z.eqb_spec (a `mod` b) 0).
Qed.

(** The index of the shard an element belongs to. *)
Lemma shard_unique s x r : 0 < s → r * s ≤ x < (r + 1) * s ↔ r = x / s.
Proof.
  intros Hs. pose proof (Z.div_mod x s ltac:(lia)). pose proof (Z.mod_pos_bound x s Hs).
  split; [|intros ->; lia]. intros Hx. nia.
Qed.
