(* ===== verification/ParallelState.v ===== *)
(** * Process groups

    [runtime/worker/llm_worker/models/parallel/initialize.py]: the module-level
    group variables, [initialize_model_parallel], the getters and
    [destroy_model_parallel], for one process.  A name the module never binds at
    its top level ([_DATA_PARALLEL_GROUP_RANKS]) is [None] on the outside until
    the first assignment. *)
From S2P Require Import Prelude Torch ParallelUtils.

Section state.
Context `{Dist} `{LongTensor}.

Record globals := Globals {
  _MODEL_PARALLEL_GROUP : option group;
  _DATA_PARALLEL_GROUP : option group;
  _DATA_PARALLEL_RANKS : option (list Z);
  _DATA_PARALLEL_GROUP_RANKS : option (option (list Z));
  _PIPELINE_PARALLEL_GROUP : option group;
  _PIPELINE_PARALLEL_RANKS : option (list Z);
  _CONTEXT_PARALLEL_GROUP : option group;
  _CONTEXT_PARALLEL_GROUP_RANKS : option (list Z);
}.

(** The module's variables when it has just been imported. *)
Definition module_globals : globals :=
  Globals None None None None None None None None.

(** The state of the process: the variables, and the rank lists it has
    passed to [torch.distributed.new_group], oldest first. *)
Record dist_state := DistState { vars : globals; new_groups : list (list Z) }.

Definition set_vars (f : globals → globals) : M dist_state unit :=
  modify (λ s, DistState (f (vars s)) (new_groups s)).

Definition dist_new_group (ranks : list Z) (backend : option string)
    (timeout : option Z) : M dist_state group := λ s,
  (Ok (new_group ranks backend timeout),
   DistState (vars s) (new_groups s ++ [ranks])).

(** [if ...: _DATA_PARALLEL_GROUP = group; _DATA_PARALLEL_GROUP_RANKS = ranks]
    and its three counterparts. *)
Definition set_data (g : group) (ranks : list Z) (v : globals) : globals :=
  Globals (_MODEL_PARALLEL_GROUP v) (Some g) (_DATA_PARALLEL_RANKS v)
    (Some (Some ranks)) (_PIPELINE_PARALLEL_GROUP v) (_PIPELINE_PARALLEL_RANKS v)
    (_CONTEXT_PARALLEL_GROUP v) (_CONTEXT_PARALLEL_GROUP_RANKS v).
Definition set_model (g : group) (ranks : list Z) (v : globals) : globals :=
  Globals (Some g) (_DATA_PARALLEL_GROUP v) (_DATA_PARALLEL_RANKS v)
    (_DATA_PARALLEL_GROUP_RANKS v) (_PIPELINE_PARALLEL_GROUP v)
    (_PIPELINE_PARALLEL_RANKS v) (_CONTEXT_PARALLEL_GROUP v)
    (_CONTEXT_PARALLEL_GROUP_RANKS v).
Definition set_pipeline (g : group) (ranks : list Z) (v : globals) : globals :=
  Globals (_MODEL_PARALLEL_GROUP v) (_DATA_PARALLEL_GROUP v)
    (_DATA_PARALLEL_RANKS v) (_DATA_PARALLEL_GROUP_RANKS v) (Some g) (Some ranks)
    (_CONTEXT_PARALLEL_GROUP v) (_CONTEXT_PARALLEL_GROUP_RANKS v).
Definition set_context (g : group) (ranks : list Z) (v : globals) : globals :=
  Globals (_MODEL_PARALLEL_GROUP v) (_DATA_PARALLEL_GROUP v)
    (_DATA_PARALLEL_RANKS v) (_DATA_PARALLEL_GROUP_RANKS v)
    (_PIPELINE_PARALLEL_GROUP v) (_PIPELINE_PARALLEL_RANKS v) (Some g) (Some ranks).

(** [for i in range(a): for j in range(b): for k in range(c)] *)
Definition loop3 (a b c : Z) : list (Z * Z * Z) :=
  i ← py_range 0 a; j ← py_range 0 b; k ← py_range 0 c; [(i, j, k)].

(** One of the four group-building loops: [ranks_of] is the slice of [groups]
    read in the body, [mine] the test against [found]. *)
Definition build_groups (a b c : Z) (ranks_of : Z → Z → Z → list Z)
    (mine : Z → Z → Z → bool) (backend : option string) (timeout : option Z)
    (assign : group → list Z → globals → globals) : M dist_state unit :=
  for_ (loop3 a b c) (λ '(i, j, k),
    let ranks := ranks_of i j k in
    g ← dist_new_group ranks backend timeout;
    when (mine i j k) (set_vars (assign g ranks))).

(** [assert all(len(x) == 1 for x in found)], then the single coordinate. *)
Definition unique_coordinate (found : list (Z * Z * Z * Z)) : res (Z * Z * Z * Z) :=
  match found with [c] => Ok c | _ => Raise AssertionError end.

Definition assert_unset {A} (f : globals → option A) : M dist_state unit :=
  v ← gets vars; lift (py_assert (bool_decide (f v = None))).

Definition initialize_model_parallel
    (is_initialized : bool) (world_size rank : Z)
    (model_parallel_size_ pipeline_length context_parallel_size : Z)
    (model_parallel_backend pipeline_backend cp_backend ddp_backend : option string)
    (timeout : option Z) : M dist_state unit :=
  _ ← lift (py_assert is_initialized);
  let model_parallel_size := Z.min model_parallel_size_ world_size in
  _ ← lift (ensure_divisibility world_size model_parallel_size);
  _ ← lift (ensure_divisibility world_size context_parallel_size);
  _ ← lift (ensure_divisibility world_size
              (model_parallel_size * pipeline_length * context_parallel_size));
  (* the float quotient is exact: the division has no remainder *)
  let data_parallel_size :=
    Z.quot world_size
      (model_parallel_size * pipeline_length * context_parallel_size) in
  groups ← lift (lt_reshape (py_range 0 world_size) data_parallel_size
                   pipeline_length context_parallel_size model_parallel_size);
  found ← lift (unique_coordinate (lt_where_eq groups rank));
  let '(found0, found1, found2, found3) := found in
  _ ← assert_unset _DATA_PARALLEL_GROUP;
  _ ← build_groups pipeline_length context_parallel_size model_parallel_size
        (λ i j k, (λ x, lt_at groups x i j k) <$> py_range 0 data_parallel_size)
        (λ i j k, (i =? found1) && (j =? found2) && (k =? found3))
        ddp_backend timeout set_data;
  _ ← assert_unset _MODEL_PARALLEL_GROUP;
  _ ← build_groups data_parallel_size pipeline_length context_parallel_size
        (λ i j k, (λ x, lt_at groups i j k x) <$> py_range 0 model_parallel_size)
        (λ i j k, (i =? found0) && (j =? found1) && (k =? found2))
        model_parallel_backend timeout set_model;
  _ ← assert_unset _PIPELINE_PARALLEL_GROUP;
  _ ← build_groups data_parallel_size context_parallel_size model_parallel_size
        (λ i j k, (λ x, lt_at groups i x j k) <$> py_range 0 pipeline_length)
        (λ i j k, (i =? found0) && (j =? found2) && (k =? found3))
        pipeline_backend timeout set_pipeline;
  _ ← assert_unset _CONTEXT_PARALLEL_GROUP;
  build_groups data_parallel_size pipeline_length model_parallel_size
    (λ i j k, (λ x, lt_at groups i j x k) <$> py_range 0 context_parallel_size)
    (λ i j k, (i =? found0) && (j =? found1) && (k =? found3))
    cp_backend timeout set_context.

Definition model_parallel_is_initialized (v : globals) : bool :=
  negb (bool_decide (_MODEL_PARALLEL_GROUP v = None)
        || bool_decide (_DATA_PARALLEL_GROUP v = None)
        || bool_decide (_PIPELINE_PARALLEL_GROUP v = None)
        || bool_decide (_CONTEXT_PARALLEL_GROUP v = None)).

(** [assert x is not None; return x] *)
Definition get_set {A} (x : option A) : res A :=
  match x with Some a => Ok a | None => Raise AssertionError end.

Definition get_context_parallel_group (v : globals) := get_set (_CONTEXT_PARALLEL_GROUP v).
Definition get_context_parallel_ranks (v : globals) := get_set (_CONTEXT_PARALLEL_GROUP_RANKS v).
Definition get_context_parallel_world_size (v : globals) : res Z :=
  group_world_size <$> get_context_parallel_group v.
Definition get_context_parallel_rank (me : Z) (v : globals) : res Z :=
  group_rank me <$> get_context_parallel_group v.
Definition get_model_parallel_group (v : globals) := get_set (_MODEL_PARALLEL_GROUP v).
Definition get_data_parallel_group (v : globals) := get_set (_DATA_PARALLEL_GROUP v).
Definition get_pipeline_parallel_group (v : globals) := get_set (_PIPELINE_PARALLEL_GROUP v).
Definition get_pipeline_parallel_ranks (v : globals) := get_set (_PIPELINE_PARALLEL_RANKS v).
Definition get_model_parallel_world_size (v : globals) : res Z :=
  group_world_size <$> get_model_parallel_group v.
Definition get_model_parallel_rank (me : Z) (v : globals) : res Z :=
  group_rank me <$> get_model_parallel_group v.
Definition get_model_parallel_src_rank (global_rank : Z) (v : globals) : res Z :=
  local_world_size ← get_model_parallel_world_size v;
  q ← py_floordiv global_rank local_world_size;
  Ok (q * local_world_size).
Definition get_data_parallel_world_size (v : globals) : res Z :=
  group_world_size <$> get_data_parallel_group v.
Definition get_data_parallel_rank (me : Z) (v : globals) : res Z :=
  group_rank me <$> get_data_parallel_group v.

(** Reading the name before any assignment is a [NameError]. *)
Definition get_data_parallel_ranks (v : globals) : res (list Z) :=
  match _DATA_PARALLEL_GROUP_RANKS v with
  | None => Raise NameError
  | Some x => get_set x
  end.

Definition destroy_model_parallel : M dist_state unit :=
  set_vars (λ v, {|
    _MODEL_PARALLEL_GROUP := None;
    _DATA_PARALLEL_GROUP := None;
    _DATA_PARALLEL_RANKS := None;
    _DATA_PARALLEL_GROUP_RANKS := _DATA_PARALLEL_GROUP_RANKS v;
    _PIPELINE_PARALLEL_GROUP := None;
    _PIPELINE_PARALLEL_RANKS := None;
    _CONTEXT_PARALLEL_GROUP := None;
    _CONTEXT_PARALLEL_GROUP_RANKS := None;
  |}).
End state.

(** ** The topology *)

(** The ranks that differ from [rank] only in the coordinate of the given
    [size] whose neighbours are [stride] ranks apart. *)
Definition axis_ranks (rank size stride : Z) : list Z :=
  (λ x, rank - (rank / stride) `mod` size * stride + x * stride) <$> py_range 0 size.

Section axis.
Context (rank size stride : Z).
Hypothesis (Hsize : 0 < size) (Hstride : 0 < stride).

Lemma length_axis_ranks : len (axis_ranks rank size stride) = size.
Proof. unfold axis_ranks. rewrite len_fmap. unfold len. rewrite length_py_range. lia. Qed.

Lemma NoDup_axis_ranks : NoDup (axis_ranks rank size stride).
Proof.
  unfold axis_ranks. apply NoDup_fmap_2_strong; [|apply NoDup_py_range].
  intros x y _ _ Hxy. nia.
Qed.

(** A rank's place in its own group is its coordinate. *)
Lemma axis_ranks_self :
  axis_ranks rank size stride !! Z.to_nat ((rank / stride) `mod` size) = Some rank.
Proof.
  pose proof (Z.mod_pos_bound (rank / stride) size Hsize).
  unfold axis_ranks. rewrite list_lookup_fmap, lookup_py_range by lia. simpl. f_equal. lia.
Qed.
End axis.

(** Neighbours at distance 1: a block of consecutive ranks. *)
Lemma axis_ranks_block rank size :
  axis_ranks rank size 1 = py_range (rank - rank `mod` size) (rank - rank `mod` size + size).
Proof.
  unfold axis_ranks. rewrite Z.div_1_r, (Z.add_comm _ size).
  pose proof (py_range_shift 0 size (rank - rank `mod` size)) as E.
  rewrite Z.add_0_l in E. rewrite E. apply list_fmap_ext. intros. lia.
Qed.

(** Members of a group build the same group. *)
Lemma axis_ranks_agree r r' size stride :
  0 < size → 0 < stride → r' ∈ axis_ranks r size stride →
  axis_ranks r' size stride = axis_ranks r size stride.
Proof.
  intros Hsize Hstride (x & -> & Hx%elem_of_py_range)%list_elem_of_fmap.
  pose proof (Z.div_mod r stride ltac:(lia)) as Hr.
  pose proof (Z.div_mod (r / stride) size ltac:(lia)) as Hq.
  set (c := (r / stride) `mod` size) in *.
  assert ((r - c * stride + x * stride) / stride = r / stride - c + x) as Hdiv.
  { replace (r - c * stride + x * stride) with (r + (x - c) * stride) by ring.
    rewrite Z.div_add by lia. lia. }
  assert ((r / stride - c + x) `mod` size = x) as Hmod.
  { replace (r / stride - c + x) with (x + (r / stride / size) * size) by lia.
    rewrite Z.mod_add by lia. apply Z.mod_small. lia. }
  unfold axis_ranks. fold c. rewrite Hdiv, Hmod.
  apply list_fmap_ext. intros. lia.
Qed.

(** ** [initialize_model_parallel] builds that topology *)

Lemma elem_of_loop3 a b c i j k :
  (i, j, k) ∈ loop3 a b c ↔ 0 ≤ i < a ∧ 0 ≤ j < b ∧ 0 ≤ k < c.
Proof.
  unfold loop3. repeat setoid_rewrite list_elem_of_bind.
  setoid_rewrite list_elem_of_singleton. setoid_rewrite elem_of_py_range. split.
  - intros (? & (? & (? & [= -> -> ->] & ?) & ?) & ?). done.
  - intros (? & ? & ?). do 3 (eexists; split; [|done]). done.
Qed.

Lemma NoDup_loop3 a b c : NoDup (loop3 a b c).
Proof.
  unfold loop3.
  repeat (apply NoDup_bind_pairs; [apply NoDup_py_range|intros ? _|]).
  - apply NoDup_singleton.
  - intros ??? _ _. set_solver.
  - intros ??? _ _. repeat setoid_rewrite list_elem_of_bind. set_solver.
  - intros ??? _ _. repeat setoid_rewrite list_elem_of_bind. set_solver.
Qed.

Section loops.
Context `{Dist} {T : Type} `{EqDecision T} (mine : T → bool) (ranks_of : T → list Z)
  (assign : list Z → globals → globals).

(** One turn of a group-building loop. *)
Definition turn (s : dist_state) (t : T) : dist_state :=
  DistState (if mine t then assign (ranks_of t) (vars s) else vars s)
            (new_groups s ++ [ranks_of t]).

Lemma turns_none l s :
  (∀ t, t ∈ l → mine t = false) →
  foldl turn s l = DistState (vars s) (new_groups s ++ (ranks_of <$> l)).
Proof.
  revert s; induction l as [|t l IH]; intros s Hl; csimpl.
  - rewrite app_nil_r. by destruct s.
  - rewrite IH by set_solver. unfold turn; simpl.
    rewrite Hl by set_solver. by rewrite <-app_assoc.
Qed.

(** Exactly one turn is ours, so the variables are assigned once. *)
Lemma turns_one l t0 s :
  NoDup l → t0 ∈ l → (∀ t, t ∈ l → mine t = true ↔ t = t0) →
  foldl turn s l =
    DistState (assign (ranks_of t0) (vars s)) (new_groups s ++ (ranks_of <$> l)).
Proof.
  revert s; induction l as [|t l IH]; intros s Hnd Ht0 Hl; [set_solver|].
  apply NoDup_cons in Hnd as [Ht Hnd]. csimpl.
  destruct (decide (t = t0)) as [->|Hne].
  - rewrite turns_none.
    + unfold turn; simpl. rewrite (proj2 (Hl t0 ltac:(set_solver)) eq_refl).
      by rewrite <-app_assoc.
    + intros t Htl. destruct (mine t) eqn:E; [|done].
      apply Hl in E; [|set_solver]. set_solver.
  - rewrite IH by (done || set_solver). unfold turn; simpl.
    destruct (mine t) eqn:E; [apply Hl in E; set_solver|].
    by rewrite <-app_assoc.
Qed.
End loops.

Lemma build_groups_one `{Dist} a b c ranks_of i0 j0 k0 be t assign s :
  0 ≤ i0 < a → 0 ≤ j0 < b → 0 ≤ k0 < c →
  build_groups a b c ranks_of (λ i j k, (i =? i0) && (j =? j0) && (k =? k0)) be t assign s
  = (Ok tt,
     DistState (assign (new_group (ranks_of i0 j0 k0) be t) (ranks_of i0 j0 k0) (vars s))
       (new_groups s ++ ((λ '(i, j, k), ranks_of i j k) <$> loop3 a b c))).
Proof.
  intros Hi Hj Hk. unfold build_groups.
  set (mine := λ '(i, j, k), (i =? i0) && (j =? j0) && (k =? k0)).
  set (rk := λ '(i, j, k), ranks_of i j k).
  rewrite (for_pure _ _ (turn mine rk (λ r, assign (new_group r be t) r))).
  - rewrite (turns_one _ _ _ _ (i0, j0, k0)); [done|apply NoDup_loop3| |].
    + by apply elem_of_loop3.
    + intros [[i j] k] _. unfold mine. split; [intros; bool_prop; by subst|].
      intros [= -> -> ->]. by rewrite !Z.eqb_refl.
  - intros [[i j] k] s' _. unfold turn, mine, rk; simpl.
    by destruct ((i =? i0) && (j =? j0) && (k =? k0)).
Qed.

(** Coordinates and ranks determine each other. *)
Lemma row_major_coords a b c d i j k m r :
  0 < a → 0 < b → 0 < c → 0 < d →
  in_shape a b c d i j k m ∧ row_major b c d i j k m = r ↔
  0 ≤ r < a * b * c * d ∧
  i = (r / (b * c * d)) `mod` a ∧ j = (r / (c * d)) `mod` b ∧
  k = (r / d) `mod` c ∧ m = (r / 1) `mod` d.
Proof.
  intros Ha Hb Hc Hd.
  assert (∀ x y q, 0 < q → 0 ≤ y < q → (x * q + y) / q = x ∧ (x * q + y) `mod` q = y) as Hdm.
  { intros x y q Hq Hy. rewrite Z.add_comm, Z.div_add, Z.mod_add by lia.
    rewrite Z.div_small, Z.mod_small by lia. lia. }
  assert (∀ n p q, 0 < p → 0 < q → n / (p * q) = n / q / p) as Hdd.
  { intros. rewrite Z.mul_comm, Zdiv.Zdiv_Zdiv by lia. done. }
  rewrite Z.div_1_r, !Hdd by nia. unfold row_major. split.
  - intros [Hs <-]. pose proof (row_major_bounds a b c d i j k m Hs) as Hr.
    unfold row_major in Hr. destruct Hs as (? & ? & ? & ?). split; [done|].
    destruct (Hdm ((i * b + j) * c + k) m d) as [-> ->]; [done|done|].
    destruct (Hdm (i * b + j) k c) as [-> ->]; [done|done|].
    destruct (Hdm i j b) as [-> ->]; [done|done|].
    by rewrite Z.mod_small.
  - intros (Hr & -> & -> & -> & ->). unfold in_shape.
    rewrite (Z.mod_small (r / d / c / b) a).
    2:{ rewrite <-!Hdd by nia. split; [apply Z.div_pos; nia|].
        apply Z.div_lt_upper_bound; nia. }
    pose proof (Z.div_mod r d ltac:(lia)). pose proof (Z.div_mod (r / d) c ltac:(lia)).
    pose proof (Z.div_mod (r / d / c) b ltac:(lia)).
    split_and!; try apply Z.mod_pos_bound; try lia.
    + rewrite <-!Hdd by nia. apply Z.div_pos; nia.
    + rewrite <-!Hdd by nia. apply Z.div_lt_upper_bound; nia.
Qed.

Lemma singleton_list {A} (l : list A) a : NoDup l → (∀ x, x ∈ l ↔ x = a) → l = [a].
Proof.
  intros Hnd Hl. destruct l as [|x l].
  - exfalso. destruct (Hl a) as [_ Ha]. specialize (Ha eq_refl). set_solver.
  - assert (x = a) as -> by (apply Hl; set_solver). f_equal.
    destruct l as [|y l]; [done|]. assert (y = a) as -> by (apply Hl; set_solver).
    apply NoDup_cons in Hnd as [? _]. set_solver.
Qed.

(** The rank lists passed to [new_group] by the four loops. *)
Definition data_family (dp pp cp mp : Z) : list (list Z) :=
  (λ '(i, j, k), (λ x, row_major pp cp mp x i j k) <$> py_range 0 dp) <$> loop3 pp cp mp.
Definition model_family (dp pp cp mp : Z) : list (list Z) :=
  (λ '(i, j, k), (λ x, row_major pp cp mp i j k x) <$> py_range 0 mp) <$> loop3 dp pp cp.
Definition pipeline_family (dp pp cp mp : Z) : list (list Z) :=
  (λ '(i, j, k), (λ x, row_major pp cp mp i x j k) <$> py_range 0 pp) <$> loop3 dp cp mp.
Definition context_family (dp pp cp mp : Z) : list (list Z) :=
  (λ '(i, j, k), (λ x, row_major pp cp mp i j x k) <$> py_range 0 cp) <$> loop3 dp pp mp.

Section topology.
Context `{DistLaws} `{LongTensorLaws}.
Context (dp pp cp mp rank : Z) (bm bp bc bd : option string) (timeout : option Z).
Hypothesis (Hdp : 0 < dp) (Hpp : 0 < pp) (Hcp : 0 < cp) (Hmp : 0 < mp).
Hypothesis (Hrank : 0 ≤ rank < dp * pp * cp * mp).

(** The variables of rank [rank] after a successful initialization. *)
Definition topology (v : globals) : globals := {|
  _MODEL_PARALLEL_GROUP := Some (new_group (axis_ranks rank mp 1) bm timeout);
  _DATA_PARALLEL_GROUP := Some (new_group (axis_ranks rank dp (pp * cp * mp)) bd timeout);
  _DATA_PARALLEL_RANKS := _DATA_PARALLEL_RANKS v;
  _DATA_PARALLEL_GROUP_RANKS := Some (Some (axis_ranks rank dp (pp * cp * mp)));
  _PIPELINE_PARALLEL_GROUP := Some (new_group (axis_ranks rank pp (cp * mp)) bp timeout);
  _PIPELINE_PARALLEL_RANKS := Some (axis_ranks rank pp (cp * mp));
  _CONTEXT_PARALLEL_GROUP := Some (new_group (axis_ranks rank cp mp) bc timeout);
  _CONTEXT_PARALLEL_GROUP_RANKS := Some (axis_ranks rank cp mp);
|}.

Lemma tensor_entry t i j k m :
  (∀ i j k m, in_shape dp pp cp mp i j k m →
     py_range 0 (dp * pp * cp * mp) !! Z.to_nat (row_major pp cp mp i j k m)
       = Some (lt_at t i j k m)) →
  in_shape dp pp cp mp i j k m → lt_at t i j k m = row_major pp cp mp i j k m.
Proof using Type*.
  intros Ht Hs. specialize (Ht _ _ _ _ Hs).
  pose proof (row_major_bounds _ _ _ _ _ _ _ _ Hs).
  rewrite lookup_py_range in Ht by lia. injection Ht as Ht. lia.
Qed.

(** The checks on the sizes pass and the data-parallel size is [dp]. *)
Lemma sizes_ok :
  Z.min mp (dp * pp * cp * mp) = mp ∧
  ensure_divisibility (dp * pp * cp * mp) mp = Ok tt ∧
  ensure_divisibility (dp * pp * cp * mp) cp = Ok tt ∧
  ensure_divisibility (dp * pp * cp * mp) (mp * pp * cp) = Ok tt ∧
  Z.quot (dp * pp * cp * mp) (mp * pp * cp) = dp.
Proof using Type*.
  assert (0 < dp * pp * cp) as Hpos by (repeat apply Z.mul_pos_pos; done).
  assert (0 < mp * pp * cp) as Hpos' by (repeat apply Z.mul_pos_pos; done).
  split_and!.
  - apply Z.min_l. nia.
  - by apply ensure_divisibility_mult.
  - replace (dp * pp * cp * mp) with (dp * pp * mp * cp) by ring.
    by apply ensure_divisibility_mult.
  - replace (dp * pp * cp * mp) with (dp * (mp * pp * cp)) by ring.
    by apply ensure_divisibility_mult.
  - replace (dp * pp * cp * mp) with (dp * (mp * pp * cp)) by ring.
    apply Z.quot_mul. lia.
Qed.

(** The caller's coordinates. *)
Definition coord_d : Z := (rank / (pp * cp * mp)) `mod` dp.
Definition coord_p : Z := (rank / (cp * mp)) `mod` pp.
Definition coord_c : Z := (rank / mp) `mod` cp.
Definition coord_m : Z := (rank / 1) `mod` mp.

Lemma coords_in_shape :
  in_shape dp pp cp mp coord_d coord_p coord_c coord_m ∧
  row_major pp cp mp coord_d coord_p coord_c coord_m = rank.
Proof using Type*. by apply row_major_coords. Qed.

Lemma found_unique (t : ltensor) :
  NoDup (lt_where_eq t rank) →
  (∀ i j k m, (i, j, k, m) ∈ lt_where_eq t rank ↔
     in_shape dp pp cp mp i j k m ∧ lt_at t i j k m = rank) →
  (∀ i j k m, in_shape dp pp cp mp i j k m →
     lt_at t i j k m = row_major pp cp mp i j k m) →
  unique_coordinate (lt_where_eq t rank) = Ok (coord_d, coord_p, coord_c, coord_m).
Proof using Type*.
  intros Hnd Hin Hat. rewrite (singleton_list _ (coord_d, coord_p, coord_c, coord_m)); [done..|].
  intros [[[i j] k] m]. rewrite Hin. transitivity
    (in_shape dp pp cp mp i j k m ∧ row_major pp cp mp i j k m = rank).
  { split; intros [Hs Heq]; rewrite Hat in * by done; done. }
  rewrite row_major_coords by done. unfold coord_d, coord_p, coord_c, coord_m.
  split; [by intros (_ & -> & -> & -> & ->)|by intros [= -> -> -> ->]].
Qed.

(** The slices of [groups] through the caller's coordinates. *)
Lemma own_slices (t : ltensor) :
  (∀ i j k m, in_shape dp pp cp mp i j k m →
     lt_at t i j k m = row_major pp cp mp i j k m) →
  (λ x, lt_at t x coord_p coord_c coord_m) <$> py_range 0 dp
    = axis_ranks rank dp (pp * cp * mp) ∧
  (λ x, lt_at t coord_d coord_p coord_c x) <$> py_range 0 mp = axis_ranks rank mp 1 ∧
  (λ x, lt_at t coord_d x coord_c coord_m) <$> py_range 0 pp
    = axis_ranks rank pp (cp * mp) ∧
  (λ x, lt_at t coord_d coord_p x coord_m) <$> py_range 0 cp = axis_ranks rank cp mp.
Proof using Type*.
  intros Hat. destruct coords_in_shape as [(? & ? & ? & ?) Hr]. unfold axis_ranks.
  fold coord_d coord_p coord_c coord_m. unfold row_major in *.
  split_and!; apply fmap_range_ext; intros x Hx;
    (rewrite Hat by (unfold in_shape; lia)); lia.
Qed.

(** The slices read by all turns of the loops. *)
Lemma family_slices (t : ltensor) :
  (∀ i j k m, in_shape dp pp cp mp i j k m →
     lt_at t i j k m = row_major pp cp mp i j k m) →
  ((λ '(i, j, k), (λ x, lt_at t x i j k) <$> py_range 0 dp) <$> loop3 pp cp mp)
    = data_family dp pp cp mp ∧
  ((λ '(i, j, k), (λ x, lt_at t i j k x) <$> py_range 0 mp) <$> loop3 dp pp cp)
    = model_family dp pp cp mp ∧
  ((λ '(i, j, k), (λ x, lt_at t i x j k) <$> py_range 0 pp) <$> loop3 dp cp mp)
    = pipeline_family dp pp cp mp ∧
  ((λ '(i, j, k), (λ x, lt_at t i j x k) <$> py_range 0 cp) <$> loop3 dp pp mp)
    = context_family dp pp cp mp.
Proof using Type*.
  intros Hat. split_and!; apply fmap_list_ext; intros [[i j] k] Hs%elem_of_loop3;
    apply fmap_range_ext; intros x Hx; apply Hat; unfold in_shape; lia.
Qed.

Lemma initialize_runs (v : globals) gs :
  _MODEL_PARALLEL_GROUP v = None → _DATA_PARALLEL_GROUP v = None →
  _PIPELINE_PARALLEL_GROUP v = None → _CONTEXT_PARALLEL_GROUP v = None →
  initialize_model_parallel true (dp * pp * cp * mp) rank mp pp cp bm bp bc bd timeout
    (DistState v gs)
  = (Ok tt,
     DistState (topology v)
       (gs ++ data_family dp pp cp mp ++ model_family dp pp cp mp
           ++ pipeline_family dp pp cp mp ++ context_family dp pp cp mp)).
Proof using Type*.
  intros HM HD HP HC. unfold initialize_model_parallel.
  destruct sizes_ok as (-> & E1 & E2 & E3 & ->).
  destruct (lt_reshape_ok (py_range 0 (dp * pp * cp * mp)) dp pp cp mp)
    as (t & E4 & Hat & Hnd & Hwhere); [done..| |].
  { unfold len. rewrite length_py_range. lia. }
  pose proof (λ i j k m, tensor_entry t i j k m Hat) as Hentry.
  pose proof (found_unique t (Hnd rank) (Hwhere rank) Hentry) as E5.
  destruct (own_slices t Hentry) as (S1 & S2 & S3 & S4).
  destruct (family_slices t Hentry) as (F1 & F2 & F3 & F4).
  destruct coords_in_shape as [(? & ? & ? & ?) _].
  unfold lift, assert_unset, gets. rewrite E1, E2, E3, E4.
  repeat (rewrite M_bind_eq; simpl). rewrite E5; simpl.
  repeat (rewrite M_bind_eq; simpl). rewrite HD; simpl.
  rewrite ?M_bind_eq, build_groups_one, S1, F1 by done; simpl.
  repeat (rewrite M_bind_eq; simpl). rewrite HM; simpl.
  rewrite ?M_bind_eq, build_groups_one, S2, F2 by done; simpl.
  repeat (rewrite M_bind_eq; simpl). rewrite HP; simpl.
  rewrite ?M_bind_eq, build_groups_one, S3, F3 by done; simpl.
  repeat (rewrite M_bind_eq; simpl). rewrite HC; simpl.
  rewrite build_groups_one, S4, F4 by done.
  unfold topology, set_context, set_pipeline, set_model, set_data; simpl.
  by rewrite <-!app_assoc.
Qed.

(** With the data-parallel group already set, the first assertion on the
    groups fails before anything is built. *)
Lemma initialize_again (v : globals) gs :
  _DATA_PARALLEL_GROUP v ≠ None →
  initialize_model_parallel true (dp * pp * cp * mp) rank mp pp cp bm bp bc bd timeout
    (DistState v gs) = (Raise AssertionError, DistState v gs).
Proof using Type*.
  intros HD. unfold initialize_model_parallel.
  destruct sizes_ok as (-> & E1 & E2 & E3 & ->).
  destruct (lt_reshape_ok (py_range 0 (dp * pp * cp * mp)) dp pp cp mp)
    as (t & E4 & Hat & Hnd & Hwhere); [done..| |].
  { unfold len. rewrite length_py_range. lia. }
  pose proof (λ i j k m, tensor_entry t i j k m Hat) as Hentry.
  pose proof (found_unique t (Hnd rank) (Hwhere rank) Hentry) as E5.
  unfold lift, assert_unset, gets. rewrite E1, E2, E3, E4.
  repeat (rewrite M_bind_eq; simpl). rewrite E5; simpl.
  repeat (rewrite M_bind_eq; simpl). by rewrite bool_decide_eq_false_2.
Qed.
End topology.

(** ** Each family of groups partitions the ranks *)

(** Listing the ranks of all coordinates, in any order and without repetition,
    lists the ranks of the world. *)
Lemma all_ranks dp pp cp mp (qs : list (Z * Z * Z * Z)) :
  0 < dp → 0 < pp → 0 < cp → 0 < mp → NoDup qs →
  (∀ i j k m, (i, j, k, m) ∈ qs ↔ in_shape dp pp cp mp i j k m) →
  ((λ '(i, j, k, m), row_major pp cp mp i j k m) <$> qs) ≡ₚ py_range 0 (dp * pp * cp * mp).
Proof.
  intros Hdp Hpp Hcp Hmp Hnd Hqs. apply NoDup_Permutation; [|apply NoDup_py_range|].
  - apply NoDup_fmap_2_strong; [|done]. intros [[[i j] k] m] [[[i' j'] k'] m'].
    rewrite !Hqs. intros Hs Hs' Heq.
    destruct (proj1 (row_major_coords dp pp cp mp i j k m _ Hdp Hpp Hcp Hmp) (conj Hs eq_refl))
      as (_ & E1 & E2 & E3 & E4).
    destruct (proj1 (row_major_coords dp pp cp mp i' j' k' m' _ Hdp Hpp Hcp Hmp) (conj Hs' eq_refl))
      as (_ & E1' & E2' & E3' & E4'). congruence.
  - intros r. rewrite list_elem_of_fmap, elem_of_py_range. split.
    + intros ([[[i j] k] m] & -> & Hs%Hqs). by apply row_major_bounds.
    + intros Hr. eexists (_, _, _, _). rewrite Hqs, (and_comm (_ = _)), (eq_comm r).
      apply row_major_coords; [done..|]. split; [done|]. split_and!; reflexivity.
Qed.

Lemma concat_fmap_bind {A B} (f : A → list B) (l : list A) : concat (f <$> l) = l ≫= f.
Proof. induction l; csimpl; [done|]. by f_equal. Qed.

(** The coordinates visited by a loop nest and the slice read in its body. *)
Lemma family_partition dp pp cp mp a b c n (q : Z * Z * Z → Z → Z * Z * Z * Z) (F : list (list Z)) :
  0 < dp → 0 < pp → 0 < cp → 0 < mp →
  F = ((λ t, (λ x, let '(i, j, k, m) := q t x in row_major pp cp mp i j k m)
               <$> py_range 0 n) <$> loop3 a b c) →
  (∀ t t' x x', q t x = q t' x' → t = t' ∧ x = x') →
  (∀ i j k m, in_shape dp pp cp mp i j k m ↔
     ∃ t x, (i, j, k, m) = q t x ∧ t ∈ loop3 a b c ∧ 0 ≤ x < n) →
  concat F ≡ₚ py_range 0 (dp * pp * cp * mp).
Proof.
  intros Hdp Hpp Hcp Hmp -> Hinj Hshape.
  rewrite <-(all_ranks dp pp cp mp (loop3 a b c ≫= λ t, q t <$> py_range 0 n)); [|done..| |].
  - rewrite concat_fmap_bind. generalize (loop3 a b c). intros l.
    induction l as [|t l IH]; csimpl; [done|].
    rewrite fmap_app, IH. apply Permutation_app_tail. rewrite <-list_fmap_compose.
    apply reflexive_eq, list_fmap_ext. intros ? x _. simpl. by destruct (q t x) as [[[??]?]?].
  - apply NoDup_bind_pairs; [apply NoDup_loop3| |].
    + intros t _. apply NoDup_fmap_2_strong; [|apply NoDup_py_range].
      intros x y _ _ E. by apply Hinj in E as [_ ?].
    + intros t t' z _ _ (x & -> & _)%list_elem_of_fmap (x' & E & _)%list_elem_of_fmap.
      by apply Hinj in E as [? _].
  - intros i j k m. rewrite Hshape, list_elem_of_bind. split.
    + intros (t & (x & E & Hx%elem_of_py_range)%list_elem_of_fmap & Ht). by exists t, x.
    + intros (t & x & E & Ht & Hx). exists t. split; [|done].
      apply list_elem_of_fmap. exists x. by rewrite elem_of_py_range.
Qed.

Ltac solve_family dp pp cp mp a b c n q :=
  apply (family_partition dp pp cp mp a b c n q); [done..| | |];
  [ apply list_fmap_ext; by intros ? [[? ?] ?] _
  | intros [[? ?] ?] [[? ?] ?] ? ?; naive_solver
  | intros; unfold in_shape; split;
    [ intros; eexists (_, _, _), _; rewrite elem_of_loop3; naive_solver
    | intros ([[? ?] ?] & ? & [= -> -> -> ->] & ?%elem_of_loop3 & ?); naive_solver ] ].

Lemma families_partition dp pp cp mp :
  0 < dp → 0 < pp → 0 < cp → 0 < mp →
  Forall (λ F, concat F ≡ₚ py_range 0 (dp * pp * cp * mp))
    [data_family dp pp cp mp; model_family dp pp cp mp;
     pipeline_family dp pp cp mp; context_family dp pp cp mp].
Proof.
  intros Hdp Hpp Hcp Hmp. repeat constructor.
  - solve_family dp pp cp mp pp cp mp dp (λ (t : Z * Z * Z) (x : Z), let '(i, j, k) := t in (x, i, j, k)).
  - solve_family dp pp cp mp dp pp cp mp (λ (t : Z * Z * Z) (x : Z), let '(i, j, k) := t in (i, j, k, x)).
  - solve_family dp pp cp mp dp cp mp pp (λ (t : Z * Z * Z) (x : Z), let '(i, j, k) := t in (i, x, j, k)).
  - solve_family dp pp cp mp dp pp mp cp (λ (t : Z * Z * Z) (x : Z), let '(i, j, k) := t in (i, j, x, k)).
Qed.

(** ** Properties *)

Section properties.
Context `{DistLaws} `{LongTensorLaws}.

(** What a process sees through the getters once the groups are built. *)
Lemma getters_of_topology dp pp cp mp rank bm bp bc bd t v :
  0 < dp → 0 < pp → 0 < cp → 0 < mp →
  let v' := topology dp pp cp mp rank bm bp bc bd t v in
  get_model_parallel_world_size v' = Ok mp ∧
  get_model_parallel_rank rank v' = Ok (rank `mod` mp) ∧
  get_data_parallel_world_size v' = Ok dp ∧
  get_data_parallel_rank rank v' = Ok ((rank / (pp * cp * mp)) `mod` dp) ∧
  get_context_parallel_world_size v' = Ok cp ∧
  get_context_parallel_rank rank v' = Ok ((rank / mp) `mod` cp).
Proof.
  intros Hdp Hpp Hcp Hmp v'.
  assert (0 < pp * cp * mp) by (repeat apply Z.mul_pos_pos; done).
  assert (∀ size stride b, 0 < size → 0 < stride →
    group_world_size (new_group (axis_ranks rank size stride) b t) = size ∧
    group_rank rank (new_group (axis_ranks rank size stride) b t)
      = (rank / stride) `mod` size) as Haxis.
  { intros size stride b Hsz Hst. rewrite group_world_size_new, length_axis_ranks by done.
    pose proof (Z.mod_pos_bound (rank / stride) size Hsz).
    split; [done|].
    rewrite (group_rank_new _ _ _ (Z.to_nat ((rank / stride) `mod` size)));
      [lia | by apply NoDup_axis_ranks | by apply axis_ranks_self]. }
  split_and!; apply (f_equal Ok); try (apply Haxis; done).
  destruct (Haxis mp 1 bm) as [_ ->]; [done..|]. by rewrite Z.div_1_r.
Qed.


(** C29: the sequence of [new_group] calls is the same on every rank (the
    collective call order the library requires), and each of the four
    families of rank lists covers every rank of the world exactly once. *)
Theorem initialize_model_parallel_collective dp pp cp mp bm bp bc bd t :
  0 < dp → 0 < pp → 0 < cp → 0 < mp →
  ∃ data model pipeline context : list (list Z),
    Forall (λ F, concat F ≡ₚ py_range 0 (dp * pp * cp * mp))
      [data; model; pipeline; context] ∧
    ∀ rank, 0 ≤ rank < dp * pp * cp * mp →
      ∃ v', initialize_model_parallel true (dp * pp * cp * mp) rank mp pp cp
              bm bp bc bd t (DistState module_globals [])
            = (Ok tt, DistState v' (data ++ model ++ pipeline ++ context)).
Proof.
  intros Hdp Hpp Hcp Hmp. eexists _, _, _, _. split; [by apply families_partition|].
  intros rank Hr. eexists. by apply initialize_runs.
Qed.

(** A second initialization raises [AssertionError] and changes
    nothing; after [destroy_model_parallel] the groups read as unset and
    initialization succeeds again. *)
Theorem reinitialize_requires_destroy dp pp cp mp rank bm bp bc bd t v gs :
  0 < dp → 0 < pp → 0 < cp → 0 < mp → 0 ≤ rank < dp * pp * cp * mp →
  _MODEL_PARALLEL_GROUP v = None → _DATA_PARALLEL_GROUP v = None →
  _PIPELINE_PARALLEL_GROUP v = None → _CONTEXT_PARALLEL_GROUP v = None →
  _DATA_PARALLEL_RANKS v = None →
  let init := initialize_model_parallel true (dp * pp * cp * mp) rank mp pp cp
                bm bp bc bd t in
  let s1 := (init (DistState v gs)).2 in
  let s2 := (destroy_model_parallel s1).2 in
  init s1 = (Raise AssertionError, s1) ∧
  model_parallel_is_initialized (vars s2) = false ∧
  get_model_parallel_group (vars s2) = Raise AssertionError ∧
  (init s2).1 = Ok tt ∧ vars (init s2).2 = vars s1.
Proof.
  intros Hdp Hpp Hcp Hmp Hr HM HD HP HC HR init s1 s2.
  assert (s1 = DistState (topology dp pp cp mp rank bm bp bc bd t v) (new_groups s1)) as E1.
  { unfold s1, init. by rewrite initialize_runs. }
  split_and!.
  - rewrite E1. by apply initialize_again.
  - done.
  - done.
  - unfold s2, init. rewrite E1. unfold destroy_model_parallel, set_vars, modify; simpl.
    by rewrite initialize_runs.
  - unfold s2, init. rewrite E1. unfold destroy_model_parallel, set_vars, modify; simpl.
    rewrite initialize_runs by done. unfold topology; simpl. by rewrite HR.
Qed.

(** A model-parallel size that does not divide the world size is an
    [AssertionError] before any group is created. *)
Theorem indivisible_world_rejected world_size rank size pp cp bm bp bc bd t s :
  0 < size < world_size → world_size `mod` size ≠ 0 →
  initialize_model_parallel true world_size rank size pp cp bm bp bc bd t s
    = (Raise AssertionError, s).
Proof.
  intros Hsize Hmod. unfold initialize_model_parallel, lift.
  rewrite Z.min_l, (ensure_divisibility_Ok world_size size) by lia.
  destruct (Z.eqb_spec (world_size `mod` size) 0); done.
Qed.

(** [destroy_model_parallel] leaves the data-parallel rank list behind
    (it resets [_DATA_PARALLEL_RANKS], a name nothing reads): afterwards
    [get_data_parallel_ranks] still returns the old list where the other
    getters raise; before the first initialization the same getter is a
    [NameError] where the other getters are an [AssertionError]. *)
Theorem data_parallel_ranks_survive_destroy s r :
  _DATA_PARALLEL_GROUP_RANKS (vars s) = Some (Some r) →
  let v := vars (destroy_model_parallel s).2 in
  get_data_parallel_ranks v = Ok r ∧
  get_data_parallel_group v = Raise AssertionError ∧
  get_pipeline_parallel_ranks v = Raise AssertionError ∧
  get_context_parallel_ranks v = Raise AssertionError ∧
  get_data_parallel_ranks module_globals = Raise NameError ∧
  get_context_parallel_ranks module_globals = Raise AssertionError.
Proof.
  intros Hr v. unfold get_data_parallel_ranks, v, destroy_model_parallel, set_vars; simpl.
  by rewrite Hr.
Qed.
End properties.

(** ** Witnesses *)


Example initialize_model_parallel_collective_witness :
  0 < 2 ∧ ∃ data model pipeline context : list (list Z),
    Forall (λ F, concat F ≡ₚ py_range 0 (1 * 1 * 1 * 2)) [data; model; pipeline; context] ∧
    ∀ rank, 0 ≤ rank < 1 * 1 * 1 * 2 →
      ∃ v', initialize_model_parallel true (1 * 1 * 1 * 2) rank 2 1 1 None None None None None
              (DistState module_globals [])
            = (Ok tt, DistState v' (data ++ model ++ pipeline ++ context)).
Proof. split; [lia|]. apply initialize_model_parallel_collective; lia. Defined.

Example reinitialize_requires_destroy_witness :
  let init := initialize_model_parallel true (1 * 1 * 1 * 2) 1 2 1 1 None None None None None in
  let s1 := (init (DistState module_globals [])).2 in
  init s1 = (Raise AssertionError, s1) ∧ (init (destroy_model_parallel s1).2).1 = Ok tt.
Proof.
  pose proof (reinitialize_requires_destroy 1 1 1 2 1 None None None None None
    module_globals [] ltac:(lia) ltac:(lia) ltac:(lia) ltac:(lia) ltac:(lia)
    eq_refl eq_refl eq_refl eq_refl eq_refl) as (E & _ & _ & E' & _).
  split; [exact E|exact E'].
Defined.

Example indivisible_world_rejected_witness :
  initialize_model_parallel true 6 0 4 1 1 None None None None None
    (DistState module_globals []) = (Raise AssertionError, DistState module_globals []).
Proof. apply indivisible_world_rejected; [lia|]. vm_compute. discriminate. Defined.

Example data_parallel_ranks_survive_destroy_witness :
  let s := (initialize_model_parallel true 4 1 2 1 1 None None None None None
              (DistState module_globals [])).2 in
  _DATA_PARALLEL_GROUP_RANKS (vars s) = Some (Some [1; 3]) ∧
  get_data_parallel_ranks (vars (destroy_model_parallel s).2) = Ok [1; 3].
Proof.
  split; [vm_compute; reflexivity|].
  refine (proj1 (data_parallel_ranks_survive_destroy _ [1; 3] _)). vm_compute. reflexivity.
Defined.
