(* ===== verification/RngTracker.v ===== *)
(** * Generator states

    [models/parallel/random.py]: the tracker of the CUDA generator states and
    activation checkpointing.  The tracker's dictionaries are objects that
    [set_states] and the contexts of checkpoints share, so the model has a store
    of dictionaries. *)
From stdpp Require Import strings gmap.
From S2P Require Import Prelude Torch ParallelUtils ParallelState.

(** ** The world of the generators *)

Section rng.
(** [G]: the states of a generator; [seeded]: the state [manual_seed] sets. *)
Context {G : Type} (seeded : Z → G).

Record world := World {
  current_device : Z;
  default_generators : list G;     (* one per device *)
  cpu_generator : G;
  dicts : gmap nat (gmap string G);  (* the dictionaries, by identity *)
  states_ : nat;                   (* of the tracker *)
  seeds_ : gset Z;
}.
Definition set_generators (gs : list G) (w : world) : world :=
  World (current_device w) gs (cpu_generator w) (dicts w) (states_ w) (seeds_ w).
Definition set_cpu (g : G) (w : world) : world :=
  World (current_device w) (default_generators w) g (dicts w) (states_ w) (seeds_ w).
Definition set_dicts (ds : gmap nat (gmap string G)) (w : world) : world :=
  World (current_device w) (default_generators w) (cpu_generator w) ds (states_ w) (seeds_ w).
Definition set_tracker (l : nat) (w : world) : world :=
  World (current_device w) (default_generators w) (cpu_generator w) (dicts w) l (seeds_ w).
Definition set_seeds (s : gset Z) (w : world) : world :=
  World (current_device w) (default_generators w) (cpu_generator w) (dicts w) (states_ w) s.

(** [self.states_] *)
Definition tracked (w : world) : gmap string G := default ∅ (dicts w !! states_ w).

(** A new dictionary. *)
Definition new_dict (d : gmap string G) : M world nat := λ w,
  let l := fresh (dom (dicts w)) in (Ok l, set_dicts (<[l := d]> (dicts w)) w).

(** [torch.cuda]: of the current device.  CUDA is initialized when these run:
    each use is preceded by a call that initializes it. *)
Definition get_rng_state : M world G :=
  w ← get_st; lift (py_get (default_generators w) (current_device w)).
Definition manual_seed (seed : Z) : M world unit :=
  w ← get_st;
  gs ← lift (py_set (default_generators w) (current_device w) (seeded seed));
  modify (set_generators gs).

(** The argument [device]: an integer, or a string or device with its index. *)
Inductive device := DeviceInt (i : Z) | DeviceIndex (index : option Z).

(** [torch.device("cuda", i)] refuses a negative number. *)
Definition device_index (d : device) : res (option Z) :=
  match d with
  | DeviceInt i => if i =? -1 then Ok None
                   else _ ← py_require (0 <=? i) RuntimeError; Ok (Some i)
  | DeviceIndex index => Ok index
  end.

Definition _set_cuda_rng_state (new_state : G) (device : device) : M world unit :=
  index ← lift (device_index device);
  w ← get_st;
  let idx := default (current_device w) index in
  gs ← lift (py_set (default_generators w) idx new_state);
  modify (set_generators gs).

(** ** CudaRNGStatesTracker *)

Definition reset : M world unit :=
  l ← new_dict ∅; _ ← modify (set_tracker l); modify (set_seeds ∅).

Definition get_states : M world nat :=
  w ← get_st;
  new_dict (foldr (λ '(name, s) states, <[name := s]> states) ∅ (map_to_list (tracked w))).

Definition set_states (states : nat) : M world unit := modify (set_tracker states).

(** [self.states_[name] = state] *)
Definition track (name : string) (state : G) : M world unit :=
  modify (λ w, set_dicts (<[states_ w := <[name := state]> (tracked w)]> (dicts w)) w).

Definition add (name : string) (seed : Z) : M world unit :=
  w ← get_st;
  if bool_decide (seed ∈ seeds_ w) then raise PlainException
  else
    _ ← modify (set_seeds ({[seed]} ∪ seeds_ w));
    if bool_decide (is_Some (tracked w !! name)) then raise PlainException
    else
      orig_rng_state ← get_rng_state;
      _ ← manual_seed seed;
      new_state ← get_rng_state;
      _ ← track name new_state;
      _set_cuda_rng_state orig_rng_state (DeviceInt (-1)).

(** [with tracker.fork(name): body] *)
Definition fork {A} (name : string) (body : M world A) : M world A :=
  w ← get_st;
  match tracked w !! name with
  | None => raise PlainException
  | Some state =>
      orig_cuda_rng_state ← get_rng_state;
      _ ← _set_cuda_rng_state state (DeviceInt (-1));
      try_finally body
        (state ← get_rng_state;
         _ ← track name state;
         _set_cuda_rng_state orig_cuda_rng_state (DeviceInt (-1)))
  end.

Definition _MODEL_PARALLEL_RNG_TRACKER_NAME : string := "model-parallel-rng".

(** On the process of rank [me] with the groups [v]; the message the process of
    rank 0 prints reads both ranks. *)
Definition model_parallel_cuda_manual_seed `{Dist} (me : Z) (v : globals) (is_available : bool)
    (seed : Z) : M world unit :=
  let offset := seed + 2718 in
  rank ← lift (get_model_parallel_rank me v);
  let model_parallel_seed := offset + rank in
  let data_parallel_seed := seed in
  _ ← (if me =? 0 then lift (get_data_parallel_rank me v ≫= λ _, Ok tt) else mret tt);
  when is_available
    (_ ← reset;
     _ ← manual_seed data_parallel_seed;
     add _MODEL_PARALLEL_RNG_TRACKER_NAME model_parallel_seed).

(** ** CheckpointFunction *)

Section checkpoint.
Context {A B : Type}.

(** The attributes of [ctx]; [run_function] is an argument below. *)
Record context := Context_ {
  fwd_cpu_rng_state : G;
  fwd_cuda_rng_state : G;
  fwd_cuda_rng_state_tracker : nat;
  saved_tensors : A;
}.

Definition checkpoint_forward (run_function : A → M world B) (args : A) : M world (context * B) :=
  w ← get_st;
  cuda ← get_rng_state;
  tracker ← get_states;
  outputs ← run_function args;
  mret (Context_ (cpu_generator w) cuda tracker args, outputs).

(** Up to the outputs whose gradients [torch.autograd.backward] computes. *)
Definition checkpoint_backward (run_function : A → M world B) (valid : bool) (ctx : context)
    : M world B :=
  _ ← lift (py_require valid RuntimeError);
  w ← get_st;
  let bwd_cpu_rng_state := cpu_generator w in
  bwd_cuda_rng_state ← get_rng_state;
  bwd_cuda_rng_state_tracker ← get_states;
  _ ← modify (set_cpu (fwd_cpu_rng_state ctx));
  _ ← _set_cuda_rng_state (fwd_cuda_rng_state ctx) (DeviceInt (-1));
  _ ← set_states (fwd_cuda_rng_state_tracker ctx);
  outputs ← run_function (saved_tensors ctx);
  _ ← modify (set_cpu bwd_cpu_rng_state);
  _ ← _set_cuda_rng_state bwd_cuda_rng_state (DeviceInt (-1));
  _ ← set_states bwd_cuda_rng_state_tracker;
  mret outputs.
End checkpoint.

(** ** Programs that draw random numbers *)

Section programs.
Context {V : Type} (draw : G → V * G).

(** What the code between [with] statements does to the generators. *)
Inductive prog :=
  | Ret (x : V)
  | Throw (e : exc)
  | Draw (k : V → prog)
  | DrawCpu (k : V → prog)
  | Fork (name : string) (p : prog) (k : V → prog).

Definition draw_cuda : M world V :=
  g ← get_rng_state;
  w ← get_st;
  gs ← lift (py_set (default_generators w) (current_device w) (draw g).2);
  _ ← modify (set_generators gs);
  mret (draw g).1.
Definition draw_cpu : M world V := λ w,
  (Ok (draw (cpu_generator w)).1, set_cpu (draw (cpu_generator w)).2 w).

Fixpoint run (p : prog) : M world V :=
  match p with
  | Ret x => mret x
  | Throw e => raise e
  | Draw k => x ← draw_cuda; run (k x)
  | DrawCpu k => x ← draw_cpu; run (k x)
  | Fork name p k => x ← fork name (run p); run (k x)
  end.
End programs.
End rng.
Arguments world : clear implicits.
Arguments context : clear implicits.
Arguments prog : clear implicits.

(** ** The abstract view

    The current device's generator, that of the CPU, and the tracked states as
    values: what programs can observe. *)
Section view.
Context {G V : Type} (seeded : Z → G) (draw : G → V * G).
Notation world := (world G).
Notation prog := (prog V).

Record view := View { v_cuda : G; v_cpu : G; v_states : gmap string G }.
Definition with_cuda (g : G) (v : view) : view := View g (v_cpu v) (v_states v).
Definition with_state (name : string) (g : G) (v : view) : view :=
  View (v_cuda v) (v_cpu v) (<[name := g]> (v_states v)).

(** [sees w v]: the current device exists, the tracker has a dictionary, and
    the view is [v]. *)
Record sees (w : world) (v : view) : Prop := {
  see_device : 0 ≤ current_device w;
  see_cuda : default_generators w !! Z.to_nat (current_device w) = Some (v_cuda v);
  see_cpu : cpu_generator w = v_cpu v;
  see_states : dicts w !! states_ w = Some (v_states v);
}.

(** The world with another view. *)
Definition put (v : view) (w : world) : world := {|
  current_device := current_device w;
  default_generators := <[Z.to_nat (current_device w) := v_cuda v]> (default_generators w);
  cpu_generator := v_cpu v;
  dicts := <[states_ w := v_states v]> (dicts w);
  states_ := states_ w;
  seeds_ := seeds_ w |}.

(** Programs on views. *)
Fixpoint eval (p : prog) (v : view) : res V * view :=
  match p with
  | Ret x => (Ok x, v)
  | Throw e => (Raise e, v)
  | Draw k => eval (k (draw (v_cuda v)).1) (with_cuda (draw (v_cuda v)).2 v)
  | DrawCpu k => eval (k (draw (v_cpu v)).1) (View (v_cuda v) (draw (v_cpu v)).2 (v_states v))
  | Fork name p k =>
      match v_states v !! name with
      | None => (Raise PlainException, v)
      | Some s =>
          let '(r, v') := eval p (with_cuda s v) in
          let v'' := with_cuda (v_cuda v) (with_state name (v_cuda v') v') in
          match r with Ok x => eval (k x) v'' | Raise e => (Raise e, v'') end
      end
  end.

(** A computation that acts on the view only. *)
Definition acts {A} (m : M world A) (f : view → res A * view) : Prop :=
  ∀ w v, sees w v → m w = ((f v).1, put (f v).2 w).

Lemma sees_put w v v' : sees w v → sees (put v' w) v'.
Proof.
  intros [Hd Hc _ _]. split; [done| |done|]; simpl; [|by rewrite lookup_insert_eq].
  by eapply list_lookup_insert_eq, lookup_lt_Some.
Qed.
Lemma put_put v v' w : put v (put v' w) = put v w.
Proof. unfold put; simpl. by rewrite list_insert_insert_eq, insert_insert_eq. Qed.
Lemma put_seen w v : sees w v → put v w = w.
Proof.
  intros [Hd Hc Hp Hs]. unfold put. destruct w; simpl in *. subst.
  by rewrite list_insert_id, insert_id.
Qed.
Lemma tracked_seen w v : sees w v → tracked w = v_states v.
Proof. intros [_ _ _ Hs]. unfold tracked. by rewrite Hs. Qed.

Lemma acts_ret {A} (x : A) : acts (mret x) (λ v, (Ok x, v)).
Proof. intros w v Hv. simpl. by rewrite put_seen. Qed.
Lemma acts_raise {A} e : acts (raise (A := A) e) (λ v, (Raise e, v)).
Proof. intros w v Hv. simpl. by rewrite put_seen. Qed.

Lemma acts_bind {A B} (m : M world A) (k : A → M world B) f g :
  acts m f → (∀ x, acts (k x) (g x)) →
  acts (m ≫= k) (λ v, match f v with (Ok x, v') => g x v' | (Raise e, v') => (Raise e, v') end).
Proof.
  intros Hm Hk w v Hv. rewrite M_bind_eq, (Hm w v Hv). destruct (f v) as [[x|e] v']; simpl; [|done].
  rewrite (Hk x _ _ (sees_put w v v' Hv)). by rewrite put_put.
Qed.

Lemma acts_finally {A} (m : M world A) (fin : M world unit) f g :
  acts m f → acts fin (λ v, (Ok tt, g v)) → acts (try_finally m fin) (λ v, ((f v).1, g (f v).2)).
Proof.
  intros Hm Hfin w v Hv. unfold try_finally. rewrite (Hm w v Hv). simpl.
  rewrite (Hfin _ _ (sees_put w v (f v).2 Hv)). by rewrite put_put.
Qed.

Lemma acts_ext {A} (m : M world A) f g : acts m f → (∀ v, f v = g v) → acts m g.
Proof. intros Hm E w v Hv. by rewrite (Hm w v Hv), E. Qed.

Lemma acts_get_rng_state : acts get_rng_state (λ v, (Ok (v_cuda v), v)).
Proof.
  intros w v Hv. unfold get_rng_state, get_st, lift. rewrite (M_bind_Ok _ _ _ w w) by done.
  rewrite (proj2 (py_get_Ok _ _ (v_cuda v) (see_device _ _ Hv)) (see_cuda _ _ Hv)). simpl.
  by rewrite put_seen.
Qed.

Lemma set_generator w v g :
  sees w v →
  py_set (default_generators w) (current_device w) g
  = Ok (<[Z.to_nat (current_device w) := g]> (default_generators w)).
Proof.
  intros [Hd Hc _ _]. apply py_set_in. apply lookup_lt_Some in Hc. unfold len. lia.
Qed.
Lemma put_cuda w v g :
  sees w v →
  set_generators (<[Z.to_nat (current_device w) := g]> (default_generators w)) w
  = put (with_cuda g v) w.
Proof.
  intros [_ _ Hp Hs]. unfold put, set_generators. simpl. rewrite Hp. by rewrite insert_id.
Qed.

Lemma acts_set_cuda_rng_state g :
  acts (_set_cuda_rng_state g (DeviceInt (-1))) (λ v, (Ok tt, with_cuda g v)).
Proof.
  intros w v Hv. unfold _set_cuda_rng_state, get_st, lift, modify, mbind, M_bind. simpl.
  rewrite (set_generator w v g Hv). by rewrite (put_cuda w v g Hv).
Qed.
Lemma acts_manual_seed z : acts (manual_seed seeded z) (λ v, (Ok tt, with_cuda (seeded z) v)).
Proof.
  intros w v Hv. unfold manual_seed, get_st, lift, modify, mbind, M_bind. simpl.
  rewrite (set_generator w v _ Hv). by rewrite (put_cuda w v _ Hv).
Qed.
Lemma acts_track n g : acts (track n g) (λ v, (Ok tt, with_state n g v)).
Proof.
  intros w v Hv. unfold track, modify. rewrite (tracked_seen w v Hv). do 2 f_equal.
  destruct Hv as [Hd Hc Hp Hs]. unfold put, set_dicts. simpl. rewrite Hp. by rewrite list_insert_id.
Qed.
Lemma acts_draw_cuda :
  acts (draw_cuda draw) (λ v, (Ok (draw (v_cuda v)).1, with_cuda (draw (v_cuda v)).2 v)).
Proof.
  intros w v Hv. unfold draw_cuda. rewrite M_bind_eq, (acts_get_rng_state w v Hv). simpl.
  rewrite put_seen by done. unfold get_st, lift, modify, mbind, M_bind. simpl.
  rewrite (set_generator w v _ Hv). simpl. by rewrite (put_cuda w v _ Hv).
Qed.
Lemma acts_draw_cpu :
  acts (draw_cpu draw) (λ v, (Ok (draw (v_cpu v)).1, View (v_cuda v) (draw (v_cpu v)).2 (v_states v))).
Proof.
  intros w v Hv. unfold draw_cpu. destruct Hv as [Hd Hc Hp Hs]. unfold put, set_cpu. simpl.
  rewrite Hp. by rewrite list_insert_id, insert_id.
Qed.

Lemma acts_fork {A} name (m : M world A) f :
  acts m f →
  acts (fork name m) (λ v,
    match v_states v !! name with
    | None => (Raise PlainException, v)
    | Some s => let v' := (f (with_cuda s v)).2 in
        ((f (with_cuda s v)).1, with_cuda (v_cuda v) (with_state name (v_cuda v') v'))
    end).
Proof.
  intros Hm w v Hv. unfold fork. unfold get_st at 1. rewrite M_bind_eq, (tracked_seen w v Hv).
  destruct (v_states v !! name) as [s|] eqn:E; [|simpl; by rewrite put_seen].
  assert (acts (state ← get_rng_state; _ ← track name state;
    _set_cuda_rng_state (v_cuda v) (DeviceInt (-1)))
    (λ v', (Ok tt, with_cuda (v_cuda v) (with_state name (v_cuda v') v')))) as Hfin.
  { eapply acts_ext; [eapply acts_bind; [apply acts_get_rng_state|intros g];
      eapply acts_bind; [apply acts_track|intros u; apply acts_set_cuda_rng_state]|]. done. }
  rewrite M_bind_eq, (acts_get_rng_state w v Hv). simpl. rewrite (put_seen w v Hv).
  rewrite M_bind_eq, (acts_set_cuda_rng_state s w v Hv). simpl.
  rewrite (acts_finally m _ f _ Hm Hfin _ _ (sees_put w v _ Hv)). simpl. by rewrite put_put.
Qed.

Lemma run_acts p : acts (run draw p) (eval p).
Proof.
  induction p as [x|ex|k IH|k IH|name p IHp k IH]; simpl.
  - apply acts_ret.
  - apply acts_raise.
  - eapply acts_ext; [eapply acts_bind; [apply acts_draw_cuda|intros x; apply IH]|]. done.
  - eapply acts_ext; [eapply acts_bind; [apply acts_draw_cpu|intros x; apply IH]|]. done.
  - eapply acts_ext; [eapply acts_bind; [apply acts_fork, IHp|intros x; apply IH]|].
    intros v. simpl. destruct (v_states v !! name) as [s|]; [|done].
    by destruct (eval p (with_cuda s v)) as [[x|e] v'].
Qed.
End view.
Arguments view : clear implicits.

(** ** Streams *)

Section streams.
Context {G V : Type} (seeded : Z → G) (draw : G → V * G).
Notation world := (world G).
Notation prog := (prog V).
Notation view := (view G).

(** Programs that draw from the current generator only. *)
Inductive flat : prog → Prop :=
  | flat_ret x : flat (Ret x)
  | flat_throw e : flat (Throw e)
  | flat_draw k : (∀ x, flat (k x)) → flat (Draw k).

(** Such a program on a generator of its own. *)
Fixpoint serial (p : prog) (g : G) : res V * G :=
  match p with
  | Ret x => (Ok x, g)
  | Throw e => (Raise e, g)
  | Draw k => serial (k (draw g).1) (draw g).2
  | _ => (Raise PlainException, g)
  end.
Fixpoint serial_session (ps : list prog) (g : G) : list (res V) * G :=
  match ps with
  | [] => ([], g)
  | p :: ps => let '(r, g) := serial p g in let '(rs, g) := serial_session ps g in (r :: rs, g)
  end.

(** A session: programs outside any fork and in forks of named states, with
    their exceptions caught. *)
Notation piece := (option string * prog)%type.
Definition run_piece (e : piece) : M world (res V) := λ w,
  let '(r, w) := (match e.1 with None => run draw e.2 | Some n => fork n (run draw e.2) end) w in
  (Ok r, w).
Fixpoint run_session (l : list piece) : M world (list (res V)) :=
  match l with
  | [] => mret []
  | e :: l => r ← run_piece e; rs ← run_session l; mret (r :: rs)
  end.

(** The generator a piece draws from. *)
Definition stream (o : option string) (v : view) : option G :=
  match o with None => Some (v_cuda v) | Some n => v_states v !! n end.
Definition set_stream (o : option string) (g : G) (v : view) : view :=
  match o with None => with_cuda g v | Some n => with_state n g v end.

Lemma stream_set o g v : stream o (set_stream o g v) = Some g.
Proof. destruct o; simpl; [apply lookup_insert_eq|done]. Qed.
Lemma stream_set_ne o o' g v : o' ≠ o → stream o' (set_stream o g v) = stream o' v.
Proof. destruct o, o'; simpl; intros; rewrite ?lookup_insert_ne by congruence; done. Qed.

Lemma eval_flat p v :
  flat p → eval draw p v = ((serial p (v_cuda v)).1, with_cuda (serial p (v_cuda v)).2 v).
Proof.
  intros Hp. revert v. induction Hp as [x|e|k _ IH]; intros v; simpl; [by destruct v..|].
  rewrite IH. by destruct v.
Qed.

Lemma run_piece_flat e g w v :
  sees w v → flat e.2 → stream e.1 v = Some g →
  run_piece e w = (Ok (serial e.2 g).1, put (set_stream e.1 (serial e.2 g).2 v) w).
Proof.
  destruct e as [[n|] p]; unfold run_piece; simpl; intros Hv Hp Hg.
  - rewrite (acts_fork n _ _ (run_acts draw p) w v Hv), Hg. simpl.
    rewrite (eval_flat p _ Hp). simpl. by destruct v.
  - injection Hg as <-. rewrite (run_acts draw p w v Hv), (eval_flat p _ Hp). done.
Qed.

Notation of_stream o l := (filter (λ e, e.1 = o) l).

Lemma run_session_streams l w v :
  sees w v → Forall (λ e, flat e.2 ∧ is_Some (stream e.1 v)) l →
  ∃ rs v', run_session l w = (Ok rs, put v' w) ∧ v_cpu v' = v_cpu v ∧ length rs = length l ∧
    dom (v_states v') = dom (v_states v) ∧
    ∀ o g, stream o v = Some g →
      (of_stream o (zip l.*1 rs)).*2 = (serial_session (of_stream o l).*2 g).1 ∧
      stream o v' = Some (serial_session (of_stream o l).*2 g).2.
Proof.
  revert w v. induction l as [|e l IH]; intros w v Hv Hl.
  - exists [], v. simpl. by rewrite put_seen.
  - apply Forall_cons in Hl as [[Hp [g Hg]] Hl].
    pose proof (run_piece_flat e g w v Hv Hp Hg) as E.
    set (v1 := set_stream e.1 (serial e.2 g).2 v) in *.
    assert (∀ o, is_Some (stream o v) → is_Some (stream o v1)) as Hsome.
    { intros o Ho. destruct (decide (o = e.1)) as [->|]; [unfold v1; rewrite stream_set; by eexists|].
      by unfold v1; rewrite stream_set_ne. }
    destruct (IH _ v1 (sees_put w v v1 Hv)) as (rs & v' & E' & Hcpu & Hlen & Hdom & Hrs).
    { eapply Forall_impl; [exact Hl|]. naive_solver. }
    exists ((serial e.2 g).1 :: rs), v'. simpl. rewrite M_bind_eq, E. simpl.
    rewrite M_bind_eq, E'. simpl. rewrite put_put.
    assert (dom (v_states v1) = dom (v_states v)) as Hdom1.
    { unfold v1. destruct (e.1) as [n|] eqn:En; [|done]. simpl in Hg |- *.
      rewrite dom_insert_L. apply elem_of_dom_2 in Hg. set_solver. }
    split_and!; [done|by rewrite Hcpu; unfold v1; destruct (e.1)|lia|congruence|]. intros o g' Hg'. rewrite !filter_cons.
    cbn [fst snd]. destruct (decide (e.1 = o)) as [<-|Hne]; csimpl.
    + assert (g' = g) as -> by congruence.
      destruct (Hrs e.1 (serial e.2 g).2) as [E1 E2]; [apply stream_set|].
      destruct (serial e.2 g) as [r g1]. simpl in *. rewrite E1, E2.
      by destruct (serial_session _ g1).
    + apply Hrs. unfold v1. by rewrite stream_set_ne.
Qed.

(** C34: the tracker keeps the streams of random numbers apart.  In a session of
    programs, some under [fork] of tracked names and some outside, in any order
    and with exceptions raised in any of them, the programs on one name draw what
    they would draw one after the other from a generator of their own that starts
    at the tracked state, those outside what they would draw from the default
    generator, and each generator is left where its own programs left it. *)
Theorem tracker_isolates_streams l w v :
  sees w v → Forall (λ e, flat e.2 ∧ is_Some (stream e.1 v)) l →
  ∃ rs v', run_session l w = (Ok rs, put v' w) ∧ sees (put v' w) v' ∧
    v_cpu v' = v_cpu v ∧ dom (v_states v') = dom (v_states v) ∧
    ∀ o g, stream o v = Some g →
      (of_stream o (zip l.*1 rs)).*2 = (serial_session (of_stream o l).*2 g).1 ∧
      stream o v' = Some (serial_session (of_stream o l).*2 g).2.
Proof.
  intros Hv Hl. destruct (run_session_streams l w v Hv Hl) as (rs & v' & E & Hc & _ & Hd & H).
  exists rs, v'. split_and!; eauto using sees_put.
Qed.

(** ** The invariant of the tracker *)

(** One generator continues the stream of another. *)
Definition continues : relation G := rtc (λ g g', g' = (draw g).2).
Definition advances (v v' : view) : Prop :=
  continues (v_cuda v) (v_cuda v') ∧
  ∀ n, option_Forall2 continues (v_states v !! n) (v_states v' !! n).

#[global] Instance advances_preorder : PreOrder advances.
Proof.
  split.
  - intros v. split; [apply rtc_refl|]. intros n. destruct (v_states v !! n); by repeat constructor.
  - intros a b c [H1 H2] [H3 H4]. split; [by etransitivity|].
    intros n. specialize (H2 n). specialize (H4 n).
    destruct H2; inversion H4; subst; constructor. by etransitivity.
Qed.

Lemma eval_advances p v : advances v (eval draw p v).2.
Proof.
  revert v. induction p as [x|ex|k IH|k IH|name p IHp k IH]; intros v; simpl; [done|done|..].
  - etransitivity; [|apply IH]. split; [by apply rtc_once|]. intros n. simpl.
    destruct (v_states v !! n); by repeat constructor.
  - etransitivity; [|apply IH]. done.
  - destruct (v_states v !! name) as [s|] eqn:E; [|done].
    pose proof (IHp (with_cuda s v)) as [H1 H2].
    destruct (eval draw p (with_cuda s v)) as [r v']. simpl in H1, H2.
    assert (advances v (with_cuda (v_cuda v) (with_state name (v_cuda v') v'))) as Hv.
    { split; [apply rtc_refl|]. intros n. simpl. destruct (decide (n = name)) as [->|].
      - rewrite lookup_insert_eq, E. by constructor.
      - by rewrite lookup_insert_ne. }
    destruct r as [x|e]; [|done]. etransitivity; [exact Hv|]. apply IH.
Qed.

(** *** Dictionaries and checkpoints *)

Lemma copied (d : gmap string G) :
  foldr (λ '(name, s) states, <[name := s]> states) ∅ (map_to_list d) = d.
Proof.
  rewrite <-(list_to_map_to_list d) at 2. unfold list_to_map.
  generalize (map_to_list d). intros l. induction l as [|[n s] l IH]; [done|]. simpl. by rewrite IH.
Qed.

(** Where a new dictionary goes. *)
Definition next (w : world) : nat := fresh (dom (dicts w)).
Definition grown (w : world) (d : gmap string G) : world :=
  set_dicts (<[next w := d]> (dicts w)) w.

Lemma next_ne w l d : dicts w !! l = Some d → next w ≠ l.
Proof.
  intros Hl E. apply elem_of_dom_2 in Hl. rewrite <-E in Hl.
  exact (is_fresh (dom (dicts w)) Hl).
Qed.
Lemma sees_grown w v d : sees w v → sees (grown w d) v.
Proof.
  intros [Hd Hc Hp Hs]. split; try done. simpl. rewrite lookup_insert_ne; [done|].
  by eapply next_ne.
Qed.
Lemma get_states_eq w v : sees w v → get_states w = (Ok (next w), grown w (v_states v)).
Proof.
  intros Hv. unfold get_states, get_st, mbind, M_bind. rewrite copied.
  by rewrite (tracked_seen w v Hv).
Qed.

Notation runs p := (λ _ : unit, run draw p).

Lemma checkpoint_forward_eq p w v :
  sees w v →
  checkpoint_forward (runs p) tt w
  = ((λ x, (Context_ (v_cpu v) (v_cuda v) (next w) tt, x)) <$> (eval draw p v).1,
     put (eval draw p v).2 (grown w (v_states v))).
Proof.
  intros Hv. unfold checkpoint_forward. unfold get_st at 1. rewrite M_bind_eq.
  rewrite M_bind_eq, (acts_get_rng_state w v Hv). simpl. rewrite (put_seen w v Hv).
  rewrite M_bind_eq, (get_states_eq w v Hv), M_bind_eq.
  rewrite (run_acts draw p _ v (sees_grown w v _ Hv)), (see_cpu _ _ Hv).
  by destruct (eval draw p v) as [[x|e] v'].
Qed.

(** The world in which the recomputation runs. *)
Definition rewound (ctx : context G unit) (w : world) (v : view) : world :=
  set_tracker (fwd_cuda_rng_state_tracker ctx)
    (put (View (fwd_cuda_rng_state ctx) (fwd_cpu_rng_state ctx) (v_states v)) (grown w (v_states v))).

Lemma rewound_sees ctx w v d :
  sees w v → dicts w !! fwd_cuda_rng_state_tracker ctx = Some d →
  fwd_cuda_rng_state_tracker ctx ≠ states_ w →
  sees (rewound ctx w v) (View (fwd_cuda_rng_state ctx) (fwd_cpu_rng_state ctx) d).
Proof.
  intros Hv Hd Hne. pose proof (next_ne _ _ _ Hd). destruct Hv as [Hdev Hc _ _]. split; simpl.
  - done.
  - by eapply list_lookup_insert_eq, lookup_lt_Some.
  - done.
  - by rewrite !lookup_insert_ne.
Qed.

(** The world after a recomputation that left the dictionary of the context at [d]. *)
Definition resumed (ctx : context G unit) (w : world) (v : view) (d : gmap string G) : world :=
  set_tracker (next w)
    (set_dicts (<[fwd_cuda_rng_state_tracker ctx := d]> (dicts (grown w (v_states v)))) w).

Lemma resumed_sees ctx w v d :
  sees w v → is_Some (dicts w !! fwd_cuda_rng_state_tracker ctx) → sees (resumed ctx w v d) v.
Proof.
  intros [Hdev Hc Hp _] [d' Hd]. split; try done. simpl. pose proof (next_ne _ _ _ Hd).
  by rewrite lookup_insert_ne, lookup_insert_eq.
Qed.

Lemma checkpoint_backward_eq p ctx w v d :
  sees w v → dicts w !! fwd_cuda_rng_state_tracker ctx = Some d →
  fwd_cuda_rng_state_tracker ctx ≠ states_ w →
  checkpoint_backward (runs p) true ctx w
  = let '(r, v') := eval draw p (View (fwd_cuda_rng_state ctx) (fwd_cpu_rng_state ctx) d) in
    match r with
    | Ok x => (Ok x, resumed ctx w v (v_states v'))
    | Raise e => (Raise e, put v' (rewound ctx w v))
    end.
Proof.
  intros Hv Hd Hne. pose proof (rewound_sees ctx w v d Hv Hd Hne) as Hr.
  pose proof (sees_grown w v (v_states v) Hv) as Hg.
  unfold checkpoint_backward. rewrite M_bind_eq. simpl. rewrite M_bind_eq. simpl.
  rewrite M_bind_eq, (acts_get_rng_state w v Hv). simpl. rewrite (put_seen w v Hv).
  rewrite M_bind_eq, (get_states_eq w v Hv), M_bind_eq. simpl.
  assert (sees (set_cpu (fwd_cpu_rng_state ctx) (grown w (v_states v)))
    (View (v_cuda v) (fwd_cpu_rng_state ctx) (v_states v))) as Hg'.
  { destruct Hg as [H1 H2 _ H4]. by split. }
  rewrite M_bind_eq, (acts_set_cuda_rng_state _ _ _ Hg'), M_bind_eq. simpl. unfold with_cuda. simpl.
  unfold set_states at 1. rewrite M_bind_eq. unfold modify at 1. cbv beta iota.
  change (set_tracker (fwd_cuda_rng_state_tracker ctx) _) with (rewound ctx w v).
  rewrite (run_acts draw p _ _ Hr).
  destruct (eval draw p _) as [[x|e] v']; [|done]. cbn [fst snd].
  assert (sees (set_cpu (cpu_generator w) (put v' (rewound ctx w v)))
    (View (v_cuda v') (cpu_generator w) (v_states v'))) as Hp.
  { destruct (sees_put _ _ v' Hr) as [H1 H2 _ H4]. by split. }
  rewrite M_bind_eq. unfold modify at 1. cbv beta iota.
  rewrite M_bind_eq, (acts_set_cuda_rng_state _ _ _ Hp). unfold mbind, M_bind. simpl.
  destruct Hv as [Hdev Hc Hcpu Hs]. unfold resumed, rewound, put, set_tracker, set_cpu, set_dicts, with_cuda. simpl.
  rewrite !list_insert_insert_eq, list_insert_id by done.
  rewrite insert_insert_eq, (insert_id (<[next w := _]> (dicts w)) (states_ w)); [done|].
  by rewrite lookup_insert_ne by (by eapply next_ne).
Qed.

(** ** The theorems *)

(** C35: a checkpointed program is recomputed with the random numbers of its
    first run.  Whatever program runs in between, the recomputation returns what
    the first run returned, and the generators and tracked states are then what
    they were before it.  The context shares its dictionary with the tracker
    while the program is recomputed, though: a second recomputation from the same
    context starts from the tracked states the first one ended with. *)
Theorem checkpoint_recomputes p q w v ctx x y w1 w2 :
  sees w v →
  checkpoint_forward (runs p) tt w = (Ok (ctx, x), w1) → run draw q w1 = (Ok y, w2) →
  ∃ v2 w3, sees w2 v2 ∧
    checkpoint_backward (runs p) true ctx w2 = (Ok x, w3) ∧ sees w3 v2 ∧
    (checkpoint_backward (runs p) true ctx w3).1
    = (eval draw p (View (v_cuda v) (v_cpu v) (v_states (eval draw p v).2))).1.
Proof.
  intros Hv Hf Hq. rewrite (checkpoint_forward_eq p w v Hv) in Hf.
  pose proof (sees_put _ _ (eval draw p v).2 (sees_grown w v (v_states v) Hv)) as Hv1.
  destruct (eval draw p v) as [[x'|e] v1] eqn:Ev; [|done]. injection Hf as <- <- <-.
  simpl in Hv1. cbn [snd] in Hq. rewrite (run_acts draw q _ v1 Hv1) in Hq. injection Hq as _ <-.
  set (v2 := (eval draw q v1).2).
  pose proof (sees_put _ _ v2 Hv1) as Hv2. simpl in Hv2.
  set (w2 := put v2 _) in *.
  assert (next w ≠ states_ w) as Hne by apply (next_ne w _ _ (see_states _ _ Hv)).
  assert (dicts w2 !! next w = Some (v_states v)) as Hd.
  { simpl. rewrite !lookup_insert_ne by done. apply lookup_insert_eq. }
  set (ctx := Context_ (v_cpu v) (v_cuda v) (next w) tt).
  exists v2, (resumed ctx w2 v2 (v_states v1)). split; [done|]. split.
  { rewrite (checkpoint_backward_eq p ctx w2 v2 (v_states v) Hv2 Hd); [|done].
    cbn [fwd_cuda_rng_state fwd_cpu_rng_state ctx].
    replace (View (v_cuda v) (v_cpu v) (v_states v)) with v by (by destruct v). by rewrite Ev. }
  assert (sees (resumed ctx w2 v2 (v_states v1)) v2) as Hv3
    by (apply resumed_sees; [done|by eexists]).
  split; [done|].
  rewrite (checkpoint_backward_eq p ctx _ v2 (v_states v1) Hv3); cycle 1.
  - simpl. apply lookup_insert_eq.
  - simpl. intros E. symmetry in E. by apply (next_ne w2 _ _ Hd) in E.
  - simpl. by destruct (eval draw p (View (v_cuda v) (v_cpu v) (v_states v1))) as [[?|?] ?].
Qed.


(** What the rest of the program does to the tracker and the generators. *)
Inductive op :=
  | Run (p : prog)
  | ManualSeed (seed : Z)
  | Add (name : string) (seed : Z)
  | Reset
  | GetStates
  | Checkpoint (p between : prog) (valid : bool).

Definition exec (o : op) : M world unit :=
  match o with
  | Run p => _ ← run draw p; mret tt
  | ManualSeed seed => manual_seed seeded seed
  | Add name seed => add seeded name seed
  | Reset => reset
  | GetStates => _ ← get_states; mret tt
  | Checkpoint p between valid =>
      '(ctx, _) ← checkpoint_forward (runs p) tt;
      _ ← run draw between;
      _ ← checkpoint_backward (runs p) valid ctx;
      mret tt
  end.

(** Each tracked state continues the stream of a registered seed of its own. *)
Definition own_seeds (seeds : gset Z) (states : gmap string G) : Prop :=
  ∃ f : gmap string Z,
    (∀ n m z, f !! n = Some z → f !! m = Some z → n = m) ∧
    (∀ n z, f !! n = Some z → z ∈ seeds) ∧
    ∀ n, option_Forall2 (λ z g, continues (seeded z) g) (f !! n) (states !! n).
Definition tracker_ok (w : world) : Prop := ∃ v, sees w v ∧ own_seeds (seeds_ w) (v_states v).

Lemma own_seeds_advances seeds v v' :
  own_seeds seeds (v_states v) → advances v v' → own_seeds seeds (v_states v').
Proof.
  intros (f & Hinj & Hin & Hf) [_ Hv]. exists f. split_and!; [done..|]. intros n.
  specialize (Hf n). specialize (Hv n). destruct Hf; inversion Hv; subst; constructor.
  by etransitivity.
Qed.

Lemma own_seeds_add seeds states n z :
  own_seeds seeds states → z ∉ seeds → states !! n = None →
  own_seeds ({[z]} ∪ seeds) (<[n := seeded z]> states).
Proof.
  intros (f & Hinj & Hin & Hf) Hz Hn. exists (<[n := z]> f).
  assert (∀ m y, <[n := z]> f !! m = Some y → m = n ∧ y = z ∨ m ≠ n ∧ f !! m = Some y) as Hl.
  { intros m y. rewrite lookup_insert_Some. naive_solver. }
  split_and!.
  - intros m1 m2 y [[-> ->]|[Hm1 H1]]%Hl [[-> Hy]|[Hm2 H2]]%Hl; subst; try done.
    + by apply Hin in H2.
    + by apply Hin in H1.
    + by eapply Hinj.
  - intros m y [[-> ->]|[Hm1 H1]]%Hl; [set_solver|]. apply Hin in H1. set_solver.
  - intros m. destruct (decide (m = n)) as [->|Hm].
    + rewrite !lookup_insert_eq. constructor. apply rtc_refl.
    + by rewrite !lookup_insert_ne.
Qed.

(** Computations on the view that let the streams advance. *)
Lemma acts_ok {A} (m : M world A) f w :
  acts m f → (∀ v, advances v (f v).2 ∨ v_states (f v).2 = v_states v) →
  tracker_ok w → tracker_ok (m w).2.
Proof.
  intros Hm Hf (v & Hv & Ho). rewrite (Hm w v Hv). exists (f v).2.
  split; [by apply (sees_put w v)|]. simpl. destruct (Hf v) as [Ha| ->]; [|done].
  by eapply own_seeds_advances.
Qed.

Lemma run_ok p w : tracker_ok w → tracker_ok (run draw p w).2.
Proof. apply (acts_ok _ _ _ (run_acts draw p)). intros v. left. apply eval_advances. Qed.

Lemma unit_ok {A} (m : M world A) w :
  tracker_ok (m w).2 → tracker_ok ((_ ← m; mret tt) w).2.
Proof. rewrite M_bind_eq. by destruct (m w) as [[?|?] ?]. Qed.

Lemma tracker_ok_bind {A B} (m : M world A) (k : A → M world B) w :
  tracker_ok (m w).2 → (∀ x w', m w = (Ok x, w') → tracker_ok (k x w').2) →
  tracker_ok ((m ≫= k) w).2.
Proof. rewrite M_bind_eq. destruct (m w) as [[x|e] w']; intros H Hk; [by apply Hk|done]. Qed.

Lemma acts_seed_and_track name seed :
  acts (orig ← get_rng_state; _ ← manual_seed seeded seed; new_state ← get_rng_state;
        _ ← track name new_state; _set_cuda_rng_state orig (DeviceInt (-1)))
    (λ v, (Ok tt, with_state name (seeded seed) v)).
Proof.
  eapply acts_ext.
  - eapply acts_bind; [apply acts_get_rng_state|intros g].
    eapply acts_bind; [apply acts_manual_seed|intros u].
    eapply acts_bind; [apply acts_get_rng_state|intros g'].
    eapply acts_bind; [apply acts_track|intros u']. apply acts_set_cuda_rng_state.
  - by intros [].
Qed.

Lemma add_new name seed w v :
  sees w v → seed ∉ seeds_ w → v_states v !! name = None →
  add seeded name seed w
  = (Ok tt, put (with_state name (seeded seed) v) (set_seeds ({[seed]} ∪ seeds_ w) w)).
Proof.
  intros Hv Hs Hn. unfold add. unfold get_st at 1. rewrite M_bind_eq.
  rewrite bool_decide_false by done. rewrite M_bind_eq. unfold modify at 1. cbv beta iota.
  rewrite (tracked_seen w v Hv), bool_decide_false by (rewrite Hn; apply is_Some_None).
  apply acts_seed_and_track. by destruct Hv.
Qed.

Lemma reset_eq w v :
  sees w v →
  reset w = (Ok tt, set_seeds ∅ (set_tracker (next w) (grown w ∅))) ∧
  sees (set_seeds ∅ (set_tracker (next w) (grown w ∅))) (View (v_cuda v) (v_cpu v) ∅).
Proof. intros [Hd Hc Hp Hs]. split; [done|]. split; try done. simpl. by rewrite lookup_insert_eq. Qed.

Lemma add_ok name seed w : tracker_ok w → tracker_ok (add seeded name seed w).2.
Proof.
  intros (v & Hv & Ho). destruct (decide (seed ∈ seeds_ w)) as [Hs|Hs].
  { unfold add. unfold get_st at 1. rewrite M_bind_eq, bool_decide_true by done. by exists v. }
  destruct (v_states v !! name) as [s|] eqn:Hn.
  - unfold add. unfold get_st at 1. rewrite M_bind_eq, bool_decide_false, M_bind_eq by done.
    unfold modify at 1. cbv beta iota. rewrite (tracked_seen w v Hv), Hn. simpl.
    exists v. split; [by destruct Hv|]. destruct Ho as (f & Hinj & Hin & Hf).
    exists f. split_and!; [done| |done]. intros n z Hz%Hin. simpl. set_solver.
  - rewrite (add_new name seed w v Hv Hs Hn). eexists. split; [eapply sees_put; by destruct Hv|].
    by apply own_seeds_add.
Qed.

Lemma reset_ok w : tracker_ok w → tracker_ok (reset w).2.
Proof.
  intros (v & Hv & _). destruct (reset_eq w v Hv) as [-> Hr]. eexists. split; [exact Hr|].
  exists ∅. split_and!; [done|done|]. intros n. rewrite !lookup_empty. constructor.
Qed.

Lemma checkpoint_ok p between valid w :
  tracker_ok w → tracker_ok (exec (Checkpoint p between valid) w).2.
Proof.
  intros (v & Hv & Ho). simpl.
  pose proof (own_seeds_advances _ _ _ Ho (eval_advances p v)) as Ho1.
  pose proof (sees_put _ _ (eval draw p v).2 (sees_grown w v (v_states v) Hv)) as Hv1.
  apply tracker_ok_bind; rewrite (checkpoint_forward_eq p w v Hv); [by eexists|].
  intros [ctx x] w1 E. destruct (eval draw p v) as [[x'|e] v1]; [|done].
  injection E as <- -> <-. cbn [fst snd] in Hv1, Ho1 |- *.
  apply tracker_ok_bind; [apply run_ok; by eexists|]. intros y w2.
  rewrite (run_acts draw between _ v1 Hv1). intros [= _ <-].
  pose proof (own_seeds_advances _ _ _ Ho1 (eval_advances between v1)) as Ho2.
  set (v2 := (eval draw between v1).2) in *. pose proof (sees_put _ _ v2 Hv1) as Hv2.
  set (w2 := put v2 _) in *. apply unit_ok.
  destruct valid; [|by exists v2].
  assert (next w ≠ states_ w) as Hne by apply (next_ne w _ _ (see_states _ _ Hv)).
  set (ctx := Context_ (v_cpu v) (v_cuda v) (next w) tt).
  assert (dicts w2 !! fwd_cuda_rng_state_tracker ctx = Some (v_states v)) as Hd.
  { simpl. rewrite !lookup_insert_ne by done. apply lookup_insert_eq. }
  rewrite (checkpoint_backward_eq p ctx w2 v2 (v_states v) Hv2 Hd Hne).
  replace (View (fwd_cuda_rng_state ctx) (fwd_cpu_rng_state ctx) (v_states v)) with v by (by destruct v).
  pose proof (eval_advances p v) as Hadv.
  destruct (eval draw p v) as [[x2|e] vr]; cbn [snd] in Hadv |- *.
  - exists v2. split; [by apply resumed_sees; [|eexists]|done].
  - exists vr. split; [eapply sees_put, (rewound_sees ctx w2 v2); done|].
    exact (own_seeds_advances _ v vr Ho Hadv).
Qed.

End streams.

(** ** Seeding a group *)

Section seeding.
Context {G : Type} (seeded : Z → G) `{DistLaws} `{LongTensorLaws}.
Notation world := (world G).

(** Seeding after the groups are initialized.  On the process of any rank the
    default generator gets the seed itself, the same on all ranks, and the tracker
    exactly one stream, whose seed is 2718 plus the rank within the model-parallel
    group: different seeds on the ranks of a group, equal ones on the ranks with
    one position in their groups. *)
Theorem model_parallel_seeds dp pp cp mp rank bm bp bc bd t v gs seed (w : world) view0 :
  0 < dp → 0 < pp → 0 < cp → 0 < mp → 0 ≤ rank < dp * pp * cp * mp →
  _MODEL_PARALLEL_GROUP v = None → _DATA_PARALLEL_GROUP v = None →
  _PIPELINE_PARALLEL_GROUP v = None → _CONTEXT_PARALLEL_GROUP v = None →
  sees w view0 →
  ∃ v' gs' w',
    initialize_model_parallel true (dp * pp * cp * mp) rank mp pp cp bm bp bc bd t
      (DistState v gs) = (Ok tt, DistState v' gs') ∧
    model_parallel_cuda_manual_seed seeded rank v' true seed w = (Ok tt, w') ∧
    sees w' (View (seeded seed) (v_cpu view0)
               {[ _MODEL_PARALLEL_RNG_TRACKER_NAME := seeded (seed + 2718 + rank `mod` mp) ]}) ∧
    seeds_ w' = {[ seed + 2718 + rank `mod` mp ]}.
Proof.
  intros Hdp Hpp Hcp Hmp Hr HM HD HP HC Hw.
  destruct (getters_of_topology dp pp cp mp rank bm bp bc bd t v)
    as (_ & G2 & _ & G4 & _); [done..|].
  eexists _, _, _. split; [by apply initialize_runs|].
  unfold model_parallel_cuda_manual_seed. rewrite M_bind_eq. unfold lift at 1. rewrite G2.
  rewrite M_bind_eq.
  assert (∀ w : world, (if rank =? 0 then lift (get_data_parallel_rank rank
    (topology dp pp cp mp rank bm bp bc bd t v) ≫= λ _, Ok ()) else mret ()) w = (Ok tt, w)) as ->.
  { intros w0. unfold lift. rewrite G4. by destruct (rank =? 0). }
  destruct (reset_eq w view0 Hw) as [Er Hv]. unfold when. rewrite M_bind_eq, Er.
  rewrite M_bind_eq, (acts_manual_seed seeded seed _ _ Hv).
  pose proof (sees_put _ _ (with_cuda (seeded seed) (View (v_cuda view0) (v_cpu view0) ∅)) Hv) as Hv'.
  unfold snd, fst. rewrite (add_new seeded _ _ _ _ Hv'); [|set_solver|done].
  split; [done|]. split; [|simpl; set_solver]. eapply sees_put. by destruct Hv'.
Qed.
End seeding.

(** ** Witnesses: generators that count *)

Definition seeded_Z (z : Z) : Z := 1000 * z.
Definition draw_Z (g : Z) : Z * Z := (g, g + 1).
Definition view_Z : view Z := View 5 7 {[ "a"%string := 1000 ]}.
Definition world_Z : world Z := World 0 [5] 7 {[ 0%nat := {[ "a"%string := 1000 ]} ]} 0%nat {[ 1 ]}.
Definition draw1 : prog Z := Draw Ret.
Definition fork1 : prog Z := Fork "a" draw1 Ret.

Lemma sees_Z : sees world_Z view_Z.
Proof. by split. Qed.
Lemma world_Z_ok : tracker_ok seeded_Z draw_Z world_Z.
Proof.
  exists view_Z. split; [apply sees_Z|]. exists {[ "a"%string := 1 ]}. split_and!.
  - by intros n m z [<- _]%lookup_singleton_Some [<- _]%lookup_singleton_Some.
  - intros n z [_ <-]%lookup_singleton_Some. simpl. set_solver.
  - intros n. destruct (decide (n = "a"%string)) as [->|Hn]; simpl.
    + rewrite !lookup_singleton_eq. constructor. apply rtc_refl.
    + rewrite !lookup_singleton_ne by done. constructor.
Qed.

Definition session_Z : list (option string * prog Z) :=
  [(Some "a"%string, draw1); (None, Draw (λ _, Throw ValueError)); (Some "a"%string, draw1)].

Example tracker_isolates_streams_witness :
  ∃ rs v', run_session draw_Z session_Z world_Z = (Ok rs, put v' world_Z) ∧
    (filter (λ e, e.1 = Some "a"%string) (zip session_Z.*1 rs)).*2 = [Ok 1000; Ok 1001] ∧
    v_cuda v' = 6.
Proof.
  destruct (tracker_isolates_streams draw_Z session_Z world_Z view_Z sees_Z)
    as (rs & v' & E & _ & _ & _ & H).
  - repeat constructor; by eexists.
  - exists rs, v'. split; [exact E|]. split.
    + destruct (H (Some "a"%string) 1000 eq_refl) as [-> _]. reflexivity.
    + destruct (H None 5 eq_refl) as [_ [= ->]]. reflexivity.
Defined.

(** The second recomputation draws another number: 1001 instead of 1000. *)
Example checkpoint_recomputes_witness :
  ∃ ctx w1 w2 w3,
    checkpoint_forward (λ _, run draw_Z fork1) tt world_Z = (Ok (ctx, 1000), w1) ∧
    run draw_Z draw1 w1 = (Ok 5, w2) ∧
    checkpoint_backward (λ _, run draw_Z fork1) true ctx w2 = (Ok 1000, w3) ∧
    (checkpoint_backward (λ _, run draw_Z fork1) true ctx w3).1 = Ok 1001.
Proof.
  destruct (checkpoint_forward (λ _, run draw_Z fork1) tt world_Z) as [[[ctx x]|e] w1] eqn:Ef;
    [|by vm_compute in Ef].
  destruct (run draw_Z draw1 w1) as [[y|e] w2] eqn:Eq.
  - destruct (checkpoint_recomputes draw_Z fork1 draw1 world_Z view_Z ctx x y w1 w2 sees_Z Ef Eq)
      as (v2 & w3 & _ & E1 & _ & E2).
    vm_compute in Ef. injection Ef as <- <- <-. vm_compute in Eq. injection Eq as <- <-.
    eexists _, _, _, w3. split_and!; [done|done|exact E1|exact E2].
  - vm_compute in Ef. injection Ef as <- <- <-. by vm_compute in Eq.
Defined.


Example model_parallel_seeds_witness :
  ∃ v' w', model_parallel_cuda_manual_seed seeded_Z 5 v' true 10 world_Z = (Ok tt, w') ∧
    tracked w' = {[ "model-parallel-rng"%string := 2729000 ]} ∧ seeds_ w' = {[ 2729 ]}.
Proof.
  destruct (model_parallel_seeds seeded_Z 2 2 2 2 5 None None None None None
    module_globals [] 10 world_Z view_Z) as (v' & gs' & w' & _ & E & Hv & Hs);
    [lia|lia|lia|lia|lia|done|done|done|done|apply sees_Z|].
  exists v', w'. split; [exact E|]. split; [|exact Hs]. by rewrite (tracked_seen _ _ Hv).
Defined.
