(* ===== verification/Tensor.v ===== *)
(** * Tensors

    The tensors the layers compute on: matrices ([num_tokens] rows, one row per
    token, or a weight with one row per output feature) and vectors (biases).
    The library's arithmetic and collectives are operations of the classes
    below; their [Laws] give the documented meaning.  [Shards] collects the
    facts on cutting a tensor into equal slices. *)
From S2P Require Import Prelude.

(** ** Matrices *)

(** A matrix carries its width, so that it has a shape also without rows. *)
Record mat (V : Type) := Mat { cols : Z; rows : list (list V) }.
Arguments Mat {V} cols rows.
Arguments cols {V} m.
Arguments rows {V} m.

Definition nrows {V} (m : mat V) : Z := len (rows m).

Definition mat_wf {V} (m : mat V) : Prop :=
  0 ≤ cols m ∧ Forall (λ r, len r = cols m) (rows m).

#[export] Instance mat_wf_dec {V} (m : mat V) : Decision (mat_wf m).
Proof. unfold mat_wf. apply _. Defined.

Definition map_rows {V} (c : Z) (f : list V → list V) (m : mat V) : mat V :=
  Mat c (f <$> rows m).

(** Elementwise operations on matrices of one shape. *)
Definition mat_zip {V} (f : V → V → V) (a b : mat V) : mat V :=
  Mat (cols a) (zip_with (zip_with f) (rows a) (rows b)).
Definition mat_map {V} (f : V → V) (a : mat V) : mat V :=
  Mat (cols a) (fmap (M := list) f <$> rows a).

(** ** The library *)

(** Tensor elements. *)
Class Scalar (V : Type) := { szero : V; sadd : V → V → V }.

(** Addition with exact arithmetic.  The layers that only move or mask values
    need the neutral element alone; the ones that add partial products need
    the commutative monoid (sums of floats agree with it up to rounding). *)
Class ScalarZero V `{Scalar V} : Prop := {
  sadd_0_l (x : V) : sadd szero x = x;
  sadd_0_r (x : V) : sadd x szero = x;
}.
Class ScalarMonoid V `{Scalar V} : Prop := {
  smonoid_zero :: ScalarZero V;
  sadd_assoc (x y z : V) : sadd x (sadd y z) = sadd (sadd x y) z;
  sadd_comm (x y : V) : sadd x y = sadd y x;
}.

(** [dot a b] is the inner product as the library computes it on two rows. *)
Class TorchMat (V : Type) `{Scalar V} := {
  dot : list V → list V → V;
  F_linear : mat V → mat V → option (list V) → mat V;
  F_embedding : list Z → mat V → res (mat V);
  torch_cat_first : list (mat V) → mat V;
  torch_split_first : mat V → Z → list (mat V);
  torch_cat_last : list (mat V) → mat V;
  torch_split_last : mat V → Z → list (mat V);
  (* what every rank holds after the collective on the ranks' inputs *)
  all_reduce_sum : list (mat V) → mat V;
  all_gather : list (mat V) → list (mat V);
}.

Definition add_bias {V} `{Scalar V} (b : option (list V)) (r : list V) : list V :=
  match b with Some b => zip_with sadd r b | None => r end.

(** [cat] along the last dimension glues the rows. *)
Definition hcat {V} (ms : list (mat V)) : mat V :=
  match ms with
  | [] => Mat 0 []
  | m :: ms => foldl (λ a b, Mat (cols a + cols b) (zip_with app (rows a) (rows b))) m ms
  end.

Definition mat_add {V} `{Scalar V} : mat V → mat V → mat V := mat_zip sadd.

Class TorchMatLaws (V : Type) `{TorchMat V} : Prop := {
  (* y = x A^T + b *)
  F_linear_spec (x w : mat V) b :
    F_linear x w b = map_rows (nrows w) (λ r, add_bias b (dot r <$> rows w)) x;
  (* row lookup; an index outside the table raises *)
  F_embedding_spec ids w :
    F_embedding ids w = Mat (cols w) <$> mapM (λ i,
      if (i <? 0) || (nrows w <=? i) then Raise IndexError else py_get (rows w) i) ids;
  torch_cat_first_spec (m : mat V) ms :
    Forall (λ m', cols m' = cols m) ms →
    torch_cat_first (m :: ms) = Mat (cols m) (concat (rows <$> m :: ms));
  torch_split_first_spec (m : mat V) s k :
    0 < s → nrows m = k * s →
    torch_split_first m s =
      (λ i, Mat (cols m) (py_slice (rows m) (i * s) ((i + 1) * s))) <$> py_range 0 k;
  torch_cat_last_spec (ms : list (mat V)) n :
    ms ≠ [] → Forall (λ m, mat_wf m ∧ nrows m = n) ms → torch_cat_last ms = hcat ms;
  torch_split_last_spec (m : mat V) s k :
    mat_wf m → 0 < s → cols m = k * s →
    torch_split_last m s =
      (λ i, map_rows s (λ r, py_slice r (i * s) ((i + 1) * s)) m) <$> py_range 0 k;
  all_reduce_sum_spec (m : mat V) ms :
    Forall (λ m', mat_wf m' ∧ cols m' = cols m ∧ nrows m' = nrows m) (m :: ms) →
    all_reduce_sum (m :: ms) = foldl mat_add m ms;
  all_gather_spec ms : all_gather ms = ms;
}.

(** The inner product of glued rows is the sum of the inner products: what
    splitting the reduction over the ranks relies on. *)
Class DotSplit (V : Type) `{TorchMat V} : Prop := {
  dot_app (a a' b b' : list V) :
    len a = len b → dot (a ++ a') (b ++ b') = sadd (dot a b) (dot a' b');
}.

(** ** An implementation over the integers *)

#[export] Instance Z_scalar : Scalar Z := {| szero := 0; sadd := Z.add |}.
#[export] Instance Z_scalar_monoid : ScalarMonoid Z.
Proof. split; [split|..]; simpl; intros; lia. Qed.

#[export] Instance Z_torch : TorchMat Z := {|
  dot a b := sumZ (zip_with Z.mul a b);
  F_linear x w b :=
    map_rows (nrows w) (λ r, add_bias b ((λ c, sumZ (zip_with Z.mul r c)) <$> rows w)) x;
  F_embedding ids w := Mat (cols w) <$> mapM (λ i,
    if (i <? 0) || (nrows w <=? i) then Raise IndexError else py_get (rows w) i) ids;
  torch_cat_first ms :=
    match ms with [] => Mat 0 [] | m :: _ => Mat (cols m) (concat (rows <$> ms)) end;
  torch_split_first m s :=
    (λ i, Mat (cols m) (py_slice (rows m) (i * s) ((i + 1) * s)))
      <$> py_range 0 (nrows m / s);
  torch_cat_last := hcat;
  torch_split_last m s :=
    (λ i, map_rows s (λ r, py_slice r (i * s) ((i + 1) * s)) m) <$> py_range 0 (cols m / s);
  all_reduce_sum ms := match ms with [] => Mat 0 [] | m :: ms => foldl mat_add m ms end;
  all_gather ms := ms;
|}.

#[export] Instance Z_torch_laws : TorchMatLaws Z.
Proof.
  split; try done.
  - intros m s k Hs Hk. simpl. by rewrite Hk, Z.div_mul by lia.
  - intros m s k _ Hs Hk. simpl. by rewrite Hk, Z.div_mul by lia.
Qed.

#[export] Instance Z_dot_split : DotSplit Z.
Proof.
  split. simpl. intros a a' b b' Hl. rewrite zip_with_app, sumZ_app; [done|].
  unfold len in Hl. lia.
Qed.

(** ** Shards *)

(** Block [r] of [l] cut into blocks of [s] elements. *)
Definition block {A} (l : list A) (s r : Z) : list A := py_slice l (r * s) ((r + 1) * s).

Section block.
Context {A : Type}.
Implicit Types l : list A.

Lemma concat_blocks_prefix l s n :
  0 ≤ s → 0 ≤ n → concat (block l s <$> py_range 0 n) = py_slice l 0 (n * s).
Proof.
  intros Hs. revert n. apply natlike_ind; [done|]. intros n Hn IH.
  rewrite <-Z.add_1_r, py_range_snoc, fmap_app, concat_app, IH by lia. csimpl.
  rewrite app_nil_r. unfold block. apply py_slice_cat; nia.
Qed.

Lemma concat_blocks l s n :
  0 ≤ s → 0 ≤ n → len l = n * s → concat (block l s <$> py_range 0 n) = l.
Proof. intros. rewrite concat_blocks_prefix, <-H1 by done. apply py_slice_all. Qed.

Lemma len_block l s n r :
  0 ≤ s → 0 ≤ r < n → len l = n * s → len (block l s r) = s.
Proof. intros. unfold block. rewrite len_py_slice; nia. Qed.

Lemma block_all l s : len l = s → block l s 0 = l.
Proof. intros <-. unfold block. replace ((0 + 1) * len l) with (len l) by lia. apply py_slice_all. Qed.

(** The first [n+1] blocks are the first [n] blocks and block [n]. *)
Lemma prefix_block l s n :
  0 ≤ s → 0 ≤ n →
  py_slice l 0 ((n + 1) * s) = py_slice l 0 (n * s) ++ block l s n.
Proof. intros. unfold block. rewrite py_slice_cat; [done|nia..]. Qed.
End block.

Lemma block_fmap {A B} (f : A → B) (l : list A) s r : block (f <$> l) s r = f <$> block l s r.
Proof. unfold block, py_slice. by rewrite fmap_take, fmap_drop. Qed.

Lemma block_zip_with {A B C} (f : A → B → C) (l : list A) (k : list B) s r :
  block (zip_with f l k) s r = zip_with f (block l s r) (block k s r).
Proof. unfold block, py_slice. by rewrite zip_with_drop, zip_with_take. Qed.

(** Gluing matrices computed row by row from the same rows. *)
Lemma hcat_rows {A V} (r0 : Z) (rs : list Z) (c : Z) (f : Z → A → list V) (X : list A) :
  hcat ((λ r, Mat c (f r <$> X)) <$> r0 :: rs)
  = Mat (len (r0 :: rs) * c) ((λ x, concat ((λ r, f r x) <$> r0 :: rs)) <$> X).
Proof.
  csimpl. assert (∀ k (g : A → list V),
    foldl (λ a b, Mat (cols a + cols b) (zip_with app (rows a) (rows b)))
      (Mat k (g <$> X)) ((λ r, Mat c (f r <$> X)) <$> rs)
    = Mat (k + len rs * c) ((λ x, g x ++ concat ((λ r, f r x) <$> rs)) <$> X)) as Hgen.
  { induction rs as [|r rs IH]; intros k g; csimpl.
    - f_equal; [unfold len; simpl; lia|]. apply list_fmap_ext. intros. by rewrite app_nil_r.
    - rewrite zip_with_fmap_l, zip_with_fmap_r, zip_with_diag, IH.
      f_equal; [rewrite len_cons; lia|].
      apply list_fmap_ext. intros. by rewrite <-app_assoc. }
  rewrite Hgen. f_equal. rewrite len_cons. lia.
Qed.

(** Adding them. *)
Lemma mat_add_rows `{Scalar V} {A} (rs : list Z) (c : Z) (g : A → list V)
    (f : Z → A → list V) (X : list A) :
  foldl mat_add (Mat c (g <$> X)) ((λ r, Mat c (f r <$> X)) <$> rs)
  = Mat c ((λ x, foldl (zip_with sadd) (g x) ((λ r, f r x) <$> rs)) <$> X).
Proof.
  revert g. induction rs as [|r rs IH]; intros g; csimpl; [done|].
  unfold mat_add at 2, mat_zip; simpl.
  by rewrite zip_with_fmap_l, zip_with_fmap_r, zip_with_diag, IH.
Qed.

Lemma mat_wf_rows {A V} c (f : A → list V) (X : list A) :
  0 ≤ c → (∀ x, x ∈ X → len (f x) = c) → mat_wf (Mat c (f <$> X)).
Proof.
  intros Hc Hf. split; [done|]. apply Forall_fmap, Forall_forall. exact Hf.
Qed.

Lemma rows_len {V} (m : mat V) (r : list V) : mat_wf m → r ∈ rows m → len r = cols m.
Proof. intros [_ H] Hr. rewrite Forall_forall in H. by apply H. Qed.

(** Rows, respectively columns, [r*s .. (r+1)*s) of a matrix. *)
Definition row_shard {V} (m : mat V) (s r : Z) : mat V := Mat (cols m) (block (rows m) s r).
Definition col_shard {V} (m : mat V) (s r : Z) : mat V := map_rows s (λ row, block row s r) m.

(** ** Flat buffers *)

(** A flat buffer as [n] rows of [c]. *)
Definition unflatten {V} (c n : Z) (flat : list V) : mat V :=
  Mat c ((λ i, py_slice flat (i * c) ((i + 1) * c)) <$> py_range 0 n).

Section flat.
Context {V : Type}.
Implicit Types (m : mat V).

Lemma sumZ_const {A} (f : A → Z) (l : list A) c :
  (∀ x, x ∈ l → f x = c) → sumZ (f <$> l) = len l * c.
Proof.
  induction l as [|x l IH]; intros Hf; csimpl; [done|].
  rewrite len_cons, Hf, IH by set_solver. lia.
Qed.

Lemma sumZ_rows m l : mat_wf m → (∀ r, r ∈ l → r ∈ rows m) → sumZ (len <$> l) = len l * cols m.
Proof.
  intros [_ Hwf] Hl. rewrite Forall_forall in Hwf. apply sumZ_const. auto.
Qed.

Lemma len_flat m : mat_wf m → len (concat (rows m)) = nrows m * cols m.
Proof. intros Hwf. rewrite <-sumZ_len_concat. by apply sumZ_rows. Qed.

Lemma flat_row m (t : nat) r :
  mat_wf m → rows m !! t = Some r →
  py_slice (concat (rows m)) (Z.of_nat t * cols m) ((Z.of_nat t + 1) * cols m) = r.
Proof.
  intros Hwf Ht. rewrite <-(concat_block (rows m) t r Ht). pose proof (lookup_lt_Some _ _ _ Ht).
  assert (∀ k, (k ≤ length (rows m))%nat → sumZ (len <$> take k (rows m)) = Z.of_nat k * cols m) as Hk.
  { intros k Hk. rewrite (sumZ_rows m); [|done|].
    2:{ intros r' (i & Hi & _)%elem_of_take. by apply list_elem_of_lookup_2 in Hi. }
    unfold len. rewrite length_take. f_equal. lia. }
  rewrite !Hk by lia. f_equal. lia.
Qed.


Lemma unflatten_concat m :
  mat_wf m → unflatten (cols m) (nrows m) (concat (rows m)) = m.
Proof.
  intros Hwf. unfold unflatten. transitivity (Mat (cols m) (rows m)); [|by destruct m].
  f_equal. apply list_eq. intros i. destruct (decide (Z.of_nat i < nrows m)) as [Hi|Hi].
  - rewrite list_lookup_fmap, lookup_py_range by lia. simpl.
    destruct (lookup_lt_is_Some_2 (rows m) i) as [r Hr]; [unfold nrows, len in Hi; lia|].
    rewrite Hr, <-(flat_row m i r Hwf Hr) at 1. done.
  - unfold nrows, len in Hi. rewrite !lookup_ge_None_2; [done|lia|].
    rewrite length_fmap, length_py_range. unfold nrows, len. lia.
Qed.
End flat.
