(* ===== verification/TensorParallel.v ===== *)
(** * Tensor-parallel layers

    [parallel/mappings.py] and [parallel/layers.py] (with [split_tensor_along_last_dim]
    of [parallel/utils.py]).  The ranks of the model-parallel group run the same
    code in step, so a tensor of the code is the list of the ranks' tensors, by
    rank, and the group's world size is the length of that list.  [Mappings] has
    the collective operations, [Layers] the layers built on them; the scalar
    attributes of a layer are the same on all ranks, its parameters are lists by
    rank. *)
From S2P Require Import Prelude ParallelUtils Tensor.

Module Mappings.
Section mappings.
Context `{TorchMat V}.

Definition split_tensor_along_last_dim (tensor : mat V) (num_partitions : Z)
    : res (list (mat V)) :=
  last_dim_size ← divide_and_check_no_remainder (cols tensor) num_partitions;
  Ok (torch_split_last tensor last_dim_size).

Definition _reduce (input_ : list (mat V)) : list (mat V) :=
  if len input_ =? 1 then input_
  else (λ _, all_reduce_sum input_) <$> input_.

(** The body of [_split] on rank [rank] of a group of [world_size]. *)
Definition _split_rank (world_size rank : Z) (input_ : mat V) : res (mat V) :=
  if world_size =? 1 then Ok input_
  else
    input_list ← split_tensor_along_last_dim input_ world_size;
    py_get input_list rank.

(** [body(rank, x)] on every rank. *)
Definition on_ranks {A B} (body : Z → A → res B) (xs : list A) : res (list B) :=
  mapM (λ '(r, x), body r x) (zip (py_range 0 (len xs)) xs).

Definition _split (input_ : list (mat V)) : res (list (mat V)) :=
  on_ranks (_split_rank (len input_)) input_.

Definition _gather (input_ : list (mat V)) : list (mat V) :=
  if len input_ =? 1 then input_
  else (λ _, torch_cat_last (all_gather input_)) <$> input_.

(** The four autograd functions: forward, and backward on the gradients. *)
Definition CopyToModelParallelRegion_forward (input_ : list (mat V)) := input_.
Definition CopyToModelParallelRegion_backward (grad_output : list (mat V)) :=
  _reduce grad_output.
Definition ReduceFromModelParallelRegion_forward (input_ : list (mat V)) := _reduce input_.
Definition ReduceFromModelParallelRegion_backward (grad_output : list (mat V)) := grad_output.
Definition ScatterToModelParallelRegion_forward (input_ : list (mat V)) := _split input_.
Definition ScatterToModelParallelRegion_backward (grad_output : list (mat V)) :=
  _gather grad_output.
Definition GatherFromModelParallelRegion_forward (input_ : list (mat V)) := _gather input_.
Definition GatherFromModelParallelRegion_backward (grad_output : list (mat V)) :=
  _split grad_output.

Definition copy_to_model_parallel_region := CopyToModelParallelRegion_forward.
Definition reduce_from_model_parallel_region := ReduceFromModelParallelRegion_forward.
Definition scatter_to_model_parallel_region := ScatterToModelParallelRegion_forward.
Definition gather_from_model_parallel_region := GatherFromModelParallelRegion_forward.
End mappings.
End Mappings.
Import Mappings.

Module Layers.
Section layers.
Context `{TorchMat V}.
(** [torch.empty(r, c)], and the initializers ([init_method(t)] overwrites [t]). *)
Context (torch_empty : Z → Z → mat V).

(** [weight_list[rank::world_size]] *)
Definition every {A} (l : list A) (start step : Z) : list A :=
  snd <$> filter (λ '(i, _), start ≤ i ∧ (i - start) `mod` step = 0)
            (zip (py_range 0 (len l)) l).

(** The new contents of [weight], and the value returned.  [partition_dim] is
    0 (rows) or 1 (columns). *)
Definition _initialize_affine_weight (world_size rank : Z) (weight : mat V)
    (out_features in_features per_partition_size partition_dim : Z)
    (init_method : mat V → mat V) (stride : Z) (return_master_weight : bool)
    : res (mat V * option (mat V)) :=
  if world_size =? 1 then
    let weight := init_method weight in
    Ok (weight, if return_master_weight then Some weight else None)
  else
    let master_weight := init_method (torch_empty out_features in_features) in
    per_partition_per_stride_size ←
      divide_and_check_no_remainder per_partition_size stride;
    let weight_list :=
      if partition_dim =? 0
      then torch_split_first master_weight per_partition_per_stride_size
      else torch_split_last master_weight per_partition_per_stride_size in
    let my_weight_list := every weight_list rank world_size in
    let weight :=
      if partition_dim =? 0
      then torch_cat_first my_weight_list else torch_cat_last my_weight_list in
    Ok (weight, if return_master_weight then Some master_weight else None).

(** *** VocabParallelEmbedding *)

Record VocabParallelEmbedding := {
  vpe_vocab_start_index : Z;
  vpe_vocab_end_index : Z;
  vpe_weight : mat V;
}.

(** [__init__] on one rank. *)
Definition VocabParallelEmbedding_init (world_size rank : Z)
    (num_embeddings embedding_dim : Z) (init_method : mat V → mat V)
    : res VocabParallelEmbedding :=
  '(vocab_start_index, vocab_end_index) ←
    VocabUtility.vocab_range_from_global_vocab_size num_embeddings rank world_size;
  let num_embeddings_per_partition := vocab_end_index - vocab_start_index in
  let weight := torch_empty num_embeddings_per_partition embedding_dim in
  '(weight, _) ← _initialize_affine_weight world_size rank weight num_embeddings
                   embedding_dim num_embeddings_per_partition 0 init_method 1 false;
  Ok {| vpe_vocab_start_index := vocab_start_index;
        vpe_vocab_end_index := vocab_end_index; vpe_weight := weight |}.

(** The part of [forward] before the reduction, on one rank. *)
Definition vocab_embed_rank (self : VocabParallelEmbedding) (input_ : list Z)
    : res (mat V) :=
  let input_mask := (λ x, (x <? vpe_vocab_start_index self)
                          || (vpe_vocab_end_index self <=? x)) <$> input_ in
  let masked_input := zip_with (λ (m : bool) x,
                        if m then 0 else x - vpe_vocab_start_index self)
                        input_mask input_ in
  output_parallel ← F_embedding masked_input (vpe_weight self);
  Ok (Mat (cols output_parallel)
        (zip_with (λ (m : bool) r, if m then (λ _, szero) <$> r else r)
           input_mask (rows output_parallel))).

Definition VocabParallelEmbedding_forward (self : list VocabParallelEmbedding)
    (input_ : list Z) : res (list (mat V)) :=
  output_parallel ← mapM (λ l, vocab_embed_rank l input_) self;
  Ok (reduce_from_model_parallel_region output_parallel).

(** *** ParallelEmbedding *)

(** [__init__] on one rank: a block of the columns of the table. *)
Definition ParallelEmbedding_init (world_size rank : Z)
    (num_embeddings embedding_dim : Z) (init_method : mat V → mat V) : res (mat V) :=
  embedding_dim_per_partition ← divide_and_check_no_remainder embedding_dim world_size;
  let weight := torch_empty num_embeddings embedding_dim_per_partition in
  fst <$> _initialize_affine_weight world_size rank weight num_embeddings embedding_dim
            embedding_dim_per_partition 1 init_method 1 false.

(** [self] is the list of the ranks' weights. *)
Definition ParallelEmbedding_forward (self : list (mat V)) (input_ : list (list Z))
    : res (list (mat V)) :=
  let input_parallel := input_ in (* copy_to_model_parallel_region *)
  output_parallel ← mapM (λ '(weight, ids), F_embedding ids weight)
                      (zip self input_parallel);
  Ok (gather_from_model_parallel_region output_parallel).

(** *** ColumnParallelLinear *)

(** A weight and its optional bias on one rank. *)
Definition params : Type := mat V * option (list V).

Record ColumnParallelLinear := {
  cpl_gather_output : bool;
  cpl_params : list params;
}.

(** [__init__] on one rank; the bias starts at zero. *)
Definition ColumnParallelLinear_init (world_size rank : Z)
    (in_features out_features : Z) (bias : bool)
    (init_method : mat V → mat V) (stride : Z) (keep_master_weight_for_test : bool)
    : res (params * option (mat V)) :=
  output_size_per_partition ← divide_and_check_no_remainder out_features world_size;
  let weight := torch_empty output_size_per_partition in_features in
  let bias := if bias then Some ((λ _, szero) <$> py_range 0 output_size_per_partition)
              else None in
  '(weight, master_weight) ←
    _initialize_affine_weight world_size rank weight out_features in_features
      output_size_per_partition 0 init_method stride keep_master_weight_for_test;
  Ok ((weight, bias), master_weight).

Definition ColumnParallelLinear_forward (self : ColumnParallelLinear)
    (input_ : list (mat V)) : list (mat V) :=
  let input_parallel := copy_to_model_parallel_region input_ in
  let output_parallel :=
    zip_with (λ '(weight, bias) x, F_linear x weight bias)
      (cpl_params self) input_parallel in
  if cpl_gather_output self
  then gather_from_model_parallel_region output_parallel
  else output_parallel.

(** *** RowParallelLinear *)

Record RowParallelLinear := {
  rpl_input_is_parallel : bool;
  rpl_params : list params;
}.

Definition RowParallelLinear_init (world_size rank : Z)
    (in_features out_features : Z) (bias : bool)
    (init_method : mat V → mat V) (stride : Z) (keep_master_weight_for_test : bool)
    : res (params * option (mat V)) :=
  input_size_per_partition ← divide_and_check_no_remainder in_features world_size;
  let weight := torch_empty out_features input_size_per_partition in
  let bias := if bias then Some ((λ _, szero) <$> py_range 0 out_features) else None in
  '(weight, master_weight) ←
    _initialize_affine_weight world_size rank weight out_features in_features
      input_size_per_partition 1 init_method stride keep_master_weight_for_test;
  Ok ((weight, bias), master_weight).

Definition RowParallelLinear_forward (self : RowParallelLinear)
    (input_ : list (mat V)) : res (list (mat V)) :=
  input_parallel ← (if rpl_input_is_parallel self then Ok input_
                    else scatter_to_model_parallel_region input_);
  let output_parallel :=
    zip_with (λ '(weight, _) x, F_linear x weight None)
      (rpl_params self) input_parallel in
  let output_ := reduce_from_model_parallel_region output_parallel in
  Ok (zip_with (λ '(_, bias) o, map_rows (cols o) (add_bias bias) o)
        (rpl_params self) output_).
End layers.
End Layers.
Import Layers.

(** ** Collectives on tensors computed from the same rows *)

Section collectives.
Context `{TorchMatLaws V}.

Lemma range_pos w : 0 < w → py_range 0 w = 0 :: py_range 1 w.
Proof. intros. by rewrite py_range_cons. Qed.

Lemma len_range w : 0 ≤ w → len (py_range 0 w) = w.
Proof. intros. unfold len. rewrite length_py_range. lia. Qed.

Lemma const_ranks {A B} (x : B) (f : Z → A) w :
  (λ _, x) <$> (f <$> py_range 0 w) = replicate (Z.to_nat w) x.
Proof.
  rewrite <-list_fmap_compose. apply list_eq. intros i.
  rewrite list_lookup_fmap. destruct (decide (Z.of_nat i < w)).
  - rewrite lookup_py_range, lookup_replicate_2 by lia. done.
  - rewrite !lookup_ge_None_2; [done| |]; rewrite ?length_replicate, ?length_py_range; lia.
Qed.

Lemma gather_rows {A} w s (f : Z → A → list V) (X : list A) :
  0 < w → 0 ≤ s → (∀ r x, 0 ≤ r < w → x ∈ X → len (f r x) = s) →
  _gather ((λ r, Mat s (f r <$> X)) <$> py_range 0 w)
  = replicate (Z.to_nat w)
      (Mat (w * s) ((λ x, concat ((λ r, f r x) <$> py_range 0 w)) <$> X)).
Proof.
  intros Hw Hs Hf. unfold _gather. rewrite len_fmap, len_range by lia.
  destruct (Z.eqb_spec w 1) as [->|Hne].
  - change (py_range 0 1) with [0]. change (Z.to_nat 1) with 1%nat. csimpl.
    rewrite Z.mul_1_l. do 2 f_equal. apply list_fmap_ext. intros. by rewrite app_nil_r.
  - rewrite const_ranks. f_equal. rewrite all_gather_spec.
    rewrite (torch_cat_last_spec _ (len X)).
    + rewrite range_pos by done. rewrite hcat_rows. f_equal.
      rewrite <-range_pos, len_range by lia. done.
    + rewrite range_pos by done. done.
    + apply Forall_fmap, Forall_forall. intros r Hr%elem_of_py_range. split.
      * apply mat_wf_rows; [done|]. auto.
      * unfold nrows; simpl. apply len_fmap.
Qed.

Lemma reduce_rows {A} w c (f : Z → A → list V) (X : list A) :
  0 < w → 0 ≤ c → (∀ r x, 0 ≤ r < w → x ∈ X → len (f r x) = c) →
  _reduce ((λ r, Mat c (f r <$> X)) <$> py_range 0 w)
  = replicate (Z.to_nat w)
      (Mat c ((λ x, foldl (zip_with sadd) (f 0 x) ((λ r, f r x) <$> py_range 1 w)) <$> X)).
Proof.
  intros Hw Hc Hf. unfold _reduce. rewrite len_fmap, len_range by lia.
  destruct (Z.eqb_spec w 1) as [->|Hne]; [done|].
  rewrite const_ranks. f_equal. rewrite (range_pos w) by done. csimpl.
  rewrite all_reduce_sum_spec; [apply mat_add_rows|].
  assert (∀ r, 0 ≤ r < w → mat_wf (Mat c (f r <$> X)) ∧
    nrows (Mat c (f r <$> X)) = len X) as Hwf.
  { intros r Hr. split; [apply mat_wf_rows; auto|]. unfold nrows; simpl. apply len_fmap. }
  constructor.
  - split; [|done]. apply Hwf; lia.
  - apply Forall_fmap, Forall_forall. intros r Hr%elem_of_py_range. simpl.
    destruct (Hwf r) as [? Hr']; [lia|]. destruct (Hwf 0) as [_ H0']; [lia|].
    by rewrite Hr', H0'.
Qed.

(** [_split] hands rank [r] its columns. *)
Lemma split_ok w s (m : mat V) :
  0 < w → 0 < s → mat_wf m → cols m = w * s →
  _split (replicate (Z.to_nat w) m) = Ok ((λ r, col_shard m s r) <$> py_range 0 w).
Proof.
  intros Hw Hs Hm Hc. unfold _split, on_ranks.
  assert (len (replicate (Z.to_nat w) m) = w) as Hlen.
  { unfold len. rewrite length_replicate. lia. }
  rewrite Hlen. apply mapM_res_Ok.
  apply Forall2_same_length_lookup. split.
  { rewrite length_zip_with, length_fmap, length_replicate, length_py_range. lia. }
  intros i [r x] y Hi Hy.
  apply lookup_zip_with_Some in Hi as (r' & x' & [= -> ->] & Hr & Hx).
  apply lookup_replicate in Hx as [-> Hi]. rewrite lookup_py_range in Hr by lia.
  injection Hr as <-. rewrite list_lookup_fmap, lookup_py_range in Hy by lia.
  injection Hy as <-. unfold _split_rank.
  destruct (Z.eqb_spec w 1) as [->|Hne].
  - assert (i = 0%nat) as -> by lia. unfold col_shard, map_rows.
    destruct m as [c rs]; simpl in *. f_equal. f_equal; [lia|].
    rewrite <-(list_fmap_id rs) at 1. apply list_fmap_ext. intros j r Hr.
    symmetry. apply block_all. unfold id. rewrite (rows_len (Mat c rs) r Hm); [simpl; lia|].
    by apply list_elem_of_lookup_2 with j.
  - unfold split_tensor_along_last_dim. rewrite Hc, Z.mul_comm, divide_mult by done. simpl.
    rewrite (torch_split_last_spec m s w) by done. apply py_get_Ok; [lia|].
    rewrite Z.add_0_l, Nat2Z.id, list_lookup_fmap, lookup_py_range by lia. done.
Qed.
End collectives.

(** ** Sharded layers compute the serial layers *)

(** The parameters of the ranks when the full weight [W] and bias [b] are cut
    into [w] row blocks of [s] output features, respectively into [w] column
    blocks of [s] input features with the bias kept whole. *)
Definition column_shards {V} (W : mat V) (b : option (list V)) (w s : Z) : list params :=
  (λ r, (row_shard W s r, (λ b, block b s r) <$> b)) <$> py_range 0 w.
Definition row_shards {V} (W : mat V) (b : option (list V)) (w s : Z) : list params :=
  (λ r, (col_shard W s r, b)) <$> py_range 0 w.

Section linear.
Context `{TorchMatLaws V}.

Lemma zip_ranks {A B C} (g : A → B → C) (f : Z → A) (x : B) w :
  zip_with g (f <$> py_range 0 w) (replicate (Z.to_nat w) x)
  = (λ r, g (f r) x) <$> py_range 0 w.
Proof.
  rewrite zip_with_replicate_r_eq; [by rewrite <-list_fmap_compose|].
  rewrite length_fmap, length_py_range. lia.
Qed.

Lemma zip_ranges {A B C} (g : A → B → C) (f : Z → A) (h : Z → B) w :
  zip_with g (f <$> py_range 0 w) (h <$> py_range 0 w)
  = (λ r, g (f r) (h r)) <$> py_range 0 w.
Proof. by rewrite zip_with_fmap_l, zip_with_fmap_r, zip_with_diag. Qed.

Lemma add_bias_block (b : option (list V)) l s r :
  add_bias ((λ b, block b s r) <$> b) (block l s r) = block (add_bias b l) s r.
Proof. destruct b; simpl; [by rewrite block_zip_with|done]. Qed.

Lemma len_add_bias (b : option (list V)) l :
  (∀ b', b = Some b' → len b' = len l) → len (add_bias b l) = len l.
Proof.
  intros Hb. destruct b as [b|]; simpl; [|done]. specialize (Hb b eq_refl).
  unfold len in *. rewrite length_zip_with. lia.
Qed.

(** What a rank of a column-parallel layer computes: its columns of the
    serial result. *)
Lemma column_rank (W x : mat V) b w s r :
  0 ≤ s → nrows W = w * s → 0 ≤ r < w →
  F_linear x (row_shard W s r) ((λ b, block b s r) <$> b) = col_shard (F_linear x W b) s r.
Proof.
  intros Hs HW Hr. rewrite !F_linear_spec. unfold col_shard, map_rows, row_shard; simpl.
  f_equal.
  - unfold nrows; simpl. by apply len_block with w.
  - rewrite <-list_fmap_compose. apply list_fmap_ext. intros i row _. simpl.
    by rewrite <-block_fmap, add_bias_block.
Qed.

Lemma column_forward_parallel (W x : mat V) b w s :
  0 ≤ s → nrows W = w * s →
  ColumnParallelLinear_forward
    {| cpl_gather_output := false; cpl_params := column_shards W b w s |}
    (replicate (Z.to_nat w) x)
  = (λ r, col_shard (F_linear x W b) s r) <$> py_range 0 w.
Proof.
  intros Hs HW. unfold ColumnParallelLinear_forward; simpl.
  unfold copy_to_model_parallel_region, CopyToModelParallelRegion_forward, column_shards.
  rewrite zip_ranks. apply fmap_range_ext. intros r Hr. by apply column_rank with w.
Qed.

(** Glueing the column blocks of a matrix. *)
Lemma gather_col_shards (m : mat V) w s :
  0 < w → 0 ≤ s → mat_wf m → cols m = w * s →
  _gather ((λ r, col_shard m s r) <$> py_range 0 w) = replicate (Z.to_nat w) m.
Proof.
  intros Hw Hs Hm Hc. unfold col_shard, map_rows.
  rewrite (gather_rows w s (λ r row, block row s r) (rows m)); [|done..|].
  - f_equal. destruct m as [c rs]; simpl in *. f_equal; [done|].
    rewrite <-(list_fmap_id rs) at 2. apply fmap_list_ext. intros row Hrow.
    apply concat_blocks; [done|lia|]. change (len row = w * s).
    by rewrite (rows_len _ _ Hm Hrow).
  - intros r row Hr Hrow. apply (len_block _ _ w); [done|done|].
    by rewrite (rows_len m row).
Qed.

Lemma F_linear_wf (x W : mat V) b :
  (∀ b', b = Some b' → len b' = nrows W) →
  mat_wf (F_linear x W b) ∧ cols (F_linear x W b) = nrows W
    ∧ nrows (F_linear x W b) = nrows x.
Proof.
  intros Hb. rewrite F_linear_spec. unfold map_rows. split_and!; [|done|].
  - apply mat_wf_rows; [apply len_nonneg|]. intros row _. unfold nrows in *.
    by rewrite len_add_bias; rewrite len_fmap.
  - unfold nrows; simpl. apply len_fmap.
Qed.

Lemma column_forward_gather (W x : mat V) b w s :
  0 < w → 0 ≤ s → nrows W = w * s → (∀ b', b = Some b' → len b' = nrows W) →
  ColumnParallelLinear_forward
    {| cpl_gather_output := true; cpl_params := column_shards W b w s |}
    (replicate (Z.to_nat w) x) = replicate (Z.to_nat w) (F_linear x W b).
Proof.
  intros Hw Hs HW Hb. pose proof (column_forward_parallel W x b w s Hs HW) as Hpar.
  destruct (F_linear_wf x W b Hb) as (Hwf & Hc & _).
  rewrite <-(gather_col_shards (F_linear x W b) w s) by (done || congruence).
  by rewrite <-Hpar.
Qed.

(** [scatter] then [gather] is the identity. *)
Lemma gather_split w s (m : mat V) :
  0 < w → 0 < s → mat_wf m → cols m = w * s →
  _gather <$> _split (replicate (Z.to_nat w) m) = Ok (replicate (Z.to_nat w) m).
Proof.
  intros Hw Hs Hm Hc. rewrite (split_ok w s m) by done. simpl.
  f_equal. apply gather_col_shards; [done|lia|done..].
Qed.
End linear.

Section row_linear.
Context `{TorchMatLaws V} `{!DotSplit V}.

(** Adding up the partial products of the first [n+1] column blocks. *)
Lemma partial_products (row : list V) (W : list (list V)) s n :
  0 ≤ s → 0 ≤ n → (n + 1) * s ≤ len row → (∀ c, c ∈ W → len c = len row) →
  foldl (zip_with sadd) ((λ c, dot (block row s 0) (block c s 0)) <$> W)
    ((λ r, (λ c, dot (block row s r) (block c s r)) <$> W) <$> py_range 1 (n + 1))
  = (λ c, dot (py_slice row 0 ((n + 1) * s)) (py_slice c 0 ((n + 1) * s))) <$> W.
Proof.
  intros Hs Hn. revert n Hn. apply (natlike_ind (λ n, _ → _ → _ = _)).
  - intros _ _. done.
  - intros n Hn IH Hlen HW. rewrite <-Z.add_1_r in *.
    rewrite (py_range_snoc 1), fmap_app, foldl_app, IH by (done || nia). csimpl.
    rewrite zip_with_fmap_l, zip_with_fmap_r, zip_with_diag.
    apply fmap_list_ext. intros c Hc. specialize (HW c Hc).
    rewrite !(prefix_block _ s (n + 1)) by lia. rewrite dot_app; [done|].
    rewrite !len_py_slice by nia. lia.
Qed.

Lemma row_products (x W : mat V) w s :
  0 < w → 0 ≤ s → mat_wf x → mat_wf W → cols x = w * s → cols W = w * s →
  _reduce ((λ r, F_linear (col_shard x s r) (col_shard W s r) None) <$> py_range 0 w)
  = replicate (Z.to_nat w) (F_linear x W None).
Proof.
  intros Hw Hs Hx HW Hcx HcW.
  transitivity (_reduce ((λ r, Mat (nrows W)
    ((λ row, (λ c, dot (block row s r) (block c s r)) <$> rows W) <$> rows x))
    <$> py_range 0 w)).
  { f_equal. apply fmap_range_ext. intros r _. rewrite F_linear_spec.
    unfold col_shard, map_rows, nrows; simpl. f_equal; [apply len_fmap|].
    rewrite <-!list_fmap_compose. apply list_fmap_ext. intros. simpl.
    by rewrite <-list_fmap_compose. }
  rewrite (reduce_rows w (nrows W)); [|done|apply len_nonneg|by intros; rewrite len_fmap].
  f_equal. rewrite F_linear_spec. unfold map_rows. f_equal.
  apply fmap_list_ext. intros row Hrow. pose proof (rows_len _ _ Hx Hrow) as Hlr.
  pose proof (partial_products row (rows W) s (w - 1)) as Hpp.
  replace (w - 1 + 1) with w in Hpp by lia. rewrite Hpp; [|lia..|].
  - simpl. apply fmap_list_ext. intros c Hc. pose proof (rows_len _ _ HW Hc) as Hlc.
    rewrite <-Hcx, <-Hlr at 1. rewrite <-HcW, <-Hlc. by rewrite !py_slice_all.
  - intros c Hc. rewrite (rows_len _ _ HW Hc). lia.
Qed.

Lemma row_forward_parallel (W x : mat V) b w s :
  0 < w → 0 ≤ s → mat_wf x → mat_wf W → cols x = w * s → cols W = w * s →
  RowParallelLinear_forward
    {| rpl_input_is_parallel := true; rpl_params := row_shards W b w s |}
    ((λ r, col_shard x s r) <$> py_range 0 w)
  = Ok (replicate (Z.to_nat w) (F_linear x W b)).
Proof.
  intros Hw Hs Hx HW Hcx HcW. unfold RowParallelLinear_forward; simpl.
  unfold row_shards, reduce_from_model_parallel_region, ReduceFromModelParallelRegion_forward.
  rewrite (zip_ranges (λ '(weight, _) x, F_linear x weight None)).
  rewrite row_products by done. rewrite zip_ranks. f_equal.
  rewrite <-(const_ranks _ (λ r, r)), <-list_fmap_compose. apply list_fmap_ext.
  intros i r _. simpl. rewrite !F_linear_spec. unfold map_rows; simpl. f_equal.
  rewrite <-list_fmap_compose. by apply list_fmap_ext.
Qed.
End row_linear.

(** ** The vocabulary-parallel embedding *)

Definition vocab_shards {V} (W : mat V) (w s : Z) : list VocabParallelEmbedding :=
  (λ r, {| vpe_vocab_start_index := r * s; vpe_vocab_end_index := (r + 1) * s;
           vpe_weight := row_shard W s r |}) <$> py_range 0 w.

Section vocab.
Context `{TorchMatLaws V} `{!ScalarZero V}.
Context (W : mat V) (w s : Z).
Hypothesis (Hw : 0 < w) (Hs : 0 < s) (HW : mat_wf W) (HV : nrows W = w * s).

Definition zero_row : list V := replicate (Z.to_nat (cols W)) szero.

(** The row of [id] if it is one of the ids [lo .. hi), zeros otherwise. *)
Definition row_if (lo hi id : Z) : list V :=
  if (lo <=? id) && (id <? hi) then default [] (rows W !! Z.to_nat id) else zero_row.

Lemma row_lookup id : 0 ≤ id < w * s → ∃ r, rows W !! Z.to_nat id = Some r ∧ len r = cols W.
Proof using Type*.
  intros Hid. destruct (lookup_lt_is_Some_2 (rows W) (Z.to_nat id)) as [r Hr].
  { unfold nrows, len in HV. lia. }
  exists r. split; [done|]. apply rows_len; [done|]. by apply list_elem_of_lookup_2 in Hr.
Qed.

Lemma zeros_of (r : list V) : len r = cols W → (λ _, szero) <$> r = zero_row.
Proof using Type*.
  intros Hr. unfold zero_row. rewrite <-Hr. unfold len. rewrite Nat2Z.id.
  clear Hr. induction r; csimpl; [done|]. by f_equal.
Qed.

Lemma zip_zero_l (l : list V) : len l = cols W → zip_with sadd zero_row l = l.
Proof using Type*.
  intros Hl. rewrite <-(zeros_of l Hl), zip_with_fmap_l, zip_with_diag.
  rewrite <-(list_fmap_id l) at 2. apply list_fmap_ext. intros. apply sadd_0_l.
Qed.

Lemma zip_zero_r (l : list V) : len l = cols W → zip_with sadd l zero_row = l.
Proof using Type*.
  intros Hl. rewrite <-(zeros_of l Hl), zip_with_fmap_r, zip_with_diag.
  rewrite <-(list_fmap_id l) at 2. apply list_fmap_ext. intros. apply sadd_0_r.
Qed.

Lemma len_zero_row : len zero_row = cols W.
Proof using Type*. destruct HW. unfold zero_row, len. rewrite length_replicate. lia. Qed.

Lemma len_row_if lo hi id : 0 ≤ lo → hi ≤ w * s → len (row_if lo hi id) = cols W.
Proof using Type*.
  intros Hlo Hhi. unfold row_if. destruct ((lo <=? id) && (id <? hi)) eqn:E.
  - bool_prop. destruct (row_lookup id) as (r & -> & Hr); [lia|done].
  - apply len_zero_row.
Qed.

(** One rank's contribution. *)
Lemma vocab_rank ids r :
  0 ≤ r < w →
  vocab_embed_rank {| vpe_vocab_start_index := r * s; vpe_vocab_end_index := (r + 1) * s;
                      vpe_weight := row_shard W s r |} ids
  = Ok (Mat (cols W) (row_if (r * s) ((r + 1) * s) <$> ids)).
Proof using Type*.
  intros Hr. unfold vocab_embed_rank. simpl.
  set (mask := λ x, (x <? r * s) || ((r + 1) * s <=? x)).
  set (sel := λ x, if mask x then 0 else x - r * s).
  rewrite zip_with_fmap_l, zip_with_diag.
  change ((λ a, if mask a then 0 else a - r * s) <$> ids) with (sel <$> ids).
  set (raw := λ x, default [] (rows W !! Z.to_nat (r * s + sel x))).
  assert (∀ x, 0 ≤ sel x < s) as Hsel.
  { intros x. unfold sel, mask. destruct (_ || _) eqn:E; [lia|]. bool_prop. lia. }
  rewrite F_embedding_spec. simpl. rewrite (mapM_res_total _ (λ i,
    default [] (rows W !! Z.to_nat (r * s + i)))).
  - simpl. f_equal. f_equal. rewrite <-list_fmap_compose, zip_with_fmap_l, zip_with_fmap_r,
      zip_with_diag. apply fmap_list_ext. intros x _. simpl.
    destruct (row_lookup (r * s + sel x)) as (row & Hrow & Hlen); [specialize (Hsel x); nia|].
    rewrite Hrow. simpl. unfold row_if. unfold sel in Hrow. destruct (mask x) eqn:E.
    + unfold mask in E. bool_prop. rewrite (zeros_of row Hlen).
      destruct (Z.leb_spec (r * s) x), (Z.ltb_spec x ((r + 1) * s)); simpl; (done || lia).
    + unfold mask in E. bool_prop.
      destruct (Z.leb_spec (r * s) x), (Z.ltb_spec x ((r + 1) * s)); simpl; try lia.
      replace (r * s + (x - r * s)) with x in Hrow by lia. by rewrite Hrow.
  - intros i (x & -> & _)%list_elem_of_fmap. specialize (Hsel x).
    assert (nrows (row_shard W s r) = s) as Hnr.
    { unfold nrows, row_shard. simpl. by apply len_block with w; [lia|..]. }
    rewrite Hnr. destruct (Z.ltb_spec (sel x) 0), (Z.leb_spec s (sel x)); simpl; try lia.
    apply py_get_Ok; [lia|]. unfold row_shard, block. simpl.
    rewrite lookup_py_slice by nia.
    replace (Z.to_nat (r * s) + Z.to_nat (sel x))%nat with (Z.to_nat (r * s + sel x)) by nia.
    destruct (row_lookup (r * s + sel x)) as (row & -> & _); [nia|]. done.
Qed.

(** Summing the contributions of the first ranks collects their ids. *)
Lemma vocab_sum id n :
  0 ≤ n → (n + 1) * s ≤ w * s →
  foldl (zip_with sadd) (row_if (0 * s) ((0 + 1) * s) id)
    ((λ r, row_if (r * s) ((r + 1) * s) id) <$> py_range 1 (n + 1))
  = row_if 0 ((n + 1) * s) id.
Proof using Type*.
  revert n. apply (natlike_ind (λ n, _ → _ = _)); [done|].
  intros n Hn IH Hle. rewrite <-Z.add_1_r in *.
  rewrite (py_range_snoc 1), fmap_app, foldl_app, IH by nia. csimpl.
  pose proof (len_row_if 0 ((n + 1) * s) id) as L1.
  pose proof (len_row_if ((n + 1) * s) ((n + 1 + 1) * s) id) as L2.
  unfold row_if in *.
  destruct (Z.leb_spec 0 id), (Z.ltb_spec id ((n + 1) * s)),
    (Z.leb_spec ((n + 1) * s) id), (Z.ltb_spec id ((n + 1 + 1) * s)); simpl in *; try nia;
    first [ apply zip_zero_r; apply L1; nia | apply zip_zero_l; apply L2; nia
          | apply zip_zero_l, len_zero_row ].
Qed.

Lemma vocab_forward ids :
  VocabParallelEmbedding_forward (vocab_shards W w s) ids
  = Ok (replicate (Z.to_nat w) (Mat (cols W) (row_if 0 (w * s) <$> ids))).
Proof using Type*.
  unfold VocabParallelEmbedding_forward, vocab_shards.
  rewrite mapM_res_fmap. rewrite (mapM_res_total _ (λ r,
    Mat (cols W) (row_if (r * s) ((r + 1) * s) <$> ids))).
  2:{ intros r Hr%elem_of_py_range. by apply vocab_rank. }
  simpl. f_equal. unfold reduce_from_model_parallel_region,
    ReduceFromModelParallelRegion_forward.
  destruct HW as [Hc _].
  rewrite (reduce_rows w (cols W) (λ r, row_if (r * s) ((r + 1) * s))); [|done|done|].
  - f_equal. f_equal. apply list_fmap_ext. intros i id _.
    pose proof (vocab_sum id (w - 1)) as E. replace (w - 1 + 1) with w in E by lia.
    apply E; lia.
  - intros r id Hr _. apply len_row_if; nia.
Qed.
End vocab.

(** ** The column-parallel embedding *)

Section embedding.
Context `{TorchMatLaws V}.

(** A lookup in a column block of the table is the column block of the
    lookup. *)
Lemma embedding_col_shard (W : mat V) ids s r :
  F_embedding ids (col_shard W s r)
  = (λ m, col_shard m s r) <$> F_embedding ids W.
Proof.
  rewrite !F_embedding_spec. assert (nrows (col_shard W s r) = nrows W) as ->.
  { apply len_fmap. }
  assert (mapM (λ i, if (i <? 0) || (nrows W <=? i) then Raise IndexError
                     else py_get (rows (col_shard W s r)) i) ids
    = fmap (M := list) (λ row, block row s r) <$>
      mapM (λ i, if (i <? 0) || (nrows W <=? i) then Raise IndexError
                 else py_get (rows W) i) ids) as ->; [|by destruct (mapM _ _)].
  induction ids as [|i ids IH]; [done|]. cbn [mapM]. rewrite IH. clear IH.
  destruct ((i <? 0) || (nrows W <=? i)); [done|].
  replace (py_get (rows (col_shard W s r)) i)
    with ((λ row, block row s r) <$> py_get (rows W) i).
  { destruct (py_get (rows W) i); [|done]. simpl. by destruct (mapM _ ids). }
  unfold py_get, col_shard, map_rows. simpl. rewrite len_fmap.
  destruct (_ <? 0); [done|]. rewrite list_lookup_fmap. by destruct (rows W !! _).
Qed.

Lemma embedding_wf (W : mat V) ids m :
  mat_wf W → F_embedding ids W = Ok m → mat_wf m ∧ cols m = cols W.
Proof.
  intros HW. rewrite F_embedding_spec. intros (rs & Hrs & ->)%fmap_Ok. split; [|done].
  split; [apply HW|]. simpl. apply mapM_res_Ok in Hrs.
  apply Forall_lookup_2. intros i row Hi. destruct (Forall2_lookup_r _ _ _ _ _ Hrs Hi)
    as (id & _ & Hid). destruct (_ || _); [done|]. apply (rows_len _ _ HW).
  unfold py_get in Hid. destruct (_ <? 0); [done|].
  destruct (rows W !! _) eqn:E; [|done]. injection Hid as ->. by apply list_elem_of_lookup_2 in E.
Qed.
End embedding.

(** ** Initialization *)

Section initialize.
Context `{TorchMatLaws V} (torch_empty : Z → Z → mat V) (init_method : mat V → mat V).

Lemma every_nth {A} (f : Z → A) r w :
  0 ≤ r < w → every (f <$> py_range 0 w) r w = [f r].
Proof.
  intros Hr. unfold every. rewrite len_fmap, len_range by lia.
  replace (zip (py_range 0 w) (f <$> py_range 0 w))
    with ((λ i, (i, f i)) <$> py_range 0 w)
    by (rewrite zip_with_fmap_r, zip_with_diag; done).
  rewrite <-(py_range_app 0 r w) by lia. rewrite (py_range_cons r w) by lia.
  rewrite fmap_app, fmap_cons, filter_app, filter_none, filter_cons_True, filter_none.
  - done.
  - intros [i y] (i' & [= -> ->] & Hi%elem_of_py_range)%list_elem_of_fmap [_ Hmod].
    rewrite Z.mod_small in Hmod by lia. lia.
  - split; [lia|]. rewrite Z.sub_diag. apply Z.mod_0_l. lia.
  - intros [i y] (i' & [= -> ->] & Hi%elem_of_py_range)%list_elem_of_fmap [Hle _]. lia.
Qed.

Lemma divide_by_1 a : divide_and_check_no_remainder a 1 = Ok a.
Proof. apply divide_Ok; lia. Qed.

(** With one stride, rank [r] keeps block [r] of the rows, respectively of
    the columns, of the master weight. *)
Lemma initialize_rows (weight W : mat V) w s r out inf ret :
  0 ≤ r < w → 0 < s → W = init_method (torch_empty out inf) → nrows W = w * s →
  (w = 1 → weight = torch_empty out inf) →
  ∃ master, _initialize_affine_weight torch_empty w r weight out inf s 0 init_method 1 ret
    = Ok (row_shard W s r, master).
Proof.
  intros Hr Hs -> HW Hweight. unfold _initialize_affine_weight.
  destruct (Z.eqb_spec w 1) as [->|Hne].
  - rewrite Hweight by done. assert (r = 0) as -> by lia. eexists. do 2 f_equal.
    destruct (init_method _) as [c rs]. unfold row_shard; simpl. f_equal.
    symmetry. apply block_all. unfold nrows in HW. simpl in HW. lia.
  - rewrite divide_by_1. simpl.
    rewrite (torch_split_first_spec _ s w) by done.
    rewrite every_nth by done. simpl. rewrite torch_cat_first_spec by done.
    simpl. rewrite app_nil_r. by eexists.
Qed.

Lemma initialize_cols (weight W : mat V) w s r out inf ret :
  0 ≤ r < w → 0 < s → W = init_method (torch_empty out inf) → mat_wf W →
  cols W = w * s → (w = 1 → weight = torch_empty out inf) →
  ∃ master, _initialize_affine_weight torch_empty w r weight out inf s 1 init_method 1 ret
    = Ok (col_shard W s r, master).
Proof.
  intros Hr Hs -> Hwf HW Hweight. unfold _initialize_affine_weight.
  destruct (Z.eqb_spec w 1) as [->|Hne].
  - rewrite Hweight by done. assert (r = 0) as -> by lia. eexists. do 2 f_equal.
    destruct (init_method _) as [c rs]. unfold col_shard, map_rows; simpl in *.
    f_equal; [lia|]. rewrite <-(list_fmap_id rs) at 1. apply fmap_list_ext.
    intros row Hrow. symmetry. apply block_all. unfold id.
    rewrite (rows_len _ _ Hwf Hrow). simpl. lia.
  - rewrite divide_by_1. simpl.
    rewrite (torch_split_last_spec _ s w) by done.
    rewrite every_nth by done. rewrite (torch_cat_last_spec _ (nrows (init_method (torch_empty out inf)))).
    + by eexists.
    + done.
    + constructor; [|done]. split; [|apply len_fmap].
      apply mat_wf_rows; [lia|]. intros row Hrow.
      apply (len_block _ _ w); [lia|done|]. by rewrite (rows_len _ _ Hwf Hrow).
Qed.
End initialize.

(** ** Properties *)

Section properties.
Context `{TorchMatLaws V}.

(** C22: a [ColumnParallelLinear] whose ranks hold the row blocks of a weight
    [W] (and the blocks of the bias) computes the serial layer: with
    [gather_output] every rank holds [x W^T + b], and without it rank [r]
    holds column block [r] of it. *)
Theorem column_parallel_is_serial (W x : mat V) (b : option (list V)) w s gather :
  0 < w → 0 ≤ s → nrows W = w * s → (∀ b', b = Some b' → len b' = nrows W) →
  ColumnParallelLinear_forward
    {| cpl_gather_output := gather; cpl_params := column_shards W b w s |}
    (replicate (Z.to_nat w) x)
  = if gather then replicate (Z.to_nat w) (F_linear x W b)
    else (λ r, col_shard (F_linear x W b) s r) <$> py_range 0 w.
Proof.
  intros Hw Hs HW Hb. destruct gather; [by apply column_forward_gather|].
  by apply column_forward_parallel.
Qed.

(** C23: a [RowParallelLinear] whose ranks hold the column blocks of a weight
    [W] and the whole bias computes the serial layer on every rank, the bias
    added once, whether it scatters its input itself or is given the column
    blocks of the input. *)
Theorem row_parallel_is_serial `{!DotSplit V} (W x : mat V) (b : option (list V))
    w s is_parallel :
  0 < w → 0 < s → mat_wf x → mat_wf W → cols x = w * s → cols W = w * s →
  RowParallelLinear_forward
    {| rpl_input_is_parallel := is_parallel; rpl_params := row_shards W b w s |}
    (if is_parallel then (λ r, col_shard x s r) <$> py_range 0 w
     else replicate (Z.to_nat w) x)
  = Ok (replicate (Z.to_nat w) (F_linear x W b)).
Proof.
  intros Hw Hs Hx HW Hcx HcW.
  rewrite <-(row_forward_parallel W x b w s) by (done || lia).
  destruct is_parallel; [done|].
  unfold RowParallelLinear_forward at 1, scatter_to_model_parallel_region,
    ScatterToModelParallelRegion_forward; simpl.
  by rewrite (split_ok w s x).
Qed.

(** C24: a [VocabParallelEmbedding] whose ranks hold the row blocks of a table
    looks ids up as the serial embedding does.  An id outside the vocabulary,
    on which the serial lookup raises [IndexError], is silently embedded as
    zeros. *)
Theorem vocab_parallel_embedding_is_serial `{!ScalarZero V} (W : mat V) w s ids :
  0 < w → 0 < s → mat_wf W → nrows W = w * s →
  (∀ m, F_embedding ids W = Ok m →
    VocabParallelEmbedding_forward (vocab_shards W w s) ids
    = Ok (replicate (Z.to_nat w) m)) ∧
  (∃ m, VocabParallelEmbedding_forward (vocab_shards W w s) ids
        = Ok (replicate (Z.to_nat w) m) ∧
    ∀ i id, ids !! i = Some id → ¬ (0 ≤ id < w * s) →
      rows m !! i = Some (replicate (Z.to_nat (cols W)) szero) ∧
      F_embedding [id] W = Raise IndexError).
Proof.
  intros Hw Hs HW HV. rewrite (vocab_forward W w s Hw Hs HW HV). split.
  - intros m. rewrite F_embedding_spec. intros (rs & Hrs & ->)%fmap_Ok.
    do 3 f_equal. symmetry. apply mapM_res_Ok in Hrs.
    induction Hrs as [|id row ids rs Hid _ IH]; csimpl; [done|]. f_equal; [|done].
    rewrite HV in Hid. unfold row_if.
    destruct (Z.ltb_spec id 0), (Z.leb_spec (w * s) id),
      (Z.leb_spec 0 id), (Z.ltb_spec id (w * s)); try done; try lia.
    apply py_get_Ok in Hid; [|lia]. by rewrite Hid.
  - eexists. split; [done|]. intros i id Hi Hout. split.
    + simpl. rewrite list_lookup_fmap, Hi. simpl. f_equal. unfold row_if.
      destruct (Z.leb_spec 0 id), (Z.ltb_spec id (w * s)); (done || lia).
    + rewrite F_embedding_spec. simpl. rewrite HV.
      destruct (Z.ltb_spec id 0), (Z.leb_spec (w * s) id); (done || lia).
Qed.

(** A [ParallelEmbedding] whose ranks hold the column blocks of a table
    computes the serial embedding on every rank, and raises [IndexError] when
    the serial embedding does. *)
Theorem parallel_embedding_is_serial (W : mat V) w s ids :
  0 < w → 0 ≤ s → mat_wf W → cols W = w * s →
  ParallelEmbedding_forward ((λ r, col_shard W s r) <$> py_range 0 w)
    (replicate (Z.to_nat w) ids)
  = (λ m, replicate (Z.to_nat w) m) <$> F_embedding ids W.
Proof.
  intros Hw Hs HW Hc. unfold ParallelEmbedding_forward.
  rewrite zip_ranks, mapM_res_fmap.
  destruct (F_embedding ids W) as [m|e] eqn:E; simpl.
  - rewrite (mapM_res_total _ (λ r, col_shard m s r)).
    2:{ intros r _. by rewrite embedding_col_shard, E. }
    destruct (embedding_wf W ids m HW E) as [Hm Hcm]. simpl. f_equal.
    apply gather_col_shards; (done || congruence).
  - rewrite range_pos by done. simpl. by rewrite embedding_col_shard, E.
Qed.

(** Splitting a tensor over the ranks and gathering it give back the
    tensor, gathering the ranks' blocks and splitting give back the blocks,
    and a width that the world size does not divide is refused. *)
Theorem scatter_gather_roundtrip (m : mat V) w s :
  0 < w → 0 < s → mat_wf m → cols m = w * s →
  (gather_from_model_parallel_region <$>
     scatter_to_model_parallel_region (replicate (Z.to_nat w) m)
   = Ok (replicate (Z.to_nat w) m)) ∧
  (scatter_to_model_parallel_region
     (gather_from_model_parallel_region ((λ r, col_shard m s r) <$> py_range 0 w))
   = Ok ((λ r, col_shard m s r) <$> py_range 0 w)) ∧
  (∀ m', 1 < w → cols m' `mod` w ≠ 0 →
     scatter_to_model_parallel_region (replicate (Z.to_nat w) m') = Raise AssertionError).
Proof.
  intros Hw Hs Hm Hc. split_and!.
  - by apply (gather_split w s).
  - unfold gather_from_model_parallel_region, GatherFromModelParallelRegion_forward.
    rewrite gather_col_shards by (done || lia). by apply split_ok.
  - intros m' Hw1 Hmod. unfold scatter_to_model_parallel_region,
      ScatterToModelParallelRegion_forward, _split, on_ranks.
    assert (len (replicate (Z.to_nat w) m') = w) as ->.
    { unfold len. rewrite length_replicate. lia. }
    rewrite range_pos by done. replace (Z.to_nat w) with (S (Z.to_nat (w - 1))) by lia.
    simpl. unfold _split_rank, split_tensor_along_last_dim.
    destruct (Z.eqb_spec w 1); [lia|]. by rewrite divide_error.
Qed.
End properties.

Section init_property.
Context `{TorchMatLaws V} (torch_empty : Z → Z → mat V) (init_method : mat V → mat V).

(** The parallel layers' constructors on a rank. *)
Section ranks.
Context (W : mat V) (w s n r : Z) (Hr : 0 ≤ r < w) (Hs : 0 < s).
Notation zeros k := ((λ _, szero) <$> py_range 0 k).

Lemma divide_parts : divide_and_check_no_remainder (w * s) w = Ok s.
Proof using Hr. rewrite Z.mul_comm. apply divide_mult. lia. Qed.

Lemma vocab_init_Ok :
  W = init_method (torch_empty (w * s) n) → nrows W = w * s →
  VocabParallelEmbedding_init torch_empty w r (w * s) n init_method
  = Ok {| vpe_vocab_start_index := r * s; vpe_vocab_end_index := (r + 1) * s;
          vpe_weight := row_shard W s r |}.
Proof using All.
  intros HW Hn. unfold VocabParallelEmbedding_init, VocabUtility.vocab_range_from_global_vocab_size.
  rewrite divide_parts. simpl. replace (r * s + s - r * s) with s by lia.
  destruct (initialize_rows torch_empty init_method (torch_empty s n) W w s r (w * s) n
    false) as [master ->]; [done..|by intros ->; rewrite Z.mul_1_l|].
  simpl. do 2 f_equal. lia.
Qed.

Lemma column_init_Ok (bias : bool) :
  W = init_method (torch_empty (w * s) n) → nrows W = w * s →
  fst <$> ColumnParallelLinear_init torch_empty w r n (w * s) bias init_method 1 false
  = Ok (row_shard W s r, if bias then Some (zeros s) else None).
Proof using All.
  intros HW Hn. unfold ColumnParallelLinear_init. rewrite divide_parts. simpl.
  destruct (initialize_rows torch_empty init_method (torch_empty s n) W w s r (w * s) n
    false) as [master ->]; [done..|by intros ->; rewrite Z.mul_1_l|done].
Qed.

Lemma row_init_Ok (bias : bool) :
  W = init_method (torch_empty n (w * s)) → mat_wf W → cols W = w * s →
  fst <$> RowParallelLinear_init torch_empty w r (w * s) n bias init_method 1 false
  = Ok (col_shard W s r, if bias then Some (zeros n) else None).
Proof using All.
  intros HW Hwf Hn. unfold RowParallelLinear_init. rewrite divide_parts. simpl.
  destruct (initialize_cols torch_empty init_method (torch_empty n s) W w s r n (w * s)
    false) as [master ->]; [done..|by intros ->; rewrite Z.mul_1_l|done].
Qed.
End ranks.

End init_property.

(** *** Witnesses: two ranks, integer tensors *)

Definition W42 : mat Z := Mat 2 [[1; 2]; [3; 4]; [5; 6]; [7; 8]].
Definition X32 : mat Z := Mat 2 [[1; 0]; [2; -1]; [0; 3]].
Definition B4 : option (list Z) := Some [10; 20; 30; 40].

Lemma W42_wf : mat_wf W42.
Proof. split; [done|]. by repeat constructor. Qed.
Lemma X32_wf : mat_wf X32.
Proof. split; [done|]. by repeat constructor. Qed.

Example column_parallel_is_serial_witness :
  ColumnParallelLinear_forward
    {| cpl_gather_output := true; cpl_params := column_shards W42 B4 2 2 |} [X32; X32]
  = let y := Mat 4 [[11; 23; 35; 47]; [10; 22; 34; 46]; [16; 32; 48; 64]] in [y; y].
Proof.
  rewrite (column_parallel_is_serial W42 X32 B4 2 2 true); [done|done|done|done|].
  by intros b' [= <-].
Defined.

Example row_parallel_is_serial_witness :
  RowParallelLinear_forward
    {| rpl_input_is_parallel := false; rpl_params := row_shards W42 B4 2 1 |} [X32; X32]
  = let y := Mat 4 [[11; 23; 35; 47]; [10; 22; 34; 46]; [16; 32; 48; 64]] in Ok [y; y].
Proof.
  rewrite (row_parallel_is_serial W42 X32 B4 2 1 false);
    [done|done|done|exact X32_wf|exact W42_wf|done|done].
Defined.

Example vocab_parallel_embedding_is_serial_witness :
  VocabParallelEmbedding_forward (vocab_shards W42 2 2) [3; 0]
  = Ok [Mat 2 [[7; 8]; [1; 2]]; Mat 2 [[7; 8]; [1; 2]]] ∧
  F_embedding [4] W42 = Raise IndexError.
Proof.
  split.
  - apply (vocab_parallel_embedding_is_serial W42 2 2 [3; 0]);
      [done|done|exact W42_wf|done|done].
  - destruct (vocab_parallel_embedding_is_serial W42 2 2 [4]) as [_ (m & _ & Hm)];
      [done|done|exact W42_wf|done|].
    destruct (Hm 0%nat 4) as [_ H]; [done|lia|exact H].
Defined.

Example parallel_embedding_is_serial_witness :
  ParallelEmbedding_forward [Mat 1 [[1]; [3]; [5]; [7]]; Mat 1 [[2]; [4]; [6]; [8]]]
    [[3; 0]; [3; 0]]
  = Ok [Mat 2 [[7; 8]; [1; 2]]; Mat 2 [[7; 8]; [1; 2]]].
Proof.
  refine (eq_trans _ (parallel_embedding_is_serial W42 2 1 [3; 0] _ _ W42_wf _)); done.
Defined.

Example scatter_gather_roundtrip_witness :
  scatter_to_model_parallel_region [X32; X32]
    = Ok [Mat 1 [[1]; [2]; [0]]; Mat 1 [[0]; [-1]; [3]]] ∧
  scatter_to_model_parallel_region [Mat 1 [[1]]; Mat 1 [[1]]] = Raise AssertionError.
Proof.
  destruct (scatter_gather_roundtrip X32 2 1) as (_ & Hs & He);
    [done|done|exact X32_wf|done|].
  split; [exact Hs | by apply (He (Mat 1 [[1]]))].
Defined.

