(* ===== verification/FlashInfer.v ===== *)
(** * Paged attention

    The kernels the worker calls (the flashinfer package): what they are given
    (the arguments of [plan], the paged cache) and what they are documented to
    compute.  [attend q kvs] is the attention of one query over the keys and
    values [kvs], in order; everything else is addressing: a request owns a list
    of pages, its tokens fill them in order. *)
From S2P Require Import Prelude.

(** The element types of the caches. *)
Inductive dtype := float32 | float16 | bfloat16 | int32 | other_dtype.
#[export] Instance dtype_eq_dec : EqDecision dtype.
Proof. solve_decision. Defined.

(** The arguments [plan] stores in a wrapper.  The workspace buffer is scratch
    memory. *)
Record PrefillWrapper := {
  pf_qo_indptr : list Z;
  pf_paged_kv_indptr : list Z;
  pf_paged_kv_indices : list Z;
  pf_paged_kv_last_page_len : list Z;
  pf_num_qo_heads : Z; pf_num_kv_heads : Z; pf_head_dim_qk : Z; pf_page_size : Z;
  pf_q_data_type : dtype;
}.
Record DecodeWrapper := {
  dc_indptr : list Z;
  dc_indices : list Z;
  dc_last_page_len : list Z;
  dc_num_qo_heads : Z; dc_num_kv_heads : Z; dc_head_dim : Z; dc_page_size : Z;
  dc_q_data_type : dtype;
}.

(** One layer of the paged cache: the key and value rows stored at (page,
    offset).  A slot never written holds no meaningful row. *)
Record paged_cache (K V : Type) := PagedCache {
  pc_page_size : Z;
  pc_slots : gmap (Z * Z) (K * V);
}.
Arguments PagedCache {K V} pc_page_size pc_slots.
Arguments pc_page_size {K V} p.
Arguments pc_slots {K V} p.

(** Where position [p] of a request with pages [pages] is stored. *)
Definition slot (page_size : Z) (pages : list Z) (p : Z) : Z * Z :=
  (default 0 (pages !! Z.to_nat (p / page_size)), p `mod` page_size).

(** The first [n] tokens of a request. *)
Definition paged_kv {K V} (c : paged_cache K V) (pages : list Z) (n : Z)
    : list (option (K * V)) :=
  (λ p, pc_slots c !! slot (pc_page_size c) pages p) <$> py_range 0 n.

(** Fewer tokens, more pages, other slots. *)
Lemma paged_kv_take {K V} (c : paged_cache K V) pages m n :
  m ≤ n → paged_kv c pages m = take (Z.to_nat m) (paged_kv c pages n).
Proof.
  intros Hmn. unfold paged_kv. rewrite <-fmap_take. f_equal. apply list_eq. intros i.
  destruct (decide (Z.of_nat i < m)).
  - rewrite lookup_take_lt by lia. by rewrite !lookup_py_range by lia.
  - rewrite lookup_ge_None_2 by (rewrite length_py_range; lia).
    by rewrite lookup_take_ge by lia.
Qed.

Lemma paged_kv_same {K V} (c c' : paged_cache K V) pages pages' n :
  0 < pc_page_size c → pc_page_size c' = pc_page_size c →
  n ≤ pc_page_size c * len pages → pages `prefix_of` pages' →
  (∀ x, x ∈ slot (pc_page_size c) pages <$> py_range 0 n → pc_slots c' !! x = pc_slots c !! x) →
  paged_kv c' pages' n = paged_kv c pages n.
Proof.
  intros Hp Hp' Hn [more ->] Hsame. unfold paged_kv. rewrite Hp'. apply fmap_range_ext.
  intros p Hpn. rewrite <-Hsame by (apply list_elem_of_fmap_2; by apply elem_of_py_range).
  unfold slot. rewrite lookup_app_l; [done|].
  assert (0 ≤ p / pc_page_size c < len pages).
  { split; [apply Z.div_pos; lia|apply Z.div_lt_upper_bound; lia]. }
  unfold len in *. lia.
Qed.

(** The number of tokens of a request with [n] pages and [last] tokens on the
    last of them. *)
Definition kv_len (page_size n last : Z) : Z := Z.max (n - 1) 0 * page_size + last.

Class FlashInfer (Q K V R : Type) := {
  prefill_run : PrefillWrapper → list Q → paged_cache K V → list R;
  decode_run : DecodeWrapper → list Q → paged_cache K V → list R;
  append_paged_kv_cache :
    list K → list V → list Z → list Z → paged_cache K V →
    list Z → list Z → list Z → paged_cache K V;
  get_seq_lens : list Z → list Z → Z → list Z;
  get_batch_indices_positions : list Z → list Z → Z → list Z * list Z;
  single_prefill_with_kv_cache : list Q → list K → list V → list R;
}.

(** A request of a batch: its query rows, its pages, the tokens on the last. *)
Record request (Q : Type) := Request { rq_rows : list Q; rq_pages : list Z; rq_last : Z }.
Arguments Request {Q} rq_rows rq_pages rq_last.
Arguments rq_rows {Q} r.
Arguments rq_pages {Q} r.
Arguments rq_last {Q} r.

(** Causal attention of the query rows of one request: its rows are the last
    ones of the request, and row [j] sees the positions up to its own. *)
Definition causal_rows {Q K V R} (attend : Q → list (option (K * V)) → R)
    (c : paged_cache K V) (r : request Q) : list R :=
  let n := kv_len (pc_page_size c) (len (rq_pages r)) (rq_last r) in
  imap (λ j q, attend q (paged_kv c (rq_pages r) (n - len (rq_rows r) + Z.of_nat j + 1)))
    (rq_rows r).

(** The positions of [q] tokens appended at the end of a sequence of [s]. *)
Definition append_positions (q s : Z) : list Z := (λ j, s - q + j) <$> py_range 0 q.

Class FlashInferLaws {Q K V R} `{FlashInfer Q K V R}
    (attend : Q → list (option (K * V)) → R) : Prop := {
  get_seq_lens_spec (ns : list (Z * Z)) page_size :
    get_seq_lens (cumsum0 ns.*1) ns.*2 page_size
    = (λ '(n, last), kv_len page_size n last) <$> ns;
  get_batch_indices_positions_spec (qs : list (Z * Z)) nnz :
    Forall (λ '(q, _), 0 ≤ q) qs → nnz = sumZ qs.*1 →
    get_batch_indices_positions (cumsum0 qs.*1) qs.*2 nnz
    = (concat (imap (λ i '(q, _), replicate (Z.to_nat q) (Z.of_nat i)) qs),
       concat ((λ '(q, s), append_positions q s) <$> qs));
  append_paged_kv_cache_spec (ks : list K) (vs : list V) bi pos c
      (pages : list (list Z)) lasts :
    append_paged_kv_cache ks vs bi pos c (concat pages) (cumsum0 (len <$> pages)) lasts
    = PagedCache (pc_page_size c)
        (foldl (λ m '(i, p, kv),
           <[slot (pc_page_size c) (default [] (pages !! Z.to_nat i)) p := kv]> m)
          (pc_slots c) (zip (zip bi pos) (zip ks vs)));
  prefill_run_spec (w : PrefillWrapper) (rs : list (request Q)) c :
    pf_qo_indptr w = cumsum0 (len ∘ rq_rows <$> rs) →
    pf_paged_kv_indptr w = cumsum0 (len ∘ rq_pages <$> rs) →
    pf_paged_kv_indices w = concat (rq_pages <$> rs) →
    pf_paged_kv_last_page_len w = rq_last <$> rs →
    pf_page_size w = pc_page_size c →
    Forall (λ r, rq_pages r ≠ []) rs →
    prefill_run w (concat (rq_rows <$> rs)) c = concat (causal_rows attend c <$> rs);
  decode_run_spec (w : DecodeWrapper) (rs : list (request Q)) c :
    dc_indptr w = cumsum0 (len ∘ rq_pages <$> rs) →
    dc_indices w = concat (rq_pages <$> rs) →
    dc_last_page_len w = rq_last <$> rs →
    dc_page_size w = pc_page_size c →
    Forall (λ r, rq_pages r ≠ [] ∧ len (rq_rows r) = 1) rs →
    decode_run w (concat (rq_rows <$> rs)) c = concat (causal_rows attend c <$> rs);
  single_prefill_with_kv_cache_spec (qs : list Q) (ks : list K) (vs : list V) :
    single_prefill_with_kv_cache qs ks vs
    = imap (λ j q, attend q (Some <$> take (S j) (zip ks vs))) qs;
}.

(** ** An implementation by reading the arrays back *)

(** The differences of consecutive running sums. *)
Fixpoint diffs (l : list Z) : list Z :=
  match l with
  | a :: (b :: _) as l' => (b - a) :: diffs l'
  | _ => []
  end.

Lemma diffs_cumsum acc l : diffs (cumsum_from acc l) = l.
Proof.
  revert acc; induction l as [|x l IH]; intros acc; [done|].
  specialize (IH (acc + x)). destruct l as [|y l]; simpl in *; [f_equal; lia|].
  rewrite IH. f_equal. lia.
Qed.

(** Cuts [l] into pieces of the given lengths. *)
Fixpoint cut {A} (ns : list Z) (l : list A) : list (list A) :=
  match ns with
  | [] => []
  | n :: ns => take (Z.to_nat n) l :: cut ns (drop (Z.to_nat n) l)
  end.

Lemma cut_concat {A} (ls : list (list A)) : cut (len <$> ls) (concat ls) = ls.
Proof.
  induction ls as [|l ls IH]; [done|]. csimpl. unfold len at 1 3. rewrite Nat2Z.id.
  by rewrite take_app_length, drop_app_length, IH.
Qed.

Definition zip_requests {Q} (rows : list (list Q)) (pages : list (list Z)) (lasts : list Z)
    : list (request Q) :=
  zip_with (λ '(r, p) l, Request r p l) (zip rows pages) lasts.

Lemma zip_requests_fields {Q} (rs : list (request Q)) :
  zip_requests (rq_rows <$> rs) (rq_pages <$> rs) (rq_last <$> rs) = rs.
Proof.
  unfold zip_requests. induction rs as [|[r p l] rs IH]; [done|]. csimpl. by rewrite IH.
Qed.

Section reference.
Context {Q K V R : Type} (attend : Q → list (option (K * V)) → R).

Definition reference_flashinfer : FlashInfer Q K V R := {|
  prefill_run w qs c :=
    concat (causal_rows attend c <$>
      zip_requests (cut (diffs (pf_qo_indptr w)) qs)
        (cut (diffs (pf_paged_kv_indptr w)) (pf_paged_kv_indices w))
        (pf_paged_kv_last_page_len w));
  decode_run w qs c :=
    concat (causal_rows attend c <$>
      zip_requests ((λ q, [q]) <$> qs) (cut (diffs (dc_indptr w)) (dc_indices w))
        (dc_last_page_len w));
  append_paged_kv_cache ks vs bi pos c indices indptr _ :=
    PagedCache (pc_page_size c)
      (foldl (λ m '(i, p, kv),
         <[slot (pc_page_size c)
             (default [] (cut (diffs indptr) indices !! Z.to_nat i)) p := kv]> m)
        (pc_slots c) (zip (zip bi pos) (zip ks vs)));
  get_seq_lens indptr lasts page_size := zip_with (kv_len page_size) (diffs indptr) lasts;
  get_batch_indices_positions indptr seq_lens _ :=
    (concat (imap (λ i q, replicate (Z.to_nat q) (Z.of_nat i)) (diffs indptr)),
     concat (zip_with append_positions (diffs indptr) seq_lens));
  single_prefill_with_kv_cache qs ks vs :=
    imap (λ j q, attend q (Some <$> take (S j) (zip ks vs))) qs;
|}.

#[local] Existing Instance reference_flashinfer.

Lemma concat_singletons (rs : list (request Q)) :
  Forall (λ r, len (rq_rows r) = 1) rs →
  (λ q, [q]) <$> concat (rq_rows <$> rs) = rq_rows <$> rs.
Proof.
  induction 1 as [|[rows p l] rs Hr _ IH]; [done|]. csimpl. rewrite fmap_app, IH.
  simpl in Hr. unfold len in Hr. destruct rows as [|q [|? ?]]; simpl in *; (done || lia).
Qed.

Lemma reference_flashinfer_laws : FlashInferLaws attend.
Proof.
  split; simpl; unfold cumsum0.
  - intros ns page_size. rewrite diffs_cumsum, zip_with_fmap_l, zip_with_fmap_r, zip_with_diag.
    by apply list_fmap_ext; intros ? [].
  - intros qs nnz _ _. rewrite diffs_cumsum. f_equal.
    + rewrite imap_fmap. f_equal. by apply imap_ext; intros ? [].
    + rewrite zip_with_fmap_l, zip_with_fmap_r, zip_with_diag. f_equal.
      by apply list_fmap_ext; intros ? [].
  - intros. by rewrite diffs_cumsum, cut_concat.
  - intros w rs c -> -> -> -> _ _.
    by rewrite !diffs_cumsum, !list_fmap_compose, !cut_concat, zip_requests_fields.
  - intros w rs c -> -> -> _ Hone.
    apply (Forall_impl _ (λ r, len (rq_rows r) = 1)) in Hone; [|by intros ? []].
    by rewrite diffs_cumsum, list_fmap_compose, cut_concat, concat_singletons,
      zip_requests_fields.
  - done.
Qed.
End reference.
