(* ===== verification/Batch.v ===== *)
(** * Building a batch

    [build_prefill_wrapper], [build_decode_wrapper] and [ModelWorker._make_inputs]
    of [runtime/worker/llm_worker/model_worker.py], [InputParams] of
    [models/input_params.py] and [Attention.forward] of
    [models/layers/attention.py]: how a list of requests becomes the flat
    arrays of a batch, and the closed form of these arrays. *)
From S2P Require Import Prelude FlashInfer.

(** ** Data *)

(** The message [InferInput] of the protocol. *)
Record InferInput := {
  seq_id : Z;
  input_ids : list Z;
  input_len : Z;
  filled_token_len : Z;
  context_len : Z;
  block_ids : list Z;
}.

Record InputParams := {
  ip_position_ids : list Z;
  ip_cu_seqlens_q : list Z;
  ip_prefill_input_len : Z;
  ip_prefill_wrapper : option PrefillWrapper;
  ip_decode_wrapper : option DecodeWrapper;
  ip_batch_indices : option (list Z);
  ip_positions : option (list Z);
  ip_kv_block_indices : option (list Z);
  ip_kv_block_indptrs : option (list Z);
  ip_kv_last_block_lens : option (list Z);
}.

(** The attributes of the model's configuration the batch depends on. *)
Record ModelConfig := {
  mc_num_layers : Z;
  mc_num_heads : Z;
  mc_num_kv_heads : Z;
  mc_head_dim : Z;
  mc_dtype : dtype;
}.

(** [torch.tensor(l, dtype=...)] with a signed type of [bits] bits: a Python
    integer that does not fit raises, a numpy integer wraps around. *)
Definition torch_tensor (bits : Z) (l : list Z) : res (list Z) :=
  _ ← py_require (forallb (λ x, (- 2 ^ (bits - 1) <=? x) && (x <? 2 ^ (bits - 1))) l)
        RuntimeError;
  Ok l.
Definition wrap (bits x : Z) : Z := (x + 2 ^ (bits - 1)) `mod` 2 ^ bits - 2 ^ (bits - 1).
Definition torch_tensor_np (bits : Z) (l : list Z) : list Z := wrap bits <$> l.

(** ** The plans of the two kernels *)

Definition last_block_len (seqlen_k page_size : Z) : res Z :=
  r ← py_mod (seqlen_k - 1) page_size; Ok (r + 1).

Definition build_prefill_wrapper (inputs : list InferInput)
    (num_qo_heads num_kv_heads head_dim page_size : Z) (q_data_type : dtype)
    : res PrefillWrapper :=
  '(seqlens_q, seqlens_k, num_blocks_per_seqs, kv_block_indices, kv_last_block_lens) ←
    foldM (λ '(seqlens_q, seqlens_k, num_blocks_per_seqs, kv_block_indices,
               kv_last_block_lens) data,
      let seqlen_q := input_len data in
      let seqlen_k := context_len data in
      last ← last_block_len seqlen_k page_size;
      Ok (seqlens_q ++ [seqlen_q], seqlens_k ++ [seqlen_k],
          num_blocks_per_seqs ++ [len (block_ids data)],
          kv_block_indices ++ block_ids data, kv_last_block_lens ++ [last]))
      ([], [], [], [], []) inputs;
  let cu_seqlens_q_tensor := torch_tensor_np 32 (cumsum0 seqlens_q) in
  let kv_block_indptrs_tensor := torch_tensor_np 32 (cumsum0 num_blocks_per_seqs) in
  kv_block_indices_tensor ← torch_tensor 32 kv_block_indices;
  kv_last_block_lens_tensor ← torch_tensor 32 kv_last_block_lens;
  Ok {| pf_qo_indptr := cu_seqlens_q_tensor;
        pf_paged_kv_indptr := kv_block_indptrs_tensor;
        pf_paged_kv_indices := kv_block_indices_tensor;
        pf_paged_kv_last_page_len := kv_last_block_lens_tensor;
        pf_num_qo_heads := num_qo_heads; pf_num_kv_heads := num_kv_heads;
        pf_head_dim_qk := head_dim; pf_page_size := page_size;
        pf_q_data_type := q_data_type |}.

Definition build_decode_wrapper (inputs : list InferInput)
    (num_qo_heads num_kv_heads head_dim page_size : Z) (q_data_type : dtype)
    : res DecodeWrapper :=
  '(num_blocks_per_seqs, kv_block_indices, kv_last_block_lens) ←
    foldM (λ '(num_blocks_per_seqs, kv_block_indices, kv_last_block_lens) data,
      let seqlen_q := input_len data in
      _ ← py_assert (seqlen_q =? 1);
      let seqlen_k := context_len data in
      last ← last_block_len seqlen_k page_size;
      Ok (num_blocks_per_seqs ++ [len (block_ids data)],
          kv_block_indices ++ block_ids data, kv_last_block_lens ++ [last]))
      ([], [], []) inputs;
  let kv_block_indptrs_tensor := torch_tensor_np 32 (cumsum0 num_blocks_per_seqs) in
  kv_block_indices_tensor ← torch_tensor 32 kv_block_indices;
  kv_last_block_lens_tensor ← torch_tensor 32 kv_last_block_lens;
  Ok {| dc_indptr := kv_block_indptrs_tensor;
        dc_indices := kv_block_indices_tensor;
        dc_last_page_len := kv_last_block_lens_tensor;
        dc_num_qo_heads := num_qo_heads; dc_num_kv_heads := num_kv_heads;
        dc_head_dim := head_dim; dc_page_size := page_size;
        dc_q_data_type := q_data_type |}.

(** ** [_make_inputs] *)

(** The local variables of its first loop. *)
Record scan := Scan {
  sc_flatten_input_ids : list Z;
  sc_position_ids : list Z;
  sc_prefill_input_len : Z;
  sc_prefill_data_list : list InferInput;
  sc_decode_data_list : list InferInput;
  sc_seqlens_q : list Z;
  sc_seqlens_k : list Z;
}.

Definition scan_step (s : scan) (data : InferInput) : scan :=
  let cache_seqlen := filled_token_len data in
  let seqlen_q := input_len data in
  let seqlen_k := context_len data in
  {| sc_flatten_input_ids := sc_flatten_input_ids s ++ input_ids data;
     sc_position_ids := sc_position_ids s ++ py_range cache_seqlen seqlen_k;
     sc_prefill_input_len :=
       if 1 <? seqlen_q then sc_prefill_input_len s + seqlen_q else sc_prefill_input_len s;
     sc_prefill_data_list :=
       if 1 <? seqlen_q then sc_prefill_data_list s ++ [data] else sc_prefill_data_list s;
     sc_decode_data_list :=
       if 1 <? seqlen_q then sc_decode_data_list s
       else if seqlen_q =? 1 then sc_decode_data_list s ++ [data]
       else sc_decode_data_list s;
     sc_seqlens_q := sc_seqlens_q s ++ [seqlen_q];
     sc_seqlens_k := sc_seqlens_k s ++ [seqlen_k] |}.

(** [inputs.sort(key=lambda x: -x.input_len)] *)
Definition sort_inputs : list InferInput → list InferInput := sort_key (λ x, - input_len x).

Section make_inputs.
Context `{FlashInfer Q K V R}.

(** [use_cache] here is [self.kv_caches is not None and use_cache is True].
    The caller's list is sorted in place, so the sorted list is a result. *)
Definition make_inputs (config : ModelConfig) (block_size : Z) (use_cache : bool)
    (inputs : list InferInput) : res (list InferInput * (list Z * InputParams)) :=
  let inputs := sort_inputs inputs in
  let s := foldl scan_step (Scan [] [] 0 [] [] [] []) inputs in
  flatten_input_ids_tensor ← torch_tensor 64 (sc_flatten_input_ids s);
  position_ids_tensor ← torch_tensor 32 (sc_position_ids s);
  let cu_seqlens_q_tensor := torch_tensor_np 32 (cumsum0 (sc_seqlens_q s)) in
  if use_cache then
    let num_qo_heads := mc_num_heads config in
    let num_kv_heads := mc_num_kv_heads config in
    let head_dim := mc_head_dim config in
    let page_size := block_size in
    let q_data_type := mc_dtype config in
    prefill_wrapper ←
      (if 0 <? len (sc_prefill_data_list s) then
         Some <$> build_prefill_wrapper (sc_prefill_data_list s)
                    num_qo_heads num_kv_heads head_dim page_size q_data_type
       else Ok None);
    decode_wrapper ←
      (if 0 <? len (sc_decode_data_list s) then
         Some <$> build_decode_wrapper (sc_decode_data_list s)
                    num_qo_heads num_kv_heads head_dim page_size q_data_type
       else Ok None);
    '(kv_block_indices, num_blocks_per_seqs, kv_last_block_lens) ←
      foldM (λ '(kv_block_indices, num_blocks_per_seqs, kv_last_block_lens) data,
        let seqlen_k := context_len data in
        last ← last_block_len seqlen_k page_size;
        Ok (kv_block_indices ++ block_ids data,
            num_blocks_per_seqs ++ [len (block_ids data)],
            kv_last_block_lens ++ [last])) ([], [], []) inputs;
    let kv_block_indptrs_tensor := torch_tensor_np 32 (cumsum0 num_blocks_per_seqs) in
    kv_block_indices_tensor ← torch_tensor 32 kv_block_indices;
    kv_last_block_lens_tensor ← torch_tensor 32 kv_last_block_lens;
    let '(batch_indices, positions) :=
      get_batch_indices_positions cu_seqlens_q_tensor
        (get_seq_lens kv_block_indptrs_tensor kv_last_block_lens_tensor page_size)
        (sumZ (sc_seqlens_q s)) in
    Ok (inputs, (flatten_input_ids_tensor, {|
      ip_position_ids := position_ids_tensor;
      ip_cu_seqlens_q := cu_seqlens_q_tensor;
      ip_prefill_input_len := sc_prefill_input_len s;
      ip_prefill_wrapper := prefill_wrapper;
      ip_decode_wrapper := decode_wrapper;
      ip_batch_indices := Some batch_indices;
      ip_positions := Some positions;
      ip_kv_block_indices := Some kv_block_indices_tensor;
      ip_kv_block_indptrs := Some kv_block_indptrs_tensor;
      ip_kv_last_block_lens := Some kv_last_block_lens_tensor |}))
  else
    Ok (inputs, (flatten_input_ids_tensor, {|
      ip_position_ids := position_ids_tensor;
      ip_cu_seqlens_q := cu_seqlens_q_tensor;
      ip_prefill_input_len := sc_prefill_input_len s;
      ip_prefill_wrapper := None; ip_decode_wrapper := None;
      ip_batch_indices := None; ip_positions := None;
      ip_kv_block_indices := None; ip_kv_block_indptrs := None;
      ip_kv_last_block_lens := None |})).

(** ** [Attention.forward] *)

(** Passing [None] where an array is expected. *)
Definition not_none {A} (x : option A) : res A :=
  match x with Some a => Ok a | None => Raise TypeError end.

(** [output[a:b] = rows] *)
Definition assign_slice {A} (output : list (option A)) (a b : Z) (rows : list A)
    : res (list (option A)) :=
  _ ← py_require (len rows =? len (py_slice output a b)) RuntimeError;
  Ok (py_slice output 0 a ++ (Some <$> rows) ++ py_slice output b (len output)).

(** The rows of [torch.empty_like(query)] hold nothing until they are assigned.
    The cache is updated in place. *)
Definition Attention_forward (query : list Q) (key : list K) (value : list V)
    (input_params : InputParams) (kv_cache : option (paged_cache K V))
    : res (list (option R) * option (paged_cache K V)) :=
  let output := (λ _, None) <$> query in
  match kv_cache with
  | Some kv_cache =>
      batch_indices ← not_none (ip_batch_indices input_params);
      positions ← not_none (ip_positions input_params);
      kv_block_indices ← not_none (ip_kv_block_indices input_params);
      kv_block_indptrs ← not_none (ip_kv_block_indptrs input_params);
      kv_last_block_lens ← not_none (ip_kv_last_block_lens input_params);
      let kv_cache := append_paged_kv_cache key value batch_indices positions kv_cache
                        kv_block_indices kv_block_indptrs kv_last_block_lens in
      let prefill_input_len := ip_prefill_input_len input_params in
      output ←
        (match ip_prefill_wrapper input_params with
         | Some prefill_wrapper =>
             assign_slice output 0 prefill_input_len
               (prefill_run prefill_wrapper (py_slice query 0 prefill_input_len) kv_cache)
         | None => Ok output
         end);
      output ←
        (match ip_decode_wrapper input_params with
         | Some decode_wrapper =>
             assign_slice output prefill_input_len (len output)
               (decode_run decode_wrapper
                  (py_slice query prefill_input_len (len query)) kv_cache)
         | None => Ok output
         end);
      Ok (output, Some kv_cache)
  | None =>
      output ← assign_slice output 0 (len output)
                 (single_prefill_with_kv_cache query key value);
      Ok (output, None)
  end.
End make_inputs.

(** ** Machine integers *)

Lemma wrap_small bits x :
  0 < bits → - 2 ^ (bits - 1) ≤ x < 2 ^ (bits - 1) → wrap bits x = x.
Proof.
  intros Hb Hx. unfold wrap. replace (2 ^ bits) with (2 * 2 ^ (bits - 1)).
  { rewrite Z.mod_small; lia. }
  rewrite <-Z.pow_succ_r by lia. f_equal. lia.
Qed.

Lemma torch_tensor_Ok bits l :
  Forall (λ x, - 2 ^ (bits - 1) ≤ x < 2 ^ (bits - 1)) l → torch_tensor bits l = Ok l.
Proof.
  intros Hl. unfold torch_tensor. replace (forallb _ l) with true; [done|].
  symmetry. apply forallb_forall. intros x Hx%list_elem_of_In.
  rewrite Forall_forall in Hl. specialize (Hl x Hx).
  apply andb_true_intro. split; [apply Z.leb_le | apply Z.ltb_lt]; lia.
Qed.

Lemma cumsum_bounds acc l x :
  Forall (λ x, 0 ≤ x) l → x ∈ cumsum_from acc l → acc ≤ x ≤ acc + sumZ l.
Proof.
  intros Hl. revert acc. induction Hl as [|y l Hy Hl IH]; intros acc; simpl.
  - intros ->%list_elem_of_singleton. lia.
  - pose proof (sumZ_nonneg _ Hl). rewrite elem_of_cons. intros [->|Hx]; [lia|].
    apply IH in Hx. lia.
Qed.

Lemma torch_tensor_np_cumsum l :
  Forall (λ x, 0 ≤ x) l → sumZ l < 2 ^ 31 → torch_tensor_np 32 (cumsum0 l) = cumsum0 l.
Proof.
  intros Hl Hs. unfold torch_tensor_np. rewrite <-(list_fmap_id (cumsum0 l)) at 2.
  apply fmap_list_ext. intros x Hx. apply (cumsum_bounds 0) in Hx; [|done].
  apply wrap_small; simpl in *; lia.
Qed.

(** ** The accumulating loops *)

Definition last_tokens (page_size : Z) (d : InferInput) : Z :=
  (context_len d - 1) `mod` page_size + 1.

Lemma last_block_len_Ok page d :
  0 < page → last_block_len (context_len d) page = Ok (last_tokens page d).
Proof. intros. unfold last_block_len. by rewrite py_mod_pos. Qed.

(** The tables of a list of requests. *)
Definition block_counts (ins : list InferInput) : list Z := (λ d, len (block_ids d)) <$> ins.
Definition block_table (ins : list InferInput) : list Z := concat (block_ids <$> ins).

(** What a batch must satisfy for its arrays to be representable. *)
Record batch_fits (ins : list InferInput) : Prop := {
  fits_tokens : Forall (λ d, Forall (λ x, 0 ≤ x < 2 ^ 63) (input_ids d)) ins;
  fits_context : Forall (λ d, 0 ≤ filled_token_len d ∧ context_len d < 2 ^ 31) ins;
  fits_blocks : Forall (λ x, 0 ≤ x < 2 ^ 31) (block_table ins);
  fits_input_len : Forall (λ d, 0 ≤ input_len d) ins;
  fits_total : sumZ (input_len <$> ins) < 2 ^ 31;
  fits_table : len (block_table ins) < 2 ^ 31;
}.

Section tensors.
Context (ins : list InferInput) (page : Z) (Hpage : 0 < page < 2 ^ 31) (Hfits : batch_fits ins).

Lemma table_tensor : torch_tensor 32 (block_table ins) = Ok (block_table ins).
Proof using Hfits.
  apply torch_tensor_Ok. eapply Forall_impl; [apply Hfits|]. simpl. lia.
Qed.

Lemma lasts_tensor :
  torch_tensor 32 (last_tokens page <$> ins) = Ok (last_tokens page <$> ins).
Proof using Hpage.
  apply torch_tensor_Ok, Forall_fmap, Forall_forall. intros d _. simpl. unfold last_tokens.
  pose proof (Z.mod_pos_bound (context_len d - 1) page). lia.
Qed.

Lemma counts_tensor :
  torch_tensor_np 32 (cumsum0 (block_counts ins)) = cumsum0 (block_counts ins).
Proof using Hfits.
  apply torch_tensor_np_cumsum.
  - apply Forall_fmap, Forall_forall. intros; apply len_nonneg.
  - unfold block_counts. rewrite sumZ_len_fmap. apply Hfits.
Qed.

Lemma lens_tensor :
  torch_tensor_np 32 (cumsum0 (input_len <$> ins)) = cumsum0 (input_len <$> ins).
Proof using Hfits.
  apply torch_tensor_np_cumsum; [|apply Hfits]. apply Forall_fmap, Hfits.
Qed.

(** The loop common to the two planners and to [_make_inputs], up to the order
    of its accumulators. *)
Lemma blocks_loop :
  foldl (λ '(c, d, e) data,
    (c ++ [len (block_ids data)], d ++ block_ids data, e ++ [last_tokens page data]))
    ([], [], []) ins
  = (block_counts ins, block_table ins, last_tokens page <$> ins).
Proof using.
  clear. induction ins as [|d l IH] using rev_ind; [done|].
  rewrite foldl_app, IH. unfold block_counts, block_table.
  rewrite !fmap_app, concat_app. csimpl. by rewrite app_nil_r.
Qed.

Lemma build_prefill_wrapper_Ok heads kv_heads hd dt :
  build_prefill_wrapper ins heads kv_heads hd page dt = Ok {|
    pf_qo_indptr := cumsum0 (input_len <$> ins);
    pf_paged_kv_indptr := cumsum0 (block_counts ins);
    pf_paged_kv_indices := block_table ins;
    pf_paged_kv_last_page_len := last_tokens page <$> ins;
    pf_num_qo_heads := heads; pf_num_kv_heads := kv_heads;
    pf_head_dim_qk := hd; pf_page_size := page; pf_q_data_type := dt |}.
Proof using Hpage Hfits.
  unfold build_prefill_wrapper.
  rewrite (foldM_pure _ (λ '(a, b, c, d, e) data,
    (a ++ [input_len data], b ++ [context_len data], c ++ [len (block_ids data)],
     d ++ block_ids data, e ++ [last_tokens page data]))).
  2:{ intros [[[[a b] c] d] e] data _. by rewrite last_block_len_Ok by lia. }
  replace (foldl _ _ ins) with (input_len <$> ins, context_len <$> ins, block_counts ins,
    block_table ins, last_tokens page <$> ins).
  2:{ clear. induction ins as [|d l IH] using rev_ind; [done|].
      rewrite foldl_app, <-IH. unfold block_counts, block_table.
      rewrite !fmap_app, concat_app. csimpl. by rewrite app_nil_r. }
  simpl. rewrite table_tensor. simpl. rewrite lasts_tensor. simpl.
  by rewrite lens_tensor, counts_tensor.
Qed.

Lemma build_decode_wrapper_Ok heads kv_heads hd dt :
  Forall (λ d, input_len d = 1) ins →
  build_decode_wrapper ins heads kv_heads hd page dt = Ok {|
    dc_indptr := cumsum0 (block_counts ins);
    dc_indices := block_table ins;
    dc_last_page_len := last_tokens page <$> ins;
    dc_num_qo_heads := heads; dc_num_kv_heads := kv_heads;
    dc_head_dim := hd; dc_page_size := page; dc_q_data_type := dt |}.
Proof using Hpage Hfits.
  intros Hone. unfold build_decode_wrapper.
  rewrite (foldM_pure _ (λ '(c, d, e) data,
    (c ++ [len (block_ids data)], d ++ block_ids data, e ++ [last_tokens page data]))).
  2:{ intros [[c d] e] data Hd. rewrite Forall_forall in Hone. rewrite (Hone data Hd).
      simpl. by rewrite last_block_len_Ok by lia. }
  rewrite blocks_loop. simpl. rewrite table_tensor. simpl. rewrite lasts_tensor. simpl.
  by rewrite counts_tensor.
Qed.
End tensors.

(** A part of a batch fits when the batch does. *)
Lemma sumZ_filter_le {A} (P : A → Prop) `{!∀ x, Decision (P x)} (f : A → Z) l :
  Forall (λ x, 0 ≤ f x) l → sumZ (f <$> filter P l) ≤ sumZ (f <$> l).
Proof.
  induction 1 as [|x l Hx Hl IH]; [done|]. rewrite filter_cons.
  case_decide; csimpl; lia.
Qed.

Lemma batch_fits_filter P `{!∀ x, Decision (P x)} ins :
  batch_fits ins → batch_fits (filter P ins).
Proof.
  intros [Htok Hctx Hblocks Hlen Htotal Htable].
  assert (∀ Q, Forall Q ins → Forall Q (filter P ins)) as Hsub.
  { intros Q. rewrite !Forall_forall. intros HQ d [_ Hd]%list_elem_of_filter. auto. }
  split; auto.
  - unfold block_table in *. rewrite Forall_concat in *. rewrite Forall_fmap in *. auto.
  - pose proof (sumZ_filter_le P input_len ins Hlen). lia.
  - unfold block_table in *. rewrite <-!sumZ_len_fmap in *.
    assert (Forall (λ d, 0 ≤ len (block_ids d)) ins) as Hpos.
    { apply Forall_forall. intros; apply len_nonneg. }
    pose proof (sumZ_filter_le P _ ins Hpos). lia.
Qed.

#[export] Instance batch_fits_perm : Proper ((≡ₚ) ==> iff) batch_fits.
Proof.
  assert (∀ l k : list InferInput, l ≡ₚ k → batch_fits l → batch_fits k) as Himp.
  { intros l k Hlk []. split; try by rewrite <-Hlk.
    - unfold block_table in *. by rewrite <-Hlk.
    - rewrite <-(sumZ_perm (input_len <$> l)); [done|]. by rewrite Hlk.
    - unfold block_table, len in *. by rewrite <-Hlk. }
  intros l k Hlk. split; apply Himp; done.
Qed.

Lemma batch_fits_one d ins : batch_fits ins → d ∈ ins → batch_fits [d].
Proof.
  intros Hins (l & k & ->)%list_elem_of_split. rewrite <-Permutation_middle in Hins.
  destruct Hins as [Htok Hctx Hblocks Hlen Htotal Htable].
  apply Forall_cons in Htok as [Htok _], Hctx as [Hctx _], Hlen as [Hlend Hlen].
  assert (0 ≤ sumZ (input_len <$> l ++ k)) as Hpos by (by apply sumZ_nonneg, Forall_fmap).
  unfold block_table in *. csimpl in *. apply Forall_app in Hblocks as [Hblocks _].
  split; unfold block_table; csimpl; rewrite ?app_nil_r, ?Forall_singleton; try done; [lia|].
  rewrite len_app in Htable. pose proof (len_nonneg (concat (block_ids <$> l ++ k))). lia.
Qed.

(** ** The batch [_make_inputs] builds *)

Definition is_prefill (d : InferInput) : Prop := 1 < input_len d.
Definition is_decode (d : InferInput) : Prop := input_len d = 1.

Definition positions_of (d : InferInput) : list Z :=
  py_range (filled_token_len d) (context_len d).

Lemma scan_spec ins :
  foldl scan_step (Scan [] [] 0 [] [] [] []) ins = {|
    sc_flatten_input_ids := concat (input_ids <$> ins);
    sc_position_ids := concat (positions_of <$> ins);
    sc_prefill_input_len := sumZ (input_len <$> filter is_prefill ins);
    sc_prefill_data_list := filter is_prefill ins;
    sc_decode_data_list := filter is_decode ins;
    sc_seqlens_q := input_len <$> ins;
    sc_seqlens_k := context_len <$> ins |}.
Proof.
  induction ins as [|d ins IH] using rev_ind; [done|].
  rewrite foldl_app, IH. cbn [foldl]. unfold scan_step. cbn -[concat filter fmap].
  rewrite !filter_app, !fmap_app, !concat_app. csimpl. rewrite !app_nil_r.
  rewrite !filter_cons. unfold is_prefill, is_decode.
  destruct (Z.ltb_spec 1 (input_len d)), (Z.eqb_spec (input_len d) 1);
    repeat case_decide; try lia; simpl; rewrite ?app_nil_r, ?sumZ_app; simpl; f_equal; lia.
Qed.

Definition unless_empty {A B} (l : list A) (x : B) : option B :=
  match l with [] => None | _ => Some x end.

Lemma unless_empty_Some {A B} (l : list A) (x y : B) : unless_empty l x = Some y → y = x.
Proof. destruct l; simpl; congruence. Qed.

Section make_inputs_spec.
Context `{FlashInferLaws Q K V R} (config : ModelConfig) (page : Z).

(** The arrays of a batch, as functions of the sorted list. *)
Definition batch_plans (ins : list InferInput)
    : option PrefillWrapper * option DecodeWrapper :=
  let P := filter is_prefill ins in
  let D := filter is_decode ins in
  (unless_empty P {|
     pf_qo_indptr := cumsum0 (input_len <$> P);
     pf_paged_kv_indptr := cumsum0 (block_counts P);
     pf_paged_kv_indices := block_table P;
     pf_paged_kv_last_page_len := last_tokens page <$> P;
     pf_num_qo_heads := mc_num_heads config; pf_num_kv_heads := mc_num_kv_heads config;
     pf_head_dim_qk := mc_head_dim config; pf_page_size := page;
     pf_q_data_type := mc_dtype config |},
   unless_empty D {|
     dc_indptr := cumsum0 (block_counts D);
     dc_indices := block_table D;
     dc_last_page_len := last_tokens page <$> D;
     dc_num_qo_heads := mc_num_heads config; dc_num_kv_heads := mc_num_kv_heads config;
     dc_head_dim := mc_head_dim config; dc_page_size := page;
     dc_q_data_type := mc_dtype config |}).

(** The sequence number of every token of the batch. *)
Definition owners (ins : list InferInput) : list Z :=
  concat (imap (λ i d, replicate (Z.to_nat (input_len d)) (Z.of_nat i)) ins).

Definition batch_params (ins : list InferInput) (positions : list Z) : InputParams := {|
  ip_position_ids := concat (positions_of <$> ins);
  ip_cu_seqlens_q := cumsum0 (input_len <$> ins);
  ip_prefill_input_len := sumZ (input_len <$> filter is_prefill ins);
  ip_prefill_wrapper := (batch_plans ins).1;
  ip_decode_wrapper := (batch_plans ins).2;
  ip_batch_indices := Some (owners ins);
  ip_positions := Some positions;
  ip_kv_block_indices := Some (block_table ins);
  ip_kv_block_indptrs := Some (cumsum0 (block_counts ins));
  ip_kv_last_block_lens := Some (last_tokens page <$> ins) |}.

(** A request as the client sends it: the lengths agree, and its blocks are
    exactly those its tokens need. *)
Record input_wf (d : InferInput) : Prop := {
  wf_len : input_len d = len (input_ids d);
  wf_filled : 0 ≤ filled_token_len d;
  wf_context : context_len d = input_len d + filled_token_len d;
  wf_blocks : len (block_ids d) = (context_len d + page - 1) / page;
}.

Hypothesis Hpage : 0 < page < 2 ^ 31.

(** The length the kernels derive from the blocks is the context length. *)
Lemma kv_len_context d :
  input_wf d → 0 < context_len d →
  kv_len page (len (block_ids d)) (last_tokens page d) = context_len d.
Proof using Hpage.
  intros [_ _ _ Hb] Hc. unfold kv_len, last_tokens. rewrite Hb.
  set (c := context_len d) in *.
  replace ((c + page - 1) / page) with ((c - 1) / page + 1).
  2:{ replace (c + page - 1) with (c - 1 + 1 * page) by lia. by rewrite Z.div_add by lia. }
  pose proof (Z.div_mod (c - 1) page). pose proof (Z.div_pos (c - 1) page). lia.
Qed.

Lemma block_in_range d p :
  input_wf d → 0 ≤ p < context_len d → 0 ≤ p / page < len (block_ids d).
Proof using Hpage.
  intros [_ _ _ Hb] Hp. rewrite Hb. split; [apply Z.div_pos; lia|].
  replace (context_len d + page - 1) with (context_len d - 1 + 1 * page) by lia.
  rewrite Z.div_add by lia. pose proof (Z.div_le_mono p (context_len d - 1) page). lia.
Qed.

Lemma positions_fit ins :
  batch_fits ins →
  Forall (λ x, - 2 ^ (32 - 1) ≤ x < 2 ^ (32 - 1)) (concat (positions_of <$> ins)).
Proof using.
  intros [_ Hctx _ _ _ _]. apply Forall_concat, Forall_fmap.
  eapply Forall_impl; [exact Hctx|]. intros d [Hf Hc]. simpl.
  apply Forall_forall. unfold positions_of. intros x ?%elem_of_py_range. simpl. lia.
Qed.

Lemma tokens_fit ins :
  batch_fits ins →
  Forall (λ x, - 2 ^ (64 - 1) ≤ x < 2 ^ (64 - 1)) (concat (input_ids <$> ins)).
Proof using.
  intros [Htok _ _ _ _ _]. apply Forall_concat, Forall_fmap.
  eapply Forall_impl; [exact Htok|]. intros d Hd. simpl.
  eapply Forall_impl; [exact Hd|]. simpl. lia.
Qed.

Lemma plans_Ok ins :
  batch_fits ins →
  (if 0 <? len (filter is_prefill ins) then
     Some <$> build_prefill_wrapper (filter is_prefill ins) (mc_num_heads config)
                (mc_num_kv_heads config) (mc_head_dim config) page (mc_dtype config)
   else Ok None) = Ok (batch_plans ins).1 ∧
  (if 0 <? len (filter is_decode ins) then
     Some <$> build_decode_wrapper (filter is_decode ins) (mc_num_heads config)
                (mc_num_kv_heads config) (mc_head_dim config) page (mc_dtype config)
   else Ok None) = Ok (batch_plans ins).2.
Proof using Hpage.
  intros Hfits. rewrite build_prefill_wrapper_Ok, build_decode_wrapper_Ok;
    [|done|by apply batch_fits_filter| |done|by apply batch_fits_filter].
  - unfold batch_plans; simpl.
    by destruct (filter is_prefill ins), (filter is_decode ins).
  - apply Forall_forall. by intros d [Hd _]%list_elem_of_filter.
Qed.

(** The positions flashinfer derives from the block tables. *)
Definition append_plan (ins : list InferInput) : list Z :=
  concat ((λ d, append_positions (input_len d)
                  (kv_len page (len (block_ids d)) (last_tokens page d))) <$> ins).

Lemma append_arrays ins :
  batch_fits ins →
  get_batch_indices_positions (cumsum0 (input_len <$> ins))
    (get_seq_lens (cumsum0 (block_counts ins)) (last_tokens page <$> ins) page)
    (sumZ (input_len <$> ins))
  = (owners ins, append_plan ins).
Proof using Hpage H0.
  intros Hfits.
  set (ns := (λ d, (len (block_ids d), last_tokens page d)) <$> ins).
  set (qs := (λ d, (input_len d,
    kv_len page (len (block_ids d)) (last_tokens page d))) <$> ins).
  replace (block_counts ins) with ns.*1 by (unfold ns; by rewrite <-list_fmap_compose).
  replace (last_tokens page <$> ins) with ns.*2 by (unfold ns; by rewrite <-list_fmap_compose).
  rewrite get_seq_lens_spec.
  replace ((λ '(n, last), kv_len page n last) <$> ns) with qs.*2
    by (unfold qs, ns; by rewrite <-!list_fmap_compose).
  replace (input_len <$> ins) with qs.*1 by (unfold qs; by rewrite <-list_fmap_compose).
  rewrite get_batch_indices_positions_spec; [|apply Forall_fmap, Hfits|done].
  unfold owners, append_plan, qs. rewrite imap_fmap, <-list_fmap_compose. done.
Qed.

Lemma append_plan_positions ins :
  Forall input_wf ins → append_plan ins = concat (positions_of <$> ins).
Proof using Hpage.
  intros Hwf. unfold append_plan. f_equal. apply fmap_list_ext. intros d Hd.
  rewrite Forall_forall in Hwf. specialize (Hwf d Hd). unfold append_positions, positions_of.
  destruct (decide (0 < context_len d)).
  - rewrite kv_len_context by done. destruct Hwf as [_ _ -> _].
    pose proof (py_range_shift 0 (input_len d) (filled_token_len d)) as E.
    rewrite Z.add_0_l in E. rewrite E. apply fmap_range_ext. intros. simpl. lia.
  - destruct Hwf. rewrite !py_range_empty; [done|lia..].
Qed.

Lemma make_inputs_Ok ins :
  batch_fits ins →
  make_inputs config page true ins
  = Ok (sort_inputs ins, (concat (input_ids <$> sort_inputs ins),
      batch_params (sort_inputs ins) (append_plan (sort_inputs ins)))).
Proof using Hpage H0.
  intros Hfits. rewrite <-(sort_key_perm (λ x, - input_len x) ins) in Hfits.
  fold (sort_inputs ins) in Hfits. unfold make_inputs.
  set (s := sort_inputs ins) in *. rewrite scan_spec.
  cbn [sc_flatten_input_ids sc_position_ids sc_prefill_input_len sc_prefill_data_list
       sc_decode_data_list sc_seqlens_q].
  rewrite (torch_tensor_Ok 64), Ok_bind by (by apply tokens_fit).
  rewrite (torch_tensor_Ok 32), Ok_bind by (by apply positions_fit).
  destruct (plans_Ok s Hfits) as [-> ->]. rewrite !Ok_bind.
  rewrite (foldM_pure _ (λ '(d, c, e) data,
    (d ++ block_ids data, c ++ [len (block_ids data)], e ++ [last_tokens page data]))).
  2:{ intros [[c d] e] data _. by rewrite last_block_len_Ok by lia. }
  replace (foldl _ _ s) with (block_table s, block_counts s, last_tokens page <$> s).
  2:{ generalize s. clear. intros s. induction s as [|d l IH] using rev_ind; [done|].
      rewrite foldl_app, <-IH. unfold block_counts, block_table.
      rewrite !fmap_app, concat_app. csimpl. by rewrite app_nil_r. }
  rewrite Ok_bind. rewrite table_tensor, Ok_bind by done.
  rewrite lasts_tensor, Ok_bind by done. rewrite lens_tensor, counts_tensor by done.
  by rewrite append_arrays by done.
Qed.
End make_inputs_spec.
