(* ===== verification/PagedAttention.v ===== *)
(** * Attention over a batch

    That attention over the arrays of [Batch] is attention of each request over
    its own tokens: the slots requests write are disjoint, the cache holds the
    tokens of a request in order, and the two kernels' results are assigned to
    the rows of the requests.  Consequences: prefilling in chunks equals
    prefilling at once; the layout of the arrays. *)
From S2P Require Import Prelude FlashInfer Batch.

(** ** Slots of the cache *)

Section slots.
Context (page : Z) (Hpage : 0 < page < 2 ^ 31).

Definition slots (d : InferInput) (a b : Z) : list (Z * Z) :=
  slot page (block_ids d) <$> py_range a b.

(** Two positions of a request have different slots, in its own pages. *)
Lemma slot_page d p :
  input_wf page d → 0 ≤ p < context_len d →
  block_ids d !! Z.to_nat (p / page) = Some (slot page (block_ids d) p).1.
Proof using Hpage.
  intros Hwf Hp. pose proof (block_in_range page Hpage d p Hwf Hp).
  destruct (lookup_lt_is_Some_2 (block_ids d) (Z.to_nat (p / page))) as [b Hb].
  { unfold len in *; lia. }
  unfold slot. by rewrite Hb.
Qed.

Lemma NoDup_slots d :
  input_wf page d → NoDup (block_ids d) → NoDup (slots d 0 (context_len d)).
Proof using Hpage.
  intros Hwf Hnd. unfold slots. apply NoDup_fmap_2_strong; [|apply NoDup_py_range].
  intros p p' Hp%elem_of_py_range Hp'%elem_of_py_range E.
  pose proof (slot_page d p Hwf Hp) as L. pose proof (slot_page d p' Hwf Hp') as L'.
  rewrite <-E in L'. pose proof (NoDup_lookup _ _ _ _ Hnd L L') as Hdiv.
  assert (p `mod` page = p' `mod` page) by (unfold slot in E; by injection E).
  pose proof (block_in_range page Hpage d p Hwf Hp).
  pose proof (block_in_range page Hpage d p' Hwf Hp').
  rewrite (Z.div_mod p page), (Z.div_mod p' page) by lia.
  f_equal; [f_equal; lia | done].
Qed.

Lemma slots_pages d s :
  input_wf page d → s ∈ slots d 0 (context_len d) → s.1 ∈ block_ids d.
Proof using Hpage.
  intros Hwf (p & -> & Hp%elem_of_py_range)%list_elem_of_fmap.
  eapply list_elem_of_lookup_2, slot_page; done.
Qed.

(** No two tokens of a batch share a slot when no two requests share a page. *)
Lemma NoDup_all_slots ins :
  Forall (input_wf page) ins → NoDup (block_table ins) →
  NoDup (concat ((λ d, slots d 0 (context_len d)) <$> ins)).
Proof using Hpage.
  induction 1 as [|d ins Hd Hins IH]; unfold block_table; csimpl; [constructor|].
  intros (Hnd & Hdisj & Hrest)%NoDup_app. apply NoDup_app. split_and!.
  - by apply NoDup_slots.
  - intros s Hs Hs'. apply (Hdisj s.1); [by apply slots_pages|].
    apply elem_of_concat_fmap in Hs' as (d' & Hd' & Hs').
    apply elem_of_concat_fmap. exists d'. split; [done|].
    apply slots_pages; [|done]. rewrite Forall_forall in Hins. auto.
  - apply IH, Hrest.
Qed.

Lemma slots_split d :
  input_wf page d → 0 ≤ input_len d →
  slots d 0 (context_len d)
  = slots d 0 (filled_token_len d) ++ slots d (filled_token_len d) (context_len d).
Proof using.
  intros [_ Hf Hc _] Hl. unfold slots. rewrite <-fmap_app, py_range_app by lia. done.
Qed.

(** *** What a batch writes *)

Definition new_slots (d : InferInput) : list (Z * Z) :=
  slots d (filled_token_len d) (context_len d).
Definition batch_slots (ins : list InferInput) : list (Z * Z) := concat (new_slots <$> ins).

(** No two new tokens have one slot, and no old token of a request is overwritten.
    Requests may share the pages of a common prefix. *)
Record writes_apart (ins : list InferInput) : Prop := {
  wa_new : NoDup (batch_slots ins);
  wa_old d s : d ∈ ins → s ∈ slots d 0 (filled_token_len d) → s ∉ batch_slots ins;
}.

Lemma elem_of_batch_slots ins s : s ∈ batch_slots ins ↔ ∃ d, d ∈ ins ∧ s ∈ new_slots d.
Proof using. exact (elem_of_concat_fmap new_slots ins s). Qed.

#[export] Instance writes_apart_dec ins : Decision (writes_apart ins).
Proof using.
  refine (cast_if (decide (NoDup (batch_slots ins) ∧
    Forall (λ d, Forall (λ s, s ∉ batch_slots ins) (slots d 0 (filled_token_len d))) ins))).
  - abstract (destruct a as [Hnew Hold]; split; [done|]; intros d s Hd Hs;
      rewrite Forall_forall in Hold; specialize (Hold d Hd); rewrite Forall_forall in Hold; auto).
  - abstract (intros [Hnew Hold]; apply n; split; [done|]; apply Forall_forall; intros d Hd;
      apply Forall_forall; intros s Hs; by apply (Hold d)).
Defined.

Lemma writes_apart_perm s ins : s ≡ₚ ins → writes_apart ins → writes_apart s.
Proof using.
  intros Hs [Hnew Hold]. split; unfold batch_slots in *.
  - by rewrite Hs.
  - intros d x Hd Hx. rewrite Hs in Hd |- *. by apply (Hold d).
Qed.

Lemma writes_apart_one ins d : d ∈ ins → writes_apart ins → writes_apart [d].
Proof using.
  intros Hd [Hnew Hold].
  assert (batch_slots [d] = new_slots d) as E by (unfold batch_slots; csimpl; apply app_nil_r).
  split; rewrite E.
  - apply list_elem_of_split in Hd as (l1 & l2 & ->). unfold batch_slots in Hnew.
    rewrite fmap_app, concat_app in Hnew. csimpl in Hnew.
    by apply NoDup_app in Hnew as (_ & _ & [? _]%NoDup_app).
  - intros d' s ->%list_elem_of_singleton Hs Hn. apply (Hold d s Hd Hs).
    apply elem_of_batch_slots. by exists d.
Qed.

(** Where no two requests share a page at all. *)
Lemma pages_apart ins :
  (∀ d, d ∈ ins → input_wf page d) → NoDup (block_table ins) → writes_apart ins.
Proof using Hpage.
  intros Hwf Hnd. pose proof (NoDup_all_slots ins) as Hall. rewrite Forall_forall in Hall.
  specialize (Hall Hwf Hnd).
  assert (NoDup (concat ((λ d, slots d 0 (filled_token_len d)) <$> ins) ++ batch_slots ins)) as Hn.
  { unfold batch_slots. rewrite <-concat_app_perm.
    replace ((λ d, slots d 0 (filled_token_len d) ++ new_slots d) <$> ins)
      with ((λ d, slots d 0 (context_len d)) <$> ins); [done|].
    apply fmap_list_ext. intros d Hd. apply slots_split; [auto|].
    rewrite (wf_len _ _ (Hwf d Hd)). apply len_nonneg. }
  apply NoDup_app in Hn as (_ & Hdis & Hnew). split; [done|].
  intros d s Hd Hs. apply Hdis, elem_of_concat_fmap. by exists d.
Qed.
End slots.

Lemma imap_index {A B} (f : nat → A → B) (g : A → B) (l : list A) :
  (∀ i x, l !! i = Some x → f i x = g x) → imap f l = g <$> l.
Proof.
  revert f; induction l as [|x l IH]; intros f Hf; csimpl; [done|].
  f_equal; [by apply Hf|]. apply IH. intros i y Hy. by apply (Hf (S i)).
Qed.

(** ** The cache after a step *)

Section append.
Context `{FlashInferLaws Q K V R} (page : Z) (Hpage : 0 < page < 2 ^ 31).
Context (ins : list InferInput) (ks : InferInput → list K) (vs : InferInput → list V).
Context (cache : paged_cache K V).
Hypothesis (Hcache : pc_page_size cache = page).
Hypothesis (Hwf : ∀ d, d ∈ ins → input_wf page d).
Hypothesis (Hlen : ∀ d, d ∈ ins → 0 ≤ input_len d).
Hypothesis (Hks : ∀ d, d ∈ ins → len (ks d) = input_len d).
Hypothesis (Hvs : ∀ d, d ∈ ins → len (vs d) = input_len d).
Hypothesis (Hpages : writes_apart page ins).

(** The rows a request adds, with their slots. *)
Definition new_entries (d : InferInput) : list (Z * Z * (K * V)) :=
  zip (new_slots page d) (zip (ks d) (vs d)).
Definition appended : paged_cache K V :=
  PagedCache page (insert_all (pc_slots cache) (concat (new_entries <$> ins))).

Lemma length_positions d : d ∈ ins → length (positions_of d) = Z.to_nat (input_len d).
Proof using Hwf.
  intros Hd. destruct (Hwf d Hd) as [_ _ Hc _]. unfold positions_of.
  rewrite length_py_range. f_equal. lia.
Qed.

Lemma length_kvs d : d ∈ ins → length (zip (ks d) (vs d)) = Z.to_nat (input_len d).
Proof using Hks Hvs.
  intros Hd. specialize (Hks d Hd). specialize (Hvs d Hd). unfold len in *.
  rewrite length_zip_with. lia.
Qed.

Lemma new_entries_keys : (concat (new_entries <$> ins)).*1 = batch_slots page ins.
Proof using Hwf Hks Hvs.
  unfold batch_slots. rewrite fmap_concat, <-list_fmap_compose. f_equal. apply fmap_list_ext. intros d Hd. simpl.
  unfold new_entries. apply fst_zip. unfold new_slots, slots. rewrite length_fmap.
  rewrite length_kvs by done. change (length (positions_of d) ≤ Z.to_nat (input_len d))%nat.
  by rewrite length_positions.
Qed.

Lemma append_cache lasts :
  append_paged_kv_cache (concat (ks <$> ins)) (concat (vs <$> ins)) (owners ins)
    (concat (positions_of <$> ins)) cache (block_table ins) (cumsum0 (block_counts ins)) lasts
  = appended.
Proof using Hcache Hwf Hlen Hks Hvs H0.
  unfold block_table, block_counts. rewrite (list_fmap_compose block_ids len).
  rewrite append_paged_kv_cache_spec, Hcache. unfold appended. f_equal.
  set (X := imap pair ins).
  assert (∀ A (f : InferInput → A), f <$> ins = (λ p, f p.2) <$> X) as HX.
  { intros A f. unfold X. rewrite fmap_imap. symmetry. by apply imap_index. }
  assert (∀ p, p ∈ X → ins !! p.1 = Some p.2) as HXin.
  { intros p (i & Hp)%list_elem_of_lookup. unfold X in Hp.
    rewrite list_lookup_imap in Hp. destruct (ins !! i) eqn:E; [|done]. by injection Hp as <-. }
  assert (∀ p, p ∈ X → p.2 ∈ ins) as HXel.
  { intros p Hp. by eapply list_elem_of_lookup_2, HXin. }
  replace (owners ins)
    with (concat ((λ p, replicate (Z.to_nat (input_len p.2)) (Z.of_nat p.1)) <$> X))
    by (unfold owners, X; by rewrite fmap_imap).
  rewrite (HX _ positions_of), (HX _ ks), (HX _ vs).
  rewrite !zip_concat.
  4:{ intros p Hp. rewrite length_replicate, length_positions; auto. }
  3:{ intros p Hp%HXel. specialize (Hks _ Hp). specialize (Hvs _ Hp). unfold len in *. lia. }
  2:{ intros p Hp%HXel. rewrite length_kvs by done.
      rewrite length_zip_with, length_replicate, length_positions by done. lia. }
  unfold insert_all. rewrite (HX _ new_entries).
  transitivity (foldl (λ m '(k, v), <[k:=v]> m) (pc_slots cache)
    ((λ '(i, p, kv), (slot page (default [] ((block_ids <$> ins) !! Z.to_nat i)) p, kv)) <$>
     concat ((λ p, zip (zip (replicate (Z.to_nat (input_len p.2)) (Z.of_nat p.1))
       (positions_of p.2)) (zip (ks p.2) (vs p.2))) <$> X))).
  { rewrite foldl_fmap. apply foldl_pointwise. by intros m [[i p] kv]. }
  f_equal. rewrite fmap_concat, <-list_fmap_compose. f_equal. apply fmap_list_ext.
  intros [i d] Hp. pose proof (HXin _ Hp) as Hi. pose proof (HXel _ Hp) as Hd. simpl in *.
  rewrite zip_with_replicate_l by (by rewrite length_positions).
  unfold new_entries, new_slots, slots. fold (positions_of d).
  rewrite !zip_with_fmap_l, fmap_zip. apply zip_with_ext; [|done..].
  intros p kv. by rewrite Nat2Z.id, list_lookup_fmap, Hi.
Qed.

(** What the cache holds of a request after the step: the old rows, then the
    new ones. *)
Lemma old_slot d p :
  d ∈ ins → 0 ≤ p < filled_token_len d →
  pc_slots appended !! slot page (block_ids d) p = pc_slots cache !! slot page (block_ids d) p.
Proof using Hwf Hks Hvs Hpages.
  intros Hd Hp. apply lookup_insert_all_fresh. rewrite new_entries_keys.
  apply (wa_old _ _ Hpages d); [done|]. apply list_elem_of_fmap_2. by apply elem_of_py_range.
Qed.

Lemma new_slot d (j : nat) kv :
  d ∈ ins → zip (ks d) (vs d) !! j = Some kv →
  pc_slots appended !! slot page (block_ids d) (filled_token_len d + Z.of_nat j) = Some kv.
Proof using Hwf Hks Hvs Hpages.
  intros Hd Hj. apply lookup_insert_all.
  { rewrite new_entries_keys. apply (wa_new _ _ Hpages). }
  apply elem_of_concat_fmap. exists d. split; [done|]. apply list_elem_of_lookup. exists j.
  unfold new_entries. apply lookup_zip_with_Some. eexists _, _. split; [done|]. split; [|done].
  apply lookup_lt_Some in Hj. rewrite length_kvs in Hj by done.
  destruct (Hwf d Hd) as [_ _ Hc _]. unfold new_slots, slots.
  rewrite list_lookup_fmap, lookup_py_range by lia. done.
Qed.

Lemma appended_paged_kv d (n : nat) :
  d ∈ ins → Z.of_nat n ≤ input_len d →
  paged_kv appended (block_ids d) (filled_token_len d + Z.of_nat n)
  = paged_kv cache (block_ids d) (filled_token_len d)
    ++ (Some <$> take n (zip (ks d) (vs d))).
Proof using Hcache Hwf Hks Hvs Hpages.
  intros Hd Hn. destruct (Hwf d Hd) as [_ Hf _ _]. unfold paged_kv. rewrite Hcache. simpl.
  rewrite <-(py_range_app 0 (filled_token_len d)) by lia. rewrite fmap_app. f_equal.
  - apply fmap_range_ext. intros p Hp. by apply old_slot.
  - apply list_eq. intros j. rewrite !list_lookup_fmap.
    destruct (decide (j < n)%nat) as [Hj|Hj].
    + rewrite lookup_take_lt, lookup_py_range by lia. simpl.
      destruct (lookup_lt_is_Some_2 (zip (ks d) (vs d)) j) as [kv Hkv].
      { rewrite length_kvs by done. lia. }
      rewrite Hkv. simpl. f_equal. by apply new_slot.
    + rewrite !lookup_ge_None_2; [done| |]; rewrite ?length_take, ?length_py_range; lia.
Qed.

(** Nothing else is touched. *)
Lemma appended_frame s : s ∉ batch_slots page ins → pc_slots appended !! s = pc_slots cache !! s.
Proof using Hwf Hks Hvs.
  intros Hs. apply lookup_insert_all_fresh. by rewrite new_entries_keys.
Qed.
End append.

(** A sorted batch is its prefill requests, then its decode requests (then
    requests without new tokens). *)
Lemma rows_split {A} (ins : list InferInput) (f : InferInput → list A) :
  StronglySorted (λ a b, - input_len a ≤ - input_len b) ins →
  (∀ d, d ∈ ins → 0 ≤ input_len d ∧ len (f d) = input_len d) →
  concat (f <$> ins)
  = concat (f <$> filter is_prefill ins) ++ concat (f <$> filter is_decode ins).
Proof.
  intros Hsort Hf.
  rewrite (sorted_split (λ x, - input_len x) ins (-1) Hsort) at 1.
  rewrite fmap_app, concat_app. f_equal.
  - do 2 f_equal. apply list_filter_iff. intros d. unfold is_prefill. lia.
  - clear Hsort. induction ins as [|d l IH]; [done|].
    destruct (Hf d) as [Hd Hfd]; [set_solver|].
    rewrite !filter_cons. unfold is_decode in *. repeat case_decide; try lia; csimpl.
    + rewrite IH; [done|]. intros; apply Hf; set_solver.
    + rewrite IH by (intros; apply Hf; set_solver).
      destruct (f d); [done|]. rewrite len_cons in Hfd. pose proof (len_nonneg l0). lia.
    + apply IH. intros; apply Hf; set_solver.
Qed.

(** ** Attention over a batch *)

Section attention.
Context `{FlashInferLaws Q K V R} (config : ModelConfig) (page : Z).
Hypothesis (Hpage : 0 < page < 2 ^ 31).
Context (ins : list InferInput) (cache : paged_cache K V).
Context (qs : InferInput → list Q) (ks : InferInput → list K) (vs : InferInput → list V).


Definition rq (d : InferInput) : request Q := Request (qs d) (block_ids d) (last_tokens page d).

(** The specification: row [j] of a request attends to what the cache holds of
    the request and to the first [j+1] of its new rows. *)
Definition incremental_rows (d : InferInput) : list R :=
  imap (λ j q, attend q (paged_kv cache (block_ids d) (filled_token_len d)
                         ++ (Some <$> take (S j) (zip (ks d) (vs d))))) (qs d).

Record attention_inputs : Prop := {
  ai_page : pc_page_size cache = page;
  ai_wf : ∀ d, d ∈ ins → input_wf page d;
  ai_qs : ∀ d, d ∈ ins → len (qs d) = input_len d;
  ai_ks : ∀ d, d ∈ ins → len (ks d) = input_len d;
  ai_vs : ∀ d, d ∈ ins → len (vs d) = input_len d;
  ai_pages : writes_apart page ins;
}.
Hypothesis (Hai : attention_inputs).

Lemma ai_len d : d ∈ ins → 0 ≤ input_len d.
Proof using Hai. intros Hd. destruct Hai as [_ _ <- _ _ _]; [apply len_nonneg|done]. Qed.

Lemma causal_incremental d :
  d ∈ ins → 1 ≤ input_len d →
  causal_rows attend (appended page ins ks vs cache) (rq d) = incremental_rows d.
Proof using Hai Hpage.
  intros Hd Hl. pose proof Hai as [Hc Hwf Hq Hk Hv Hp].
  pose proof (wf_filled _ _ (Hwf d Hd)). pose proof (wf_context _ _ (Hwf d Hd)).
  unfold causal_rows, incremental_rows. simpl.
  rewrite kv_len_context by (auto || lia). rewrite Hq by done.
  apply imap_ext. intros j q Hj. simpl. f_equal.
  apply lookup_lt_Some in Hj. specialize (Hq d Hd). unfold len in Hq.
  rewrite <-(appended_paged_kv page ins ks vs cache Hc Hwf Hk Hv Hp)
    by (done || lia).
  f_equal. lia.
Qed.

Lemma rq_pages_nonempty d : d ∈ ins → 1 ≤ input_len d → rq_pages (rq d) ≠ [].
Proof using Hai Hpage.
  intros Hd Hl. pose proof (ai_wf Hai d Hd) as Hwf.
  assert (0 ≤ 0 < context_len d) as Hc by (destruct Hwf; lia).
  pose proof (block_in_range page Hpage d 0 Hwf Hc) as [_ Hb].
  rewrite Z.div_0_l in Hb by lia. intros E. simpl in E. by rewrite E in Hb.
Qed.

(** A sublist of the batch as the requests of a kernel. *)
Lemma kernel_rows l :
  (∀ d, d ∈ l → d ∈ ins ∧ 1 ≤ input_len d) →
  concat (causal_rows attend (appended page ins ks vs cache) <$> (rq <$> l))
  = concat (incremental_rows <$> l).
Proof using Hai Hpage.
  intros Hl. rewrite <-list_fmap_compose. f_equal. apply fmap_list_ext.
  intros d Hd. apply causal_incremental; by apply Hl.
Qed.

Lemma in_prefill d : d ∈ filter is_prefill ins → d ∈ ins ∧ 1 ≤ input_len d.
Proof. intros [Hp Hd]%list_elem_of_filter. unfold is_prefill in Hp. split; [done|lia]. Qed.

Lemma in_decode d : d ∈ filter is_decode ins → d ∈ ins ∧ 1 ≤ input_len d.
Proof. intros [Hp Hd]%list_elem_of_filter. unfold is_decode in Hp. split; [done|lia]. Qed.

Lemma prefill_kernel w :
  (batch_plans config page ins).1 = Some w →
  prefill_run w (concat (qs <$> filter is_prefill ins)) (appended page ins ks vs cache)
  = concat (incremental_rows <$> filter is_prefill ins).
Proof using Hai Hpage H0.
  unfold batch_plans. intros Hw.
  assert (∀ l : list InferInput, qs <$> l = rq_rows <$> (rq <$> l)) as ->
    by (intros; by rewrite <-list_fmap_compose).
  rewrite prefill_run_spec with (rs := rq <$> filter is_prefill ins).
  1: by apply kernel_rows, in_prefill.
  6:{ apply Forall_fmap, Forall_forall. intros d [Hd Hl]%in_prefill.
      exact (rq_pages_nonempty d Hd Hl). }
  all: apply unless_empty_Some in Hw as ->; cbn [pf_qo_indptr pf_paged_kv_indptr pf_paged_kv_indices
      pf_paged_kv_last_page_len pf_page_size].
  - rewrite <-list_fmap_compose. f_equal. apply fmap_list_ext. intros d Hd. simpl.
    symmetry. apply (ai_qs Hai). by apply in_prefill.
  - by rewrite <-list_fmap_compose.
  - by rewrite <-list_fmap_compose.
  - by rewrite <-list_fmap_compose.
  - done.
Qed.

Lemma decode_kernel w :
  (batch_plans config page ins).2 = Some w →
  decode_run w (concat (qs <$> filter is_decode ins)) (appended page ins ks vs cache)
  = concat (incremental_rows <$> filter is_decode ins).
Proof using Hai Hpage H0.
  unfold batch_plans. intros Hw.
  assert (∀ l : list InferInput, qs <$> l = rq_rows <$> (rq <$> l)) as ->
    by (intros; by rewrite <-list_fmap_compose).
  rewrite decode_run_spec with (rs := rq <$> filter is_decode ins).
  1: by apply kernel_rows, in_decode.
  5:{ apply Forall_fmap, Forall_forall. intros d Hd. destruct (in_decode d Hd) as [Hin Hl].
      split; [exact (rq_pages_nonempty d Hin Hl)|]. simpl. rewrite (ai_qs Hai) by done.
      by apply list_elem_of_filter in Hd as [? _]. }
  all: apply unless_empty_Some in Hw as ->; cbn [dc_indptr dc_indices dc_last_page_len dc_page_size].
  - by rewrite <-list_fmap_compose.
  - by rewrite <-list_fmap_compose.
  - by rewrite <-list_fmap_compose.
  - done.
Qed.

(** Assigning the first, respectively the last rows of the output. *)
Lemma assign_prefix {A} (a b : list (option A)) (l : list A) n :
  len l = len a → n = len a → assign_slice (a ++ b) 0 n l = Ok ((Some <$> l) ++ b).
Proof.
  intros Hl ->. unfold assign_slice. rewrite py_slice_app_l, Hl, Z.eqb_refl. simpl.
  f_equal. unfold py_slice at 1. simpl. f_equal. rewrite len_app.
  unfold py_slice, len. rewrite Nat2Z.id, drop_app_length. apply take_ge. lia.
Qed.

Lemma assign_all {A} (a : list (option A)) (l : list A) :
  len l = len a → assign_slice a 0 (len a) l = Ok (Some <$> l).
Proof.
  intros Hl. pose proof (assign_prefix a [] l (len a) Hl eq_refl) as E.
  by rewrite !app_nil_r in E.
Qed.

Lemma assign_suffix {A} (a b : list (option A)) (l : list A) n m :
  len l = len b → n = len a → m = len (a ++ b) →
  assign_slice (a ++ b) n m l = Ok (a ++ (Some <$> l)).
Proof.
  intros Hl -> ->. unfold assign_slice.
  assert (py_slice (a ++ b) (len a) (len (a ++ b)) = b) as ->.
  { rewrite len_app. unfold py_slice, len. rewrite Nat2Z.id, drop_app_length.
    apply take_ge. lia. }
  rewrite Hl, Z.eqb_refl. simpl. f_equal. rewrite py_slice_app_l. f_equal.
  assert (py_slice (a ++ b) (len (a ++ b)) (len (a ++ b)) = []) as ->; [|by rewrite app_nil_r].
  unfold py_slice. by rewrite Nat.sub_diag.
Qed.

Lemma py_slice_app_r {A} (a b : list A) n m :
  n = len a → m = len (a ++ b) → py_slice (a ++ b) n m = b.
Proof.
  intros -> ->. rewrite len_app. unfold py_slice, len.
  rewrite Nat2Z.id, drop_app_length. apply take_ge. lia.
Qed.

Lemma len_incremental d : len (incremental_rows d) = len (qs d).
Proof. unfold incremental_rows, len. by rewrite length_imap. Qed.

Lemma len_concat_rows {A} (f : InferInput → list A) l :
  (∀ d, d ∈ l → len (f d) = input_len d) →
  len (concat (f <$> l)) = sumZ (input_len <$> l).
Proof.
  intros Hf. rewrite <-sumZ_len_fmap. f_equal. by apply fmap_list_ext.
Qed.

Lemma attention_batch :
  StronglySorted (λ a b, - input_len a ≤ - input_len b) ins →
  Attention_forward (concat (qs <$> ins)) (concat (ks <$> ins)) (concat (vs <$> ins))
    (batch_params config page ins (concat (positions_of <$> ins))) (Some cache)
  = Ok (Some <$> concat (incremental_rows <$> ins), Some (appended page ins ks vs cache)).
Proof using Hai Hpage H0.
  intros Hsort. pose proof Hai as [Hc Hwf Hq Hk Hv Hp].
  unfold Attention_forward, batch_params.
  cbn [ip_batch_indices ip_positions ip_kv_block_indices ip_kv_block_indptrs
       ip_kv_last_block_lens ip_prefill_input_len ip_prefill_wrapper ip_decode_wrapper not_none].
  rewrite !Ok_bind. rewrite (append_cache page ins ks vs cache Hc Hwf ai_len Hk Hv).
  rewrite (rows_split ins qs) by (done || (intros; split; auto using ai_len)).
  rewrite (rows_split ins incremental_rows)
    by (done || (intros; rewrite len_incremental; split; auto using ai_len)).
  set (P := filter is_prefill ins). set (D := filter is_decode ins).
  set (c' := appended page ins ks vs cache).
  assert (len (concat (qs <$> P)) = sumZ (input_len <$> P)) as HlenP.
  { apply len_concat_rows. intros d [Hd _]%in_prefill. auto. }
  assert (∀ l, (∀ d, d ∈ l → d ∈ ins) →
    len (concat (incremental_rows <$> l)) = len (concat (qs <$> l))) as Hinc.
  { intros l Hl. rewrite !len_concat_rows; [done| |]; intros d Hd%Hl;
      rewrite ?len_incremental; auto. }
  rewrite !fmap_app.
  transitivity (output ← Ok ((Some <$> concat (incremental_rows <$> P))
                             ++ ((λ _, None) <$> concat (qs <$> D)));
    output ← match (batch_plans config page ins).2 with
             | Some decode_wrapper =>
                 assign_slice output (sumZ (input_len <$> P)) (len output)
                   (decode_run decode_wrapper
                      (py_slice (concat (qs <$> P) ++ concat (qs <$> D))
                         (sumZ (input_len <$> P)) (len (concat (qs <$> P) ++ concat (qs <$> D))))
                      c')
             | None => Ok output
             end;
    Ok (output, Some c')).
  { f_equal. destruct (batch_plans config page ins).1 as [w|] eqn:Ew.
    - pose proof (prefill_kernel w Ew) as Ek. fold P c' in Ek.
      rewrite <-HlenP, py_slice_app_l, Ek. apply assign_prefix.
      + rewrite Hinc, len_fmap; [done|]. by intros d [? _]%in_prefill.
      + by rewrite len_fmap.
    - unfold batch_plans in Ew. simpl in Ew. unfold P.
      by destruct (filter is_prefill ins). }
  rewrite Ok_bind. destruct (batch_plans config page ins).2 as [w|] eqn:Ew.
  - pose proof (decode_kernel w Ew) as Ek. fold D c' in Ek.
    rewrite py_slice_app_r, Ek, assign_suffix; try done.
    + by rewrite Hinc, len_fmap by (by intros d [? _]%in_decode).
    + rewrite len_fmap, Hinc; [done|]. by intros d [? _]%in_prefill.
  - unfold batch_plans in Ew. simpl in Ew. unfold D.
    by destruct (filter is_decode ins).
Qed.
End attention.

(** ** Reading the arrays back *)

(** Request [i] of a batch owns slice [i] of a flat array, between the running
    sums of the lengths. *)
Lemma csr_slice {A} (f : InferInput → list A) (n : InferInput → Z) s (i : nat) d :
  s !! i = Some d → (∀ d, d ∈ s → len (f d) = n d) →
  ∃ a b, cumsum0 (n <$> s) !! i = Some a ∧ cumsum0 (n <$> s) !! S i = Some b ∧
         py_slice (concat (f <$> s)) a b = f d.
Proof.
  intros Hi Hf. pose proof (lookup_lt_Some _ _ _ Hi).
  eexists _, _. rewrite !lookup_cumsum0 by (rewrite length_fmap; lia).
  split; [done|]. split; [done|].
  assert (n <$> s = len <$> (f <$> s)) as ->.
  { rewrite <-list_fmap_compose. apply fmap_list_ext. intros d' Hd'. symmetry. by apply Hf. }
  rewrite <-!(fmap_take len). apply concat_block. by rewrite list_lookup_fmap, Hi.
Qed.

(** ** One step of a single request *)

Section step.
Context `{FlashInferLaws Q K V R} (config : ModelConfig) (page : Z).

(** The batch of one request, and its attention. *)
Definition attention_step (d : InferInput) (q : list Q) (k : list K) (v : list V)
    (c : paged_cache K V) : res (list (option R) * option (paged_cache K V)) :=
  '(_, (_, input_params)) ← make_inputs config page true [d];
  Attention_forward q k v input_params (Some c).

(** The first [n] new tokens of a request with the blocks they need, and the
    remaining ones. *)
Definition first_chunk (n : Z) (d : InferInput) : InferInput := {|
  seq_id := seq_id d; input_ids := py_slice (input_ids d) 0 n; input_len := n;
  filled_token_len := filled_token_len d; context_len := n + filled_token_len d;
  block_ids := py_slice (block_ids d) 0 ((n + filled_token_len d + page - 1) / page) |}.
Definition second_chunk (n : Z) (d : InferInput) : InferInput := {|
  seq_id := seq_id d; input_ids := py_slice (input_ids d) n (input_len d);
  input_len := input_len d - n;
  filled_token_len := n + filled_token_len d; context_len := context_len d;
  block_ids := block_ids d |}.

Hypothesis (Hpage : 0 < page < 2 ^ 31).

Lemma attention_step_Ok d q k v c :
  input_wf page d → batch_fits [d] → NoDup (block_ids d) → pc_page_size c = page →
  len q = input_len d → len k = input_len d → len v = input_len d →
  attention_step d q k v c
  = Ok (Some <$> incremental_rows (attend := attend) c (λ _, q) (λ _, k) (λ _, v) d,
        Some (appended page [d] (λ _, k) (λ _, v) c)).
Proof using Hpage H0.
  intros Hwf Hfits Hnd Hc Hq Hk Hv. unfold attention_step.
  rewrite make_inputs_Ok by done. rewrite Ok_bind. change (sort_inputs [d]) with [d].
  rewrite append_plan_positions by (done || by constructor).
  assert (attention_inputs page [d] c (λ _, q) (λ _, k) (λ _, v)) as Hai.
  { split; try done; try by intros d' ->%list_elem_of_singleton.
    apply pages_apart; [done|by intros d' ->%list_elem_of_singleton|].
    unfold block_table. simpl. by rewrite app_nil_r. }
  pose proof (attention_batch config page Hpage [d] c (λ _, q) (λ _, k) (λ _, v) Hai) as E.
  assert (∀ A (f : InferInput → list A), concat (f <$> [d]) = f d) as Hone
    by (intros; csimpl; apply app_nil_r).
  rewrite !Hone in E. rewrite Hone. apply E. by repeat constructor.
Qed.

Lemma chunk_blocks d n :
  input_wf page d → 0 ≤ n ≤ input_len d →
  (n + filled_token_len d + page - 1) / page ≤ len (block_ids d) ∧
  0 ≤ (n + filled_token_len d + page - 1) / page.
Proof using Hpage.
  intros [_ Hf Hc Hb] Hn. rewrite Hb, Hc. split; [apply Z.div_le_mono|apply Z.div_pos]; lia.
Qed.

Lemma chunks_wf d n :
  input_wf page d → 0 ≤ n ≤ input_len d →
  input_wf page (first_chunk n d) ∧ input_wf page (second_chunk n d).
Proof using Hpage.
  intros Hwf Hn. pose proof (chunk_blocks d n Hwf Hn). destruct Hwf as [Hl Hf Hc Hb].
  split; split; simpl; try lia; rewrite ?len_py_slice; lia.
Qed.

Lemma chunks_fit d n :
  input_wf page d → batch_fits [d] → 0 ≤ n ≤ input_len d →
  batch_fits [first_chunk n d] ∧ batch_fits [second_chunk n d].
Proof using Hpage.
  intros Hwf [Htok Hctx Hblocks Hlen Htotal Htable] Hn.
  pose proof (chunk_blocks d n Hwf Hn). destruct Hwf as [_ Hf Hc _].
  rewrite !Forall_singleton in *. unfold block_table in *. simpl in *.
  rewrite !app_nil_r in *.
  split; (split; unfold block_table; rewrite ?Forall_singleton; simpl; rewrite ?app_nil_r);
    unfold py_slice; try (by repeat apply Forall_take; try apply Forall_drop); try lia.
  unfold len in *. rewrite length_take, length_drop. lia.
Qed.

(** The blocks of the first chunk store its tokens where the blocks of the whole
    request do. *)
Lemma chunk_slot d n p :
  input_wf page d → 0 ≤ n ≤ input_len d → 0 ≤ p < n + filled_token_len d →
  slot page (block_ids (first_chunk n d)) p = slot page (block_ids d) p.
Proof using Hpage.
  intros Hwf Hn Hp. pose proof (chunk_blocks d n Hwf Hn) as [Hle Hpos].
  destruct (chunks_wf d n Hwf Hn) as [Hwf1 _].
  pose proof (block_in_range page Hpage (first_chunk n d) p Hwf1 Hp) as Hb.
  simpl in Hb. rewrite len_py_slice in Hb by lia.
  unfold slot. simpl. rewrite lookup_py_slice by lia. by rewrite Z2Nat.inj_0.
Qed.
(** Cutting the new rows of a request at [n]. *)
Section chunks.
Context (d : InferInput) (n : Z) (k : list K) (v : list V) (c : paged_cache K V).
Hypothesis (Hwf : input_wf page d) (Hn : 0 ≤ n ≤ input_len d).
Hypothesis (Hc : pc_page_size c = page).
Hypothesis (Hk : len k = input_len d) (Hv : len v = input_len d).

Definition upto {A} (l : list A) : list A := py_slice l 0 n.
Definition from {A} (l : list A) : list A := py_slice l n (input_len d).

Lemma upto_from {A} (l : list A) : len l = input_len d → l = upto l ++ from l.
Proof using Hn.
  intros Hl. unfold upto, from. rewrite py_slice_cat by lia. by rewrite <-Hl, py_slice_all.
Qed.

Lemma len_upto {A} (l : list A) : len l = input_len d → len (upto l) = n.
Proof using Hn. intros. unfold upto. rewrite len_py_slice; lia. Qed.

Lemma len_from {A} (l : list A) : len l = input_len d → len (from l) = input_len d - n.
Proof using Hn. intros. unfold from. rewrite len_py_slice; lia. Qed.

Lemma zip_upto_from :
  zip k v = zip (upto k) (upto v) ++ zip (from k) (from v).
Proof using Hn Hk Hv.
  rewrite (upto_from k), (upto_from v) at 1 by done. apply zip_with_app.
  pose proof (len_upto k Hk). pose proof (len_upto v Hv). unfold len in *. lia.
Qed.

Lemma length_zip_upto : length (zip (upto k) (upto v)) = Z.to_nat n.
Proof using Hn Hk Hv.
  pose proof (len_upto k Hk). pose proof (len_upto v Hv). unfold len in *.
  rewrite length_zip_with. lia.
Qed.

Definition cache1 : paged_cache K V :=
  appended page [first_chunk n d] (λ _, upto k) (λ _, upto v) c.

Lemma chunk_paged_kv (c' : paged_cache K V) m :
  pc_page_size c' = page → m ≤ n + filled_token_len d →
  paged_kv c' (block_ids (first_chunk n d)) m = paged_kv c' (block_ids d) m.
Proof using Hpage Hwf Hn.
  intros Hc' Hm. unfold paged_kv. rewrite Hc'. apply fmap_range_ext. intros p Hp.
  by rewrite chunk_slot by (done || lia).
Qed.

Lemma cache1_paged_kv :
  NoDup (block_ids d) →
  paged_kv cache1 (block_ids d) (n + filled_token_len d)
  = paged_kv c (block_ids d) (filled_token_len d) ++ (Some <$> zip (upto k) (upto v)).
Proof using Hpage Hwf Hn Hc Hk Hv.
  intros Hnd. destruct (chunks_wf d n Hwf Hn) as [Hwf1 _].
  rewrite <-!chunk_paged_kv by (done || lia). unfold cache1.
  pose proof (appended_paged_kv page [first_chunk n d] (λ _, upto k)
    (λ _, upto v) c Hc) as E.
  replace (n + filled_token_len d)
    with (filled_token_len (first_chunk n d) + Z.of_nat (Z.to_nat n)) by (simpl; lia).
  rewrite E; clear E.
  - f_equal. rewrite take_ge; [done|]. rewrite length_zip_upto. lia.
  - by intros ? ->%list_elem_of_singleton.
  - intros ? ->%list_elem_of_singleton. by apply len_upto.
  - intros ? ->%list_elem_of_singleton. by apply len_upto.
  - apply pages_apart; [done|by intros d' ->%list_elem_of_singleton|].
    unfold block_table. simpl. rewrite app_nil_r. by eapply sublist_NoDup, sublist_take.
  - by apply list_elem_of_singleton.
  - simpl. lia.
Qed.

Lemma chunk_rows (q : list Q) :
  len q = input_len d → NoDup (block_ids d) →
  incremental_rows (attend := attend) c (λ _, q) (λ _, k) (λ _, v) d
  = incremental_rows (attend := attend) c (λ _, upto q) (λ _, upto k) (λ _, upto v)
      (first_chunk n d)
    ++ incremental_rows (attend := attend) cache1 (λ _, from q) (λ _, from k) (λ _, from v)
      (second_chunk n d).
Proof using Hpage Hwf Hn Hc Hk Hv.
  intros Hq Hnd. unfold incremental_rows.
  rewrite (upto_from q) at 1 by done. rewrite imap_app.
  pose proof (len_upto q Hq) as Hlq. unfold len in Hlq. f_equal.
  - apply imap_ext. intros j x Hj%lookup_lt_Some. rewrite chunk_paged_kv by (done || (simpl; lia)).
    f_equal. f_equal. f_equal. rewrite zip_upto_from, take_app_le; [done|].
    rewrite length_zip_upto. lia.
  - apply imap_ext. intros j x Hj. simpl. rewrite cache1_paged_kv by done.
    rewrite <-app_assoc, <-fmap_app. f_equal. f_equal. f_equal.
    rewrite zip_upto_from, take_app_ge by (rewrite length_zip_upto; lia).
    f_equal. f_equal. rewrite length_zip_upto. lia.
Qed.

Lemma chunk_cache :
  appended page [d] (λ _, k) (λ _, v) c
  = appended page [second_chunk n d] (λ _, from k) (λ _, from v) cache1.
Proof using Hpage Hwf Hn Hk Hv.
  unfold cache1, appended. f_equal. simpl. rewrite !app_nil_r.
  unfold insert_all. rewrite <-foldl_app. f_equal. unfold new_entries.
  rewrite zip_upto_from. unfold new_slots, slots. simpl.
  destruct Hwf as [_ Hf Hctx _].
  rewrite <-(py_range_app _ (n + filled_token_len d)) by lia.
  rewrite fmap_app, zip_with_app.
  - f_equal. f_equal. apply fmap_range_ext. intros p Hp. symmetry.
    apply (chunk_slot d n p Hwf Hn). lia.
  - rewrite length_fmap, length_py_range, length_zip_upto. f_equal. lia.
Qed.
End chunks.
End step.

(** ** Properties *)

Section properties.
Context `{FlashInferLaws Q K V R} (config : ModelConfig) (page : Z).
Hypothesis (Hpage : 0 < page < 2 ^ 31).

Lemma attention_inputs_perm s ins (c : paged_cache K V) (qs : InferInput → list Q) ks vs :
  s ≡ₚ ins → attention_inputs page ins c qs ks vs → attention_inputs page s c qs ks vs.
Proof.
  intros Hs []. split; try done; try (intros d; rewrite Hs; auto).
  by eapply writes_apart_perm.
Qed.

(** C9: attention over the batch [_make_inputs] builds is incremental causal
    attention of each request on its own: in the sorted order of the batch, row
    [j] of a request attends to the rows its pages held before and to its first
    [j+1] new rows; the cache then holds the old rows followed by the new ones,
    and nothing else is touched.  Requests may share the pages of their old
    rows. *)
Theorem batched_attention_is_causal ins (c : paged_cache K V) (qs : InferInput → list Q)
    (ks : InferInput → list K) (vs : InferInput → list V) :
  batch_fits ins → attention_inputs page ins c qs ks vs →
  let s := sort_inputs ins in
  ∃ ids params c',
    make_inputs config page true ins = Ok (s, (ids, params)) ∧
    Attention_forward (concat (qs <$> s)) (concat (ks <$> s)) (concat (vs <$> s))
      params (Some c)
    = Ok (Some <$> concat ((λ d,
            imap (λ j q, attend q (paged_kv c (block_ids d) (filled_token_len d)
                                   ++ (Some <$> take (S j) (zip (ks d) (vs d))))) (qs d)) <$> s),
          Some c') ∧
    (∀ d, d ∈ ins →
       paged_kv c' (block_ids d) (context_len d)
       = paged_kv c (block_ids d) (filled_token_len d) ++ (Some <$> zip (ks d) (vs d))) ∧
    (∀ slot, slot ∉ batch_slots page ins → pc_slots c' !! slot = pc_slots c !! slot).
Proof using Hpage H0.
  intros Hfits Hai s. pose proof (sort_key_perm (λ x, - input_len x) ins) as Hperm.
  fold (sort_inputs ins) s in Hperm.
  pose proof (attention_inputs_perm s ins c qs ks vs Hperm Hai) as Hai'.
  pose proof Hai' as [Hc Hwf Hq Hk Hv Hp].
  eexists _, _, (appended page s ks vs c). split; [by apply make_inputs_Ok|].
  fold s. rewrite append_plan_positions by (done || by apply Forall_forall).
  split; [by apply attention_batch; [..|apply sort_key_sorted]|]. split.
  - intros d Hd. rewrite <-Hperm in Hd. pose proof (wf_context _ _ (Hwf d Hd)) as Hctx.
    pose proof (ai_len page s c qs ks vs Hai' d Hd).
    replace (context_len d)
      with (filled_token_len d + Z.of_nat (Z.to_nat (input_len d))) by lia.
    rewrite (appended_paged_kv page s ks vs c Hc Hwf
      Hk Hv Hp) by (done || lia).
    f_equal. f_equal. apply take_ge. rewrite (length_kvs s ks vs Hk Hv) by done. lia.
  - intros x Hx. apply (appended_frame page s ks vs c Hwf Hk Hv).
    unfold batch_slots in *. by rewrite Hperm.
Qed.

(** Splitting the new tokens of a request over two steps gives the rows
    and the cache of the single step: prefilling in chunks, or decoding token
    by token, does not change the result. *)
Theorem chunked_prefill_equivalence d n (q : list Q) (k : list K) (v : list V)
    (c : paged_cache K V) :
  input_wf page d → batch_fits [d] → NoDup (block_ids d) → pc_page_size c = page →
  0 ≤ n ≤ input_len d →
  len q = input_len d → len k = input_len d → len v = input_len d →
  ∃ out1 c1 out2 c2,
    attention_step config page (first_chunk page n d)
      (py_slice q 0 n) (py_slice k 0 n) (py_slice v 0 n) c = Ok (out1, Some c1) ∧
    attention_step config page (second_chunk n d)
      (py_slice q n (input_len d)) (py_slice k n (input_len d)) (py_slice v n (input_len d)) c1
    = Ok (out2, Some c2) ∧
    attention_step config page d q k v c = Ok (out1 ++ out2, Some c2).
Proof using Hpage H0.
  intros Hwf Hfits Hnd Hc Hn Hq Hk Hv.
  destruct (chunks_wf page Hpage d n Hwf Hn) as [Hwf1 Hwf2].
  destruct (chunks_fit page Hpage d n Hwf Hfits Hn) as [Hf1 Hf2].
  eexists _, _, _, _. split; [|split].
  - apply attention_step_Ok; try done; try by apply (len_upto d).
    by eapply sublist_NoDup, sublist_take.
  - apply attention_step_Ok; try done; by apply (len_from d).
  - rewrite attention_step_Ok by done.
    rewrite (chunk_rows page Hpage d n k v c) by done. rewrite fmap_app.
    by rewrite (chunk_cache page Hpage d n k v c).
Qed.

(** C26: the layout of a batch that fits the integer types: the caller's list
    is sorted in place, stably and by decreasing number of new tokens; request
    [i] of the sorted list owns slice [i] of the token, position and block
    arrays; the tokens before [prefill_input_len] are those of the prefill
    requests; the positions given to the cache are the position ids. *)
Theorem make_inputs_layout ins :
  batch_fits ins → (∀ d, d ∈ ins → input_wf page d) →
  ∃ s ids params,
    make_inputs config page true ins = Ok (s, (ids, params)) ∧
    s ≡ₚ ins ∧
    StronglySorted (λ a b, input_len b ≤ input_len a) s ∧
    (∀ n, filter (λ d, input_len d = n) s = filter (λ d, input_len d = n) ins) ∧
    (∀ i d, s !! i = Some d →
      (∃ a b, ip_cu_seqlens_q params !! i = Some a ∧ ip_cu_seqlens_q params !! S i = Some b ∧
        py_slice ids a b = input_ids d ∧
        py_slice (ip_position_ids params) a b
        = py_range (filled_token_len d) (context_len d)) ∧
      (∃ table ptrs a b, ip_kv_block_indices params = Some table ∧
        ip_kv_block_indptrs params = Some ptrs ∧
        ptrs !! i = Some a ∧ ptrs !! S i = Some b ∧ py_slice table a b = block_ids d)) ∧
    py_slice ids 0 (ip_prefill_input_len params)
    = concat (input_ids <$> filter (λ d, 1 < input_len d) s) ∧
    ip_positions params = Some (ip_position_ids params).
Proof using Hpage H0.
  intros Hfits Hwf. pose proof (sort_key_perm (λ x, - input_len x) ins) as Hperm.
  eexists (sort_inputs ins), _, _. split; [by apply make_inputs_Ok|].
  fold (sort_inputs ins) in Hperm. set (s := sort_inputs ins) in *.
  assert (∀ d, d ∈ s → input_wf page d) as Hwfs by (intros d; rewrite Hperm; auto).
  assert (∀ d, d ∈ s → len (input_ids d) = input_len d) as Hids
    by (intros d Hd; symmetry; by apply (wf_len page), Hwfs).
  rewrite append_plan_positions by (done || by apply Forall_forall).
  split; [done|]. split; [|split; [|split; [|split; [|done]]]].
  - eapply StronglySorted_weaken; [|apply sort_key_sorted]. simpl. lia.
  - intros n. pose proof (sort_key_stable (λ x, - input_len x) ins (- n)) as E.
    transitivity (filter (λ d, - input_len d = - n) s); [apply list_filter_iff; lia|].
    etrans; [exact E|]. apply list_filter_iff. lia.
  - intros i d Hi. split.
    + destruct (csr_slice input_ids input_len s i d Hi Hids) as (a & b & Ha & Hb & E).
      exists a, b. split; [done|]. split; [done|]. split; [done|].
      destruct (csr_slice positions_of input_len s i d Hi) as (a' & b' & Ha' & Hb' & E').
      { intros d' Hd'%Hwfs. unfold len, positions_of. rewrite length_py_range.
        destruct Hd' as [Hl _ Hctx _]. pose proof (len_nonneg (input_ids d')). lia. }
      simplify_eq. exact E'.
    + destruct (csr_slice block_ids (λ d, len (block_ids d)) s i d Hi)
        as (a & b & Ha & Hb & E); [done|].
      by exists (block_table s), (cumsum0 (block_counts s)), a, b.
  - simpl. rewrite (rows_split s input_ids).
    + rewrite <-(len_concat_rows input_ids); [apply py_slice_app_l|].
      intros d [_ Hd]%list_elem_of_filter. auto.
    + apply sort_key_sorted.
    + intros d Hd. rewrite <-(Hids d Hd). split; [apply len_nonneg|done].
Qed.

(** Without a cache the batch is attended as one sequence: the rows of
    every request but the first attend to the keys of the requests before
    it. *)
Theorem uncached_batch_is_one_sequence (l1 l2 : list InferInput)
    (qs : InferInput → list Q) (ks : InferInput → list K) (vs : InferInput → list V)
    input_params d :
  (∀ d', d' ∈ l1 ++ d :: l2 → len (ks d') = len (qs d') ∧ len (vs d') = len (qs d')) →
  let s := l1 ++ d :: l2 in
  ∃ out1 out2,
    Attention_forward (concat (qs <$> s)) (concat (ks <$> s)) (concat (vs <$> s))
      input_params None
    = Ok (Some <$> (out1 ++
        imap (λ j q, attend q (Some <$> (concat ((λ d, zip (ks d) (vs d)) <$> l1)
                                         ++ take (S j) (zip (ks d) (vs d))))) (qs d)
        ++ out2), None) ∧
    len out1 = len (concat (qs <$> l1)).
Proof using H0.
  clear Hpage. intros Hl s. unfold Attention_forward, s.
  rewrite single_prefill_with_kv_cache_spec, zip_concat.
  2:{ intros d' [Hk Hv]%Hl. unfold len in *. lia. }
  rewrite !fmap_app, !fmap_cons, !concat_app, !concat_cons, !imap_app.
  eexists (imap _ (concat (qs <$> l1))), _.
  split; [|unfold len; by rewrite length_imap]. rewrite assign_all.
  - rewrite Ok_bind. do 2 f_equal. f_equal. f_equal. f_equal.
    apply imap_ext. intros j q Hj%lookup_lt_Some. simpl. f_equal. f_equal.
    assert (length (concat ((λ d, zip (ks d) (vs d)) <$> l1)) = length (concat (qs <$> l1)))
      as Hpre.
    { apply Nat2Z.inj. change (len (concat ((λ d, zip (ks d) (vs d)) <$> l1))
        = len (concat (qs <$> l1))).
      rewrite <-!sumZ_len_fmap. f_equal. apply fmap_list_ext. intros d' Hd'.
      destruct (Hl d') as [Hk Hv]; [set_solver|]. unfold len in *. rewrite length_zip_with. lia. }
    destruct (Hl d) as [Hk Hv]; [set_solver|]. unfold len in Hk, Hv.
    rewrite take_app_ge by lia. f_equal. rewrite take_app_le.
    + f_equal. lia.
    + rewrite length_zip_with. lia.
  - unfold len. by rewrite length_fmap, !length_app, !length_imap.
Qed.
End properties.

(** *** Witnesses: integer rows, attention as a weighted sum *)

Definition attend_Z (q : Z) (kvs : list (option (Z * Z))) : Z :=
  sumZ ((λ kv, match kv with Some (k, v) => q * k * v | None => 0 end) <$> kvs).
#[local] Instance flashinfer_Z : FlashInfer Z Z Z Z := reference_flashinfer attend_Z.
#[local] Instance flashinfer_Z_laws : FlashInferLaws attend_Z := reference_flashinfer_laws attend_Z.

Definition config_Z : ModelConfig := {| mc_num_layers := 1; mc_num_heads := 1;
  mc_num_kv_heads := 1; mc_head_dim := 1; mc_dtype := float32 |}.

(** A request in its decode phase and one starting its prefill, pages of two
    tokens. *)
Definition decode_d : InferInput := {| seq_id := 7; input_ids := [5]; input_len := 1;
  filled_token_len := 2; context_len := 3; block_ids := [4; 1] |}.
Definition prefill_d : InferInput := {| seq_id := 8; input_ids := [6; 9; 2]; input_len := 3;
  filled_token_len := 0; context_len := 3; block_ids := [0; 3] |}.
Definition cache_Z : paged_cache Z Z :=
  PagedCache 2 {[ (4, 0) := (1, 10); (4, 1) := (2, 20) ]}.

Lemma decode_d_wf : input_wf 2 decode_d.
Proof. by split. Qed.
Lemma prefill_d_wf : input_wf 2 prefill_d.
Proof. by split. Qed.

Lemma batch_Z_fits : batch_fits [decode_d; prefill_d].
Proof. by split; apply (bool_decide_unpack _); vm_compute. Qed.

Lemma prefill_Z_fits : batch_fits [prefill_d].
Proof. by split; apply (bool_decide_unpack _); vm_compute. Qed.

Lemma batch_Z_inputs :
  attention_inputs 2 [decode_d; prefill_d] cache_Z input_ids input_ids input_ids.
Proof.
  assert (∀ d, d ∈ [decode_d; prefill_d] → d = decode_d ∨ d = prefill_d) as Hin.
  { intros d. rewrite !elem_of_cons. intros [|[|[]%not_elem_of_nil]]; auto. }
  split; try done; try (intros d [->| ->]%Hin; done).
  apply pages_apart; [done|by intros d [->| ->]%Hin|]. by apply (bool_decide_unpack _); vm_compute.
Qed.

Example batched_attention_is_causal_witness :
  ∃ ids params c',
    make_inputs config_Z 2 true [decode_d; prefill_d] = Ok ([prefill_d; decode_d], (ids, params)) ∧
    Attention_forward [6; 9; 2; 5] [6; 9; 2; 5] [6; 9; 2; 5] params (Some cache_Z)
    = Ok (Some <$> [216; 1053; 242; 375], Some c').
Proof.
  destruct (batched_attention_is_causal config_Z 2 ltac:(lia) [decode_d; prefill_d] cache_Z
    input_ids input_ids input_ids batch_Z_fits batch_Z_inputs)
    as (ids & params & c' & E1 & E2 & _).
  exists ids, params, c'. split; [exact E1|]. exact E2.
Defined.

Example chunked_prefill_equivalence_witness :
  ∃ out1 c1 out2 c2,
    attention_step config_Z 2 (first_chunk 2 2 prefill_d) [6; 9] [6; 9] [6; 9] cache_Z
      = Ok (out1, Some c1) ∧
    attention_step config_Z 2 (second_chunk 2 prefill_d) [2] [2] [2] c1 = Ok (out2, Some c2) ∧
    attention_step config_Z 2 prefill_d [6; 9; 2] [6; 9; 2] [6; 9; 2] cache_Z
      = Ok (out1 ++ out2, Some c2).
Proof.
  apply (chunked_prefill_equivalence config_Z 2 ltac:(lia) prefill_d 2 [6; 9; 2] [6; 9; 2]
    [6; 9; 2] cache_Z); [exact prefill_d_wf|exact prefill_Z_fits| |done|simpl; lia|done..].
  by apply (bool_decide_unpack _).
Defined.

Example make_inputs_layout_witness :
  ∃ s ids params,
    make_inputs config_Z 2 true [decode_d; prefill_d] = Ok (s, (ids, params)) ∧
    py_slice ids 0 (ip_prefill_input_len params)
    = concat (input_ids <$> filter (λ d, 1 < input_len d) s).
Proof.
  destruct (make_inputs_layout config_Z 2 ltac:(lia) [decode_d; prefill_d] batch_Z_fits
    (ai_wf _ _ _ _ _ _ batch_Z_inputs)) as (s & ids & params & E & _ & _ & _ & _ & E' & _).
  exists s, ids, params. split; [exact E|exact E'].
Defined.

Example uncached_batch_is_one_sequence_witness :
  ∃ out1 out2 params,
    Attention_forward [6; 9; 2; 5] [6; 9; 2; 5] [6; 9; 2; 5] params None
    = Ok (Some <$> (out1 ++ [730] ++ out2), None) ∧ len out1 = 3.
Proof.
  pose (params := batch_params config_Z 2 [] []).
  destruct (uncached_batch_is_one_sequence [prefill_d] [] input_ids input_ids input_ids
    params decode_d) as (out1 & out2 & E & El); [done|].
  exists out1, out2, params. split; [exact E|exact El].
Defined.
