(* ===== verification/ModelWorker.v ===== *)
(** * The model worker

    [ModelWorker] of [runtime/worker/llm_worker/model_worker.py] and [sample] of
    [models/sampler.py].  The model is a parameter here ([Models] has its
    structure): what the worker needs is one row of logits per request. *)
From stdpp Require Import pretty.
From S2P Require Import Prelude FlashInfer Batch.

(** ** Sampling *)

(** The library's operations on the floats [F] of the logits. *)
Class Sampling (F : Type) := {
  F_zero : F;
  F_le : F → F → Prop;
  F_div : F → F → F;
  #[global] F_eq_dec :: EqDecision F;
  softmax : list F → list F;
  (* the largest element and where it is *)
  torch_max : list F → F * Z;
  top_k_top_p_sampling_from_logits : list (list F) → Z → F → list Z;
}.

Class SamplingLaws (F : Type) `{Sampling F} : Prop := {
  length_softmax (l : list F) : length (softmax l) = length l;
  softmax_monotone (l : list F) i j x y px py :
    l !! i = Some x → l !! j = Some y →
    softmax l !! i = Some px → softmax l !! j = Some py → F_le px py → F_le x y;
  torch_max_spec (l : list F) x i :
    l ≠ [] → torch_max l = (x, i) →
    0 ≤ i ∧ l !! Z.to_nat i = Some x ∧ ∀ y, y ∈ l → F_le y x;
}.

Section sample.
Context `{Sampling F}.

Definition sample (logits : list (list F)) (top_k : Z) (top_p temperature : F)
    : res (list Z * list F * list (list F)) :=
  let all_probs := softmax <$> logits in
  if bool_decide (top_k ≠ 1) && bool_decide (top_p ≠ F_zero)
     && bool_decide (temperature ≠ F_zero)
  then
    let output_ids := top_k_top_p_sampling_from_logits
      (fmap (M := list) (λ x, F_div x temperature) <$> logits) top_k top_p in
    probs ← mapM (λ '(p, i), py_get p i) (zip all_probs output_ids);
    Ok (output_ids, probs, all_probs)
  else
    let m := torch_max <$> all_probs in
    let probs := m.*1 in
    let output_ids := m.*2 in
    Ok (output_ids, probs, all_probs).
End sample.

(** ** The worker *)

(** The result of one request. *)
Record InferOutput (F : Type) := {
  output_id : Z;
  prob : F;
  output_word : string;
  is_eos : bool;
}.
Arguments Build_InferOutput {F} output_id prob output_word is_eos.
Arguments output_id {F} i.
Arguments prob {F} i.
Arguments output_word {F} i.
Arguments is_eos {F} i.

(** What [init_cache] hands to the KV worker.  Events are numbered per layer. *)
Record KVWorkerParams := {
  kvp_num_layers : Z;
  kvp_num_gpu_blocks : Z;
  kvp_num_host_blocks : Z;
  kvp_num_disk_blocks : Z;
  kvp_disk_kv_cache_file : string;
  kvp_dtype : dtype;
  kvp_pre_event_handles : list Z;
  kvp_post_event_handles : list Z;
}.

(** [torch.finfo(dtype).bits] *)
Definition finfo_bits (d : dtype) : res Z :=
  match d with
  | float32 => Ok 32
  | float16 | bfloat16 => Ok 16
  | int32 | other_dtype => Raise TypeError
  end.

Section worker.
Context `{FlashInfer Q K V R} `{Sampling F}.

(** The model, the tokenizer and the copy kernel the worker calls. *)
Context (model : list Z → InputParams → option (list (paged_cache K V)) →
                 res (list (list F) * option (list (paged_cache K V)))).
Context (tokenizer_decode : Z → string).
Context (copy_blocks : list (paged_cache K V) → list (Z * list Z) → list (paged_cache K V)).

Record ModelWorker := {
  rank : Z;
  model_config : ModelConfig;
  vocab_cache : gmap Z string;
  eos_token_ids : list Z;
  block_size : Z;
  kv_caches : option (list (paged_cache K V));
  enable_wait_before_execute : bool;
  enable_record_after_execute : bool;
  top_k : Z;
  top_p : F;
  temperature : F;
}.

Definition set_vocab_cache (c : gmap Z string) (w : ModelWorker) : ModelWorker :=
  Build_ModelWorker (rank w) (model_config w) c (eos_token_ids w) (block_size w) (kv_caches w)
    (enable_wait_before_execute w) (enable_record_after_execute w)
    (top_k w) (top_p w) (temperature w).
Definition set_kv_caches (c : option (list (paged_cache K V))) (w : ModelWorker) : ModelWorker :=
  Build_ModelWorker (rank w) (model_config w) (vocab_cache w) (eos_token_ids w) (block_size w) c
    (enable_wait_before_execute w) (enable_record_after_execute w)
    (top_k w) (top_p w) (temperature w).
Definition set_flags (wait record : bool) (w : ModelWorker) : ModelWorker :=
  Build_ModelWorker (rank w) (model_config w) (vocab_cache w) (eos_token_ids w) (block_size w)
    (kv_caches w) wait record (top_k w) (top_p w) (temperature w).

(** [__init__], given what the libraries loaded. *)
Definition ModelWorker_init (rank : Z) (config : ModelConfig) (eos : list Z)
    (block_size : Z) : ModelWorker := {|
  rank := rank; model_config := config; vocab_cache := ∅; eos_token_ids := eos;
  block_size := block_size; kv_caches := None;
  enable_wait_before_execute := false; enable_record_after_execute := false;
  top_k := 1; top_p := F_zero; temperature := F_zero |}.

(** [self.model_config.clone()] names a method the class does not have; nothing
    is returned. *)
Definition get_config (w : ModelWorker) : res ModelConfig := Raise AttributeError.

Definition update_sampling_params (k : Z) (p t : F) (w : ModelWorker) : ModelWorker :=
  Build_ModelWorker (rank w) (model_config w) (vocab_cache w) (eos_token_ids w) (block_size w)
    (kv_caches w) (enable_wait_before_execute w) (enable_record_after_execute w) k p t.

(** *** [init_cache] *)

Definition disk_kv_cache_file (disk_cache_path rank : string) : string :=
  (disk_cache_path +:+ "/disk-kv-cache-" +:+ rank +:+ ".npy")%string.

(** Bytes of one block of keys (or of values) of one layer. *)
Definition kv_block_bytes (w : ModelWorker) : res Z :=
  bits ← finfo_bits (mc_dtype (model_config w));
  let dtype_byte := bits / 8 in
  Ok (block_size w * mc_num_kv_heads (model_config w) * mc_head_dim (model_config w)
      * dtype_byte).

Definition init_cache (gpu_cache_size host_cache_size disk_cache_size : Z)
    (disk_cache_path : string) : M ModelWorker KVWorkerParams :=
  w ← get_st;
  let num_layers := mc_num_layers (model_config w) in
  kv_block_size ← lift (kv_block_bytes w);
  num_gpu_blocks ← lift (py_floordiv gpu_cache_size (num_layers * 2 * kv_block_size));
  _ ← modify (set_kv_caches
        (Some ((λ _, PagedCache (block_size w) ∅) <$> py_range 0 num_layers)));
  num_host_blocks ← lift (py_floordiv host_cache_size (num_layers * 2 * kv_block_size));
  num_disk_blocks ← lift (py_floordiv disk_cache_size (num_layers * 2 * kv_block_size));
  mret {|
    kvp_num_layers := num_layers;
    kvp_num_gpu_blocks := num_gpu_blocks;
    kvp_num_host_blocks := num_host_blocks;
    kvp_num_disk_blocks := num_disk_blocks;
    kvp_disk_kv_cache_file := disk_kv_cache_file disk_cache_path (pretty (rank w));
    kvp_dtype := mc_dtype (model_config w);
    kvp_pre_event_handles := py_range 0 num_layers;
    kvp_post_event_handles := py_range 0 num_layers |}.

(** *** [_make_inputs] and [execute] *)

(** The state of a call: the worker, and the caller's list of inputs. *)
Definition call_state : Type := ModelWorker * list InferInput.

(** The list is sorted also when a tensor cannot be built. *)
Definition _make_inputs (use_cache : bool) : M call_state (list Z * InputParams) :=
  λ '(w, inputs),
    (snd <$> make_inputs (model_config w) (block_size w)
               (bool_decide (kv_caches w ≠ None) && use_cache) inputs,
     (w, sort_inputs inputs)).

Definition on_worker (f : ModelWorker → ModelWorker) : M call_state unit :=
  modify (λ '(w, inputs), (f w, inputs)).

(** The model updates the caches it is given in place. *)
Definition run_model (input_ids : list Z) (input_params : InputParams) (use_cache : bool)
    : M call_state (list (list F)) := λ '(w, inputs),
  match model input_ids input_params (if use_cache then kv_caches w else None) with
  | Ok (logits, kv) => (Ok logits, (if use_cache then set_kv_caches kv w else w, inputs))
  | Raise e => (Raise e, (w, inputs))
  end.

Definition run_sample (logits : list (list F)) : M call_state (list Z * list F) :=
  w ← gets fst;
  lift ((λ '(ids, probs, _), (ids, probs)) <$>
          sample logits (top_k w) (top_p w) (temperature w)).

(** One word of [next_words], through the cache. *)
Definition next_word (next_token_id : Z) : M call_state string :=
  w ← gets fst;
  match vocab_cache w !! next_token_id with
  | Some word => mret word
  | None =>
      let word := tokenizer_decode next_token_id in
      _ ← on_worker (set_vocab_cache (<[next_token_id := word]> (vocab_cache w)));
      mret word
  end.

Fixpoint words_of (ids : list Z) : M call_state (list string) :=
  match ids with
  | [] => mret []
  | i :: ids => w ← next_word i; ws ← words_of ids; mret (w :: ws)
  end.

(** [torch.isin] *)
Definition isin (ids eos : list Z) : list bool := (λ i, bool_decide (i ∈ eos)) <$> ids.

Definition collect_outputs (inputs : list InferInput) (ids : list Z) (probs : list F)
    (words : list string) (eos_mask : list bool) : res (gmap Z (InferOutput F)) :=
  foldM (λ outputs '(i, data),
    id ← py_get ids i; p ← py_get probs i; w ← py_get words i; e ← py_get eos_mask i;
    Ok (<[seq_id data := Build_InferOutput id p w e]> outputs))
    ∅ (py_enumerate inputs).

(** [blocks_to_copy] in the order of the dict; [[]] stands for [None] too. *)
Definition execute (use_cache wait_before_execute record_after_execute : bool)
    (blocks_to_copy : list (Z * list Z)) : M call_state (gmap Z (InferOutput F)) :=
  '(input_ids, input_params) ← _make_inputs use_cache;
  _ ← (if 0 <? len blocks_to_copy then
         w ← gets fst;
         match kv_caches w with
         | Some kv => on_worker (set_kv_caches (Some (copy_blocks kv blocks_to_copy)))
         | None => raise AttributeError
         end
       else mret tt);
  _ ← on_worker (set_flags wait_before_execute record_after_execute);
  logits ← run_model input_ids input_params use_cache;
  '(next_token_ids, probs) ← run_sample logits;
  w ← gets fst;
  let eos_mask := isin next_token_ids (eos_token_ids w) in
  next_words ← words_of next_token_ids;
  inputs ← gets snd;
  lift (collect_outputs inputs next_token_ids probs next_words eos_mask).

(** *** [warmup] *)

(** [token_ids_list[i % max_batch_size].append(token_id)] *)
Definition deal_step (max_batch_size : Z) (lists : list (list Z)) (e : Z * Z)
    : res (list (list Z)) :=
  let '(i, token_id) := e in
  j ← py_mod i max_batch_size;
  l ← py_get lists j;
  py_set lists j (l ++ [token_id]).

Definition num_total_tokens (max_batch_size max_seq_len max_num_batched_tokens : Z) : Z :=
  if max_num_batched_tokens <=? max_batch_size * max_seq_len
  then max_num_batched_tokens else max_batch_size * max_seq_len.

Definition warmup_token_ids (max_batch_size max_seq_len max_num_batched_tokens : Z)
    : res (list (list Z)) :=
  let total_token_ids :=
    replicate (Z.to_nat (num_total_tokens max_batch_size max_seq_len max_num_batched_tokens)) 0 in
  let token_ids_list := (λ _, []) <$> py_range 0 max_batch_size in
  foldM (deal_step max_batch_size) token_ids_list
    (py_enumerate total_token_ids).

Definition warmup_input (block_size i : Z) (token_ids : list Z) : res InferInput :=
  let input_len := len token_ids in
  num_kv_blocks ← py_floordiv (input_len + block_size - 1) block_size;
  Ok {| seq_id := i; input_ids := token_ids; input_len := input_len;
        filled_token_len := 0; context_len := len token_ids;
        block_ids := py_range 0 num_kv_blocks |}.

Definition warmup_inputs (block_size max_batch_size max_seq_len max_num_batched_tokens : Z)
    : res (list InferInput) :=
  token_ids_list ← warmup_token_ids max_batch_size max_seq_len max_num_batched_tokens;
  mapM (λ '(i, token_ids), warmup_input block_size i token_ids)
    (py_enumerate token_ids_list).

Definition warmup (max_batch_size max_seq_len max_num_batched_tokens : Z)
    : M ModelWorker unit := λ w,
  match warmup_inputs (block_size w) max_batch_size max_seq_len max_num_batched_tokens with
  | Raise e => (Raise e, w)
  | Ok inputs =>
      let '(r, (w', _)) :=
        ('(input_ids, input_params) ← _make_inputs true;
         logits ← run_model input_ids input_params true;
         _ ← run_sample logits;
         mret tt) (w, inputs) in
      (r, w')
  end.
End worker.

(** ** Lemmas *)

Section sample_lemmas.
Context `{SamplingLaws F}.

(** One of the three parameters at its default selects the largest logit. *)
Lemma sample_greedy (logits : list (list F)) k p t :
  k = 1 ∨ p = F_zero ∨ t = F_zero →
  sample logits k p t
  = Ok ((λ l, (torch_max (softmax l)).2) <$> logits, (λ l, (torch_max (softmax l)).1) <$> logits,
        softmax <$> logits).
Proof.
  intros Hg. unfold sample.
  replace (bool_decide (k ≠ 1) && bool_decide (p ≠ F_zero) && bool_decide (t ≠ F_zero))
    with false; [by rewrite <-!list_fmap_compose|].
  symmetry. repeat case_bool_decide; naive_solver.
Qed.

Lemma torch_max_softmax (l : list F) x i :
  l ≠ [] → torch_max (softmax l) = (x, i) →
  ∃ y, l !! Z.to_nat i = Some y ∧ ∀ z, z ∈ l → F_le z y.
Proof.
  intros Hl Hmax. pose proof (length_softmax l) as Hlen.
  destruct (torch_max_spec (softmax l) x i) as (Hi & Hx & Hle); [|done|].
  { intros E. rewrite E in Hlen. by destruct l. }
  destruct (lookup_lt_is_Some_2 l (Z.to_nat i)) as [y Hy].
  { rewrite <-Hlen. by apply lookup_lt_Some in Hx. }
  exists y. split; [done|]. intros z [j Hz]%list_elem_of_lookup.
  destruct (lookup_lt_is_Some_2 (softmax l) j) as [pz Hpz].
  { rewrite Hlen. by apply lookup_lt_Some in Hz. }
  eapply softmax_monotone; [done..|]. apply Hle. by apply list_elem_of_lookup_2 in Hpz.
Qed.
End sample_lemmas.

Section worker_lemmas.
Context `{Sampling F} {K V : Type}.
Context (tokenizer_decode : Z → string).
Notation worker := (@ModelWorker K V F).

(** The cache of decoded words only holds decoded words. *)
Definition vocab_cache_ok (c : gmap Z string) : Prop :=
  ∀ i word, c !! i = Some word → word = tokenizer_decode i.

Lemma next_word_Ok (w : worker) ins i :
  vocab_cache_ok (vocab_cache w) →
  ∃ c, next_word tokenizer_decode i (w, ins)
       = (Ok (tokenizer_decode i), (set_vocab_cache c w, ins)) ∧ vocab_cache_ok c.
Proof.
  intros Hc. unfold next_word, gets. rewrite M_bind_eq. simpl.
  destruct (vocab_cache w !! i) as [word|] eqn:Hi.
  - exists (vocab_cache w). rewrite (Hc _ _ Hi). by destruct w.
  - eexists. split; [done|]. intros j word.
    destruct (decide (i = j)) as [<-|Hne].
    + rewrite lookup_insert_eq. by intros [= <-].
    + rewrite lookup_insert_ne by done. apply Hc.
Qed.

Lemma words_of_Ok ids (w : worker) ins :
  vocab_cache_ok (vocab_cache w) →
  ∃ c, words_of tokenizer_decode ids (w, ins)
       = (Ok (tokenizer_decode <$> ids), (set_vocab_cache c w, ins)) ∧ vocab_cache_ok c.
Proof.
  revert w; induction ids as [|i ids IH]; intros w Hc; simpl.
  - exists (vocab_cache w). by destruct w.
  - destruct (next_word_Ok w ins i Hc) as (c & E & Hc').
    destruct (IH (set_vocab_cache c w) Hc') as (c' & E' & Hc'').
    exists c'. split; [|done]. rewrite (M_bind_Ok _ _ _ _ _ E), (M_bind_Ok _ _ _ _ _ E').
    by destruct w.
Qed.

(** The outputs, by sequence. *)
Lemma collect_outputs_Ok (s : list InferInput) ids (probs : list F) words mask :
  len ids = len s → len probs = len s → len words = len s → len mask = len s →
  NoDup (seq_id <$> s) →
  ∃ outputs, collect_outputs s ids probs words mask = Ok outputs ∧
    dom outputs ≡ list_to_set (C := gset Z) (seq_id <$> s) ∧
    ∀ i d id p word e, s !! i = Some d → ids !! i = Some id → probs !! i = Some p →
      words !! i = Some word → mask !! i = Some e →
      outputs !! seq_id d = Some (Build_InferOutput id p word e).
Proof.
  intros Hids Hprobs Hwords Hmask Hnd. unfold collect_outputs.
  set (out := λ i : Z, Build_InferOutput (default 0 (ids !! Z.to_nat i))
    (default F_zero (probs !! Z.to_nat i)) (default "" (words !! Z.to_nat i))
    (default false (mask !! Z.to_nat i))).
  set (entries := (λ '(i, d), (seq_id d, out i)) <$> py_enumerate s).
  assert (entries.*1 = seq_id <$> s) as Hkeys.
  { unfold entries. rewrite <-(snd_enumerate s) at 2. rewrite <-!list_fmap_compose.
    apply list_fmap_ext. by intros ? []. }
  exists (insert_all ∅ entries).
  split; [|split].
  - rewrite (foldM_pure _ (λ outputs '(i, d), <[seq_id d := out i]> outputs)).
    + f_equal. unfold insert_all, entries. rewrite foldl_fmap. apply foldl_pointwise.
      by intros m [i d].
    + intros m [i d] [Hi Hd]%elem_of_enumerate. apply lookup_lt_Some in Hd.
      assert (∀ A (l : list A) (a : A), len l = len s →
        py_get l i = Ok (default a (l !! Z.to_nat i))) as Hget.
      { intros A l a Hl. apply py_get_Ok; [done|].
        destruct (lookup_lt_is_Some_2 l (Z.to_nat i)) as [x Hx]; [unfold len in *; lia|].
        by rewrite Hx. }
      rewrite (Hget _ ids 0), (Hget _ probs F_zero), (Hget _ words ""%string),
        (Hget _ mask false) by done. done.
  - intros k. rewrite <-Hkeys, elem_of_list_to_set, elem_of_dom. split.
    + intros [x Hx]. destruct (decide (k ∈ entries.*1)) as [|Hk]; [done|].
      by rewrite lookup_insert_all_fresh in Hx.
    + intros ([k' v] & -> & Hv)%list_elem_of_fmap. exists v.
      apply lookup_insert_all; [by rewrite Hkeys|done].
  - intros i d id p word e Hd Hid Hp Hword He. apply lookup_insert_all; [by rewrite Hkeys|].
    apply list_elem_of_fmap. exists (Z.of_nat i, d). split.
    + unfold out. by rewrite Nat2Z.id, Hid, Hp, Hword, He.
    + apply elem_of_enumerate. rewrite Nat2Z.id. split; [lia|done].
Qed.
End worker_lemmas.

(** What the worker relies on in a model: one row of logits per request. *)
Class LogitsPerRequest {K V F : Type}
    (model : list Z → InputParams → option (list (paged_cache K V)) →
             res (list (list F) * option (list (paged_cache K V)))) : Prop :=
  logits_per_request ids ip kv logits kv' :
    model ids ip kv = Ok (logits, kv') → len logits = len (drop 1 (ip_cu_seqlens_q ip)).

Lemma len_drop_cumsum0 l : len (drop 1 (cumsum0 l)) = len l.
Proof. unfold len, cumsum0. rewrite length_drop, length_cumsum_from. lia. Qed.

(** ** Dealing out the warmup tokens *)

(** Token [i] goes to sequence [i mod b]. *)
Lemma deal_Ok b (n : nat) :
  0 < b →
  foldM (deal_step b) ((λ _, []) <$> py_range 0 b) (py_enumerate (replicate n 0))
  = Ok ((λ j, replicate (Z.to_nat ((Z.of_nat n - j + b - 1) / b)) 0) <$> py_range 0 b).
Proof.
  intros Hb. induction n as [|n IH].
  - simpl. f_equal. apply fmap_range_ext. intros j Hj.
    replace ((Z.of_nat 0 - j + b - 1) / b) with 0; [done|].
    symmetry. apply Z.div_small. lia.
  - replace (replicate (S n) 0) with (replicate n 0 ++ [0])
      by (rewrite <-replicate_cons_app; done).
    rewrite enumerate_snoc, foldM_app, IH. clear IH. simpl.
    unfold len at 1. rewrite length_replicate, py_mod_pos, Ok_bind by done.
    set (N := Z.of_nat n). set (f := λ j, replicate (Z.to_nat ((N - j + b - 1) / b)) 0).
    pose proof (Z.mod_pos_bound N b Hb) as Hmod.
    assert ((f <$> py_range 0 b) !! Z.to_nat (N `mod` b) = Some (f (N `mod` b))) as Hl.
    { rewrite list_lookup_fmap, lookup_py_range by lia. simpl. by rewrite Z2Nat.id by lia. }
    assert (py_get (f <$> py_range 0 b) (N `mod` b) = Ok (f (N `mod` b))) as ->
      by (apply py_get_Ok; [lia|done]).
    rewrite Ok_bind, py_set_in.
    2:{ split; [lia|]. apply lookup_lt_Some in Hl. unfold len. lia. }
    simpl. f_equal. apply list_eq. intros k.
    rewrite list_lookup_insert, !list_lookup_fmap, length_fmap, length_py_range.
    destruct (decide (Z.of_nat k < b)) as [Hk|Hk].
    2:{ rewrite decide_False by lia.
        by rewrite !lookup_ge_None_2 by (rewrite length_py_range; lia). }
    rewrite lookup_py_range by lia. simpl. rewrite Z.add_0_l.
    pose proof (Z.div_mod N b ltac:(lia)) as Hdiv.
    case_decide as Hk'.
    + f_equal. assert (N `mod` b = Z.of_nat k) as E by lia. rewrite E. unfold f.
      replace ((N - Z.of_nat k + b - 1) / b) with (N / b)
        by (apply Z.div_unique with (b - 1); lia).
      replace ((Z.of_nat (S n) - Z.of_nat k + b - 1) / b) with (N / b + 1)
        by (apply Z.div_unique with 0; lia).
      pose proof (Z.div_pos N b). rewrite Z2Nat.inj_add, replicate_add by lia. done.
    + f_equal. unfold f. do 2 f_equal.
      replace (Z.of_nat (S n)) with (N + 1) by lia.
      destruct (decide (Z.of_nat k < N `mod` b)).
      * rewrite <-(Z.div_unique (N + 1 - Z.of_nat k + b - 1) b (N / b + 1) (N `mod` b - Z.of_nat k))
          by lia.
        symmetry. apply Z.div_unique with (N `mod` b - Z.of_nat k - 1); lia.
      * rewrite <-(Z.div_unique (N + 1 - Z.of_nat k + b - 1) b (N / b) (N `mod` b - Z.of_nat k + b))
          by lia.
        symmetry. apply Z.div_unique with (N `mod` b - Z.of_nat k + b - 1); lia.
Qed.

(** The lengths of the dealt lists add up. *)
Lemma deal_total b n :
  0 < b → 0 ≤ n → sumZ ((λ j, (n - j + b - 1) / b) <$> py_range 0 b) = n.
Proof.
  intros Hb Hn. assert (∀ r, 0 ≤ r ≤ b →
    sumZ ((λ j, (n - j + b - 1) / b) <$> py_range 0 r)
    = r * (n / b) + Z.min r (n `mod` b)) as Hgen.
  { intros r [Hr Hrb]. revert r Hr Hrb.
    apply (natlike_ind (λ r, r ≤ b → _)); [intros _; pose proof (Z.mod_pos_bound n b Hb);
      simpl; lia|].
    intros r Hr IH Hrb. rewrite <-Z.add_1_r, py_range_snoc, fmap_app, sumZ_app, IH by lia. simpl.
    pose proof (Z.div_mod n b ltac:(lia)). pose proof (Z.mod_pos_bound n b Hb).
    destruct (decide (r < n `mod` b)).
    - rewrite <-(Z.div_unique (n - r + b - 1) b (n / b + 1) (n `mod` b - r - 1)) by lia. lia.
    - rewrite <-(Z.div_unique (n - r + b - 1) b (n / b) (n `mod` b - r + b - 1)) by lia. lia. }
  rewrite Hgen by lia. pose proof (Z.div_mod n b ltac:(lia)).
  pose proof (Z.mod_pos_bound n b Hb). lia.
Qed.

(** Sequence [j]'s share of [n] tokens, and its request. *)
Definition share (n b j : Z) : Z := (n - j + b - 1) / b.
Definition warmup_request (page n b j : Z) : InferInput := {|
  seq_id := j; input_ids := replicate (Z.to_nat (share n b j)) 0;
  input_len := share n b j; filled_token_len := 0; context_len := share n b j;
  block_ids := py_range 0 ((share n b j + page - 1) / page) |}.

Lemma share_nonneg n b j : 0 ≤ n → 0 ≤ j < b → 0 ≤ share n b j.
Proof. intros. apply Z.div_pos; lia. Qed.

Lemma warmup_input_Ok page n b j :
  0 < page → 0 ≤ n → 0 ≤ j < b →
  warmup_input page j (replicate (Z.to_nat (share n b j)) 0) = Ok (warmup_request page n b j).
Proof.
  intros Hp Hn Hj. unfold warmup_input. rewrite py_floordiv_pos by done.
  unfold len. rewrite length_replicate, Z2Nat.id by (by apply share_nonneg). done.
Qed.

Lemma warmup_inputs_Ok page b L T :
  let n := num_total_tokens b L T in
  0 < page → 0 < b → 0 ≤ n →
  warmup_inputs page b L T = Ok (warmup_request page n b <$> py_range 0 b).
Proof.
  intros n Hp Hb Hn. unfold warmup_inputs, warmup_token_ids. fold n.
  rewrite deal_Ok by done. rewrite Z2Nat.id by done. rewrite Ok_bind.
  assert (py_enumerate ((λ j, replicate (Z.to_nat (share n b j)) 0) <$> py_range 0 b)
    = (λ j, (j, replicate (Z.to_nat (share n b j)) 0)) <$> py_range 0 b) as E.
  { unfold py_enumerate. rewrite len_fmap. unfold len. rewrite length_py_range.
    replace (Z.of_nat (Z.to_nat (b - 0))) with b by lia.
    by rewrite zip_with_fmap_r, zip_with_diag. }
  unfold share at 1 in E. rewrite E, mapM_res_fmap. apply mapM_res_total.
  intros j Hj%elem_of_py_range. by apply warmup_input_Ok.
Qed.

(** ** Properties *)

Section properties.
Context `{FlashInferLaws Q K V R} `{SamplingLaws F}.
Context (model : list Z → InputParams → option (list (paged_cache K V)) →
                 res (list (list F) * option (list (paged_cache K V)))).
Context `{!LogitsPerRequest model}.
Context (tokenizer_decode : Z → string).
Context (copy_blocks : list (paged_cache K V) → list (Z * list Z) → list (paged_cache K V)).

(** The result of a row of logits with greedy sampling, and those of a batch. *)
Definition greedy_output (eos : list Z) (row : list F) : InferOutput F :=
  let '(p, i) := torch_max (softmax row) in
  Build_InferOutput i p (tokenizer_decode i) (bool_decide (i ∈ eos)).
Definition greedy_outputs (eos : list Z) (s : list InferInput) (rows : list (list F))
    : gmap Z (InferOutput F) :=
  list_to_map (zip (seq_id <$> s) (greedy_output eos <$> rows)).

Lemma greedy_outputs_at eos s rows i d row :
  NoDup (seq_id <$> s) → len rows = len s → s !! i = Some d → rows !! i = Some row →
  greedy_outputs eos s rows !! seq_id d = Some (greedy_output eos row).
Proof using.
  intros Hnd Hlen Hd Hrow. apply elem_of_list_to_map_1.
  - rewrite fst_zip; [done|]. rewrite !length_fmap. unfold len in Hlen. lia.
  - apply list_elem_of_lookup. exists i. apply lookup_zip_Some.
    by rewrite !list_lookup_fmap, Hd, Hrow.
Qed.

Lemma dom_greedy_outputs eos s rows :
  len rows = len s →
  dom (greedy_outputs eos s rows) ≡ list_to_set (C := gset Z) (seq_id <$> s).
Proof using.
  intros Hlen. unfold greedy_outputs. rewrite dom_list_to_map. rewrite fst_zip; [done|].
  rewrite !length_fmap. unfold len in Hlen. lia.
Qed.

(** [execute] with greedy sampling, on a model that returns a row per request. *)
Lemma execute_Ok (w : ModelWorker) kv ins wait record blocks_to_copy ids ip logits kv' :
  let s := sort_inputs ins in
  let kv0 := if 0 <? len blocks_to_copy then copy_blocks kv blocks_to_copy else kv in
  make_inputs (model_config w) (block_size w) true ins = Ok (s, (ids, ip)) →
  kv_caches w = Some kv → vocab_cache_ok tokenizer_decode (vocab_cache w) →
  NoDup (seq_id <$> ins) → top_k w = 1 ∨ top_p w = F_zero ∨ temperature w = F_zero →
  model ids ip (Some kv0) = Ok (logits, kv') → len logits = len ins →
  ∃ c, execute model tokenizer_decode copy_blocks true wait record blocks_to_copy (w, ins)
       = (Ok (greedy_outputs (eos_token_ids w) s logits),
          (set_vocab_cache c (set_kv_caches kv' (set_flags wait record w)), s)) ∧
       vocab_cache_ok tokenizer_decode c.
Proof using.
  intros s kv0 Hmake Hkv Hvc Hnd Hgreedy Hmodel Hlen.
  assert (s ≡ₚ ins) as Hperm by apply sort_key_perm.
  assert (len s = len ins) as Hs by (unfold len; by rewrite Hperm).
  set (out := (λ l, (torch_max (softmax l)).2) <$> logits).
  set (w1 := set_kv_caches kv' (set_flags wait record (set_kv_caches (Some kv0) w))).
  destruct (words_of_Ok tokenizer_decode out w1 s Hvc) as (c & Hwords & Hc).
  destruct (collect_outputs_Ok s out ((λ l, (torch_max (softmax l)).1) <$> logits)
    (tokenizer_decode <$> out) (isin out (eos_token_ids w)))
    as (outputs & Hout & Hdom & Hat).
  1-4: unfold isin, out; rewrite !len_fmap; lia.
  { by rewrite Hperm. }
  exists c. split; [|done].
  assert (outputs = greedy_outputs (eos_token_ids w) s logits) as Eout.
  { apply map_eq. intros k. destruct (decide (k ∈ seq_id <$> s)) as [Hk|Hk].
    - apply list_elem_of_fmap in Hk as (d & -> & [i Hd]%list_elem_of_lookup).
      destruct (lookup_lt_is_Some_2 logits i) as [row Hrow].
      { apply lookup_lt_Some in Hd. unfold len in *. lia. }
      rewrite (greedy_outputs_at _ _ _ i d row) by (done || lia || by rewrite Hperm).
      unfold greedy_output. destruct (torch_max (softmax row)) as [p j] eqn:Emax.
      apply (Hat i); unfold isin, out; rewrite ?list_lookup_fmap, ?Hrow, ?Hd; simpl; by rewrite ?Emax.
    - rewrite !(not_elem_of_dom_1 _ k); [done|..].
      + rewrite dom_greedy_outputs by lia. by rewrite elem_of_list_to_set.
      + rewrite Hdom. by rewrite elem_of_list_to_set. }
  unfold execute, _make_inputs. rewrite M_bind_eq, Hkv.
  rewrite bool_decide_true by done. cbn [andb]. rewrite Hmake. cbn [fmap res_fmap snd].
  rewrite (M_bind_Ok _ _ _ tt (set_kv_caches (Some kv0) w, s)).
  2:{ unfold kv0. destruct (0 <? len blocks_to_copy).
      - rewrite M_bind_eq. simpl. by rewrite Hkv.
      - simpl. unfold mret, M_ret. do 2 f_equal. destruct w; simpl in *. by rewrite Hkv. }
  rewrite (M_bind_Ok _ _ _ tt (set_flags wait record (set_kv_caches (Some kv0) w), s)) by done.
  rewrite (M_bind_Ok _ _ _ logits (w1, s)).
  2:{ unfold run_model. simpl. by rewrite Hmodel. }
  rewrite (M_bind_Ok _ _ _ (out, (λ l, (torch_max (softmax l)).1) <$> logits) (w1, s)).
  2:{ unfold run_sample. rewrite M_bind_eq. simpl. unfold lift. by rewrite sample_greedy by done. }
  rewrite (M_bind_Ok _ _ _ w1 (w1, s)) by done.
  rewrite (M_bind_Ok _ _ _ _ _ Hwords), M_bind_eq. simpl. unfold lift. by rewrite Hout, Eout.
Qed.


(** What [init_cache] returns and leaves, with [per_block] bytes for the keys and
    values of a block in all layers. *)
Definition block_bytes (w : ModelWorker (K := K) (V := V) (F := F)) (bits : Z) : Z :=
  mc_num_layers (model_config w) * 2 *
  (block_size w * mc_num_kv_heads (model_config w) * mc_head_dim (model_config w) * (bits / 8)).

Lemma init_cache_eq (w : ModelWorker (K := K) (V := V) (F := F)) gpu host disk path bits :
  finfo_bits (mc_dtype (model_config w)) = Ok bits →
  0 < mc_num_layers (model_config w) → 0 < block_size w →
  0 < mc_num_kv_heads (model_config w) → 0 < mc_head_dim (model_config w) →
  0 < block_bytes w bits ∧
  init_cache gpu host disk path w
  = (Ok {| kvp_num_layers := mc_num_layers (model_config w);
           kvp_num_gpu_blocks := gpu / block_bytes w bits;
           kvp_num_host_blocks := host / block_bytes w bits;
           kvp_num_disk_blocks := disk / block_bytes w bits;
           kvp_disk_kv_cache_file := disk_kv_cache_file path (pretty (rank w));
           kvp_dtype := mc_dtype (model_config w);
           kvp_pre_event_handles := py_range 0 (mc_num_layers (model_config w));
           kvp_post_event_handles := py_range 0 (mc_num_layers (model_config w)) |},
     set_kv_caches (Some ((λ _, PagedCache (block_size w) ∅)
                            <$> py_range 0 (mc_num_layers (model_config w)))) w).
Proof using.
  intros Hbits HL Hb Hh Hd.
  assert (0 < bits / 8) as Hbyte.
  { destruct (mc_dtype (model_config w)); simpl in Hbits; simplify_eq; by compute. }
  assert (0 < block_bytes w bits) as Hpos.
  { unfold block_bytes. repeat apply Z.mul_pos_pos; lia. }
  split; [done|]. unfold block_bytes in *.
  assert (kv_block_bytes w = Ok (block_size w * mc_num_kv_heads (model_config w)
    * mc_head_dim (model_config w) * (bits / 8))) as Hkb.
  { unfold kv_block_bytes. by rewrite Hbits. }
  unfold init_cache. rewrite M_bind_eq. cbn [get_st]. unfold lift.
  rewrite M_bind_eq, Hkb, M_bind_eq, py_floordiv_pos by done.
  rewrite M_bind_eq. cbn [modify]. rewrite M_bind_eq, py_floordiv_pos by done.
  by rewrite M_bind_eq, py_floordiv_pos by done.
Qed.

(** Where it succeeds, the caches are all it has changed. *)
(** A model without layers has no block size to divide by. *)
Lemma init_cache_layers (w : ModelWorker (K := K) (V := V) (F := F)) gpu host disk path params w' :
  init_cache gpu host disk path w = (Ok params, w') → mc_num_layers (model_config w) ≠ 0.
Proof using.
  intros E HL. unfold init_cache in E. rewrite M_bind_eq in E. cbn [get_st] in E. rewrite HL in E.
  unfold lift in E. rewrite M_bind_eq in E. destruct (kv_block_bytes w) as [kb|]; [|done].
  by rewrite M_bind_eq in E.
Qed.

Lemma init_cache_state (w : ModelWorker (K := K) (V := V) (F := F)) gpu host disk path params w' :
  init_cache gpu host disk path w = (Ok params, w') →
  w' = set_kv_caches (Some ((λ _, PagedCache (block_size w) ∅)
                              <$> py_range 0 (mc_num_layers (model_config w)))) w.
Proof using.
  unfold init_cache. rewrite M_bind_eq. cbn [get_st]. unfold lift. rewrite M_bind_eq.
  destruct (kv_block_bytes w) as [kb|]; [|done]. rewrite M_bind_eq.
  destruct (py_floordiv gpu _) as [|]; [|done]. rewrite M_bind_eq. cbn [modify]. rewrite M_bind_eq.
  destruct (py_floordiv host _) as [|]; [|done]. rewrite M_bind_eq.
  destruct (py_floordiv disk _) as [|]; [|done]. by intros [= _ <-].
Qed.


(** The warmup batch has one request per sequence slot; together they have
    as many tokens as allowed, spread evenly, no sequence exceeds the maximal
    length, and every request is well-formed with the blocks it needs. *)
Theorem warmup_batch_balanced (page max_batch_size max_seq_len max_num_batched_tokens : Z) :
  0 < page → 0 < max_batch_size → 0 ≤ max_seq_len → 0 ≤ max_num_batched_tokens →
  ∃ ins, warmup_inputs page max_batch_size max_seq_len max_num_batched_tokens = Ok ins ∧
    len ins = max_batch_size ∧
    sumZ (input_len <$> ins) = Z.min max_num_batched_tokens (max_batch_size * max_seq_len) ∧
    Forall (λ d, input_wf page d ∧ input_len d ≤ max_seq_len) ins ∧
    (∀ d d', d ∈ ins → d' ∈ ins → input_len d ≤ input_len d' + 1).
Proof using.
  intros Hp Hb HL HT. set (b := max_batch_size) in *.
  set (n := num_total_tokens b max_seq_len max_num_batched_tokens).
  assert (n = Z.min max_num_batched_tokens (b * max_seq_len)) as En.
  { unfold n, num_total_tokens. destruct (Z.leb_spec max_num_batched_tokens (b * max_seq_len)); lia. }
  assert (0 ≤ n) as Hn by nia.
  exists (warmup_request page n b <$> py_range 0 b).
  split; [by apply warmup_inputs_Ok|]. split; [|split; [|split]].
  - unfold len. rewrite length_fmap, length_py_range. lia.
  - rewrite <-list_fmap_compose. rewrite <-En. by apply deal_total.
  - apply Forall_fmap, Forall_forall. intros j Hj%elem_of_py_range. simpl.
    pose proof (share_nonneg n b j Hn Hj). split.
    + split; simpl; try lia.
      * unfold len. rewrite length_replicate. lia.
      * unfold len. rewrite length_py_range.
        pose proof (Z.div_pos (share n b j + page - 1) page). lia.
    + unfold share. apply Z.lt_succ_r. apply Z.div_lt_upper_bound; nia.
  - intros d d' (j & -> & Hj%elem_of_py_range)%list_elem_of_fmap
      (j' & -> & Hj'%elem_of_py_range)%list_elem_of_fmap. simpl. unfold share.
    transitivity ((n - j' + b - 1 + 1 * b) / b); [apply Z.div_le_mono; lia|].
    by rewrite Z.div_add by lia.
Qed.
End properties.

(** *** Witnesses *)

(** The first largest element and its index. *)
Fixpoint argmax (l : list Z) : Z * Z :=
  match l with
  | [] => (0, 0)
  | [x] => (x, 0)
  | x :: l => let '(y, i) := argmax l in if y <=? x then (x, 0) else (y, i + 1)
  end.

Lemma argmax_spec l x i :
  l ≠ [] → argmax l = (x, i) → 0 ≤ i ∧ l !! Z.to_nat i = Some x ∧ ∀ y, y ∈ l → y ≤ x.
Proof.
  revert x i; induction l as [|a l IH]; intros x i Hl E; [done|]. destruct l as [|b l].
  - simpl in E. simplify_eq. split_and!; [done..|]. by intros y ->%list_elem_of_singleton.
  - destruct (argmax (b :: l)) as [y j] eqn:Ej. cbn [argmax] in E.
    change (match l with [] => _ | _ => _ end) with (argmax (b :: l)) in E. rewrite Ej in E.
    destruct (IH y j) as (Hj & Hy & Hmax); [done..|].
    destruct (Z.leb_spec y a); simplify_eq; (split; [lia|split]).
    + done.
    + intros z [->|Hz]%elem_of_cons; [lia|]. specialize (Hmax z Hz). lia.
    + replace (Z.to_nat (j + 1)) with (S (Z.to_nat j)) by lia. done.
    + intros z [->|Hz]%elem_of_cons; [lia|auto].
Qed.

#[local] Instance sampling_Z : Sampling Z := {|
  F_zero := 0; F_le := Z.le; F_div := Z.div; softmax l := l; torch_max := argmax;
  top_k_top_p_sampling_from_logits l _ _ := (λ _, 0) <$> l |}.
#[local] Instance sampling_Z_laws : SamplingLaws Z.
Proof.
  split; [done| |exact argmax_spec].
  intros l i j x y px py Hx Hy Hpx Hpy Hle. simpl in *. by simplify_eq.
Qed.

#[local] Instance fi_Z : FlashInfer Z Z Z Z := reference_flashinfer (λ _ _, 0).
#[local] Instance fi_Z_laws : FlashInferLaws (λ (_ : Z) (_ : list (option (Z * Z))), 0)
  := reference_flashinfer_laws _.

(** A model that scores the tokens 0, 1, 2 by the end of the sequence. *)
Definition model_Z (ids : list Z) (ip : InputParams) (kv : option (list (paged_cache Z Z)))
    : res (list (list Z) * option (list (paged_cache Z Z))) :=
  Ok ((λ c, [c; 2; 3]) <$> drop 1 (ip_cu_seqlens_q ip), kv).
#[local] Instance model_Z_rows : LogitsPerRequest model_Z.
Proof. intros ids ip kv logits kv' [= <- <-]. apply len_fmap. Qed.

Definition worker_Z : ModelWorker (K := Z) (V := Z) (F := Z) :=
  set_kv_caches (Some [PagedCache 2 ∅])
    (ModelWorker_init 0 {| mc_num_layers := 1; mc_num_heads := 1; mc_num_kv_heads := 1;
       mc_head_dim := 1; mc_dtype := float16 |} [2] 2).
Definition input_Z (id n : Z) : InferInput := {| seq_id := id;
  input_ids := replicate (Z.to_nat n) 1; input_len := n; filled_token_len := 0;
  context_len := n; block_ids := [id] |}.

Lemma inputs_Z_fit : batch_fits [input_Z 7 1; input_Z 8 2].
Proof. by split; apply (bool_decide_unpack _); vm_compute. Qed.



Example warmup_batch_balanced_witness :
  ∃ ins, warmup_inputs 4 3 5 7 = Ok ins ∧ input_len <$> ins = [3; 2; 2] ∧
    sumZ (input_len <$> ins) = 7.
Proof.
  destruct (warmup_batch_balanced 4 3 5 7) as (ins & E & _ & Hs & _); [lia..|].
  exists ins. split; [exact E|]. split; [|exact Hs].
  vm_compute in E. injection E as <-. reflexivity.
Defined.
