(* ===== verification/Concurrency.v ===== *)
(** * Interleavings

    Tasks that a thread pool runs concurrently, as lists of atomic operations:
    any order that keeps the order within each task can happen.  When operations
    of different tasks commute, every order computes what running the tasks one
    after the other does. *)
From S2P Require Import Prelude.

Inductive interleaves {A} : list (list A) → list A → Prop :=
  | interleaves_nil ls : Forall (λ l, l = []) ls → interleaves ls []
  | interleaves_cons ls i x l rest :
      ls !! i = Some (x :: l) → interleaves (<[i := l]> ls) rest →
      interleaves ls (x :: rest).

Section interleaves.
Context {S A : Type} (run : S → A → S).

Definition commute (x y : A) : Prop := ∀ s, run (run s x) y = run (run s y) x.

(** Operations of different tasks commute. *)
Definition independent (ls : list (list A)) : Prop :=
  ∀ i j li lj x y, i ≠ j → ls !! i = Some li → ls !! j = Some lj →
    x ∈ li → y ∈ lj → commute x y.

Lemma foldl_move s p x r :
  (∀ y, y ∈ p → commute x y) → foldl run s (p ++ x :: r) = foldl run (run s x) (p ++ r).
Proof.
  revert s; induction p as [|y p IH]; intros s Hp; simpl; [done|].
  rewrite IH by (intros; apply Hp; set_solver). f_equal. symmetry. apply (Hp y). set_solver.
Qed.

Lemma concat_insert (ls : list (list A)) i l l' :
  ls !! i = Some l →
  concat (<[i := l']> ls) = concat (take i ls) ++ l' ++ concat (drop (Datatypes.S i) ls).
Proof.
  intros Hi. rewrite insert_take_drop by (by apply lookup_lt_Some in Hi).
  by rewrite concat_app.
Qed.

Lemma concat_lookup (ls : list (list A)) i l :
  ls !! i = Some l →
  concat ls = concat (take i ls) ++ l ++ concat (drop (Datatypes.S i) ls).
Proof. intros Hi. rewrite <-(list_insert_id ls i l Hi) at 1. by eapply concat_insert. Qed.

Lemma interleaves_perm (ls : list (list A)) l : interleaves ls l → l ≡ₚ concat ls.
Proof.
  induction 1 as [ls Hnil|ls i x tl rest Hi _ IH].
  - induction Hnil as [|? ls -> _ IH]; [done|]. exact IH.
  - rewrite IH, (concat_insert _ _ _ _ Hi), (concat_lookup _ _ _ Hi). simpl.
    by rewrite Permutation_middle.
Qed.

Lemma interleaves_sequential ls l s :
  independent ls → interleaves ls l → foldl run s l = foldl run s (concat ls).
Proof.
  intros Hind Hl. revert s Hind. induction Hl as [ls Hnil|ls i x tl rest Hi _ IH]; intros s Hind.
  - assert (concat ls = []) as ->; [|done].
    induction Hnil as [|? ls -> _ IH]; [done|]. apply IH.
    intros i j li lj x y Hij Hi Hj.
    by apply (Hind (Datatypes.S i) (Datatypes.S j) li lj); [lia|..].
  - simpl. rewrite IH.
    + rewrite (concat_insert _ _ _ _ Hi), (concat_lookup _ _ _ Hi). simpl.
      rewrite foldl_move; [done|]. intros y Hy. apply list_elem_of_In, in_concat in Hy.
      destruct Hy as (lj & Hlj & Hy). apply list_elem_of_In, elem_of_take in Hlj.
      destruct Hlj as (j & Hj & Hlt).
      apply (Hind i j (x :: tl) lj); [lia|done|done|set_solver|by apply list_elem_of_In].
    + intros j k lj lk y z Hjk Hj Hk Hy Hz.
      assert (∀ m lm v, <[i := tl]> ls !! m = Some lm → v ∈ lm →
        ∃ lm', ls !! m = Some lm' ∧ v ∈ lm') as Hold.
      { intros m lm v Hm Hv. apply list_lookup_insert_Some in Hm as [(-> & -> & _)|[_ Hm]].
        - exists (x :: lm). set_solver.
        - by exists lm. }
      destruct (Hold j lj y) as (lj' & ? & ?); [done..|].
      destruct (Hold k lk z) as (lk' & ? & ?); [done..|].
      by apply (Hind j k lj' lk').
Qed.
End interleaves.
