(* ===== verification/KVStore.v ===== *)
(** * The KV worker's stores

    [runtime/worker/llm_worker/kv_worker.py]: the three tiers (GPU, host, disk)
    of KV blocks, the file behind the disk tier, the per-layer copies and
    [copy_kv].  Copies queued on a CUDA stream run in the order they are queued;
    the events and queues that order them with the model are logged here and
    treated in [KVPipeline]. *)
From S2P Require Import Prelude Tensor FlashInfer ModelWorker Concurrency.

(** ** Data *)

(** The messages of the protocol. *)
Inductive Device := GPU | Host | Disk.
#[export] Instance Device_eq_dec : EqDecision Device.
Proof. solve_decision. Defined.

Record BlockMappingEntry := { src_block_id : Z; dst_block_id : Z }.
Notation BlockMapping := (list BlockMappingEntry).

(** The bytes of one layer of one block. *)
Notation row := (list Z).

(** Element types of numpy arrays. *)
Inductive np_dtype := np_float32 | np_float16 | np_uint16 | np_int32.
#[export] Instance np_dtype_eq_dec : EqDecision np_dtype.
Proof. solve_decision. Defined.

Definition dtype_map (d : dtype) : option np_dtype :=
  match d with
  | float32 => Some np_float32
  | float16 => Some np_float16
  | bfloat16 => Some np_uint16
  | int32 => Some np_int32
  | other_dtype => None
  end.

(** What the KV worker does to the queues and events it shares with the model. *)
Inductive action :=
  | RecordPre (layer : Z) | PutModelQueue
  | GetKvQueue | WaitPost (layer : Z)
  | Synchronize.

(** ** The file of the disk tier *)

(** What a path holds: an array file, or bytes that do not load as one. *)
Inductive file :=
  | NpyFile (shape : Z * Z * Z) (dtype : np_dtype) (data : list (list row))
  | OtherFile.

Notation fs := (gmap string file).

(** A new array file reads as zeros. *)
Definition zeros_array (stride : Z) (shape : Z * Z * Z) : list (list row) :=
  let '(num_blocks, num_layers, _) := shape in
  (λ _, (λ _, replicate (Z.to_nat stride) 0) <$> py_range 0 num_layers)
    <$> py_range 0 num_blocks.

(** [np.load(file, mmap_mode=mode)] *)
Definition np_load (kv_cache_file : string) : M fs (Z * Z * Z * np_dtype * list (list row)) :=
  λ s, match s !! kv_cache_file with
       | Some (NpyFile shape dt data) => (Ok (shape, dt, data), s)
       | Some OtherFile => (Raise ValueError, s)
       | None => (Raise FileNotFoundError, s)
       end.

Definition os_remove (kv_cache_file : string) : M fs unit := modify (delete kv_cache_file).

(** [stride] is the number of bytes of a row of the new array. *)
Definition open_memmap (kv_cache_file : string) (stride : Z) (dt : np_dtype)
    (shape : Z * Z * Z) : M fs (list (list row)) :=
  let data := zeros_array stride shape in
  _ ← modify (<[kv_cache_file := NpyFile shape dt data]>); mret data.

(** The [try] block covers the comparison and the removal; both leave
    [need_new]. *)
Definition memmap_disk_kv_cache (kv_cache_file : string) (stride : Z)
    (shape : Z * Z * Z) (dt : np_dtype) : M fs (list (list row)) := λ s,
  if bool_decide (is_Some (s !! kv_cache_file)) then
    match np_load kv_cache_file s with
    | (Ok (shape', dt', data), s) =>
        if bool_decide (shape' ≠ shape) || bool_decide (dt' ≠ dt) then
          (_ ← os_remove kv_cache_file; open_memmap kv_cache_file stride dt shape) s
        else (Ok data, s)
    | (Raise _, s) =>
        (_ ← os_remove kv_cache_file; open_memmap kv_cache_file stride dt shape) s
    end
  else open_memmap kv_cache_file stride dt shape s.

(** ** The worker *)

(** [gpu_kv_caches] is device memory: the bytes of the layers one after the
    other, [gpu_num_blocks] blocks each.  Addresses are relative to its start. *)
Record KVWorker := {
  num_layers : Z;
  gpu_num_blocks : Z;
  gpu_kv_caches : list Z;
  gpu_kv_cache_ptrs : list Z;
  block_stride : Z;
  host_kv_caches : list (list row);
  disk_kv_caches : option (list (list row));
  actions : list action;
}.

Definition set_gpu (g : list Z) (w : KVWorker) : KVWorker :=
  Build_KVWorker (num_layers w) (gpu_num_blocks w) g (gpu_kv_cache_ptrs w) (block_stride w)
    (host_kv_caches w) (disk_kv_caches w) (actions w).
Definition set_host (h : list (list row)) (w : KVWorker) : KVWorker :=
  Build_KVWorker (num_layers w) (gpu_num_blocks w) (gpu_kv_caches w) (gpu_kv_cache_ptrs w)
    (block_stride w) h (disk_kv_caches w) (actions w).
Definition set_disk (d : option (list (list row))) (w : KVWorker) : KVWorker :=
  Build_KVWorker (num_layers w) (gpu_num_blocks w) (gpu_kv_caches w) (gpu_kv_cache_ptrs w)
    (block_stride w) (host_kv_caches w) d (actions w).
Definition log (a : action) : M KVWorker unit := modify (λ w,
  Build_KVWorker (num_layers w) (gpu_num_blocks w) (gpu_kv_caches w) (gpu_kv_cache_ptrs w)
    (block_stride w) (host_kv_caches w) (disk_kv_caches w) (actions w ++ [a])).

(** [__init__], from the shared device memory [storage] and the pinned buffer
    [host] the libraries hand out; the NIXL agent is in [Transfer]. *)
Definition KVWorker_init (params : KVWorkerParams) (element_size : Z) (storage : list Z)
    (host : list (list row)) : M fs KVWorker :=
  let num_layers := kvp_num_layers params in
  let num_gpu_blocks := kvp_num_gpu_blocks params in
  (* view(num_layers, num_gpu_blocks, -1) *)
  let rows := num_layers * num_gpu_blocks in
  _ ← lift (py_require ((0 <? rows) && (len storage `mod` rows =? 0)) RuntimeError);
  let stride := len storage / rows in
  let block_size := stride / element_size in
  np_dtype ← lift (match dtype_map (kvp_dtype params) with
                   | Some d => Ok d | None => Raise TypeError end);
  disk ← (if 0 <? kvp_num_disk_blocks params then
            Some <$> memmap_disk_kv_cache (kvp_disk_kv_cache_file params) stride
                       (kvp_num_disk_blocks params, num_layers, block_size) np_dtype
          else mret None);
  mret {|
    num_layers := num_layers; gpu_num_blocks := num_gpu_blocks; gpu_kv_caches := storage;
    gpu_kv_cache_ptrs := (λ layer_idx, layer_idx * (num_gpu_blocks * stride))
                           <$> py_range 0 num_layers;
    block_stride := stride; host_kv_caches := host; disk_kv_caches := disk; actions := [] |}.

(** ** Accesses *)

(** Device memory, by address; an access outside it is a CUDA error. *)
Definition mem_read (mem : list Z) (addr n : Z) : res row :=
  if (0 <=? addr) && (addr + n <=? len mem)
  then Ok (py_slice mem addr (addr + n)) else Raise CudaError.
Definition mem_write (mem : list Z) (addr : Z) (bytes : row) : res (list Z) :=
  if (0 <=? addr) && (addr + len bytes <=? len mem)
  then Ok (py_slice mem 0 addr ++ bytes ++ py_slice mem (addr + len bytes) (len mem))
  else Raise CudaError.

(** [caches[block_id][layer_idx]] and its assignment. *)
Definition row_get (caches : list (list row)) (block_id layer_idx : Z) : res row :=
  blk ← py_get caches block_id; py_get blk layer_idx.
Definition row_set (caches : list (list row)) (block_id layer_idx : Z) (r : row)
    : res (list (list row)) :=
  blk ← py_get caches block_id; blk ← py_set blk layer_idx r; py_set caches block_id blk.

(** Subscripting the disk caches when there are none. *)
Definition the_disk (w : KVWorker) : res (list (list row)) :=
  match disk_kv_caches w with Some d => Ok d | None => Raise TypeError end.

(** ** Copies of one layer *)

Definition _load_layer_kv_blocks_from_host (block_map : BlockMapping) (layer_idx : Z)
    : M KVWorker unit :=
  gpu_kv_cache_base_ptr ← (w ← get_st; lift (py_get (gpu_kv_cache_ptrs w) layer_idx));
  for_ block_map (λ entry,
    w ← get_st;
    src ← lift (row_get (host_kv_caches w) (src_block_id entry) layer_idx);
    gpu ← lift (mem_write (gpu_kv_caches w)
                  (gpu_kv_cache_base_ptr + dst_block_id entry * block_stride w) src);
    modify (set_gpu gpu)).

Definition _save_layer_kv_blocks_to_host (block_map : BlockMapping) (layer_idx : Z)
    : M KVWorker unit :=
  gpu_kv_cache_base_ptr ← (w ← get_st; lift (py_get (gpu_kv_cache_ptrs w) layer_idx));
  for_ block_map (λ entry,
    w ← get_st;
    dst ← lift (row_get (host_kv_caches w) (dst_block_id entry) layer_idx);
    bytes ← lift (mem_read (gpu_kv_caches w)
                    (gpu_kv_cache_base_ptr + src_block_id entry * block_stride w) (len dst));
    host ← lift (row_set (host_kv_caches w) (dst_block_id entry) layer_idx bytes);
    modify (set_host host)).

Definition _load_layer_kv_blocks_from_disk (block_mappings : list BlockMapping)
    (layer_idx : Z) : M KVWorker unit :=
  for_ block_mappings (λ block_map, for_ block_map (λ entry,
    w ← get_st;
    disk ← lift (the_disk w);
    src ← lift (row_get disk (src_block_id entry) layer_idx);
    host ← lift (row_set (host_kv_caches w) (dst_block_id entry) layer_idx src);
    modify (set_host host))).

Definition _save_layer_kv_blocks_to_disk (block_mappings : list BlockMapping)
    (layer_idx : Z) : M KVWorker unit :=
  for_ block_mappings (λ block_map, for_ block_map (λ entry,
    w ← get_st;
    src ← lift (row_get (host_kv_caches w) (src_block_id entry) layer_idx);
    disk ← lift (the_disk w);
    disk ← lift (row_set disk (dst_block_id entry) layer_idx src);
    modify (set_disk (Some disk)))).

(** ** Copies of all layers *)

Definition load_kv_blocks_from_host (block_mappings : list BlockMapping) : M KVWorker unit :=
  w ← get_st;
  _ ← for_ (py_range 0 (num_layers w)) (λ layer_idx,
        when (0 <? len block_mappings)
          (_ ← for_ block_mappings (λ block_mapping,
                 _load_layer_kv_blocks_from_host block_mapping layer_idx);
           _ ← log (RecordPre layer_idx);
           log PutModelQueue));
  log Synchronize.

(** Waiting for a token of the model is [GetKvQueue]. *)
Definition save_kv_blocks_to_host (block_mappings : list BlockMapping) : M KVWorker unit :=
  w ← get_st;
  _ ← for_ (py_range 0 (num_layers w)) (λ layer_idx,
        when (0 <? len block_mappings)
          (_ ← log GetKvQueue;
           _ ← log (WaitPost layer_idx);
           for_ block_mappings (λ block_mapping,
             _save_layer_kv_blocks_to_host block_mapping layer_idx)));
  log Synchronize.

(** The layers of the two disk copies are tasks of a thread pool; this is the
    execution that runs them in order, [disk_copies_interleave] is about the
    others. *)
Definition load_kv_blocks_from_disk (block_mappings : list BlockMapping) : M KVWorker unit :=
  w ← get_st;
  for_ (py_range 0 (num_layers w)) (_load_layer_kv_blocks_from_disk block_mappings).
Definition save_kv_blocks_to_disk (block_mappings : list BlockMapping) : M KVWorker unit :=
  w ← get_st;
  for_ (py_range 0 (num_layers w)) (_save_layer_kv_blocks_to_disk block_mappings).

Definition COPY_KV_OP_MAP (src dst : Device) : option (list BlockMapping → M KVWorker unit) :=
  match src, dst with
  | GPU, Host => Some save_kv_blocks_to_host
  | Host, GPU => Some load_kv_blocks_from_host
  | Host, Disk => Some save_kv_blocks_to_disk
  | Disk, Host => Some load_kv_blocks_from_disk
  | _, _ => None
  end.

Definition copy_kv (block_mappings : list BlockMapping) (src dst : Device) : M KVWorker unit :=
  match COPY_KV_OP_MAP src dst with
  | Some op => op block_mappings
  | None => raise ValueError
  end.
