(* ===== verification/KVCopies.v ===== *)
(** * Copies between the tiers

    [KVStore]'s operations seen from outside: the three tiers are one store of
    blocks, [copy_kv] copies the named blocks of every layer and nothing else,
    saving and loading restore contents, the disk tasks may interleave. *)
From S2P Require Import Prelude Tensor FlashInfer ModelWorker Concurrency KVStore.

(** ** Device memory as blocks *)

Definition block_set (mem : list Z) (s i : Z) (bytes : row) : list Z :=
  py_slice mem 0 (i * s) ++ bytes ++ py_slice mem (i * s + len bytes) (len mem).

Section memory.
Context (mem : list Z) (s n : Z).
Hypothesis (Hs : 0 < s) (Hmem : len mem = n * s).

Lemma mem_read_block i : 0 ≤ i < n → mem_read mem (i * s) s = Ok (block mem s i).
Proof using Hs Hmem.
  intros Hi. unfold mem_read. rewrite Hmem.
  destruct (Z.leb_spec 0 (i * s)), (Z.leb_spec (i * s + s) (n * s)); simpl; try nia.
  unfold block. do 2 f_equal. lia.
Qed.

Lemma mem_write_block i bytes :
  0 ≤ i < n → len bytes = s → mem_write mem (i * s) bytes = Ok (block_set mem s i bytes).
Proof using Hs Hmem.
  intros Hi Hb. unfold mem_write. rewrite Hmem, Hb.
  destruct (Z.leb_spec 0 (i * s)), (Z.leb_spec (i * s + s) (n * s)); simpl; try nia.
  unfold block_set. by rewrite Hb, Hmem.
Qed.

Lemma len_block_set i bytes :
  0 ≤ i < n → len bytes = s → len (block_set mem s i bytes) = n * s.
Proof using Hs Hmem.
  intros Hi Hb. unfold block_set. rewrite !len_app, Hb, !len_py_slice; nia.
Qed.

Lemma lookup_block l j (k : nat) :
  0 ≤ j → Z.of_nat k < s → block l s j !! k = (l : list Z) !! (Z.to_nat (j * s) + k)%nat.
Proof using Hs. intros. unfold block. apply lookup_py_slice; nia. Qed.

Lemma block_block_set i j bytes :
  0 ≤ i < n → 0 ≤ j < n → len bytes = s →
  block (block_set mem s i bytes) s j = if decide (i = j) then bytes else block mem s j.
Proof using Hs Hmem.
  intros Hi Hj Hb.
  assert (len (py_slice mem 0 (i * s)) = i * s) as Hpre by (rewrite len_py_slice; nia).
  assert (len (block (block_set mem s i bytes) s j) = s) as Hl1.
  { apply (len_block _ _ n); [lia|done|by apply len_block_set]. }
  apply list_eq_same_length with (Z.to_nat s).
  - destruct (decide (i = j)); [|pose proof (len_block mem s n j ltac:(lia) Hj Hmem)];
      unfold len in *; lia.
  - unfold len in *; lia.
  - intros k x y Hk. rewrite lookup_block by lia.
    destruct (decide (i = j)) as [<-|Hne].
    + unfold block_set. rewrite lookup_app_r by (unfold len in Hpre; lia).
      rewrite lookup_app_l by (unfold len in *; lia).
      replace (Z.to_nat (i * s) + k - length (py_slice mem 0 (i * s)))%nat with k
        by (unfold len in Hpre; lia).
      congruence.
    + rewrite lookup_block by lia. unfold block_set.
      destruct (decide (j < i)) as [Hlt|Hge].
      * rewrite lookup_app_l by (unfold len in Hpre; nia).
        rewrite lookup_py_slice by nia. rewrite Z2Nat.inj_0. simpl. congruence.
      * rewrite lookup_app_r by (unfold len in Hpre; nia).
        rewrite lookup_app_r by (unfold len in *; nia).
        rewrite Hb, lookup_py_slice by (unfold len in *; nia).
        replace (Z.to_nat (i * s + s) + (Z.to_nat (j * s) + k
          - length (py_slice mem 0 (i * s)) - length bytes))%nat
          with (Z.to_nat (j * s) + k)%nat by (unfold len in *; nia).
        congruence.
Qed.
End memory.

(** ** Rows of the host and disk arrays *)

Definition row_at (h : list (list row)) (b l : Z) : option row :=
  if (0 <=? b) && (0 <=? l) then blk ← h !! Z.to_nat b; blk !! Z.to_nat l else None.
Definition set_row (h : list (list row)) (b l : Z) (r : row) : list (list row) :=
  alter (λ blk, <[Z.to_nat l := r]> blk) (Z.to_nat b) h.

(** Every block has one row of [s] bytes per layer. *)
Definition caches_wf (layers s : Z) (h : list (list row)) : Prop :=
  Forall (λ blk, len blk = layers ∧ Forall (λ r, len r = s) blk) h.

Section rows.
Context (layers s : Z) (h : list (list row)) (Hwf : caches_wf layers s h).

Lemma caches_block i blk :
  h !! i = Some blk → len blk = layers ∧ Forall (λ r, len r = s) blk.
Proof using Hwf. intros Hi. by apply (Forall_lookup_1 _ _ _ _ Hwf Hi). Qed.

Lemma row_at_Some b l :
  0 ≤ b < len h → 0 ≤ l < layers → ∃ r, row_at h b l = Some r ∧ row_get h b l = Ok r ∧ len r = s.
Proof using Hwf.
  intros Hb Hl. destruct (py_get_is_Ok h b Hb) as (blk & Hblk & Hget).
  destruct (caches_block _ _ Hblk) as [Hlen Hrows].
  destruct (py_get_is_Ok blk l) as (r & Hr & Hgetr); [lia|]. exists r. split; [|split].
  - unfold row_at. destruct (Z.leb_spec 0 b), (Z.leb_spec 0 l); simpl; try lia.
    by rewrite Hblk.
  - unfold row_get. by rewrite Hget.
  - rewrite Forall_lookup in Hrows. eauto.
Qed.

Lemma row_set_Ok b l r :
  0 ≤ b < len h → 0 ≤ l < layers → row_set h b l r = Ok (set_row h b l r).
Proof using Hwf.
  intros Hb Hl. destruct (py_get_is_Ok h b Hb) as (blk & Hblk & Hget).
  destruct (caches_block _ _ Hblk) as [Hlen _].
  unfold row_set. rewrite Hget, Ok_bind, py_set_in, Ok_bind, py_set_in by lia.
  f_equal. unfold set_row. symmetry. apply list_eq. intros i.
  rewrite list_lookup_insert. case_decide as Hi.
  - destruct Hi as [<- _]. by rewrite list_lookup_alter_eq, Hblk.
  - destruct (decide (Z.to_nat b = i)) as [<-|Hne]; [|by rewrite list_lookup_alter_ne].
    apply lookup_lt_Some in Hblk. tauto.
Qed.

Lemma set_row_wf b l r : len r = s → caches_wf layers s (set_row h b l r).
Proof using Hwf.
  intros Hr. unfold set_row. apply Forall_alter; [done|].
  intros blk _ [Hlen Hrows]. split.
  - unfold len in *. by rewrite length_insert.
  - by apply Forall_insert.
Qed.

Lemma len_set_row b l r : len (set_row h b l r) = len h.
Proof using. unfold len, set_row. by rewrite length_alter. Qed.

Lemma row_at_set_row b l r b' l' :
  0 ≤ b < len h → 0 ≤ l < layers → 0 ≤ b' → 0 ≤ l' →
  row_at (set_row h b l r) b' l' = if decide (b = b' ∧ l = l') then Some r else row_at h b' l'.
Proof using Hwf.
  intros Hb Hl Hb' Hl'. unfold row_at, set_row.
  destruct (Z.leb_spec 0 b'), (Z.leb_spec 0 l'); simpl; try lia.
  destruct (py_get_is_Ok h b Hb) as (blk & Hblk & _).
  destruct (caches_block _ _ Hblk) as [Hlen _].
  destruct (decide (b = b')) as [<-|Hne].
  - rewrite list_lookup_alter_eq, Hblk. simpl.
    destruct (decide (l = l')) as [<-|Hnl].
    + rewrite decide_True by done. rewrite list_lookup_insert_eq by (unfold len in *; lia). done.
    + rewrite decide_False by tauto. rewrite list_lookup_insert_ne by lia. done.
  - rewrite decide_False by tauto. rewrite list_lookup_alter_ne by lia. done.
Qed.
End rows.

(** Rows of different layers can be set in any order. *)
Lemma set_row_commute h b b' l l' r r' :
  0 ≤ l → 0 ≤ l' → l ≠ l' →
  set_row (set_row h b l r) b' l' r' = set_row (set_row h b' l' r') b l r.
Proof.
  intros Hl Hl' Hne. unfold set_row.
  destruct (decide (Z.to_nat b = Z.to_nat b')) as [->|Hb].
  - apply list_eq. intros k. destruct (decide (Z.to_nat b' = k)) as [<-|Hk].
    + rewrite !list_lookup_alter_eq. destruct (h !! _) as [blk|]; simpl; [|done].
      f_equal. apply list_insert_insert_ne. lia.
    + by rewrite !list_lookup_alter_ne.
  - by apply list_alter_alter_ne; congruence.
Qed.

(** ** The three tiers as one block store *)

Definition num_blocks (w : KVWorker) (d : Device) : Z :=
  match d with
  | GPU => gpu_num_blocks w
  | Host => len (host_kv_caches w)
  | Disk => len (default [] (disk_kv_caches w))
  end.

(** Layer [l] of block [b] on a device. *)
Definition read_block (w : KVWorker) (d : Device) (b l : Z) : option row :=
  match d with
  | GPU => if (0 <=? b) && (b <? gpu_num_blocks w) && (0 <=? l) && (l <? num_layers w)
           then Some (block (gpu_kv_caches w) (block_stride w) (l * gpu_num_blocks w + b))
           else None
  | Host => row_at (host_kv_caches w) b l
  | Disk => row_at (default [] (disk_kv_caches w)) b l
  end.

Definition write_block (w : KVWorker) (d : Device) (b l : Z) (r : row) : KVWorker :=
  match d with
  | GPU => set_gpu (block_set (gpu_kv_caches w) (block_stride w) (l * gpu_num_blocks w + b) r) w
  | Host => set_host (set_row (host_kv_caches w) b l r) w
  | Disk => set_disk ((λ d, set_row d b l r) <$> disk_kv_caches w) w
  end.

Record store_wf (w : KVWorker) : Prop := {
  wf_stride : 0 < block_stride w;
  wf_layers : 0 ≤ num_layers w;
  wf_gpu_blocks : 0 ≤ gpu_num_blocks w;
  wf_ptrs : gpu_kv_cache_ptrs w
    = (λ l, l * (gpu_num_blocks w * block_stride w)) <$> py_range 0 (num_layers w);
  wf_gpu : len (gpu_kv_caches w) = num_layers w * gpu_num_blocks w * block_stride w;
  wf_host : caches_wf (num_layers w) (block_stride w) (host_kv_caches w);
  wf_disk : caches_wf (num_layers w) (block_stride w) (default [] (disk_kv_caches w));
}.

Definition valid_block (w : KVWorker) (d : Device) (b l : Z) : Prop :=
  0 ≤ b < num_blocks w d ∧ 0 ≤ l < num_layers w.

(** The blocks of device memory, layer by layer. *)
Lemma gpu_index n L b l : 0 ≤ b < n → 0 ≤ l < L → 0 ≤ l * n + b < L * n.
Proof.
  intros Hb Hl. assert ((l + 1) * n ≤ L * n) by (apply Z.mul_le_mono_nonneg_r; lia). nia.
Qed.

Lemma gpu_index_inj n b l b' l' :
  0 ≤ b < n → 0 ≤ b' < n → l * n + b = l' * n + b' → b = b' ∧ l = l'.
Proof.
  intros Hb Hb' E. destruct (Z.div_mod_unique n l l' b b'); [lia..|done].
Qed.

Lemma read_gpu_block w b l :
  0 ≤ b < gpu_num_blocks w → 0 ≤ l < num_layers w →
  read_block w GPU b l = Some (block (gpu_kv_caches w) (block_stride w) (l * gpu_num_blocks w + b)).
Proof.
  intros Hb Hl. simpl. destruct (Z.leb_spec 0 b), (Z.ltb_spec b (gpu_num_blocks w)),
    (Z.leb_spec 0 l), (Z.ltb_spec l (num_layers w)); simpl; (lia || done).
Qed.

Lemma read_block_Some w d b l :
  store_wf w → valid_block w d b l →
  ∃ r, read_block w d b l = Some r ∧ len r = block_stride w.
Proof.
  intros [Hs _ _ _ Hg Hh Hd] [Hb Hl]. destruct d; simpl in *.
  - eexists. split; [by apply read_gpu_block|].
    apply (len_block _ _ (num_layers w * gpu_num_blocks w)); [lia|by apply gpu_index|done].
  - destruct (row_at_Some _ _ _ Hh b l) as (r & ? & _ & ?); eauto.
  - destruct (row_at_Some _ _ _ Hd b l) as (r & ? & _ & ?); eauto.
Qed.

Lemma write_block_wf w d b l r :
  store_wf w → valid_block w d b l → len r = block_stride w → store_wf (write_block w d b l r).
Proof.
  intros [Hs HL HB Hp Hg Hh Hd] [Hb Hl] Hr. destruct d; split; simpl in *; try done.
  - by apply len_block_set; [..|apply gpu_index|].
  - by apply set_row_wf.
  - destruct (disk_kv_caches w); simpl in *; [by apply set_row_wf|constructor].
Qed.

(** Every write changes one row of one device. *)
Lemma write_block_blocks w d b l r d' : num_blocks (write_block w d b l r) d' = num_blocks w d'.
Proof.
  destruct d, d'; simpl; try done; [by rewrite len_set_row|].
  destruct (disk_kv_caches w); simpl; [by rewrite len_set_row|done].
Qed.

Lemma read_write_block w d b l r d' b' l' :
  store_wf w → valid_block w d b l → len r = block_stride w →
  valid_block w d' b' l' →
  read_block (write_block w d b l r) d' b' l'
  = if decide (d = d' ∧ b = b' ∧ l = l') then Some r else read_block w d' b' l'.
Proof.
  intros [Hs HL HB Hp Hg Hh Hd] [Hb Hl] Hr [Hb' Hl'].
  destruct (decide (d = d')) as [<-|Hne].
  2:{ rewrite decide_False by tauto. by destruct d, d'. }
  destruct d; simpl in *.
  - destruct (Z.leb_spec 0 b'), (Z.ltb_spec b' (gpu_num_blocks w)),
      (Z.leb_spec 0 l'), (Z.ltb_spec l' (num_layers w)); simpl; try lia.
    rewrite (block_block_set _ _ (num_layers w * gpu_num_blocks w))
      by (done || by apply gpu_index).
    destruct (decide (b = b' ∧ l = l')) as [[-> ->]|Hne].
    + by rewrite !decide_True.
    + rewrite !decide_False; [done|tauto|]. intros E. apply Hne.
      by apply (gpu_index_inj (gpu_num_blocks w)).
  - rewrite (row_at_set_row _ _ _ Hh) by (done || lia).
    destruct (decide (b = b' ∧ l = l')); [rewrite decide_True|rewrite decide_False]; tauto.
  - destruct (disk_kv_caches w) as [h|]; simpl in *; [|unfold len in Hb; simpl in Hb; lia].
    rewrite (row_at_set_row _ _ _ Hd) by (done || lia).
    destruct (decide (b = b' ∧ l = l')); [rewrite decide_True|rewrite decide_False]; tauto.
Qed.

(** ** Copying entries *)

(** An entry copied for one layer. *)
Definition copy_entry (src dst : Device) (w : KVWorker) (op : Z * BlockMappingEntry) : KVWorker :=
  let '(l, e) := op in
  match read_block w src (src_block_id e) l with
  | Some r => write_block w dst (dst_block_id e) l r
  | None => w
  end.

Definition valid_op (w : KVWorker) (src dst : Device) (op : Z * BlockMappingEntry) : Prop :=
  valid_block w src (src_block_id op.2) op.1 ∧ valid_block w dst (dst_block_id op.2) op.1.

(** The source of the last entry that writes row [l] of block [b]. *)
Definition last_source (ops : list (Z * BlockMappingEntry)) (b l : Z) : option Z :=
  foldl (λ acc op, if decide (dst_block_id op.2 = b ∧ op.1 = l)
                   then Some (src_block_id op.2) else acc) None ops.

Lemma copy_entry_valid w src dst op :
  store_wf w → valid_op w src dst op →
  ∃ r, read_block w src (src_block_id op.2) op.1 = Some r ∧ len r = block_stride w ∧
       copy_entry src dst w op = write_block w dst (dst_block_id op.2) op.1 r.
Proof.
  intros Hwf [Hs _]. destruct (read_block_Some _ _ _ _ Hwf Hs) as (r & Hr & Hlen).
  exists r. split; [done|]. split; [done|]. destruct op as [l e]. simpl in *. by rewrite Hr.
Qed.

(** Sizes do not change. *)
Definition same_shape (w w' : KVWorker) : Prop :=
  num_layers w' = num_layers w ∧ block_stride w' = block_stride w ∧
  ∀ d, num_blocks w' d = num_blocks w d.

Lemma same_shape_trans w w' w'' : same_shape w w' → same_shape w' w'' → same_shape w w''.
Proof.
  intros (E1 & E2 & E3) (E1' & E2' & E3'). split; [congruence|]. split; [congruence|].
  intros d. by rewrite E3'.
Qed.

Lemma same_shape_valid w w' d b l :
  same_shape w w' → valid_block w' d b l ↔ valid_block w d b l.
Proof. intros (HL & _ & HB). unfold valid_block. by rewrite HB, HL. Qed.

Lemma copy_entry_wf w src dst op :
  store_wf w → valid_op w src dst op →
  store_wf (copy_entry src dst w op) ∧ same_shape w (copy_entry src dst w op) ∧
  actions (copy_entry src dst w op) = actions w.
Proof.
  intros Hwf Hop. destruct (copy_entry_valid _ _ _ _ Hwf Hop) as (r & _ & Hlen & ->).
  split; [apply write_block_wf; [done|apply Hop|done]|].
  split; [|by destruct dst]. split; [by destruct dst|]. split; [by destruct dst|].
  intros d. apply write_block_blocks.
Qed.

Lemma copy_entries w src dst ops :
  src ≠ dst → store_wf w → Forall (valid_op w src dst) ops →
  let w' := foldl (copy_entry src dst) w ops in
  store_wf w' ∧ same_shape w w' ∧ actions w' = actions w ∧
  ∀ d b l, valid_block w d b l →
    read_block w' d b l
    = if decide (d = dst) then
        match last_source ops b l with
        | Some a => read_block w src a l
        | None => read_block w dst b l
        end
      else read_block w d b l.
Proof.
  intros Hne Hwf. induction ops as [|op ops IH] using rev_ind; intros Hops; simpl.
  - split; [done|]. split; [by repeat split|]. split; [done|]. intros d b l _.
    by case_decide; subst.
  - apply Forall_app in Hops as [Hops Hop]. rewrite Forall_singleton in Hop.
    destruct (IH Hops) as (Hwf' & Hsh & Hact & Hread). rewrite foldl_app. simpl.
    set (w' := foldl (copy_entry src dst) w ops) in *.
    assert (valid_op w' src dst op) as Hop'.
    { unfold valid_op in *. by rewrite !(same_shape_valid _ _ _ _ _ Hsh). }
    destruct (copy_entry_wf _ _ _ _ Hwf' Hop') as (Hwf'' & Hsh' & Hact').
    split; [done|]. split; [|split; [congruence|]].
    { by eapply same_shape_trans. }
    intros d b l Hv. destruct (copy_entry_valid _ _ _ _ Hwf' Hop') as (r & Hr & Hlen & ->).
    rewrite read_write_block; [|done|apply Hop'|done|by apply (same_shape_valid _ _ _ _ _ Hsh)].
    unfold last_source. rewrite foldl_app. simpl.
    rewrite Hread in Hr by apply Hop. rewrite decide_False in Hr by done.
    destruct (decide (d = dst)) as [->|Hd].
    + destruct (decide (dst_block_id op.2 = b ∧ op.1 = l)) as [[<- <-]|Hbl].
      * rewrite decide_True by done. by rewrite Hr.
      * rewrite decide_False by tauto. rewrite Hread by done. by rewrite decide_True by done.
    + rewrite decide_False by naive_solver. rewrite Hread by done. by rewrite decide_False by done.
Qed.

(** ** The loops of the code copy entries *)

Definition layer_ops (l : Z) (es : list BlockMappingEntry) : list (Z * BlockMappingEntry) :=
  (λ e, (l, e)) <$> es.

Definition copies (src dst : Device) (w : KVWorker) (ops : list (Z * BlockMappingEntry)) :=
  foldl (copy_entry src dst) w ops.

(** A worker reachable by copies from [w]. *)
Definition like (w w' : KVWorker) : Prop := store_wf w' ∧ same_shape w w'.

Lemma like_refl w : store_wf w → like w w.
Proof. intros. split; [done|]. by repeat split. Qed.

Lemma like_copy src dst w w' op :
  like w w' → valid_op w src dst op → like w (copy_entry src dst w' op).
Proof.
  intros [Hwf Hsh] Hop. destruct (copy_entry_wf w' src dst op Hwf) as (? & ? & _).
  { unfold valid_op in *. by rewrite !(same_shape_valid _ _ _ _ _ Hsh). }
  split; [done|]. by eapply same_shape_trans.
Qed.

Lemma like_copies src dst w w' ops :
  like w w' → Forall (valid_op w src dst) ops → like w (copies src dst w' ops).
Proof.
  intros Hw. induction ops as [|op ops IH] using rev_ind; [done|].
  intros [Hops Hop]%Forall_app. rewrite Forall_singleton in Hop.
  unfold copies. rewrite foldl_app. apply like_copy; [by apply IH|done].
Qed.

(** A loop over entries. *)
Lemma entries_loop (body : BlockMappingEntry → M KVWorker unit) src dst l w w' es :
  (∀ e w', e ∈ es → like w w' → body e w' = (Ok tt, copy_entry src dst w' (l, e))) →
  Forall (valid_op w src dst) (layer_ops l es) → like w w' →
  for_ es body w' = (Ok tt, copies src dst w' (layer_ops l es)).
Proof.
  intros Hbody Hops Hw.
  destruct (for_pure_inv (like w) es body (λ w e, copy_entry src dst w (l, e)) w') as [E _].
  - intros e w1 He Hw1. split; [by apply Hbody|]. apply like_copy; [done|].
    rewrite Forall_forall in Hops. by apply Hops, list_elem_of_fmap_2.
  - done.
  - rewrite E. unfold copies, layer_ops. by rewrite foldl_fmap.
Qed.

(** A loop over the mappings of a request. *)
Lemma mappings_loop (body : BlockMapping → M KVWorker unit) src dst l w w' ms :
  (∀ m w', m ∈ ms → like w w' → body m w' = (Ok tt, copies src dst w' (layer_ops l m))) →
  Forall (valid_op w src dst) (layer_ops l (concat ms)) → like w w' →
  for_ ms body w' = (Ok tt, copies src dst w' (layer_ops l (concat ms))).
Proof.
  revert w'. induction ms as [|m ms IH]; intros w' Hbody Hops Hw; [done|].
  unfold layer_ops in Hops. simpl in Hops. rewrite fmap_app in Hops.
  apply Forall_app in Hops as [Hm Hms]. simpl.
  rewrite (M_bind_Ok _ _ _ tt (copies src dst w' (layer_ops l m))) by (apply Hbody; set_solver).
  rewrite IH.
  - unfold copies, layer_ops. by rewrite fmap_app, foldl_app.
  - intros. apply Hbody; set_solver.
  - done.
  - by apply like_copies.
Qed.

Section directions.
Context (w : KVWorker) (l : Z) (Hl : 0 ≤ l < num_layers w).

Lemma base_ptr w' :
  like w w' → py_get (gpu_kv_cache_ptrs w') l = Ok (l * (num_blocks w GPU * block_stride w)).
Proof using Hl.
  intros [Hwf (HL & Hs & HB)]. rewrite (wf_ptrs w' Hwf). apply py_get_Ok; [lia|].
  rewrite list_lookup_fmap, lookup_py_range by lia. simpl.
  specialize (HB GPU). simpl in HB. rewrite HB, Hs. do 2 f_equal. lia.
Qed.

Lemma valid_like w' src dst e :
  like w w' → valid_op w src dst (l, e) → valid_op w' src dst (l, e).
Proof using. intros [_ Hsh] Hop. unfold valid_op in *. by rewrite !(same_shape_valid _ _ _ _ _ Hsh). Qed.

Lemma gpu_address w' b :
  like w w' →
  l * (num_blocks w GPU * block_stride w) + b * block_stride w'
  = (l * gpu_num_blocks w' + b) * block_stride w'.
Proof using. intros [_ (_ & -> & HB)]. specialize (HB GPU). simpl in *. rewrite HB. lia. Qed.

Lemma load_layer_from_host m w' :
  like w w' → Forall (valid_op w Host GPU) (layer_ops l m) →
  _load_layer_kv_blocks_from_host m l w' = (Ok tt, copies Host GPU w' (layer_ops l m)).
Proof using Hl.
  intros Hw Hops. unfold _load_layer_kv_blocks_from_host.
  rewrite (M_bind_Ok _ _ _ (l * (num_blocks w GPU * block_stride w)) w')
    by (rewrite M_bind_eq; unfold get_st, lift; by rewrite base_ptr).
  apply (entries_loop _ _ _ _ w); [|done|done]. intros e w1 He Hw1.
  assert (valid_op w1 Host GPU (l, e)) as Hop.
  { apply valid_like; [done|]. rewrite Forall_forall in Hops. by apply Hops, list_elem_of_fmap_2. }
  rewrite M_bind_eq. cbn [get_st]. destruct Hw1 as [Hwf1 Hsh1].
  destruct (row_at_Some _ _ _ (wf_host w1 Hwf1) (src_block_id e) l) as (r & Hr & Hget & Hlen);
    [apply Hop..|].
  rewrite M_bind_eq. unfold lift at 1. rewrite Hget, M_bind_eq. unfold lift.
  rewrite gpu_address by done.
  rewrite (mem_write_block _ _ (num_layers w1 * gpu_num_blocks w1)).
  - unfold copy_entry. simpl. by rewrite Hr.
  - apply Hwf1.
  - apply Hwf1.
  - apply gpu_index; apply Hop.
  - done.
Qed.

Lemma save_layer_to_host m w' :
  like w w' → Forall (valid_op w GPU Host) (layer_ops l m) →
  _save_layer_kv_blocks_to_host m l w' = (Ok tt, copies GPU Host w' (layer_ops l m)).
Proof using Hl.
  intros Hw Hops. unfold _save_layer_kv_blocks_to_host.
  rewrite (M_bind_Ok _ _ _ (l * (num_blocks w GPU * block_stride w)) w')
    by (rewrite M_bind_eq; unfold get_st, lift; by rewrite base_ptr).
  apply (entries_loop _ _ _ _ w); [|done|done]. intros e w1 He Hw1.
  assert (valid_op w1 GPU Host (l, e)) as Hop.
  { apply valid_like; [done|]. rewrite Forall_forall in Hops. by apply Hops, list_elem_of_fmap_2. }
  rewrite M_bind_eq. cbn [get_st]. destruct Hw1 as [Hwf1 Hsh1].
  destruct (row_at_Some _ _ _ (wf_host w1 Hwf1) (dst_block_id e) l) as (r & Hr & Hget & Hlen);
    [apply Hop..|].
  destruct (copy_entry_valid w1 GPU Host (l, e) Hwf1 Hop) as (r' & Hr' & Hlen' & ->).
  rewrite M_bind_eq. unfold lift at 1. rewrite Hget, Hlen, M_bind_eq. unfold lift at 1.
  rewrite gpu_address by done.
  rewrite (mem_read_block _ _ (num_layers w1 * gpu_num_blocks w1)).
  - rewrite M_bind_eq. unfold lift.
    rewrite (row_set_Ok _ _ _ (wf_host w1 Hwf1)) by apply Hop. simpl in *.
    destruct (_ && _); [|done]. by injection Hr' as <-.
  - apply Hwf1.
  - apply Hwf1.
  - apply gpu_index; apply Hop.
Qed.

(** The body of the two disk copies. *)
Lemma disk_present w1 b : valid_block w1 Disk b l → ∃ d, disk_kv_caches w1 = Some d.
Proof using.
  intros [Hb _]. destruct (disk_kv_caches w1) eqn:E; [by eexists|]. simpl in Hb.
  rewrite E in Hb. unfold len in Hb. simpl in Hb. lia.
Qed.

Lemma load_layer_from_disk ms w' :
  like w w' → Forall (valid_op w Disk Host) (layer_ops l (concat ms)) →
  _load_layer_kv_blocks_from_disk ms l w' = (Ok tt, copies Disk Host w' (layer_ops l (concat ms))).
Proof using.
  intros Hw Hops. unfold _load_layer_kv_blocks_from_disk.
  apply (mappings_loop _ _ _ _ w); [|done|done]. intros m w0 Hm Hw0.
  assert (∀ e, e ∈ m → valid_op w Disk Host (l, e)) as Hvalid.
  { intros e He. rewrite Forall_forall in Hops. apply Hops, list_elem_of_fmap_2.
    rewrite <-(list_fmap_id ms). apply elem_of_concat_fmap. by exists m. }
  apply (entries_loop _ _ _ _ w); [|by apply Forall_fmap, Forall_forall|done].
  intros e w1 He Hw1. pose proof (valid_like w1 _ _ e Hw1 (Hvalid e He)) as Hop.
  rewrite M_bind_eq. cbn [get_st]. destruct Hw1 as [Hwf1 Hsh1].
  destruct (disk_present w1 _ (proj1 Hop)) as [d Hd].
  pose proof (wf_disk w1 Hwf1) as Hdw. rewrite Hd in Hdw. simpl in Hdw.
  destruct (row_at_Some _ _ _ Hdw (src_block_id e) l) as (r & Hr & Hget & Hlen).
  { destruct Hop as [[Hb _] _]. simpl in Hb. by rewrite Hd in Hb. }
  { apply Hop. }
  rewrite M_bind_eq. unfold the_disk, lift at 1. rewrite Hd, M_bind_eq. unfold lift at 1.
  rewrite Hget, M_bind_eq. unfold lift.
  rewrite (row_set_Ok _ _ _ (wf_host w1 Hwf1)) by apply Hop.
  unfold copy_entry. simpl. rewrite Hd. simpl. by rewrite Hr.
Qed.

Lemma save_layer_to_disk ms w' :
  like w w' → Forall (valid_op w Host Disk) (layer_ops l (concat ms)) →
  _save_layer_kv_blocks_to_disk ms l w' = (Ok tt, copies Host Disk w' (layer_ops l (concat ms))).
Proof using.
  intros Hw Hops. unfold _save_layer_kv_blocks_to_disk.
  apply (mappings_loop _ _ _ _ w); [|done|done]. intros m w0 Hm Hw0.
  assert (∀ e, e ∈ m → valid_op w Host Disk (l, e)) as Hvalid.
  { intros e He. rewrite Forall_forall in Hops. apply Hops, list_elem_of_fmap_2.
    rewrite <-(list_fmap_id ms). apply elem_of_concat_fmap. by exists m. }
  apply (entries_loop _ _ _ _ w); [|by apply Forall_fmap, Forall_forall|done].
  intros e w1 He Hw1. pose proof (valid_like w1 _ _ e Hw1 (Hvalid e He)) as Hop.
  rewrite M_bind_eq. cbn [get_st]. destruct Hw1 as [Hwf1 Hsh1].
  destruct (disk_present w1 _ (proj2 Hop)) as [d Hd].
  pose proof (wf_disk w1 Hwf1) as Hdw. rewrite Hd in Hdw. simpl in Hdw.
  destruct (row_at_Some _ _ _ (wf_host w1 Hwf1) (src_block_id e) l) as (r & Hr & Hget & Hlen);
    [apply Hop..|].
  rewrite M_bind_eq. unfold lift at 1. rewrite Hget, M_bind_eq. unfold the_disk, lift at 1.
  rewrite Hd, M_bind_eq. unfold lift.
  rewrite (row_set_Ok _ _ _ Hdw).
  - unfold copy_entry. simpl. rewrite Hr. simpl. by rewrite Hd.
  - destruct Hop as [_ [Hb _]]. simpl in Hb. by rewrite Hd in Hb.
  - apply Hop.
Qed.
End directions.

(** ** The operations *)

Definition add_actions (a : list action) (w : KVWorker) : KVWorker :=
  Build_KVWorker (num_layers w) (gpu_num_blocks w) (gpu_kv_caches w) (gpu_kv_cache_ptrs w)
    (block_stride w) (host_kv_caches w) (disk_kv_caches w) (actions w ++ a).

Lemma add_actions_app a b w : add_actions b (add_actions a w) = add_actions (a ++ b) w.
Proof. unfold add_actions. simpl. by rewrite <-app_assoc. Qed.

Lemma add_actions_nil w : add_actions [] w = w.
Proof. destruct w. unfold add_actions. simpl. by rewrite app_nil_r. Qed.

Lemma copies_add_actions src dst a w ops :
  copies src dst (add_actions a w) ops = add_actions a (copies src dst w ops).
Proof.
  unfold copies. revert w. induction ops as [|op ops IH]; intros w; [done|]. simpl.
  rewrite <-IH. f_equal. destruct op as [l e]. unfold copy_entry.
  assert (read_block (add_actions a w) src (src_block_id e) l
    = read_block w src (src_block_id e) l) as -> by (by destruct src).
  destruct (read_block _ _ _ _); [by destruct dst|done].
Qed.

Lemma like_add_actions a w w' : like w w' → like w (add_actions a w').
Proof. by intros [[] ?]. Qed.

Definition all_ops (layers : Z) (es : list BlockMappingEntry) : list (Z * BlockMappingEntry) :=
  concat ((λ l, layer_ops l es) <$> py_range 0 layers).

Lemma layers_loop (body : Z → M KVWorker unit) (pre post : Z → list action) src dst w es :
  store_wf w → Forall (valid_op w src dst) (all_ops (num_layers w) es) →
  (∀ l w', 0 ≤ l < num_layers w → like w w' → Forall (valid_op w src dst) (layer_ops l es) →
     body l w' = (Ok tt, add_actions (post l)
                           (copies src dst (add_actions (pre l) w') (layer_ops l es)))) →
  for_ (py_range 0 (num_layers w)) body w
  = (Ok tt, add_actions (concat ((λ l, pre l ++ post l) <$> py_range 0 (num_layers w)))
              (copies src dst w (all_ops (num_layers w) es))).
Proof.
  intros Hwf Hops Hbody.
  assert (∀ ls w', like w w' → (∀ l, l ∈ ls → l ∈ py_range 0 (num_layers w)) →
    for_ ls body w' = (Ok tt, add_actions (concat ((λ l, pre l ++ post l) <$> ls))
      (copies src dst w' (concat ((λ l, layer_ops l es) <$> ls))))) as Hgen.
  2:{ by apply Hgen; [apply like_refl|]. }
  induction ls as [|l ls IH]; intros w' Hw Hls; csimpl.
  - by rewrite add_actions_nil.
  - assert (l ∈ py_range 0 (num_layers w)) as Hl by (apply Hls; set_solver).
    assert (Forall (valid_op w src dst) (layer_ops l es)) as Hopl.
    { apply Forall_forall. intros op Hop. rewrite Forall_forall in Hops. apply Hops.
      apply elem_of_concat_fmap. by exists l. }
    rewrite (M_bind_Ok _ _ _ _ _ (Hbody l w' (proj1 (elem_of_py_range _ _ _) Hl) Hw Hopl)).
    rewrite IH.
    + rewrite !copies_add_actions, !add_actions_app, <-!app_assoc.
      unfold copies. by rewrite foldl_app.
    + apply like_add_actions, like_copies; [by apply like_add_actions|done].
    + set_solver.
Qed.

(** The actions of a copy, per layer. *)
Definition copy_actions (layers : Z) (src dst : Device) (ms : list BlockMapping)
    : list action :=
  match src, dst with
  | GPU, Host =>
      concat ((λ l, if 0 <? len ms then [GetKvQueue; WaitPost l] else [])
                <$> py_range 0 layers) ++ [Synchronize]
  | Host, GPU =>
      concat ((λ l, if 0 <? len ms then [RecordPre l; PutModelQueue] else [])
                <$> py_range 0 layers) ++ [Synchronize]
  | _, _ => []
  end.

Lemma no_mappings src dst w l ms :
  (0 <? len ms) = false → copies src dst w (layer_ops l (concat ms)) = w.
Proof. by destruct ms. Qed.

Lemma mapping_valid src dst w l ms m :
  m ∈ ms → Forall (valid_op w src dst) (layer_ops l (concat ms)) →
  Forall (valid_op w src dst) (layer_ops l m).
Proof.
  intros Hm Hops. rewrite !Forall_forall in *.
  intros op (e & -> & He)%list_elem_of_fmap. apply Hops, list_elem_of_fmap_2.
  rewrite <-(list_fmap_id ms). apply elem_of_concat_fmap. by exists m.
Qed.

Lemma log_eq a w : log a w = (Ok tt, add_actions [a] w).
Proof. done. Qed.

Section copy_ok.
Context (w : KVWorker) (ms : list BlockMapping) (Hwf : store_wf w).

Notation ops := (all_ops (num_layers w) (concat ms)).

Lemma save_to_host_Ok :
  Forall (valid_op w GPU Host) ops →
  save_kv_blocks_to_host ms w
  = (Ok tt, add_actions (copy_actions (num_layers w) GPU Host ms) (copies GPU Host w ops)).
Proof using Hwf.
  intros Hops. unfold save_kv_blocks_to_host. rewrite M_bind_eq. cbn [get_st].
  erewrite M_bind_Ok; [|apply (layers_loop _
    (λ l, if 0 <? len ms then [GetKvQueue; WaitPost l] else []) (λ _, []) GPU Host w
    (concat ms) Hwf Hops); intros l w' Hl Hw Hopl].
  - rewrite log_eq, add_actions_app. cbn [copy_actions]. do 4 f_equal.
    apply fmap_range_ext. intros. by rewrite app_nil_r.
  - rewrite add_actions_nil. destruct (0 <? len ms) eqn:E; simpl.
    + rewrite (M_bind_Ok _ _ _ _ _ (log_eq _ _)), (M_bind_Ok _ _ _ _ _ (log_eq _ _)),
        add_actions_app.
      apply (mappings_loop _ _ _ _ w); [|done|by apply like_add_actions].
      intros m w0 Hm Hw0. apply (save_layer_to_host w l Hl); [done|].
      by eapply mapping_valid.
    + by rewrite add_actions_nil, no_mappings.
Qed.

Lemma load_from_host_Ok :
  Forall (valid_op w Host GPU) ops →
  load_kv_blocks_from_host ms w
  = (Ok tt, add_actions (copy_actions (num_layers w) Host GPU ms) (copies Host GPU w ops)).
Proof using Hwf.
  intros Hops. unfold load_kv_blocks_from_host. rewrite M_bind_eq. cbn [get_st].
  erewrite M_bind_Ok; [|apply (layers_loop _ (λ _, [])
    (λ l, if 0 <? len ms then [RecordPre l; PutModelQueue] else []) Host GPU w
    (concat ms) Hwf Hops); intros l w' Hl Hw Hopl].
  - by rewrite log_eq, add_actions_app.
  - rewrite add_actions_nil. destruct (0 <? len ms) eqn:E; simpl.
    + rewrite (M_bind_Ok _ _ _ tt (copies Host GPU w' (layer_ops l (concat ms)))).
      * by rewrite (M_bind_Ok _ _ _ _ _ (log_eq _ _)), log_eq, add_actions_app.
      * apply (mappings_loop _ _ _ _ w); [|done|done].
        intros m w0 Hm Hw0. apply (load_layer_from_host w l Hl); [done|].
        by eapply mapping_valid.
    + by rewrite add_actions_nil, no_mappings.
Qed.

Lemma no_actions {A} (l : list A) : concat ((λ _, [] ++ []) <$> l) = ([] : list action).
Proof using. by induction l. Qed.

Lemma save_to_disk_Ok :
  Forall (valid_op w Host Disk) ops →
  save_kv_blocks_to_disk ms w = (Ok tt, copies Host Disk w ops).
Proof using Hwf.
  intros Hops. unfold save_kv_blocks_to_disk. rewrite M_bind_eq. cbn [get_st].
  rewrite (layers_loop _ (λ _, []) (λ _, []) Host Disk w (concat ms) Hwf Hops).
  - by rewrite no_actions, add_actions_nil.
  - intros l w' Hl Hw Hopl. rewrite !add_actions_nil. by apply (save_layer_to_disk w).
Qed.

Lemma load_from_disk_Ok :
  Forall (valid_op w Disk Host) ops →
  load_kv_blocks_from_disk ms w = (Ok tt, copies Disk Host w ops).
Proof using Hwf.
  intros Hops. unfold load_kv_blocks_from_disk. rewrite M_bind_eq. cbn [get_st].
  rewrite (layers_loop _ (λ _, []) (λ _, []) Disk Host w (concat ms) Hwf Hops).
  - by rewrite no_actions, add_actions_nil.
  - intros l w' Hl Hw Hopl. rewrite !add_actions_nil. by apply (load_layer_from_disk w).
Qed.

Lemma copy_kv_Ok src dst :
  COPY_KV_OP_MAP src dst ≠ None → Forall (valid_op w src dst) ops →
  copy_kv ms src dst w
  = (Ok tt, add_actions (copy_actions (num_layers w) src dst ms) (copies src dst w ops)).
Proof using Hwf.
  intros Hop Hops. unfold copy_kv. destruct src, dst; simpl in *; try done.
  - by apply save_to_host_Ok.
  - by apply load_from_host_Ok.
  - rewrite add_actions_nil. by apply save_to_disk_Ok.
  - rewrite add_actions_nil. by apply load_from_disk_Ok.
Qed.
End copy_ok.

(** ** What the entries of a request write *)

(** The source of the last entry whose destination is [b]. *)
Definition last_writer (es : list BlockMappingEntry) (b : Z) : option Z :=
  foldl (λ acc e, if decide (dst_block_id e = b) then Some (src_block_id e) else acc) None es.

Lemma last_source_all layers es b l :
  0 ≤ l < layers → last_source (all_ops layers es) b l = last_writer es b.
Proof.
  intros Hl. unfold last_source, all_ops.
  set (f := λ (acc : option Z) op, if decide (dst_block_id op.2 = b ∧ op.1 = l)
                                   then Some (src_block_id op.2) else acc).
  assert (∀ ls acc, l ∉ ls → foldl f acc (concat ((λ l, layer_ops l es) <$> ls)) = acc) as Hskip.
  { induction ls as [|k ls IH]; intros acc Hls; csimpl; [done|].
    rewrite foldl_app, IH by set_solver. unfold layer_ops. rewrite foldl_fmap.
    assert (∀ es acc, foldl (λ x y, f x (k, y)) acc es = acc) as Hid; [|apply Hid].
    induction es0 as [|e es0 IH']; intros acc'; simpl; [done|].
    rewrite IH'. unfold f. simpl. rewrite decide_False; [done|]. set_solver. }
  rewrite <-(py_range_app 0 l layers) by lia. rewrite (py_range_cons l) by lia.
  rewrite fmap_app, fmap_cons, concat_app. simpl. rewrite !foldl_app, !Hskip.
  - unfold layer_ops, last_writer. rewrite foldl_fmap. apply foldl_pointwise.
    intros acc e. unfold f. simpl. repeat case_decide; naive_solver.
  - rewrite elem_of_py_range. lia.
  - rewrite elem_of_py_range. lia.
Qed.

Lemma last_writer_unique es e :
  e ∈ es → NoDup (dst_block_id <$> es) → last_writer es (dst_block_id e) = Some (src_block_id e).
Proof.
  unfold last_writer. induction es as [|x es IH] using rev_ind; [by intros ?%not_elem_of_nil|].
  rewrite foldl_app, elem_of_app, fmap_app. simpl.
  intros Hin Hnd. apply NoDup_app in Hnd as (Hnd & Hdisj & _).
  destruct Hin as [Hin|Hin]; [|apply list_elem_of_singleton in Hin as ->].
  - rewrite decide_False; [by apply IH|]. intros E.
    apply (Hdisj (dst_block_id e)); [by apply list_elem_of_fmap_2|]. rewrite E. set_solver.
  - by rewrite decide_True.
Qed.

(** The entries of a request name blocks of the two devices. *)
Definition valid_request (w : KVWorker) (src dst : Device) (ms : list BlockMapping) : Prop :=
  ∀ e, e ∈ concat ms →
    0 ≤ src_block_id e < num_blocks w src ∧ 0 ≤ dst_block_id e < num_blocks w dst.

Lemma valid_request_ops w src dst ms :
  valid_request w src dst ms → Forall (valid_op w src dst) (all_ops (num_layers w) (concat ms)).
Proof.
  intros Hv. apply Forall_forall.
  intros op (l & Hl & Hop)%elem_of_concat_fmap. apply elem_of_py_range in Hl.
  apply list_elem_of_fmap in Hop as (e & -> & He).
  destruct (Hv e He). split; split; simpl; lia.
Qed.

(** ** Properties *)

Lemma copy_kv_blocks (w : KVWorker) ms src dst :
  store_wf w → COPY_KV_OP_MAP src dst ≠ None → valid_request w src dst ms →
  ∃ w', copy_kv ms src dst w = (Ok tt, w') ∧ store_wf w' ∧ same_shape w w' ∧
    ∀ d b l, 0 ≤ b < num_blocks w d → 0 ≤ l < num_layers w →
      read_block w' d b l
      = if decide (d = dst) then
          match last_writer (concat ms) b with
          | Some a => read_block w src a l
          | None => read_block w dst b l
          end
        else read_block w d b l.
Proof.
  intros Hwf Hop Hv. pose proof (valid_request_ops _ _ _ _ Hv) as Hops.
  rewrite copy_kv_Ok by done. eexists. split; [done|].
  assert (src ≠ dst) as Hne by (by destruct src, dst).
  destruct (copy_entries w src dst _ Hne Hwf Hops) as (Hwf' & Hsh & _ & Hread).
  unfold copies. split; [by destruct Hwf'|]. split; [by destruct Hsh|].
  intros d b l Hb Hl. rewrite <-(last_source_all (num_layers w) (concat ms) b l) by done.
  rewrite <-Hread by done. by destruct d.
Qed.

(** C11: a supported [copy_kv] copies, for every layer, exactly the named
    blocks: a destination block holds what its last entry's source block held, all
    other blocks of all devices keep their contents, and no size changes. *)
Theorem copy_kv_copies_blocks (w : KVWorker) ms src dst :
  store_wf w → COPY_KV_OP_MAP src dst ≠ None → valid_request w src dst ms →
  ∃ w', copy_kv ms src dst w = (Ok tt, w') ∧ store_wf w' ∧
    (∀ d, num_blocks w' d = num_blocks w d) ∧
    ∀ d b l, 0 ≤ b < num_blocks w d → 0 ≤ l < num_layers w →
      read_block w' d b l
      = if decide (d = dst) then
          match last_writer (concat ms) b with
          | Some a => read_block w src a l
          | None => read_block w dst b l
          end
        else read_block w d b l.
Proof.
  intros Hwf Hop Hv. destruct (copy_kv_blocks w ms src dst Hwf Hop Hv) as (w' & E & Hwf' & Hsh & Hread).
  exists w'. split; [exact E|]. split; [done|]. split; [apply Hsh|exact Hread].
Qed.

(** C20: saving blocks to the next tier and loading them back, possibly to
    other blocks and after the first tier has been overwritten, restores their
    contents; this holds for GPU and host, and for host and disk. *)
Theorem offload_restore (w w1 : KVWorker) src dst (trips : list (Z * Z * Z)) :
  COPY_KV_OP_MAP src dst ≠ None → COPY_KV_OP_MAP dst src ≠ None →
  store_wf w → store_wf w1 → same_shape w w1 →
  let saves := [(λ '(a, h, _), Build_BlockMappingEntry a h) <$> trips] in
  let loads := [(λ '(_, h, b), Build_BlockMappingEntry h b) <$> trips] in
  valid_request w src dst saves → valid_request w dst src loads →
  NoDup ((λ '(_, h, _), h) <$> trips) → NoDup ((λ '(_, _, b), b) <$> trips) →
  (∀ h l, 0 ≤ l < num_layers w →
     read_block w1 dst h l = read_block (copy_kv saves src dst w).2 dst h l) →
  ∀ a h b l, (a, h, b) ∈ trips → 0 ≤ l < num_layers w →
    read_block (copy_kv loads dst src w1).2 src b l = read_block w src a l.
Proof.
  intros Hop Hop' Hwf Hwf1 Hsh saves loads Hs Hld Hh Hb Hsaved a h b l Hin Hl.
  assert (valid_request w1 dst src loads) as Hld1.
  { intros e He. destruct Hsh as (_ & _ & HB). rewrite !HB. by apply Hld. }
  destruct (Hs (Build_BlockMappingEntry a h)) as [_ Hhb].
  { simpl. rewrite app_nil_r. by apply (list_elem_of_fmap_2 (λ '(a, h, _), _) _ (a, h, b)). }
  destruct (Hld (Build_BlockMappingEntry h b)) as [_ Hbb].
  { simpl. rewrite app_nil_r. by apply (list_elem_of_fmap_2 (λ '(_, h, b), _) _ (a, h, b)). }
  destruct (copy_kv_blocks w saves src dst Hwf Hop Hs) as (w' & E & _ & _ & Hread).
  destruct (copy_kv_blocks w1 loads dst src Hwf1 Hop' Hld1)
    as (w2 & -> & _ & _ & Hread2).
  destruct Hsh as (HL & _ & HB). simpl in *.
  rewrite Hread2 by (rewrite ?HB, ?HL; done). rewrite decide_True by done.
  rewrite app_nil_r in *.
  pose proof (last_writer_unique _ _ (list_elem_of_fmap_2 (λ '(_, h, b),
    Build_BlockMappingEntry h b) _ _ Hin)) as Ew. simpl in Ew. rewrite Ew; clear Ew.
  - simpl. rewrite Hsaved by done. rewrite E. simpl. rewrite Hread by done.
    rewrite decide_True by done.
    pose proof (last_writer_unique _ _ (list_elem_of_fmap_2 (λ '(a, h, _),
      Build_BlockMappingEntry a h) _ _ Hin)) as Ew. simpl in Ew. rewrite ?app_nil_r, Ew; [done|].
    rewrite <-list_fmap_compose. erewrite list_fmap_ext; [exact Hh|]. by intros ? [[]] ?.
  - rewrite <-list_fmap_compose. erewrite list_fmap_ext; [exact Hb|]. by intros ? [[]] ?.
Qed.

(** C21: the per-layer tasks of a disk copy may interleave in any way: the
    stores end up as if the layers had been copied one after the other. *)
Theorem disk_copies_interleave (w : KVWorker) ms src dst ops :
  src = Disk ∧ dst = Host ∨ src = Host ∧ dst = Disk →
  store_wf w → valid_request w src dst ms →
  interleaves ((λ l, layer_ops l (concat ms)) <$> py_range 0 (num_layers w)) ops →
  copy_kv ms src dst w = (Ok tt, copies src dst w ops).
Proof.
  intros Hdir Hwf Hv Hil. rewrite copy_kv_Ok by
    (done || by apply valid_request_ops || by destruct Hdir as [[-> ->]|[-> ->]]).
  assert (copy_actions (num_layers w) src dst ms = []) as ->
    by (by destruct Hdir as [[-> ->]|[-> ->]]).
  rewrite add_actions_nil. f_equal. symmetry.
  apply interleaves_sequential; [|done].
  intros i j li lj x y Hij Hi Hj Hx Hy s.
  rewrite list_lookup_fmap in Hi, Hj.
  apply fmap_Some in Hi as (l & Hl & ->). apply fmap_Some in Hj as (l' & Hl' & ->).
  assert (l ≠ l') as Hne.
  { intros ->. apply Hij. by eapply NoDup_lookup; [apply NoDup_py_range|..]. }
  apply list_elem_of_lookup_2, elem_of_py_range in Hl.
  apply list_elem_of_lookup_2, elem_of_py_range in Hl'.
  apply list_elem_of_fmap in Hx as (e & -> & _). apply list_elem_of_fmap in Hy as (e' & -> & _).
  destruct Hdir as [[-> ->]|[-> ->]]; simpl.
  - destruct (row_at _ (src_block_id e) l) eqn:E, (row_at _ (src_block_id e') l') eqn:E';
      simpl; rewrite ?E, ?E'; try done. unfold set_host; simpl. f_equal.
    apply set_row_commute; lia.
  - destruct (row_at _ (src_block_id e) l) eqn:E, (row_at _ (src_block_id e') l') eqn:E';
      simpl; rewrite ?E, ?E'; try done. unfold set_disk; simpl. f_equal.
    destruct (disk_kv_caches s); simpl; [|done]. f_equal. apply set_row_commute; lia.
Qed.

(** [memmap_disk_kv_cache] always yields an array file of the requested
    shape and type at the path: the contents of the file that was there when its
    shape and type agree, zeros when there was none, another one, or one that
    does not load; no other file changes. *)
Theorem memmap_disk_kv_cache_spec path stride shape dt (s : fs) :
  ∃ data s', memmap_disk_kv_cache path stride shape dt s = (Ok data, s') ∧
    s' !! path = Some (NpyFile shape dt data) ∧
    (∀ p, p ≠ path → s' !! p = s !! p) ∧
    (∀ old, s !! path = Some (NpyFile shape dt old) → data = old) ∧
    ((∀ old, s !! path ≠ Some (NpyFile shape dt old)) → data = zeros_array stride shape).
Proof.
  unfold memmap_disk_kv_cache.
  assert (∀ s1 : fs, (∀ p, p ≠ path → s1 !! p = s !! p) →
    (∀ old, s !! path ≠ Some (NpyFile shape dt old)) →
    ∃ data s', open_memmap path stride dt shape s1 = (Ok data, s') ∧
      s' !! path = Some (NpyFile shape dt data) ∧
      (∀ p, p ≠ path → s' !! p = s !! p) ∧
      (∀ old, s !! path = Some (NpyFile shape dt old) → data = old) ∧
      ((∀ old, s !! path ≠ Some (NpyFile shape dt old)) → data = zeros_array stride shape))
    as Hnew.
  { intros s1 Hs1 Hnot.
    exists (zeros_array stride shape),
      (<[path := NpyFile shape dt (zeros_array stride shape)]> s1).
    split; [done|]. rewrite lookup_insert_eq.
    split; [done|]. split; [|by naive_solver].
    intros p Hp. rewrite lookup_insert_ne by done. auto. }
  assert (∀ p, p ≠ path → delete path s !! p = s !! p) as Hdel
    by (intros; by rewrite lookup_delete_ne).
  destruct (s !! path) as [[shape' dt' data|]|] eqn:E.
  - rewrite bool_decide_true by eauto. unfold np_load. rewrite E.
    destruct (bool_decide (shape' ≠ shape) || bool_decide (dt' ≠ dt)) eqn:Eb.
    + rewrite M_bind_eq. simpl. apply Hnew; [done|].
      intros old [= -> -> _]. bool_prop. destruct Eb; bool_prop; done.
    + bool_prop. assert (shape' = shape) as -> by (by apply dec_stable).
      assert (dt' = dt) as -> by (by apply dec_stable).
      exists data, s. split; [done|]. rewrite E. naive_solver.
  - rewrite bool_decide_true by eauto. unfold np_load. rewrite E, M_bind_eq. simpl.
    by apply Hnew.
  - rewrite bool_decide_false by (by intros []). by apply Hnew.
Qed.

(** *** Witnesses: two layers, blocks of one byte per layer *)

Definition worker_2 : KVWorker := {|
  num_layers := 2; gpu_num_blocks := 3; gpu_kv_caches := [10; 11; 12; 20; 21; 22];
  gpu_kv_cache_ptrs := [0; 3]; block_stride := 1;
  host_kv_caches := [[[0]; [0]]; [[1]; [1]]]; disk_kv_caches := Some [[[7]; [8]]];
  actions := [] |}.

Lemma worker_2_wf : store_wf worker_2.
Proof. by split; try apply (bool_decide_unpack _); vm_compute. Qed.

(** The same worker after the GPU blocks have been reused. *)
Definition worker_2_reused : KVWorker :=
  set_gpu [0; 0; 0; 0; 0; 0]
    (set_host [[[0]; [0]]; [[11]; [21]]] worker_2).

Lemma worker_2_reused_wf : store_wf worker_2_reused.
Proof. by split; try apply (bool_decide_unpack _); vm_compute. Qed.

Lemma valid_request_dec w src dst ms :
  bool_decide (Forall (λ e, 0 ≤ src_block_id e < num_blocks w src ∧
                            0 ≤ dst_block_id e < num_blocks w dst) (concat ms)) = true →
  valid_request w src dst ms.
Proof. intros H%bool_decide_eq_true e He. by apply (proj1 (Forall_forall _ _) H). Qed.

Example copy_kv_copies_blocks_witness :
  ∃ w', copy_kv [[Build_BlockMappingEntry 1 0]; [Build_BlockMappingEntry 2 0]] GPU Host worker_2
        = (Ok tt, w') ∧
    read_block w' Host 0 1 = Some [22] ∧ read_block w' Host 1 1 = Some [1].
Proof.
  destruct (copy_kv_copies_blocks worker_2
    [[Build_BlockMappingEntry 1 0]; [Build_BlockMappingEntry 2 0]] GPU Host worker_2_wf)
    as (w' & E & _ & _ & Hread); [done|by apply valid_request_dec; vm_compute|].
  exists w'. split; [exact E|]. split; (etrans; [apply Hread; simpl; unfold len; simpl; lia|]);
    by vm_compute.
Defined.

Example offload_restore_witness :
  read_block (copy_kv [[Build_BlockMappingEntry 1 2]] Host GPU worker_2_reused).2 GPU 2 1
  = Some [21].
Proof.
  etrans; [apply (offload_restore worker_2 worker_2_reused GPU Host [(1, 1, 2)]) with (a := 1) (h := 1)
    |by vm_compute].
  - done.
  - done.
  - exact worker_2_wf.
  - exact worker_2_reused_wf.
  - by repeat split.
  - by apply valid_request_dec; vm_compute.
  - by apply valid_request_dec; vm_compute.
  - by apply (bool_decide_unpack _); vm_compute.
  - by apply (bool_decide_unpack _); vm_compute.
  - intros h l Hl. reflexivity.
  - by apply list_elem_of_singleton.
  - simpl. lia.
Defined.

Example disk_copies_interleave_witness :
  copy_kv [[Build_BlockMappingEntry 0 1]] Disk Host worker_2
  = (Ok tt, copies Disk Host worker_2
              [(1, Build_BlockMappingEntry 0 1); (0, Build_BlockMappingEntry 0 1)]).
Proof.
  apply disk_copies_interleave.
  - by left.
  - exact worker_2_wf.
  - by apply valid_request_dec; vm_compute.
  - apply (interleaves_cons _ 1 _ []); [done|]. apply (interleaves_cons _ 0 _ []); [done|].
    apply interleaves_nil. by repeat constructor.
Defined.
