(* ===== verification/KVSafety.v ===== *)
(** * The store stays well formed

    The type invariant of the KV worker: whatever block ids a request has, valid or
    not, and whether the copy returns or raises half way, [copy_kv] leaves a
    well-formed store of the same shape and touches no tier but its destination. *)
From S2P Require Import Prelude Tensor FlashInfer ModelWorker Concurrency KVStore KVCopies.

#[local] Opaque py_range.

(** ** Accesses at any index *)

Lemma py_get_elem {A} (l : list A) i x : py_get l i = Ok x → x ∈ l.
Proof.
  unfold py_get. generalize (if i <? 0 then i + len l else i). intros j H.
  destruct (j <? 0); [done|]. destruct (l !! Z.to_nat j) as [y|] eqn:E; [|done].
  injection H as ->. by eapply list_elem_of_lookup_2.
Qed.

Lemma py_set_kept {A} (P : A → Prop) (l l' : list A) i x :
  py_set l i x = Ok l' → Forall P l → P x → Forall P l' ∧ len l' = len l.
Proof.
  unfold py_set. generalize (if i <? 0 then i + len l else i). intros j H Hl Hx.
  destruct ((j <? 0) || (len l <=? j)); [done|]. injection H as <-. split.
  - by apply Forall_insert.
  - unfold len. by rewrite length_insert.
Qed.

Section rows.
Context (layers s : Z) (h : list (list (list Z))) (Hwf : caches_wf layers s h).

Lemma row_get_len b l r : row_get h b l = Ok r → len r = s.
Proof using Hwf.
  unfold row_get. intros (blk & Hb%py_get_elem & Hr%py_get_elem)%bind_Ok.
  unfold caches_wf in Hwf. rewrite Forall_forall in Hwf. destruct (Hwf _ Hb) as [_ Hrows].
  rewrite Forall_forall in Hrows. auto.
Qed.

Lemma row_set_kept b l r h' :
  row_set h b l r = Ok h' → len r = s → caches_wf layers s h' ∧ len h' = len h.
Proof using Hwf.
  unfold row_set. intros (blk & Hb%py_get_elem & (blk' & Hset & Hset')%bind_Ok)%bind_Ok Hr.
  eapply py_set_kept; [exact Hset'|done|]. unfold caches_wf in Hwf. rewrite Forall_forall in Hwf.
  destruct (Hwf _ Hb) as [<- Hrows]. by destruct (py_set_kept (λ r, len r = s) _ _ _ _ Hset Hrows Hr).
Qed.
End rows.

Lemma mem_write_len mem addr bytes mem' : mem_write mem addr bytes = Ok mem' → len mem' = len mem.
Proof.
  unfold mem_write. destruct (_ && _) eqn:E; [|done]. intros [= <-].
  apply andb_prop in E as [Ha%Z.leb_le Hb%Z.leb_le]. pose proof (len_nonneg bytes).
  rewrite !len_app, !len_py_slice by lia. lia.
Qed.
Lemma mem_read_len mem addr n r : 0 ≤ n → mem_read mem addr n = Ok r → len r = n.
Proof.
  unfold mem_read. intros Hn. destruct (_ && _) eqn:E; [|done]. intros [= <-].
  apply andb_prop in E as [Ha%Z.leb_le Hb%Z.leb_le]. rewrite len_py_slice by lia. lia.
Qed.

(** ** The invariant *)

(** A well-formed store like [w0] whose tiers other than [dst] are those of [w0]. *)
Record kept (w0 : KVWorker) (dst : Device) (w : KVWorker) : Prop := {
  kp_wf : store_wf w;
  kp_shape : same_shape w0 w;
  kp_gpu : dst ≠ GPU → gpu_kv_caches w = gpu_kv_caches w0;
  kp_host : dst ≠ Host → host_kv_caches w = host_kv_caches w0;
  kp_disk : dst ≠ Disk → disk_kv_caches w = disk_kv_caches w0;
}.

(** A computation that keeps [P] on both exits. *)
Definition keeps {S A} (P : S → Prop) (m : M S A) : Prop := ∀ s, P s → P (m s).2.

Lemma keeps_bind {S A B} (P : S → Prop) (m : M S A) (k : A → M S B) :
  keeps P m → (∀ x, keeps P (k x)) → keeps P (m ≫= k).
Proof.
  intros Hm Hk s Hs. rewrite M_bind_eq. pose proof (Hm s Hs) as Hs'.
  destruct (m s) as [[x|e] s']; [by apply Hk|done].
Qed.
Lemma keeps_st {S B} (P : S → Prop) (k : S → M S B) :
  (∀ s, P s → P (k s s).2) → keeps P (s ← get_st; k s).
Proof. intros Hk s Hs. by apply Hk. Qed.
Lemma lift_step {S A B} (P : S → Prop) (r : res A) (k : A → M S B) s :
  P s → (∀ x, r = Ok x → P (k x s).2) → P ((x ← lift r; k x) s).2.
Proof. intros Hs Hk. rewrite M_bind_eq. unfold lift. destruct r; [by apply Hk|done]. Qed.
Lemma keeps_for {S A} (P : S → Prop) (l : list A) (body : A → M S unit) :
  (∀ x, keeps P (body x)) → keeps P (for_ l body).
Proof. intros Hb s Hs. apply for_inv; [|done]. intros. by apply Hb. Qed.

Section kept.
Context (w0 : KVWorker).

Lemma kept_gpu w g : kept w0 GPU w → len g = len (gpu_kv_caches w) → kept w0 GPU (set_gpu g w).
Proof. intros [[] Hs ? ? ?] Hg. split; try done. by split; simpl; try congruence. Qed.
Lemma kept_host w h :
  kept w0 Host w → caches_wf (num_layers w) (block_stride w) h → len h = len (host_kv_caches w) →
  kept w0 Host (set_host h w).
Proof.
  intros [[] (H1 & H2 & H3) ? ? ?] Hh Hl. split; [by split| |done..].
  split_and!; [done..|]. intros d. rewrite <-(H3 d). by destruct d.
Qed.
Lemma kept_disk w d d' :
  kept w0 Disk w → disk_kv_caches w = Some d → caches_wf (num_layers w) (block_stride w) d' →
  len d' = len d → kept w0 Disk (set_disk (Some d') w).
Proof.
  intros [[] (H1 & H2 & H3) ? ? ?] Hd Hwf Hl. split; [by split| |done..].
  split_and!; [done..|]. intros dev. rewrite <-(H3 dev). destruct dev; try done. simpl. by rewrite Hd.
Qed.
Lemma keeps_log dst a : keeps (kept w0 dst) (log a).
Proof. intros w [[] Hs ? ? ?]. by split. Qed.

Lemma load_layer_from_host_keeps ms l : keeps (kept w0 GPU) (_load_layer_kv_blocks_from_host ms l).
Proof.
  apply keeps_bind; [apply keeps_st; intros w Hw; exact Hw|]. intros base. apply keeps_for. intros e.
  apply keeps_st. intros w Hw. apply lift_step; [done|]. intros src Hsrc.
  apply lift_step; [done|]. intros g Hg%mem_write_len. by apply kept_gpu.
Qed.
Lemma save_layer_to_host_keeps ms l : keeps (kept w0 Host) (_save_layer_kv_blocks_to_host ms l).
Proof.
  apply keeps_bind; [apply keeps_st; intros w Hw; exact Hw|]. intros base. apply keeps_for. intros e.
  apply keeps_st. intros w Hw. pose proof (wf_host _ (kp_wf _ _ _ Hw)) as Hh.
  apply lift_step; [done|]. intros dst Hdst%(row_get_len _ _ _ Hh).
  apply lift_step; [done|]. intros bytes Hb%mem_read_len; [|apply len_nonneg].
  apply lift_step; [done|]. intros h Hset. rewrite Hdst in Hb.
  destruct (row_set_kept _ _ _ Hh _ _ _ _ Hset Hb). by apply kept_host.
Qed.
Lemma load_layer_from_disk_keeps ms l : keeps (kept w0 Host) (_load_layer_kv_blocks_from_disk ms l).
Proof.
  apply keeps_for. intros m. apply keeps_for. intros e. apply keeps_st. intros w Hw.
  pose proof (wf_host _ (kp_wf _ _ _ Hw)) as Hh. pose proof (wf_disk _ (kp_wf _ _ _ Hw)) as Hdisk.
  apply lift_step; [done|]. intros d Hd. unfold the_disk in Hd.
  destruct (disk_kv_caches w) as [d'|]; [|done]. injection Hd as ->. simpl in Hdisk.
  apply lift_step; [done|]. intros src Hsrc%(row_get_len _ _ _ Hdisk).
  apply lift_step; [done|]. intros h Hset.
  destruct (row_set_kept _ _ _ Hh _ _ _ _ Hset Hsrc). by apply kept_host.
Qed.
Lemma save_layer_to_disk_keeps ms l : keeps (kept w0 Disk) (_save_layer_kv_blocks_to_disk ms l).
Proof.
  apply keeps_for. intros m. apply keeps_for. intros e. apply keeps_st. intros w Hw.
  pose proof (wf_host _ (kp_wf _ _ _ Hw)) as Hh. pose proof (wf_disk _ (kp_wf _ _ _ Hw)) as Hdisk.
  apply lift_step; [done|]. intros src Hsrc%(row_get_len _ _ _ Hh).
  apply lift_step; [done|]. intros d Hd. unfold the_disk in Hd.
  destruct (disk_kv_caches w) as [d'|] eqn:E; [|done]. injection Hd as ->. simpl in Hdisk.
  apply lift_step; [done|]. intros d2 Hset.
  destruct (row_set_kept _ _ _ Hdisk _ _ _ _ Hset Hsrc). by eapply kept_disk.
Qed.

(** The operations of the table keep the invariant for their destination. *)
Lemma op_keeps src dst op ms :
  COPY_KV_OP_MAP src dst = Some op → keeps (kept w0 dst) (op ms).
Proof.
  intros Hop. destruct src, dst; try discriminate; injection Hop as <-.
  - unfold save_kv_blocks_to_host. apply keeps_st. intros w Hw. revert w Hw.
    intros w. generalize (num_layers w). intros n. revert w.
    apply keeps_bind; [|intros; apply keeps_log]. apply keeps_for. intros l.
    unfold when. destruct (0 <? len ms); [|by intros w].
    apply keeps_bind; [apply keeps_log|intros _]. apply keeps_bind; [apply keeps_log|intros _].
    apply keeps_for. intros m. apply save_layer_to_host_keeps.
  - unfold load_kv_blocks_from_host. apply keeps_st. intros w Hw. revert w Hw.
    intros w. generalize (num_layers w). intros n. revert w.
    apply keeps_bind; [|intros; apply keeps_log]. apply keeps_for. intros l.
    unfold when. destruct (0 <? len ms); [|by intros w].
    apply keeps_bind; [apply keeps_for; intros m; apply load_layer_from_host_keeps|intros _].
    apply keeps_bind; [apply keeps_log|intros _]. apply keeps_log.
  - apply keeps_st. intros w Hw. apply keeps_for; [|done]. apply save_layer_to_disk_keeps.
  - apply keeps_st. intros w Hw. apply keeps_for; [|done]. apply load_layer_from_disk_keeps.
Qed.
End kept.

(** ** The theorem *)

(** C19: the type invariant of the KV worker.  For every request, its block ids
    valid, negative or out of range, and every direction, [copy_kv] leaves a
    well-formed store of the same shape, on return and when it raises in the middle
    of the copy; no tier but the destination has changed.  The five directions
    that are not served raise [ValueError] and change nothing. *)
Theorem copy_kv_keeps_store (w : KVWorker) ms src dst :
  store_wf w →
  let '(r, w') := copy_kv ms src dst w in
  kept w dst w' ∧
  ((src, dst) ∈ [(GPU, GPU); (GPU, Disk); (Host, Host); (Disk, GPU); (Disk, Disk)] →
   r = Raise ValueError ∧ w' = w).
Proof.
  intros Hwf. assert (kept w dst w) as Hk by (split; try done; by repeat split).
  pose proof (λ op, op_keeps w src dst op ms) as Hop. unfold copy_kv.
  destruct (COPY_KV_OP_MAP src dst) as [op|] eqn:E; simpl; [|done].
  specialize (Hop op eq_refl w Hk). destruct (op ms w) as [r w']. split; [exact Hop|].
  intros Hin. destruct src, dst; set_solver.
Qed.

(** A request that fails at its second block: the first one is copied. *)
Example copy_kv_keeps_store_witness :
  let m := [[Build_BlockMappingEntry 1 0; Build_BlockMappingEntry 0 9]] in
  let w := (copy_kv m GPU Host worker_2).2 in
  (copy_kv m GPU Host worker_2).1 = Raise IndexError ∧ read_block w Host 0 0 = Some [11] ∧
  store_wf w ∧ gpu_kv_caches w = gpu_kv_caches worker_2.
Proof.
  intros m w. pose proof (copy_kv_keeps_store worker_2 m GPU Host worker_2_wf) as H.
  unfold w. destruct (copy_kv m GPU Host worker_2) as [r w'] eqn:E.
  destruct H as [[Hwf _ Hg _ _] _]. vm_compute in E. injection E as <- <-.
  split_and!; [done|done|exact Hwf|by apply Hg].
Defined.
