(* ===== verification/KVPipeline.v ===== *)
(** * The pipeline between the model and the KV worker

    During one forward pass three threads of control work layer by layer: the
    loader ([load_kv_blocks_from_host] of [kv_worker.py]), the model with the hooks
    that [ModelWorker.init_cache] registers on its attention layers
    ([model_worker.py]), and the saver ([save_kv_blocks_to_host]).  They launch
    operations on three CUDA streams, which run them in order, and synchronize by
    events and by two queues of dummy values.

    An event wait captures the last record launched when it is called; a wait for
    an event that has no record of this pass returns at once.  Each of the steps
    below is one call of the code or one operation run by a stream. *)
From S2P Require Import Prelude.
From stdpp Require Import relations.
Open Scope nat_scope.

(** ** Streams *)

Inductive stream_op :=
  | LoadCopy (layer mapping : nat)
  | RecordPre (layer : nat)
  | WaitPre (layer : nat) (captured : option nat)
  | Kernel (layer : nat)
  | RecordPost (layer : nat)
  | WaitPost (layer : nat) (captured : option nat)
  | SaveCopy (layer mapping : nat).

#[export] Instance stream_op_eq_dec : EqDecision stream_op.
Proof. solve_decision. Defined.

(** What a wait for the event recorded by [e] captures: the number of
    operations of the recording stream up to the last record. *)
Fixpoint last_record (e : stream_op) (ops : list stream_op) : option nat :=
  match ops with
  | [] => None
  | op :: ops =>
      match last_record e ops with
      | Some n => Some (S n)
      | None => if decide (op = e) then Some 1 else None
      end
  end.

(** Whether a stream may run an operation when [done] operations of the stream
    it waits for have run. *)
Definition ready (op : stream_op) (done : nat) : Prop :=
  match op with
  | WaitPre _ (Some n) | WaitPost _ (Some n) => n ≤ done
  | _ => True
  end.

(** ** Threads *)

(** A pass over [num_layers] layers, with [loads] mappings to load and [saves]
    mappings to save; [wait] and [record] are [enable_wait_before_execute] and
    [enable_record_after_execute]. *)
Record pass := {
  num_layers : nat;
  loads : nat;
  saves : nat;
  wait : bool;
  record : bool;
}.

(** What the model does at a layer: the pre-hook, the kernels, the post-hook. *)
Inductive model_op := GetModelQueue | LaunchWait | LaunchKernel | LaunchRecord | PutKvQueue.

#[export] Instance model_op_eq_dec : EqDecision model_op.
Proof. solve_decision. Defined.

Definition model_layer (p : pass) : list model_op :=
  (if wait p then [GetModelQueue; LaunchWait] else [])
  ++ [LaunchKernel]
  ++ (if record p then [LaunchRecord; PutKvQueue] else []).

Record state := {
  l_layer : nat; l_step : nat;         (* the loader's position *)
  m_layer : nat; m_step : nat;         (* the model's *)
  s_layer : nat; s_step : nat;         (* the saver's *)
  model_queue : nat; kv_queue : nat;   (* dummy values in the queues *)
  htod : list stream_op; htod_done : nat;
  compute : list stream_op; compute_done : nat;
  dtoh : list stream_op; dtoh_done : nat;
}.

(** With nothing to load or save the loops over the layers do nothing. *)
Definition init (p : pass) : state := {|
  l_layer := if decide (loads p = 0) then num_layers p else 0; l_step := 0;
  m_layer := 0; m_step := 0;
  s_layer := if decide (saves p = 0) then num_layers p else 0; s_step := 0;
  model_queue := 0; kv_queue := 0;
  htod := []; htod_done := 0; compute := []; compute_done := 0;
  dtoh := []; dtoh_done := 0 |}.

Definition with_loader (st : state) (layer step queue : nat) (ops : list stream_op) : state :=
  Build_state layer step (m_layer st) (m_step st) (s_layer st) (s_step st)
    queue (kv_queue st) ops (htod_done st) (compute st) (compute_done st)
    (dtoh st) (dtoh_done st).
Definition with_model (st : state) (layer step mqueue kqueue : nat) (ops : list stream_op)
    : state :=
  Build_state (l_layer st) (l_step st) layer step (s_layer st) (s_step st)
    mqueue kqueue (htod st) (htod_done st) ops (compute_done st) (dtoh st) (dtoh_done st).
Definition with_saver (st : state) (layer step queue : nat) (ops : list stream_op) : state :=
  Build_state (l_layer st) (l_step st) (m_layer st) (m_step st) layer step
    (model_queue st) queue (htod st) (htod_done st) (compute st) (compute_done st)
    ops (dtoh_done st).
Definition with_done (st : state) (h c d : nat) : state :=
  Build_state (l_layer st) (l_step st) (m_layer st) (m_step st) (s_layer st) (s_step st)
    (model_queue st) (kv_queue st) (htod st) h (compute st) c (dtoh st) d.

(** The next position of the model. *)
Definition model_next (p : pass) (st : state) : nat * nat :=
  if decide (S (m_step st) < length (model_layer p))
  then (m_layer st, S (m_step st)) else (S (m_layer st), 0).

Inductive step (p : pass) (st : state) : state → Prop :=
  (* for layer_idx: for block_mapping: _load_layer_kv_blocks_from_host(...) *)
  | step_load :
      l_layer st < num_layers p → l_step st < loads p →
      step p st (with_loader st (l_layer st) (S (l_step st)) (model_queue st)
                   (htod st ++ [LoadCopy (l_layer st) (l_step st)]))
  (* pre_events[layer_idx].record(stream) *)
  | step_record_pre :
      l_layer st < num_layers p → l_step st = loads p →
      step p st (with_loader st (l_layer st) (S (l_step st)) (model_queue st)
                   (htod st ++ [RecordPre (l_layer st)]))
  (* model_queue.put(b"") *)
  | step_put_model :
      l_layer st < num_layers p → l_step st = S (loads p) →
      step p st (with_loader st (S (l_layer st)) 0 (S (model_queue st)) (htod st))
  (* the pre-hook: model_queue.get() *)
  | step_get_model n :
      m_layer st < num_layers p → model_layer p !! m_step st = Some GetModelQueue →
      model_queue st = S n →
      step p st (with_model st (model_next p st).1 (model_next p st).2 n (kv_queue st)
                   (compute st))
  (* cuda_stream.wait_for_event(pre_events[i]) *)
  | step_wait_pre :
      m_layer st < num_layers p → model_layer p !! m_step st = Some LaunchWait →
      step p st (with_model st (model_next p st).1 (model_next p st).2
                   (model_queue st) (kv_queue st)
                   (compute st ++ [WaitPre (m_layer st)
                                     (last_record (RecordPre (m_layer st)) (htod st))]))
  (* the layer itself *)
  | step_kernel :
      m_layer st < num_layers p → model_layer p !! m_step st = Some LaunchKernel →
      step p st (with_model st (model_next p st).1 (model_next p st).2
                   (model_queue st) (kv_queue st) (compute st ++ [Kernel (m_layer st)]))
  (* the post-hook: post_events[i].record(cuda_stream) *)
  | step_record_post :
      m_layer st < num_layers p → model_layer p !! m_step st = Some LaunchRecord →
      step p st (with_model st (model_next p st).1 (model_next p st).2
                   (model_queue st) (kv_queue st) (compute st ++ [RecordPost (m_layer st)]))
  (* kv_queue.put(b"") *)
  | step_put_kv :
      m_layer st < num_layers p → model_layer p !! m_step st = Some PutKvQueue →
      step p st (with_model st (model_next p st).1 (model_next p st).2
                   (model_queue st) (S (kv_queue st)) (compute st))
  (* while kv_queue.empty(): sleep; kv_queue.get() *)
  | step_get_kv n :
      s_layer st < num_layers p → s_step st = 0 → kv_queue st = S n →
      step p st (with_saver st (s_layer st) 1 n (dtoh st))
  (* stream.wait_for_event(post_events[layer_idx]) *)
  | step_wait_post :
      s_layer st < num_layers p → s_step st = 1 →
      step p st (with_saver st (s_layer st) 2 (kv_queue st)
                   (dtoh st ++ [WaitPost (s_layer st)
                                  (last_record (RecordPost (s_layer st)) (compute st))]))
  (* _save_layer_kv_blocks_to_host(...); the last mapping ends the layer *)
  | step_save m :
      s_layer st < num_layers p → s_step st = S (S m) → m < saves p →
      step p st (with_saver st
                   (if decide (S m < saves p) then s_layer st else S (s_layer st))
                   (if decide (S m < saves p) then S (s_step st) else 0) (kv_queue st)
                   (dtoh st ++ [SaveCopy (s_layer st) m]))
  (* the streams *)
  | step_htod op :
      htod st !! htod_done st = Some op →
      step p st (with_done st (S (htod_done st)) (compute_done st) (dtoh_done st))
  | step_compute op :
      compute st !! compute_done st = Some op → ready op (htod_done st) →
      step p st (with_done st (htod_done st) (S (compute_done st)) (dtoh_done st))
  | step_dtoh op :
      dtoh st !! dtoh_done st = Some op → ready op (compute_done st) →
      step p st (with_done st (htod_done st) (compute_done st) (S (dtoh_done st))).

Definition reachable (p : pass) : state → Prop := rtc (step p) (init p).

(** Everything launched and run. *)
Definition final (p : pass) (st : state) : Prop :=
  l_layer st = num_layers p ∧ m_layer st = num_layers p ∧ s_layer st = num_layers p ∧
  htod_done st = length (htod st) ∧ compute_done st = length (compute st) ∧
  dtoh_done st = length (dtoh st).

(** ** The last record *)

Lemma last_record_app e a b :
  last_record e (a ++ b) = match last_record e b with
                           | Some n => Some (length a + n) | None => last_record e a end.
Proof.
  induction a as [|x a IH]; simpl; [by destruct (last_record e b)|].
  rewrite IH. by destruct (last_record e b).
Qed.

Lemma last_record_None e ops : e ∉ ops → last_record e ops = None.
Proof.
  induction ops as [|x ops IH]; intros He; simpl; [done|].
  rewrite IH by set_solver. rewrite decide_False; [done|set_solver].
Qed.

(** ** Lists launched layer by layer *)

Section layered.
Context (f : nat → list stream_op) (z : nat) (Hz : ∀ l, length (f l) = z).

(** The operations of the first [n] layers and [k] operations of layer [n]. *)
Definition upto (n k : nat) : list stream_op := concat (f <$> seq 0 n) ++ take k (f n).

Lemma upto_snoc n k op : f n !! k = Some op → upto n k ++ [op] = upto n (S k).
Proof using. intros Hk. unfold upto. by rewrite (take_S_r _ _ _ Hk), app_assoc. Qed.

Lemma upto_next n : upto n z = upto (S n) 0.
Proof using Hz.
  unfold upto. rewrite seq_S, fmap_app, concat_app. csimpl.
  rewrite <-(Hz n), firstn_all, !app_nil_r. done.
Qed.

Lemma length_layers n : length (concat (f <$> seq 0 n)) = z * n.
Proof using Hz.
  induction n as [|n IH]; [simpl; lia|].
  rewrite seq_S, fmap_app, concat_app, length_app, IH. csimpl. rewrite app_nil_r, Hz. lia.
Qed.

Lemma length_upto n k : k ≤ z → length (upto n k) = z * n + k.
Proof using Hz.
  intros Hk. unfold upto. rewrite length_app, length_layers, length_take, Hz. lia.
Qed.

Lemma lookup_layers n l r op :
  r < z → concat (f <$> seq 0 n) !! (z * l + r) = Some op → f l !! r = Some op ∧ l < n.
Proof using Hz.
  intros Hr. induction n as [|n IH]; [done|].
  rewrite seq_S, fmap_app, concat_app. csimpl. rewrite app_nil_r.
  intros Hop. apply lookup_app_Some in Hop as [Hop|[Hlen Hop]].
  - destruct (IH Hop). split; [done|lia].
  - rewrite length_layers in Hlen, Hop. apply lookup_lt_Some in Hop as Hlt. rewrite Hz in Hlt.
    assert (l = n) as -> by nia. replace (z * n + r - z * n) with r in Hop by lia.
    split; [done|lia].
Qed.

Lemma lookup_upto n k l r op :
  r < z → upto n k !! (z * l + r) = Some op → f l !! r = Some op.
Proof using Hz.
  intros Hr. unfold upto. intros Hop. apply lookup_app_Some in Hop as [Hop|[Hlen Hop]].
  - by apply (lookup_layers n) in Hop as [? _].
  - rewrite length_layers in Hlen, Hop. apply lookup_take_Some in Hop as [Hop _].
    apply lookup_lt_Some in Hop as Hlt. rewrite Hz in Hlt.
    assert (l = n) as -> by nia. by replace (z * n + r - z * n) with r in Hop by lia.
Qed.

Lemma lookup_upto_layer n k l r op :
  l < n → f l !! r = Some op → upto n k !! (z * l + r) = Some op.
Proof using Hz.
  intros Hl Hop. unfold upto. apply lookup_app_l_Some.
  induction n as [|n IH]; [lia|].
  rewrite seq_S, fmap_app, concat_app. csimpl. rewrite app_nil_r.
  destruct (decide (l = n)) as [->|Hne].
  - rewrite lookup_app_r by (rewrite length_layers; lia). rewrite length_layers.
    by replace (z * n + r - z * n) with r by lia.
  - apply lookup_app_l_Some, IH. lia.
Qed.

Lemma last_record_upto (e : nat → stream_op) n k l :
  (∀ l', last_record (e l') (f l') = Some z) → (∀ l' l'', e l' ∈ f l'' → l' = l'') →
  l < n → last_record (e l) (upto n k) = Some (z * S l).
Proof using Hz.
  intros Hin Hout Hl. unfold upto. rewrite last_record_app, (last_record_None _ (take k (f n))).
  2:{ intros He. apply elem_of_take in He as (i & Hi & _). apply list_elem_of_lookup_2 in Hi.
      apply Hout in Hi. lia. }
  induction n as [|n IH]; [lia|].
  rewrite seq_S, fmap_app, concat_app, last_record_app. csimpl. rewrite app_nil_r.
  destruct (decide (l = n)) as [->|Hne].
  - rewrite Hin, length_layers. f_equal. lia.
  - rewrite last_record_None; [apply IH; lia|]. intros He%Hout. lia.
Qed.
End layered.

(** ** The invariant *)

Section invariant.
Context (p : pass).

Definition h_layer (l : nat) : list stream_op :=
  (LoadCopy l <$> seq 0 (loads p)) ++ [RecordPre l].
Definition c_layer (l : nat) : list stream_op :=
  (if wait p then [WaitPre l (Some (S (loads p) * S l))] else [])
  ++ [Kernel l] ++ (if record p then [RecordPost l] else []).
Definition c_size : nat := (if wait p then 1 else 0) + 1 + (if record p then 1 else 0).
Definition d_layer (l : nat) : list stream_op :=
  WaitPost l (Some (c_size * S l)) :: (SaveCopy l <$> seq 0 (saves p)).

Lemma length_h_layer l : length (h_layer l) = S (loads p).
Proof. unfold h_layer. rewrite length_app, length_fmap, length_seq. simpl. lia. Qed.
Lemma length_c_layer l : length (c_layer l) = c_size.
Proof. unfold c_layer, c_size. by destruct (wait p), (record p). Qed.
Lemma length_d_layer l : length (d_layer l) = S (saves p).
Proof. unfold d_layer. simpl. by rewrite length_fmap, length_seq. Qed.

Lemma h_layer_record l : h_layer l !! loads p = Some (RecordPre l).
Proof.
  unfold h_layer. rewrite lookup_app_r; rewrite length_fmap, length_seq; [|lia].
  by rewrite Nat.sub_diag.
Qed.
Lemma h_layer_load l m : m < loads p → h_layer l !! m = Some (LoadCopy l m).
Proof.
  intros Hm. unfold h_layer. apply lookup_app_l_Some.
  rewrite list_lookup_fmap, lookup_seq_lt by done. done.
Qed.
Lemma d_layer_save l m : m < saves p → d_layer l !! S m = Some (SaveCopy l m).
Proof. intros Hm. simpl. rewrite list_lookup_fmap, lookup_seq_lt by done. done. Qed.

(** The records of a layer. *)
Lemma last_record_pre n k l :
  l < n → last_record (RecordPre l) (upto h_layer n k) = Some (S (loads p) * S l).
Proof.
  apply (last_record_upto h_layer (S (loads p)) length_h_layer RecordPre).
  - intros l'. unfold h_layer. rewrite last_record_app. simpl. rewrite decide_True by done.
    rewrite length_fmap, length_seq. f_equal. lia.
  - intros l' l''. unfold h_layer. rewrite elem_of_app, list_elem_of_singleton.
    intros [(m & ? & _)%list_elem_of_fmap|[= ->]]; done.
Qed.

Lemma last_record_post n k l :
  record p = true → l < n →
  last_record (RecordPost l) (upto c_layer n k) = Some (c_size * S l).
Proof.
  intros Hr. apply (last_record_upto c_layer c_size length_c_layer RecordPost).
  - intros l'. unfold c_layer, c_size. rewrite Hr.
    destruct (wait p); simpl; by rewrite !decide_True by done.
  - intros l' l''. unfold c_layer. destruct (wait p), (record p); set_solver.
Qed.

(** How many operations the first [k] calls of the model at a layer launch. *)
Definition launched (k : nat) : nat :=
  length (filter (λ o, o = LaunchWait ∨ o = LaunchKernel ∨ o = LaunchRecord)
            (take k (model_layer p))).

(** The layers the loader, respectively the saver, has completed. *)
Definition loaded (st : state) : nat := if decide (loads p = 0) then 0 else l_layer st.
Definition saved (st : state) : nat := if decide (saves p = 0) then 0 else s_layer st.

Record inv (st : state) : Prop := {
  inv_l : l_layer st ≤ num_layers p ∧ l_step st ≤ S (loads p);
  inv_l0 : loads p = 0 ∨ l_layer st = num_layers p → l_step st = 0;
  inv_l1 : loads p = 0 → l_layer st = num_layers p;
  inv_m : m_layer st ≤ num_layers p ∧ m_step st < length (model_layer p);
  inv_m0 : m_layer st = num_layers p → m_step st = 0;
  inv_s : s_layer st ≤ num_layers p ∧ s_step st ≤ S (saves p);
  inv_s0 : saves p = 0 ∨ s_layer st = num_layers p → s_step st = 0;
  inv_s1 : saves p = 0 → s_layer st = num_layers p;
  inv_model_queue :
    model_queue st + (if wait p then m_layer st + (if decide (m_step st = 0) then 0 else 1) else 0)
    = loaded st;
  inv_kv_queue :
    kv_queue st + (saved st + (if decide (s_step st = 0) then 0 else 1))
    = (if record p then m_layer st else 0);
  inv_htod : htod st = upto h_layer (loaded st) (l_step st);
  inv_compute : compute st = upto c_layer (m_layer st) (launched (m_step st));
  inv_dtoh : dtoh st = upto d_layer (saved st) (s_step st - 1);
  inv_htod_done : htod_done st ≤ length (htod st);
  inv_compute_done : compute_done st ≤ length (compute st);
  inv_dtoh_done : dtoh_done st ≤ length (dtoh st);
  inv_waited_pre : wait p = true → ∀ l, c_size * l < compute_done st →
    S (loads p) * S l ≤ htod_done st;
  inv_waited_post : ∀ l, S (saves p) * l < dtoh_done st → c_size * S l ≤ compute_done st;
}.

Lemma inv_init : inv (init p).
Proof.
  split; unfold init, loaded, saved; simpl; try lia; repeat case_decide; try lia; try done.
  - unfold model_layer. destruct (wait p), (record p); simpl; lia.
  - by destruct (wait p).
  - by destruct (wait p).
  - by destruct (record p).
  - by destruct (record p).
Qed.

Lemma c_size_pos : 0 < c_size.
Proof. unfold c_size. lia. Qed.

(** The three positions of the model that launch an operation. *)
Lemma launched_all : launched (length (model_layer p)) = c_size.
Proof. unfold launched, c_size, model_layer. by destruct (wait p), (record p). Qed.

Lemma launched_S k o :
  model_layer p !! k = Some o →
  launched (S k) = launched k + (if decide (o = LaunchWait ∨ o = LaunchKernel ∨ o = LaunchRecord)
                                 then 1 else 0).
Proof.
  intros Hk. unfold launched. rewrite (take_S_r _ _ _ Hk), filter_app, length_app, filter_cons.
  by case_decide.
Qed.

(** The model's list after its next call, which launches [ops]. *)
Lemma compute_next st o ops :
  inv st → m_layer st < num_layers p → model_layer p !! m_step st = Some o →
  (if decide (o = LaunchWait ∨ o = LaunchKernel ∨ o = LaunchRecord)
   then ∃ op, ops = [op] ∧ c_layer (m_layer st) !! launched (m_step st) = Some op
   else ops = []) →
  compute st ++ ops = upto c_layer (model_next p st).1 (launched (model_next p st).2).
Proof.
  intros Hinv Hm Ho Hops. rewrite (inv_compute _ Hinv).
  assert (upto c_layer (m_layer st) (launched (m_step st)) ++ ops
    = upto c_layer (m_layer st) (launched (S (m_step st)))) as ->.
  { rewrite (launched_S _ _ Ho). case_decide.
    - destruct Hops as (op & -> & Hop). rewrite Nat.add_1_r. by apply upto_snoc.
    - by rewrite Hops, app_nil_r, Nat.add_0_r. }
  unfold model_next. apply lookup_lt_Some in Ho. destruct (decide (S (m_step st) < length (model_layer p))) as [Hnext|Hnext]; [done|]. simpl.
  replace (S (m_step st)) with (length (model_layer p)) by lia.
  rewrite launched_all. change (launched 0) with 0.
  apply upto_next, length_c_layer.
Qed.

(** Where the model is in its layer decides what the next call does. *)
Lemma model_cases k o :
  model_layer p !! k = Some o →
  (o = GetModelQueue ↔ wait p = true ∧ k = 0) ∧
  (o = PutKvQueue ↔ record p = true ∧ S k = length (model_layer p)) ∧
  (wait p = true → length (model_layer p) ≥ 3).
Proof.
  unfold model_layer. destruct (wait p), (record p); simpl;
    (destruct k as [|[|[|[|[|k]]]]]; simpl; intros ?; simplify_eq); naive_solver lia.
Qed.

Lemma inv_model st o ops mq kq :
  inv st → m_layer st < num_layers p → model_layer p !! m_step st = Some o →
  (if decide (o = LaunchWait ∨ o = LaunchKernel ∨ o = LaunchRecord)
   then ∃ op, ops = [op] ∧ c_layer (m_layer st) !! launched (m_step st) = Some op
   else ops = []) →
  model_queue st = (if decide (o = GetModelQueue) then S mq else mq) →
  kq = (if decide (o = PutKvQueue) then S (kv_queue st) else kv_queue st) →
  inv (with_model st (model_next p st).1 (model_next p st).2 mq kq (compute st ++ ops)).
Proof.
  intros Hinv Hm Ho Hops Hmq ->. pose proof (compute_next st o ops Hinv Hm Ho Hops) as Hc.
  pose proof (lookup_lt_Some _ _ _ Ho) as Hlt.
  destruct (model_cases _ _ Ho) as (Hget & Hput & Hlen).
  destruct Hinv as [HL HL0 HL1 HM HM0 HS HS0 HS1 Hq Hk Hh Hcc Hd Hhd Hcd Hdd Hwpre Hwpost].
  unfold model_next in *.
  destruct (decide (S (m_step st) < length (model_layer p))) as [Hnext|Hnext]; split; simpl in *;
    unfold loaded, saved in *; simpl in *; try done; try lia.
  - destruct (wait p); [|case_decide; naive_solver].
    destruct (decide (m_step st = 0)), (decide (o = GetModelQueue)); naive_solver lia.
  - destruct (decide (o = PutKvQueue)); [|done]. naive_solver lia.
  - rewrite length_app. lia.
  - destruct (wait p); [|case_decide; naive_solver].
    destruct (decide (m_step st = 0)), (decide (o = GetModelQueue)); naive_solver lia.
  - destruct (record p), (decide (o = PutKvQueue)); naive_solver lia.
  - rewrite length_app. lia.
Qed.

(** The model's wait captures the loader's record of the layer. *)
Lemma wait_op st :
  inv st → model_layer p !! m_step st = Some LaunchWait →
  c_layer (m_layer st) !! launched (m_step st)
  = Some (WaitPre (m_layer st) (last_record (RecordPre (m_layer st)) (htod st))).
Proof.
  intros Hinv Ho. pose proof (inv_model_queue _ Hinv) as Hq. rewrite (inv_htod _ Hinv).
  assert (wait p = true ∧ m_step st = 1) as [Hw Hs].
  { revert Ho. unfold model_layer. destruct (wait p), (record p), (m_step st) as [|[|[|[|[|k]]]]];
      simpl; intros ?; simplify_eq; done. }
  rewrite Hw, Hs in *. simpl in Hq. rewrite last_record_pre by lia.
  unfold launched, model_layer, c_layer. by rewrite Hw.
Qed.

Lemma kernel_op st :
  model_layer p !! m_step st = Some LaunchKernel →
  c_layer (m_layer st) !! launched (m_step st) = Some (Kernel (m_layer st)).
Proof.
  unfold launched, model_layer, c_layer.
  destruct (wait p), (record p), (m_step st) as [|[|[|[|[|k]]]]]; simpl; intros ?; simplify_eq; done.
Qed.

Lemma record_op st :
  model_layer p !! m_step st = Some LaunchRecord →
  c_layer (m_layer st) !! launched (m_step st) = Some (RecordPost (m_layer st)).
Proof.
  unfold launched, model_layer, c_layer.
  destruct (wait p), (record p), (m_step st) as [|[|[|[|[|k]]]]]; simpl; intros ?; simplify_eq; done.
Qed.

(** The saver's wait captures the model's record of the layer. *)
Lemma wait_post_captures st :
  inv st → s_layer st < num_layers p → s_step st = 1 →
  last_record (RecordPost (s_layer st)) (compute st) = Some (c_size * S (s_layer st)).
Proof.
  intros Hinv Hs H1. pose proof (inv_kv_queue _ Hinv) as Hk. rewrite (inv_compute _ Hinv).
  assert (saves p ≠ 0) by (intros E; pose proof (inv_s1 _ Hinv E); lia).
  unfold saved in Hk. rewrite decide_False in Hk by done. rewrite H1 in Hk. simpl in Hk.
  destruct (record p) eqn:Er; [|lia]. apply last_record_post; [done|lia].
Qed.

Lemma inv_loader st layer step queue ops :
  inv st →
  layer ≤ num_layers p → step ≤ S (loads p) → (layer = num_layers p → step = 0) →
  loads p ≠ 0 →
  queue + l_layer st = model_queue st + layer →
  (htod st ++ ops = upto h_layer layer step) →
  inv (with_loader st layer step queue (htod st ++ ops)).
Proof.
  intros [HL HL0 HL1 HM HM0 HS HS0 HS1 Hq Hk Hh Hcc Hd Hhd Hcd Hdd Hwpre Hwpost]
    Hla Hst Hend Hne Hqueue Hops.
  unfold loaded in *. rewrite decide_False in * by done.
  split; simpl; unfold loaded; simpl; rewrite ?(decide_False (P := loads p = 0)) by done; try done; try lia;
    try (intros [?|?]; by auto).
  rewrite length_app. lia.
Qed.

Lemma inv_saver st layer step queue ops :
  inv st →
  layer ≤ num_layers p → step ≤ S (saves p) → (layer = num_layers p → step = 0) →
  saves p ≠ 0 →
  queue + (layer + (if decide (step = 0) then 0 else 1))
  = kv_queue st + (s_layer st + (if decide (s_step st = 0) then 0 else 1)) →
  (dtoh st ++ ops = upto d_layer layer (step - 1)) →
  inv (with_saver st layer step queue (dtoh st ++ ops)).
Proof.
  intros [HL HL0 HL1 HM HM0 HS HS0 HS1 Hq Hk Hh Hcc Hd Hhd Hcd Hdd Hwpre Hwpost]
    Hla Hst Hend Hne Hqueue Hops.
  unfold saved in *. rewrite decide_False in * by done.
  split; simpl; unfold saved; simpl; rewrite ?(decide_False (P := saves p = 0)) by done; try done; try lia;
    try (intros [?|?]; by auto).
  rewrite length_app. lia.
Qed.

Lemma inv_streams st h c d :
  inv st → htod_done st ≤ h ≤ length (htod st) → compute_done st ≤ c ≤ length (compute st) →
  d ≤ length (dtoh st) →
  (wait p = true → ∀ l, c_size * l < c → S (loads p) * S l ≤ h) →
  (∀ l, S (saves p) * l < d → c_size * S l ≤ c) →
  inv (with_done st h c d).
Proof.
  intros [HL HL0 HL1 HM HM0 HS HS0 HS1 Hq Hk Hh Hcc Hd Hhd Hcd Hdd Hwpre Hwpost].
  intros. split; simpl; try done; try lia.
Qed.

Lemma inv_step st st' : inv st → step p st st' → inv st'.
Proof.
  intros Hinv Hstep. pose proof (inv_l _ Hinv). pose proof (inv_s _ Hinv).
  assert (l_layer st < num_layers p → loads p ≠ 0) as Hloads
    by (intros ? E; pose proof (inv_l1 _ Hinv E); lia).
  assert (s_layer st < num_layers p → saves p ≠ 0) as Hsaves
    by (intros ? E; pose proof (inv_s1 _ Hinv E); lia).
  assert (l_layer st < num_layers p → htod st = upto h_layer (l_layer st) (l_step st)) as Hh.
  { intros Hl. rewrite (inv_htod _ Hinv). unfold loaded. by rewrite decide_False by auto. }
  assert (s_layer st < num_layers p → dtoh st = upto d_layer (s_layer st) (s_step st - 1)) as Hd.
  { intros Hl. rewrite (inv_dtoh _ Hinv). unfold saved. by rewrite decide_False by auto. }
  destruct Hstep as [Hl Hs|Hl Hs|Hl Hs|n Hl Ho Hq|Hl Ho|Hl Ho|Hl Ho|Hl Ho|n Hl Hs Hq|Hl Hs|m Hl Hs Hm
    |op Hop|op Hop Hr|op Hop Hr].
  - apply inv_loader; auto; try lia. rewrite Hh by done. by apply upto_snoc, h_layer_load.
  - apply inv_loader; auto; try lia. rewrite Hh, Hs by done. apply upto_snoc, h_layer_record.
  - rewrite <-(app_nil_r (htod st)). apply inv_loader; auto; try lia.
    rewrite app_nil_r, Hh, Hs by done. apply upto_next, length_h_layer.
  - rewrite <-(app_nil_r (compute st)). by apply inv_model with (o := GetModelQueue).
  - apply inv_model with (o := LaunchWait); [done..| |done|done].
    rewrite decide_True by auto. eexists. split; [done|]. by apply wait_op.
  - apply inv_model with (o := LaunchKernel); [done..| |done|done].
    rewrite decide_True by auto. eexists. split; [done|]. by apply kernel_op.
  - apply inv_model with (o := LaunchRecord); [done..| |done|done].
    rewrite decide_True by auto. eexists. split; [done|]. by apply record_op.
  - rewrite <-(app_nil_r (compute st)). by apply inv_model with (o := PutKvQueue).
  - rewrite <-(app_nil_r (dtoh st)). apply inv_saver; auto; try lia.
    + rewrite Hs. simpl. lia.
    + rewrite app_nil_r, Hd, Hs by done. done.
  - apply inv_saver; auto; try lia.
    + rewrite Hs. done.
    + rewrite Hd, Hs, wait_post_captures by done. by apply upto_snoc.
  - specialize (Hsaves Hl). apply inv_saver; auto; try (case_decide; lia).
    + rewrite Hs. repeat case_decide; lia.
    + rewrite Hd, Hs by done. replace (S (S m) - 1) with (S m) by lia.
      rewrite (upto_snoc _ _ (S m) _ (d_layer_save _ _ Hm)).
      case_decide; [done|]. replace (S (S m)) with (S (saves p)) by lia.
      apply upto_next, length_d_layer.
  - pose proof (lookup_lt_Some _ _ _ Hop). pose proof (inv_waited_pre _ Hinv) as Hw.
    apply inv_streams; [done|lia|split; [done|apply Hinv]|apply Hinv| |apply Hinv].
    intros Hwait l Hc. specialize (Hw Hwait l Hc). lia.
  - pose proof (lookup_lt_Some _ _ _ Hop). pose proof (inv_waited_pre _ Hinv) as Hw.
    pose proof (inv_waited_post _ Hinv) as Hw'.
    apply inv_streams; [done|split; [done|apply Hinv]|lia|apply Hinv| |].
    + intros Hwait l Hc. destruct (decide (c_size * l < compute_done st)) as [Hc'|Hc'].
      * by apply Hw.
      * assert (compute_done st = c_size * l + 0) as E by lia. rewrite E in Hop.
        rewrite (inv_compute _ Hinv) in Hop.
        apply (lookup_upto c_layer c_size length_c_layer) in Hop; [|apply c_size_pos].
        unfold c_layer in Hop. rewrite Hwait in Hop. simpl in Hop. injection Hop as <-. apply Hr.
    + intros l Hc. specialize (Hw' l Hc). lia.
  - pose proof (lookup_lt_Some _ _ _ Hop). pose proof (inv_waited_post _ Hinv) as Hw.
    apply inv_streams; [done|split; [done|apply Hinv]|split; [done|apply Hinv]|lia|apply Hinv|].
    intros l Hc. destruct (decide (S (saves p) * l < dtoh_done st)) as [Hc'|Hc'].
    + by apply Hw.
    + assert (dtoh_done st = S (saves p) * l + 0) as E by lia. rewrite E in Hop.
      rewrite (inv_dtoh _ Hinv) in Hop.
      apply (lookup_upto d_layer (S (saves p)) length_d_layer) in Hop; [|lia].
      simpl in Hop. injection Hop as <-. apply Hr.
Qed.

Lemma inv_reachable st : reachable p st → inv st.
Proof.
  intros Hr. assert (∀ st0, inv st0 → rtc (step p) st0 st → inv st) as Hgen.
  { intros st0 H0 Hsteps. induction Hsteps; eauto using inv_step. }
  eapply Hgen; [apply inv_init|exact Hr].
Qed.
End invariant.

(** ** Properties *)

Section lookup.
Context (f : nat → list stream_op) (z : nat) (Hz : ∀ l, length (f l) = z).

(** Operation [r] of layer [l] is in place once the list is long enough. *)
Lemma upto_lookup_lt n k l r :
  r < z → z * l + r < length (upto f n k) → upto f n k !! (z * l + r) = f l !! r.
Proof using Hz.
  intros Hr Hlt. destruct (lookup_lt_is_Some_2 _ _ Hlt) as [op Hop].
  rewrite Hop. symmetry. by eapply lookup_upto.
Qed.

Lemma elem_of_take_upto n k d op :
  0 < z → op ∈ take d (upto f n k) → ∃ l r, r < z ∧ z * l + r < d ∧ f l !! r = Some op.
Proof using Hz.
  intros Hpos (i & Hi & Hlt)%elem_of_take.
  exists (i / z), (i mod z). pose proof (Nat.div_mod_eq i z) as E.
  pose proof (Nat.mod_upper_bound i z ltac:(lia)).
  split; [done|]. split; [lia|]. eapply lookup_upto with (n := n); [done|done|]. by rewrite <-E.
Qed.
End lookup.


(** The flags of the request agree with the transfers that are started. *)
Definition flags_agree (p : pass) : Prop :=
  (wait p = true ↔ loads p ≠ 0) ∧ (record p = true ↔ saves p ≠ 0).

Section progress.
Context (p : pass).

Lemma launched_bounds k :
  k < length (model_layer p) → launched p k ≤ c_size p ∧ (k = 0 → launched p k = 0).
Proof.
  unfold launched, model_layer, c_size. destruct (wait p), (record p);
    (destruct k as [|[|[|[|[|k]]]]]; simpl; intros ?; try lia; (split; [vm_compute; lia|done])).
Qed.

Lemma loaded_length st : inv p st → S (loads p) * loaded p st ≤ length (htod st).
Proof.
  intros Hinv. rewrite (inv_htod _ _ Hinv), (length_upto _ _ (length_h_layer p)); [lia|].
  apply Hinv.
Qed.

(** A wait that was launched waits for operations that were launched. *)
Lemma captured_pre st l n :
  inv p st → WaitPre l (Some n) ∈ compute st → n ≤ length (htod st).
Proof.
  intros Hinv (i & Hi)%list_elem_of_lookup. pose proof (lookup_lt_Some _ _ _ Hi) as Hlt.
  pose proof (inv_m _ _ Hinv) as [_ Hms]. destruct (launched_bounds _ Hms) as [Hla Hl0].
  pose proof (inv_model_queue _ _ Hinv) as Hq. pose proof (loaded_length _ Hinv).
  rewrite (inv_compute _ _ Hinv) in Hi, Hlt. rewrite (length_upto _ _ (length_c_layer p)) in Hlt by done.
  assert (WaitPre l (Some n) ∈ take (S i) (upto (c_layer p) (m_layer st) (launched p (m_step st))))
    as Hin by (apply elem_of_take; exists i; split; [done|lia]).
  apply (elem_of_take_upto _ _ (length_c_layer p)) in Hin as (l' & r & Hr & Hir & Hop);
    [|apply c_size_pos].
  apply list_elem_of_lookup_2 in Hop.
  assert (wait p = true ∧ l = l' ∧ n = S (loads p) * S l') as (Hw & -> & ->).
  { revert Hop. unfold c_layer. destruct (wait p), (record p); set_solver. }
  rewrite Hw in Hq. assert (S l' ≤ loaded p st); [|nia].
  destruct (decide (m_step st = 0)) as [E|E]; [rewrite Hl0 in Hlt by done|]; nia.
Qed.

Lemma captured_post st l n :
  inv p st → WaitPost l (Some n) ∈ dtoh st → n ≤ length (compute st).
Proof.
  intros Hinv (i & Hi)%list_elem_of_lookup. pose proof (lookup_lt_Some _ _ _ Hi) as Hlt.
  pose proof (inv_m _ _ Hinv) as [_ Hms]. destruct (launched_bounds _ Hms) as [Hla _].
  pose proof (inv_s _ _ Hinv) as [_ Hss]. pose proof (inv_kv_queue _ _ Hinv) as Hq.
  rewrite (inv_compute _ _ Hinv), (length_upto _ _ (length_c_layer p)) by done.
  rewrite (inv_dtoh _ _ Hinv) in Hi, Hlt. rewrite (length_upto _ _ (length_d_layer p)) in Hlt by lia.
  assert (WaitPost l (Some n) ∈ take (S i) (upto (d_layer p) (saved p st) (s_step st - 1)))
    as Hin by (apply elem_of_take; exists i; split; [done|lia]).
  apply (elem_of_take_upto _ _ (length_d_layer p)) in Hin as (l' & r & Hr & Hir & Hop); [|lia].
  apply list_elem_of_lookup_2 in Hop.
  assert (l = l' ∧ n = c_size p * S l') as [-> ->].
  { revert Hop. unfold d_layer. rewrite elem_of_cons. intros [[= -> ->]|Hop]; [done|].
    by apply list_elem_of_fmap in Hop as (? & ? & _). }
  assert (S l' ≤ m_layer st); [|nia].
  destruct (record p), (decide (s_step st = 0)); nia.
Qed.

Lemma progress st :
  (wait p = true → loads p ≠ 0) → (saves p ≠ 0 → record p = true) →
  inv p st → final p st ∨ ∃ st', step p st st'.
Proof.
  intros Hw Hs Hinv. pose proof (inv_l _ _ Hinv) as [Hl1 Hl2]. pose proof (inv_s _ _ Hinv) as [Hs1 Hs2].
  pose proof (inv_m _ _ Hinv) as [Hm1 Hm2].
  destruct (htod st !! htod_done st) as [op|] eqn:Eh; [right; eexists; by eapply step_htod|].
  apply lookup_ge_None_1 in Eh. pose proof (inv_htod_done _ _ Hinv).
  destruct (decide (l_layer st < num_layers p)) as [Hl|Hl].
  { right. destruct (decide (l_step st < loads p)); [eexists; by apply step_load|].
    destruct (decide (l_step st = loads p)); [eexists; by apply step_record_pre|].
    eexists. apply step_put_model; lia. }
  destruct (compute st !! compute_done st) as [op|] eqn:Ec.
  { right. eexists. eapply step_compute; [done|]. apply list_elem_of_lookup_2 in Ec.
    destruct op as [| |l [n|]| | |l [n|]|]; try done.
    - simpl. pose proof (captured_pre _ _ _ Hinv Ec). lia.
    - rewrite (inv_compute _ _ Hinv) in Ec. exfalso. apply list_elem_of_lookup in Ec as (i & Hi).
      assert (WaitPost l (Some n) ∈ take (S i) (upto (c_layer p) (m_layer st) (launched p (m_step st))))
        as Hin by (apply elem_of_take; exists i; split; [done|lia]).
      apply (elem_of_take_upto _ _ (length_c_layer p)) in Hin as (l' & r & _ & _ & Hop);
        [|apply c_size_pos].
      apply list_elem_of_lookup_2 in Hop. revert Hop. unfold c_layer.
      destruct (wait p), (record p); set_solver. }
  apply lookup_ge_None_1 in Ec. pose proof (inv_compute_done _ _ Hinv).
  destruct (decide (m_layer st < num_layers p)) as [Hm|Hm].
  { right. destruct (lookup_lt_is_Some_2 _ _ Hm2) as [o Ho].
    destruct (model_cases _ _ _ Ho) as (Hget & _). destruct o; eauto using step.
    destruct (proj1 Hget eq_refl) as [Hwt Hms]. pose proof (inv_model_queue _ _ Hinv) as Hq.
    rewrite Hwt, Hms in Hq. unfold loaded in Hq.
    rewrite (decide_False (P := loads p = 0)) in Hq by auto. simpl in Hq.
    destruct (model_queue st) as [|n] eqn:Eq; [lia|]. eexists. by eapply step_get_model. }
  destruct (dtoh st !! dtoh_done st) as [op|] eqn:Ed.
  { right. eexists. eapply step_dtoh; [done|]. apply list_elem_of_lookup_2 in Ed.
    destruct op as [| |l [n|]| | |l [n|]|]; try done; simpl.
    - rewrite (inv_dtoh _ _ Hinv) in Ed. exfalso. apply list_elem_of_lookup in Ed as (i & Hi).
      assert (WaitPre l (Some n) ∈ take (S i) (upto (d_layer p) (saved p st) (s_step st - 1)))
        as Hin by (apply elem_of_take; exists i; split; [done|lia]).
      apply (elem_of_take_upto _ _ (length_d_layer p)) in Hin as (l' & r & _ & _ & Hop); [|lia].
      apply list_elem_of_lookup_2 in Hop. revert Hop. unfold d_layer. rewrite elem_of_cons.
      intros [[=]|Hop]. by apply list_elem_of_fmap in Hop as (? & ? & _).
    - pose proof (captured_post _ _ _ Hinv Ed). lia. }
  apply lookup_ge_None_1 in Ed. pose proof (inv_dtoh_done _ _ Hinv).
  destruct (decide (s_layer st < num_layers p)) as [Hsl|Hsl].
  { right. assert (saves p ≠ 0) as Hne by (intros E; pose proof (inv_s1 _ _ Hinv E); lia).
    pose proof (inv_kv_queue _ _ Hinv) as Hk. rewrite (Hs Hne) in Hk. unfold saved in Hk.
    rewrite decide_False in Hk by done.
    destruct (s_step st) as [|[|m]] eqn:Es.
    - simpl in Hk. destruct (kv_queue st) as [|n] eqn:Eq; [lia|]. eexists. by eapply step_get_kv.
    - eexists. by apply step_wait_post.
    - eexists. apply (step_save _ _ m); [done..|lia]. }
  left. split_and!; lia.
Qed.

(** Every step does one unit of work. *)
Definition work (st : state) : nat :=
  S (S (loads p)) * l_layer st + l_step st + length (model_layer p) * m_layer st + m_step st
  + S (S (saves p)) * s_layer st + s_step st + htod_done st + compute_done st + dtoh_done st.

Lemma work_model st mq kq ops :
  m_step st < length (model_layer p) →
  work (with_model st (model_next p st).1 (model_next p st).2 mq kq ops) = S (work st).
Proof. intros Hm. unfold work, model_next. case_decide; simpl; nia. Qed.

Lemma work_step st st' : inv p st → step p st st' → work st' = S (work st).
Proof.
  intros Hinv Hstep. pose proof (inv_m _ _ Hinv) as [_ Hms].
  destruct Hstep; try (by apply work_model); unfold work; simpl; repeat case_decide; nia.
Qed.

Lemma work_nsteps n st : nsteps (step p) n (init p) st → work st = work (init p) + n.
Proof.
  intros Hn. assert (∀ st0, inv p st0 → nsteps (step p) n st0 st → work st = work st0 + n) as Hgen.
  { clear Hn. induction n as [|n IH]; intros st0 Hinv Hn; inversion Hn as [|? ? y ? Hst Hn']; subst; [lia|].
    rewrite (IH y); [|by eapply inv_step|done]. rewrite (work_step _ _ Hinv Hst). lia. }
  apply Hgen; [apply inv_init|done].
Qed.

(** The number of steps of a whole pass. *)
Definition total_work : nat :=
  num_layers p *
  ((if decide (loads p = 0) then 0 else S (loads p) + S (S (loads p)))
   + (length (model_layer p) + c_size p)
   + (if decide (saves p = 0) then 0 else S (saves p) + S (S (saves p)))).

Lemma layer_work a b n x k j d :
  x ≤ n → k ≤ a → j ≤ b → (x = n → k = 0 ∧ j = 0) → d ≤ b * x + j →
  a * x + k + d ≤ n * (a + b).
Proof.
  intros Hx Hk Hj Hend Hd. destruct (decide (x = n)) as [->|]; [lia|].
  assert (a * S x ≤ a * n) by (apply Nat.mul_le_mono_l; lia).
  assert (b * S x ≤ b * n) by (apply Nat.mul_le_mono_l; lia). lia.
Qed.

Lemma work_bound st : inv p st → work st ≤ work (init p) + total_work.
Proof.
  intros Hinv. pose proof (inv_l _ _ Hinv) as [Hl1 Hl2]. pose proof (inv_s _ _ Hinv) as [Hs1 Hs2].
  pose proof (inv_m _ _ Hinv) as [Hm1 Hm2]. destruct (launched_bounds _ Hm2) as [Hla Hl0].
  pose proof (inv_l0 _ _ Hinv) as Hl0'. pose proof (inv_s0 _ _ Hinv) as Hs0'.
  pose proof (inv_m0 _ _ Hinv) as Hm0'.
  pose proof (inv_l1 _ _ Hinv) as Hl1'. pose proof (inv_s1 _ _ Hinv) as Hs1'.
  pose proof (inv_htod_done _ _ Hinv) as Hh. rewrite (inv_htod _ _ Hinv) in Hh.
  rewrite (length_upto _ _ (length_h_layer p)) in Hh by lia.
  pose proof (inv_compute_done _ _ Hinv) as Hc. rewrite (inv_compute _ _ Hinv) in Hc.
  rewrite (length_upto _ _ (length_c_layer p)) in Hc by lia.
  pose proof (inv_dtoh_done _ _ Hinv) as Hd. rewrite (inv_dtoh _ _ Hinv) in Hd.
  rewrite (length_upto _ _ (length_d_layer p)) in Hd by lia.
  unfold loaded, saved in *.
  assert (length (model_layer p) * m_layer st + m_step st + compute_done st
    ≤ num_layers p * (length (model_layer p) + c_size p)) as HM
    by (apply (layer_work _ _ _ _ _ (launched p (m_step st))); naive_solver lia).
  assert (S (S (loads p)) * l_layer st + l_step st + htod_done st
    ≤ S (S (loads p)) * (if decide (loads p = 0) then num_layers p else 0)
      + num_layers p * (if decide (loads p = 0) then 0 else S (loads p) + S (S (loads p)))) as HL.
  { destruct (decide (loads p = 0)) as [E|E].
    - rewrite (Hl1' E), (Hl0' (or_introl E)) in *. lia.
    - rewrite (Nat.add_comm (S (loads p))).
      pose proof (layer_work (S (S (loads p))) (S (loads p)) (num_layers p) (l_layer st) (l_step st)
        (l_step st) (htod_done st)). naive_solver lia. }
  assert (S (S (saves p)) * s_layer st + s_step st + dtoh_done st
    ≤ S (S (saves p)) * (if decide (saves p = 0) then num_layers p else 0)
      + num_layers p * (if decide (saves p = 0) then 0 else S (saves p) + S (S (saves p)))) as HS.
  { destruct (decide (saves p = 0)) as [E|E].
    - rewrite (Hs1' E), (Hs0' (or_introl E)) in *. lia.
    - rewrite (Nat.add_comm (S (saves p))).
      pose proof (layer_work (S (S (saves p))) (S (saves p)) (num_layers p) (s_layer st) (s_step st)
        (s_step st - 1) (dtoh_done st)). naive_solver lia. }
  unfold work, total_work, init. cbn [l_layer l_step m_layer m_step s_layer s_step htod_done
    compute_done dtoh_done]. clear -HM HL HS. rewrite !Nat.mul_add_distr_l in *. lia.
Qed.

Lemma work_final st : inv p st → final p st → work st = work (init p) + total_work.
Proof.
  intros Hinv (El & Em & Es & Eh & Ec & Ed). unfold work.
  rewrite Eh, Ec, Ed, (inv_htod _ _ Hinv), (inv_compute _ _ Hinv), (inv_dtoh _ _ Hinv).
  rewrite (inv_l0 _ _ Hinv), (inv_m0 _ _ Hinv), (inv_s0 _ _ Hinv) by auto.
  replace (launched p 0) with 0 by done.
  rewrite (length_upto _ _ (length_h_layer p)), (length_upto _ _ (length_c_layer p)),
    (length_upto _ _ (length_d_layer p)) by lia.
  unfold total_work, loaded, saved, init.
  cbn [l_layer l_step m_layer m_step s_layer s_step htod_done compute_done dtoh_done].
  rewrite El, Em, Es. replace (0 - 1) with 0 by done.
  destruct (decide (loads p = 0)) as [->|], (decide (saves p = 0)) as [->|]; lia.
Qed.

Lemma completes st :
  (wait p = true → loads p ≠ 0) → (saves p ≠ 0 → record p = true) →
  inv p st → ∃ st', rtc (step p) st st' ∧ final p st'.
Proof.
  intros Hw Hs. remember (work (init p) + total_work - work st) as k eqn:Ek.
  revert st Ek. induction k as [k IH] using lt_wf_ind. intros st -> Hinv.
  destruct (progress st Hw Hs Hinv) as [Hf|[st' Hst]]; [by exists st; split; [apply rtc_refl|]|].
  pose proof (inv_step _ _ _ Hinv Hst) as Hinv'. pose proof (work_bound _ Hinv').
  pose proof (work_step _ _ Hinv Hst).
  destruct (IH (work (init p) + total_work - work st') ltac:(lia) st' eq_refl Hinv')
    as (st'' & Hr & Hf).
  exists st''. split; [by eapply rtc_l|done].
Qed.
End progress.

(** C16: when the flags agree with the transfers, a pass never blocks and always
    ends: wherever the threads and the streams stand, they can finish, a run takes
    at most [total_work] steps, one that cannot go on has finished, and a
    finished pass leaves both queues empty for the next one. *)
Theorem pipeline_completes p st n :
  flags_agree p → nsteps (step p) n (init p) st →
  (∃ st', rtc (step p) st st' ∧ final p st') ∧
  n ≤ total_work p ∧
  ((¬ ∃ st', step p st st') → final p st) ∧
  (final p st → n = total_work p ∧ model_queue st = 0 ∧ kv_queue st = 0).
Proof.
  intros [Hw Hr] Hn. assert (inv p st) as Hinv by (apply inv_reachable, rtc_nsteps; eauto).
  pose proof (work_nsteps _ _ _ Hn). pose proof (work_bound _ _ Hinv).
  split; [apply completes; naive_solver|]. split; [lia|]. split.
  { intros Hstuck. destruct (progress p st) as [Hf|Hst]; naive_solver. }
  intros Hf. pose proof (work_final _ _ Hinv Hf). destruct Hf as (El & Em & Es & _). split; [lia|].
  pose proof (inv_model_queue _ _ Hinv) as Hq. pose proof (inv_kv_queue _ _ Hinv) as Hk.
  unfold loaded, saved in *. rewrite (inv_m0 _ _ Hinv), (inv_s0 _ _ Hinv) in * by auto.
  rewrite El, Em, Es in *. simpl in Hq, Hk.
  destruct (wait p), (record p); repeat case_decide; naive_solver lia.
Qed.

(** The flags have to agree with the transfers.  A pass that waits with
    nothing to load never runs a kernel; one that saves without recording never
    copies a block; one that loads without waiting, or records with nothing to
    save, leaves a dummy value per layer in the queue, which the next pass
    takes for its own. *)
Theorem flags_must_agree p st :
  reachable p st → 0 < num_layers p →
  (wait p = true → loads p = 0 → compute st = [] ∧ ¬ final p st) ∧
  (record p = false → saves p ≠ 0 → dtoh st = [] ∧ ¬ final p st) ∧
  (wait p = false → loads p ≠ 0 → final p st → model_queue st = num_layers p) ∧
  (record p = true → saves p = 0 → final p st → kv_queue st = num_layers p).
Proof.
  intros Hinv%inv_reachable Hn. pose proof (inv_model_queue _ _ Hinv) as Hq.
  pose proof (inv_kv_queue _ _ Hinv) as Hk. unfold loaded, saved, final in *.
  split_and!; intros Hflag H0; rewrite Hflag in *.
  - rewrite (decide_True (P := loads p = 0)) in Hq by done. destruct (decide (m_step st = 0)) as [E|]; [|lia].
    rewrite (inv_compute _ _ Hinv), E. replace (m_layer st) with 0 by lia. split; [done|lia].
  - rewrite (decide_False (P := saves p = 0)) in Hk by done. destruct (decide (s_step st = 0)) as [E|]; [|lia].
    rewrite (inv_dtoh _ _ Hinv), E. unfold saved. rewrite (decide_False (P := saves p = 0)) by done.
    replace (s_layer st) with 0 by lia. split; [done|lia].
  - intros (El & _). rewrite (decide_False (P := loads p = 0)) in Hq by done. lia.
  - intros (_ & Em & Es & _). rewrite (decide_True (P := saves p = 0)) in Hk by done.
    rewrite (inv_s0 _ _ Hinv) in Hk by auto. simpl in Hk. lia.
Qed.

(** ** A pass over one layer *)

Definition one_layer : pass :=
  {| num_layers := 1; loads := 1; saves := 1; wait := true; record := true |}.

Definition one_layer_done : state := {|
  l_layer := 1; l_step := 0; m_layer := 1; m_step := 0; s_layer := 1; s_step := 0;
  model_queue := 0; kv_queue := 0;
  htod := [LoadCopy 0 0; RecordPre 0]; htod_done := 2;
  compute := [WaitPre 0 (Some 2); Kernel 0; RecordPost 0]; compute_done := 3;
  dtoh := [WaitPost 0 (Some 3); SaveCopy 0 0]; dtoh_done := 2 |}.

#[local] Ltac run_step rule :=
  eapply nsteps_l; [eapply rule; first [reflexivity|vm_compute; lia]|vm_compute].

Lemma one_layer_run : nsteps (step one_layer) 18 (init one_layer) one_layer_done.
Proof.
  run_step step_load. run_step step_record_pre. run_step step_put_model.
  run_step step_get_model. run_step step_wait_pre. run_step step_htod. run_step step_htod.
  run_step step_compute. run_step step_kernel. run_step step_record_post. run_step step_put_kv.
  run_step step_get_kv. run_step step_wait_post.
  run_step step_compute. run_step step_compute. run_step step_dtoh.
  eapply nsteps_l; [apply (step_save _ _ 0); first [reflexivity|vm_compute; lia]|vm_compute].
  run_step step_dtoh. apply nsteps_O.
Qed.

Lemma one_layer_reachable : reachable one_layer one_layer_done.
Proof. apply rtc_nsteps. exists 18. apply one_layer_run. Qed.


Example pipeline_completes_witness :
  final one_layer one_layer_done ∧ total_work one_layer = 18 ∧
  ∃ st', rtc (step one_layer) (init one_layer) st' ∧ final one_layer st'.
Proof.
  assert (flags_agree one_layer) as Hf by (split; split; simpl; intros; (done || lia)).
  destruct (pipeline_completes one_layer one_layer_done 18 Hf one_layer_run) as (_ & _ & Hstuck & _).
  destruct (pipeline_completes one_layer (init one_layer) 0 Hf (nsteps_O _ _)) as (Hex & _).
  split; [|split; [reflexivity|exact Hex]].
  apply Hstuck. intros [st' Hst]. inversion Hst; simpl in *; (lia || discriminate).
Defined.

(** Saving a layer without [enable_record_after_execute]. *)
Definition no_record : pass :=
  {| num_layers := 1; loads := 0; saves := 1; wait := true; record := false |}.

Example flags_must_agree_witness : ¬ final no_record (init no_record).
Proof.
  assert (0 < num_layers no_record) as Hn by (simpl; lia).
  destruct (flags_must_agree no_record (init no_record) (rtc_refl _ _) Hn) as (_ & Hsave & _).
  exact (proj2 (Hsave eq_refl (Nat.neq_succ_0 0))).
Defined.
