(* ===== verification/Transfer.v ===== *)
(** * Transfers between workers

    [get_descriptors], [push_kv] and [pull_kv] of [kv_worker.py]: blocks of the
    host tier are written to, or read from, the host tier of a worker on another
    machine.  The agent of the nixl package is a parameter; a transfer that is in
    flight is polled, and the number of polls is the fuel of the loop. *)
From stdpp Require Import strings gmap.
From S2P Require Import Prelude Tensor.

(** ** The agent *)

Inductive xfer_op := WRITE | READ.
Inductive xfer_state := DONE | ERR | PROC.

(** [W]: the registered memory of all agents and the transfers in flight.  A
    tensor handed to the agent is a block of the registered host tier, by number. *)
Class Nixl (W : Type) := {
  desc : Type;
  handle : Type;
  bytes : Type;
  get_xfer_descs : string → list Z → list desc;
  get_serialized_descs : list desc → bytes;
  deserialize_descs : bytes → res (list desc);
  initialize_xfer : string → xfer_op → list desc → list desc → string → M W (option handle);
  transfer : handle → M W xfer_state;
  check_xfer_state : handle → M W xfer_state;
}.

Section worker.
Context `{Nixl W}.

(** The worker [name] with [num_host_blocks] blocks in its host tier. *)
Context (name : string) (num_host_blocks : Z).

(** [self.host_kv_caches_tensor[bid]]: a negative index counts from the end. *)
Definition host_block (bid : Z) : res Z :=
  let b := if bid <? 0 then bid + num_host_blocks else bid in
  if (b <? 0) || (num_host_blocks <=? b) then Raise IndexError else Ok b.

Definition get_descriptors (block_ids : list Z) : res bytes :=
  tensors ← mapM host_block block_ids;
  let xfer_desc := get_xfer_descs name tensors in
  Ok (get_serialized_descs xfer_desc).

(** [while remote_descs.descCount() > n: remote_descs.remDesc(descCount() - 1)] *)
Fixpoint trim_descs (fuel : nat) (n : Z) (remote_descs : list desc) : list desc :=
  match fuel with
  | O => remote_descs
  | S fuel => if n <? len remote_descs
              then trim_descs fuel n (take (length remote_descs - 1) remote_descs)
              else remote_descs
  end.

(** [while True: ...]; [None] when the fuel is used up. *)
Fixpoint await_xfer (fuel : nat) (xfer_handle : handle) : M W (option bool) :=
  match fuel with
  | O => mret None
  | S fuel =>
      state ← check_xfer_state xfer_handle;
      match state with
      | ERR => mret (Some false)
      | DONE => mret (Some true)
      | PROC => await_xfer fuel xfer_handle
      end
  end.

(** From the creation of the transfer on, the same code in both directions. *)
Definition run_xfer (fuel : nat) (op : xfer_op) (local_descs remote_descs : list desc)
    (peer_name : string) : M W (option bool) :=
  xfer_handle ← initialize_xfer name op local_descs remote_descs peer_name;
  match xfer_handle with
  | None => mret (Some false)
  | Some xfer_handle =>
      state ← transfer xfer_handle;
      match state with
      | ERR => mret (Some false)
      | _ => await_xfer fuel xfer_handle
      end
  end.

Definition _push_kv (fuel : nat) (peer_name : string) (remote_descs : bytes) (block_ids : list Z)
    : M W (option bool) :=
  tensors ← lift (mapM host_block block_ids);
  let local_descs := get_xfer_descs name tensors in
  remote_descs ← lift (deserialize_descs remote_descs);
  let remote_descs := trim_descs (length remote_descs) (len block_ids) remote_descs in
  run_xfer fuel WRITE local_descs remote_descs peer_name.

(** [push_kv] runs [_push_kv] on the thread pool. *)
Definition push_kv := _push_kv.

Definition pull_kv (fuel : nat) (peer_name : string) (remote_descs : bytes) (block_ids : list Z)
    : M W (option bool) :=
  tensors ← lift (mapM host_block block_ids);
  let local_descs := get_xfer_descs name tensors in
  remote_descs ← lift (deserialize_descs remote_descs);
  run_xfer fuel READ local_descs remote_descs peer_name.
End worker.

(** ** What the agent promises *)

Notation memory := (gmap (string * Z) (list Z)).

(** The memory [m] when the blocks [dst] are overwritten by what the blocks [src]
    hold in [old]. *)
Fixpoint moved (dst src : list (string * Z)) (old m : memory) : memory :=
  match dst, src with
  | d :: dst, s :: src => moved dst src old (match old !! s with Some x => <[d := x]> m | None => m end)
  | _, _ => m
  end.

Section laws.
Context `{Nixl W} (mem : W → memory).

(** The transfer in flight reports its end after [k] more polls, and then the
    memory is [m]. *)
Inductive finishes (h : handle) (m : memory) : nat → W → Prop :=
  | finishes_done w w' : check_xfer_state h w = (Ok DONE, w') → mem w' = m → finishes h m 0 w
  | finishes_later k w w' :
      check_xfer_state h w = (Ok PROC, w') → finishes h m k w' → finishes h m (S k) w.

(** A posted transfer that does not fail. *)
Definition delivers (o : res (option handle) * W) (m : memory) : Prop :=
  ∃ h w1 st w2 k, o = (Ok (Some h), w1) ∧ transfer h w1 = (Ok st, w2) ∧ st ≠ ERR ∧
    finishes h m k w2.

(** Registered blocks. *)
Definition registered (m : memory) (a : string) (ids : list Z) : Prop :=
  ∀ i, i ∈ ids → is_Some (m !! (a, i)).

(** Descriptors survive the wire, one per tensor; a transfer between as many
    local as remote blocks, none of the destination twice, moves them. *)
Class NixlLaws : Prop := {
  deserialize_serialized l : deserialize_descs (get_serialized_descs l) = Ok l;
  descs_app a l l' : get_xfer_descs a (l ++ l') = get_xfer_descs a l ++ get_xfer_descs a l';
  descs_len a l : len (get_xfer_descs a l) = len l;
  write_moves me peer ls rs w :
    len ls = len rs → NoDup rs → registered (mem w) me ls → registered (mem w) peer rs →
    delivers (initialize_xfer me WRITE (get_xfer_descs me ls) (get_xfer_descs peer rs) peer w)
      (moved (pair peer <$> rs) (pair me <$> ls) (mem w) (mem w));
  read_moves me peer ls rs w :
    len ls = len rs → NoDup ls → registered (mem w) me ls → registered (mem w) peer rs →
    delivers (initialize_xfer me READ (get_xfer_descs me ls) (get_xfer_descs peer rs) peer w)
      (moved (pair me <$> ls) (pair peer <$> rs) (mem w) (mem w));
}.
End laws.

(** ** Lemmas *)

Lemma moved_spec dst src old m :
  length dst = length src → NoDup dst → (∀ s, s ∈ src → is_Some (old !! s)) →
  (∀ i d s, dst !! i = Some d → src !! i = Some s → moved dst src old m !! d = old !! s) ∧
  (∀ k, k ∉ dst → moved dst src old m !! k = m !! k).
Proof.
  revert src m. induction dst as [|d dst IH]; intros [|s src] m Hlen Hnd Hs; try done.
  simpl. apply NoDup_cons in Hnd as [Hd Hnd]. destruct (Hs s) as [x Hx]; [by left|]. rewrite Hx.
  destruct (IH src (<[d := x]> m)) as [IH1 IH2]; [simpl in Hlen; lia|done|intros s' Hin; apply Hs; by right|].
  split.
  - intros [|i] d' s'; simpl; [|apply IH1]. intros [= <-] [= <-].
    by rewrite (IH2 d Hd), lookup_insert_eq.
  - intros k Hk. rewrite IH2 by set_solver. rewrite lookup_insert_ne; [done|]. set_solver.
Qed.

Section lemmas.
Context `{Nixl W} (mem : W → memory) `{!NixlLaws mem}.

Lemma trim_descs_take fuel n (l : list desc) :
  0 ≤ n → (length l ≤ fuel)%nat → trim_descs fuel n l = take (Z.to_nat n) l.
Proof.
  intros Hn. revert l. induction fuel as [|fuel IH]; intros l Hl; simpl.
  - destruct l; [by rewrite take_nil|simpl in Hl; lia].
  - destruct (Z.ltb_spec n (len l)) as [Hlt|Hge]; unfold len in *.
    + rewrite IH by (rewrite length_take; lia). rewrite take_take. f_equal. lia.
    + by rewrite take_ge by lia.
Qed.

Lemma descs_take a (n : nat) (l : list Z) :
  take n (get_xfer_descs a l) = get_xfer_descs a (take n l).
Proof using NixlLaws0.
  rewrite <-(take_drop n l) at 1. rewrite (descs_app mem).
  pose proof (descs_len mem a (take n l)) as E1. pose proof (descs_len mem a (drop n l)) as E2.
  unfold len in E1, E2. rewrite length_take in E1. rewrite length_drop in E2.
  destruct (decide (n ≤ length l)%nat).
  - rewrite take_app_le by lia. apply take_ge. lia.
  - replace (get_xfer_descs a (drop n l)) with (@nil desc).
    + rewrite app_nil_r. apply take_ge. lia.
    + symmetry. apply length_zero_iff_nil. lia.
Qed.

Lemma await_finishes h m k w :
  finishes mem h m k w → ∃ w', mem w' = m ∧
  ∀ fuel, (k < fuel)%nat → await_xfer fuel h w = (Ok (Some true), w').
Proof.
  induction 1 as [w w' Hc Hm|k w w' Hc _ (w'' & Hm & IH)].
  - exists w'. split; [done|]. intros [|fuel] Hf; [lia|]. simpl. by rewrite M_bind_eq, Hc.
  - exists w''. split; [done|]. intros [|fuel] Hf; [lia|]. simpl. rewrite M_bind_eq, Hc.
    apply IH. lia.
Qed.

Lemma run_delivers me op ls rs peer w m :
  delivers mem (initialize_xfer me op ls rs peer w) m →
  ∃ k w', mem w' = m ∧
  ∀ fuel, (k < fuel)%nat → run_xfer me fuel op ls rs peer w = (Ok (Some true), w').
Proof.
  intros (h & w1 & st & w2 & k & Ei & Et & Hst & Hf).
  destruct (await_finishes h m k w2 Hf) as (w' & Hm & Hawait). exists k, w'. split; [done|].
  intros fuel Hfuel. unfold run_xfer. rewrite M_bind_eq, Ei, M_bind_eq, Et.
  destruct st; [|done|]; by apply Hawait.
Qed.

Lemma blocks_len n ids bs : mapM (host_block n) ids = Ok bs → length bs = length ids.
Proof using.
  revert bs. induction ids as [|i ids IH]; intros bs; simpl; [by intros [= <-]|].
  intros (b & _ & (bs' & Hbs & [= <-])%bind_Ok)%bind_Ok. simpl. by rewrite (IH bs').
Qed.
End lemmas.

(** ** The theorem *)

Section theorems.
Context `{Nixl W} (mem : W → memory) `{!NixlLaws mem}.

(** C27: transfers between workers.  With the descriptors [get_descriptors] of the
    peer made for its blocks, [push_kv] ends after finitely many polls with
    [True] and has written the [i]-th block to the [i]-th of the peer, the spare
    ones of the peer being ignored; [pull_kv], for as many blocks, has read the
    [i]-th block of the peer into the [i]-th.  No other block of any worker
    changes. *)
Theorem kv_transfers_move_blocks me peer n n_peer ids bs rids rbs descs (w : W) :
  mapM (host_block n) ids = Ok bs → mapM (host_block n_peer) rids = Ok rbs →
  get_descriptors peer n_peer rids = Ok descs →
  registered (mem w) me bs → registered (mem w) peer rbs →
  (len ids ≤ len rids → NoDup (take (length ids) rbs) →
   ∃ k w', (∀ fuel, (k < fuel)%nat → push_kv me n fuel peer descs ids w = (Ok (Some true), w')) ∧
     (∀ i b r, bs !! i = Some b → rbs !! i = Some r → mem w' !! (peer, r) = mem w !! (me, b)) ∧
     ∀ key, key ∉ pair peer <$> take (length ids) rbs → mem w' !! key = mem w !! key) ∧
  (len ids = len rids → NoDup bs →
   ∃ k w', (∀ fuel, (k < fuel)%nat → pull_kv me n fuel peer descs ids w = (Ok (Some true), w')) ∧
     (∀ i b r, bs !! i = Some b → rbs !! i = Some r → mem w' !! (me, b) = mem w !! (peer, r)) ∧
     ∀ key, key ∉ pair me <$> bs → mem w' !! key = mem w !! key).
Proof using NixlLaws0.
  intros Hbs Hrbs Hd Hme Hpeer. unfold get_descriptors in Hd. rewrite Hrbs in Hd. injection Hd as <-.
  pose proof (blocks_len _ _ _ Hbs) as Lb. pose proof (blocks_len _ _ _ Hrbs) as Lr.
  pose proof (descs_len mem peer rbs) as Ld. unfold len in *.
  assert (∀ a ids s, registered (mem w) a ids → s ∈ pair a <$> ids → is_Some (mem w !! s)) as Hreg.
  { intros a l s Hl (i & -> & Hi)%list_elem_of_fmap. by apply Hl. }
  split.
  - intros Hle Hnd.
    assert (registered (mem w) peer (take (length ids) rbs)) as Hpeer'.
    { intros i Hi. apply Hpeer. apply subseteq_take in Hi. done. }
    destruct (run_delivers mem me WRITE _ _ peer w _ (write_moves mem me peer bs (take (length ids) rbs) w
      ltac:(unfold len; rewrite length_take; lia) Hnd Hme Hpeer')) as (k & w' & Hm & Hrun).
    destruct (moved_spec (pair peer <$> take (length ids) rbs) (pair me <$> bs) (mem w) (mem w)) as [H1 H2].
    { rewrite !length_fmap, length_take. lia. }
    { by apply NoDup_fmap_2; [intros a b [= ->]|]. }
    { eauto. }
    exists k, w'. split_and!.
    + intros fuel Hf. unfold push_kv, _push_kv, lift. rewrite M_bind_eq, Hbs, M_bind_eq.
      rewrite (deserialize_serialized mem). cbv beta zeta.
      rewrite trim_descs_take, (descs_take mem) by (unfold len; lia).
      unfold len. rewrite Nat2Z.id. by apply Hrun.
    + intros i b r Hb Hr. rewrite Hm. apply (H1 i); rewrite list_lookup_fmap.
      * rewrite lookup_take_lt; [by rewrite Hr|]. apply lookup_lt_Some in Hb. lia.
      * by rewrite Hb.
    + intros key Hkey. rewrite Hm. by apply H2.
  - intros Heq Hnd.
    destruct (run_delivers mem me READ _ _ peer w _ (read_moves mem me peer bs rbs w
      ltac:(unfold len; lia) Hnd Hme Hpeer)) as (k & w' & Hm & Hrun).
    destruct (moved_spec (pair me <$> bs) (pair peer <$> rbs) (mem w) (mem w)) as [H1 H2].
    { rewrite !length_fmap. lia. }
    { by apply NoDup_fmap_2; [intros a b [= ->]|]. }
    { eauto. }
    exists k, w'. split_and!.
    + intros fuel Hf. unfold pull_kv, lift. rewrite M_bind_eq, Hbs, M_bind_eq.
      rewrite (deserialize_serialized mem). by apply Hrun.
    + intros i b r Hb Hr. rewrite Hm. apply (H1 i); rewrite list_lookup_fmap; [by rewrite Hb|by rewrite Hr].
    + intros key Hkey. rewrite Hm. by apply H2.
Qed.
End theorems.

(** ** An agent that takes two polls *)

Record toy := Toy { t_mem : memory; t_left : nat }.
Definition toy_move (h : xfer_op * list (string * Z) * list (string * Z)) (m : memory) : memory :=
  let '(op, local, remote) := h in
  match op with WRITE => moved remote local m m | READ => moved local remote m m end.

#[local] Instance toy_nixl : Nixl toy := {|
  desc := string * Z;
  handle := xfer_op * list (string * Z) * list (string * Z);
  get_xfer_descs a l := pair a <$> l;
  bytes := list (string * Z);
  get_serialized_descs l := l;
  deserialize_descs l := Ok l;
  initialize_xfer _ op local remote _ := λ w, (Ok (Some (op, local, remote)), w);
  transfer _ := λ w, (Ok PROC, Toy (t_mem w) 1);
  check_xfer_state h := λ w,
    match t_left w with
    | O => (Ok DONE, Toy (toy_move h (t_mem w)) O)
    | S k => (Ok PROC, Toy (t_mem w) k)
    end |}.

#[local] Instance toy_laws : NixlLaws t_mem.
Proof.
  assert (∀ h w, finishes t_mem h (toy_move h (t_mem w)) 1 (Toy (t_mem w) 1)) as Hf.
  { intros h w. eapply finishes_later; [done|]. by eapply finishes_done. }
  split; try done.
  - intros a l l'. apply fmap_app.
  - intros a l. apply len_fmap.
  - intros me peer ls rs w _ _ _ _. eexists _, _, PROC, _, 1%nat. split_and!; [done..|].
    exact (Hf (WRITE, pair me <$> ls, pair peer <$> rs) w).
  - intros me peer ls rs w _ _ _ _. eexists _, _, PROC, _, 1%nat. split_and!; [done..|].
    exact (Hf (READ, pair me <$> ls, pair peer <$> rs) w).
Qed.

Definition world_T : toy := Toy (list_to_map [
  (("a"%string, 0), [1; 2]); (("a"%string, 1), [3; 4]);
  (("b"%string, 0), [5; 6]); (("b"%string, 1), [7; 8]); (("b"%string, 2), [9; 9])]) 0.

Definition descs_b : @bytes toy toy_nixl := [("b"%string, 2); ("b"%string, 0)].

(** Block 1 of "a" (index -1) is pushed to block 2 of "b". *)
Example kv_transfers_move_blocks_witness :
  ∃ k w', push_kv "a" 2 k "b" descs_b [-1] world_T = (Ok (Some true), w') ∧
    t_mem w' !! ("b"%string, 2) = Some [3; 4] ∧ t_mem w' !! ("b"%string, 0) = Some [5; 6].
Proof.
  destruct (kv_transfers_move_blocks t_mem "a" "b" 2 3 [-1] [1] [2; 0] [2; 0] descs_b world_T) as [Hpush _]; [done|done|done| | |].
  - intros i ->%list_elem_of_singleton. by eexists.
  - intros i Hi. assert (i = 2 ∨ i = 0) as [-> | ->] by set_solver; by eexists.
  - destruct Hpush as (k & w' & Hrun & Hmoved & Hrest).
    + unfold len. simpl. lia.
    + by apply (bool_decide_unpack _).
    + exists (S k), w'. split; [apply Hrun; lia|]. split.
      * by rewrite (Hmoved 0%nat 1 2).
      * rewrite Hrest; [done|]. by apply (bool_decide_unpack _).
Defined.
