(* ===== verification/WorkerService.v ===== *)
(** * The worker processes

    [cli.py]: the gRPC handlers of the model worker and of the KV worker, and the
    start of the second process by [InitCache].  The servers, signals and logging
    are left out. *)
From stdpp Require Import strings gmap.
From S2P Require Import Prelude Tensor FlashInfer Batch ModelWorker Concurrency.
From S2P Require Import KVStore KVCopies KVSafety Transfer.

#[local] Opaque py_range.

(** ** Messages, with the fields of [worker.proto] *)

Record WarmupRequest := { max_batch_size : Z; max_seq_len : Z; max_num_batched_tokens : Z }.
Record WarmupResponse := { gpu_total_mem_size : Z; gpu_peak_mem_size : Z }.
Record InferRequest := {
  inputs : list InferInput; use_cache : bool; wait_before_execute : bool; record_after_execute : bool;
}.
Record InitCacheRequest := {
  gpu_cache_size : Z; host_cache_size : Z; disk_cache_size : Z; disk_cache_path : string;
}.
Record InitCacheResponse := { num_gpu_blocks : Z; num_host_blocks : Z; num_disk_blocks : Z }.
Record CopyKVRequest := { block_mappings : list BlockMapping; src_device : Device; dst_device : Device }.
Record GetDescriptorsRequest := { gd_block_ids : list Z }.
Record PushKVRequest (B : Type) := { push_peer_name : string; kv_descs : B; push_block_ids : list Z }.
Record PullKVRequest (B : Type) := { pull_peer_name : string; descs : B; pull_block_ids : list Z }.
Arguments push_peer_name {B} p.
Arguments kv_descs {B} p.
Arguments push_block_ids {B} p.
Arguments pull_peer_name {B} p.
Arguments descs {B} p.
Arguments pull_block_ids {B} p.

(** ** WorkerService *)

Section service.
Context `{FlashInfer Q K V R} `{Sampling F}.
Context (model : list Z → InputParams → option (list (paged_cache K V)) →
                 res (list (list F) * option (list (paged_cache K V)))).
Context (tokenizer_decode : Z → string).
Context (copy_blocks : list (paged_cache K V) → list (Z * list Z) → list (paged_cache K V)).

(** What [torch.cuda] reports after the warmup. *)
Context (mem_total max_memory_allocated : Z).
(** The bytes of the device memory behind the caches, those of a new pinned
    array, and the size of an element. *)
Context (shared_memory : KVWorkerParams → list Z).
Context (pagelocked_empty : Z → Z → Z → list (list (list Z))).
Context (element_size : KVWorkerParams → Z).

Record WorkerService := {
  worker : ModelWorker (K := K) (V := V) (F := F);
  uds_path : string;
  kv_worker : option string;      (* the process, by the path of its socket *)
}.
(** The machine: the process, the files, whether the socket of the KV worker is
    there, and the KV worker that listens on it if one runs. *)
Record node := {
  nd_service : WorkerService; nd_files : fs; nd_socket : bool; nd_kv : option KVWorker;
}.

Definition set_worker (w : ModelWorker) (n : node) : node := {|
  nd_service := {| worker := w; uds_path := uds_path (nd_service n);
                   kv_worker := kv_worker (nd_service n) |};
  nd_files := nd_files n; nd_socket := nd_socket n; nd_kv := nd_kv n |}.

Definition WorkerService_init (w : ModelWorker) (uds_path : string) : WorkerService :=
  {| worker := w; uds_path := uds_path; kv_worker := None |}.

Definition Warmup (request : WarmupRequest) : M node WarmupResponse := λ n,
  let '(r, w) := warmup model (max_batch_size request) (max_seq_len request)
                   (max_num_batched_tokens request) (worker (nd_service n)) in
  ((λ _, {| gpu_total_mem_size := mem_total; gpu_peak_mem_size := max_memory_allocated |}) <$> r,
   set_worker w n).

Definition Infer (request : InferRequest) : M node (gmap Z (InferOutput F)) := λ n,
  let '(r, (w, _)) := execute model tokenizer_decode copy_blocks (use_cache request)
                        (wait_before_execute request) (record_after_execute request) []
                        (worker (nd_service n), inputs request) in
  (r, set_worker w n).

(** [init_kv_cache]: the KV worker of the new process, or the exception it dies
    of. *)
Definition init_kv_cache (params : KVWorkerParams) : M fs KVWorker :=
  let rows := kvp_num_layers params * kvp_num_gpu_blocks params in
  KVWorker_init params (element_size params) (shared_memory params)
    (pagelocked_empty (kvp_num_host_blocks params) (kvp_num_layers params)
                      (len (shared_memory params) / rows)).

(** [while not os.path.exists(kv_uds_path)]: the socket is there after [k] polls
    for [Some k], never for [None].  [None] when the fuel is used up. *)
Fixpoint wait_socket (fuel : nat) (appears : option nat) : option unit :=
  match fuel with
  | O => None
  | S fuel => match appears with
              | Some O => Some tt
              | Some (S k) => wait_socket fuel (Some k)
              | None => wait_socket fuel None
              end
  end.

(** [boot] is the number of polls the process needs to listen.  Once the path
    exists, [channel_ready_future(channel).result()] waits for a process that
    listens on it: the new one, or an older one when the new one died. *)
Definition InitCache (fuel boot : nat) (request : InitCacheRequest)
    : M node (option InitCacheResponse) := λ n,
  let '(r, w) := init_cache (gpu_cache_size request) (host_cache_size request)
                   (disk_cache_size request) (disk_cache_path request) (worker (nd_service n)) in
  let n := set_worker w n in
  match r with
  | Raise e => (Raise e, n)
  | Ok kv_worker_params =>
      let kv_uds_path := uds_path (nd_service n) +:+ "-kv" in
      let '(child, files) := init_kv_cache kv_worker_params (nd_files n) in
      let appears := if nd_socket n then Some O
                     else match child with Ok _ => Some boot | Raise _ => None end in
      let listening := match child with Ok kv => Some kv | Raise _ => nd_kv n end in
      let started service := {|
        nd_service := service; nd_files := files;
        nd_socket := nd_socket n || match child with Ok _ => true | Raise _ => false end;
        nd_kv := listening |} in
      match wait_socket fuel appears, listening with
      | Some _, Some _ =>
          (Ok (Some {| num_gpu_blocks := kvp_num_gpu_blocks kv_worker_params;
                       num_host_blocks := kvp_num_host_blocks kv_worker_params;
                       num_disk_blocks := kvp_num_disk_blocks kv_worker_params |}),
           started {| worker := worker (nd_service n); uds_path := uds_path (nd_service n);
                      kv_worker := Some kv_uds_path |})
      | _, _ => (Ok None, started (nd_service n))
      end
  end.

(** [WorkerService.__del__]: terminate and join the process it knows of.  One that ended
    by itself is only joined. *)
Definition WorkerService___del__ (n : node) : node :=
  match kv_worker (nd_service n) with
  | Some _ => {| nd_service := nd_service n; nd_files := nd_files n; nd_socket := nd_socket n;
                 nd_kv := None |}
  | None => n
  end.
End service.

(** ** KVWorkerService *)

Definition CopyKV (request : CopyKVRequest) : M KVWorker bool :=
  _ ← copy_kv (block_mappings request) (src_device request) (dst_device request);
  mret true.

Section kv_service.
Context `{Nixl W} (kv_agent_name : string) (kv_agent_metadata : bytes) (num_host_blocks : Z).
(** [kv_agent.add_remote_agent] *)
Context (add_remote_agent : bytes → M W string).

Definition GetLocalAgentMetadata : M W (string * bytes) :=
  mret (kv_agent_name, kv_agent_metadata).
Definition AddRemoteAgentMetadata (data : bytes) : M W string :=
  peer_name ← add_remote_agent data; mret peer_name.
Definition GetDescriptors (request : GetDescriptorsRequest) : M W bytes :=
  lift (get_descriptors kv_agent_name num_host_blocks (gd_block_ids request)).
Definition PushKV (fuel : nat) (request : PushKVRequest bytes) : M W (option bool) :=
  push_kv kv_agent_name num_host_blocks fuel (push_peer_name request) (kv_descs request)
    (push_block_ids request).
(** [request.kv_descs]: the message has no such field, its descriptors are [descs]. *)
Definition PullKV (fuel : nat) (request : PullKVRequest bytes) : M W (option bool) :=
  kv_descs ← raise AttributeError;
  pull_kv kv_agent_name num_host_blocks fuel (pull_peer_name request) kv_descs
    (pull_block_ids request).
End kv_service.

(** ** Lemmas *)

(** The array is the old one of that shape and type, or zeros. *)
Lemma memmap_cases path stride shape dt (s : fs) :
  ∃ data s', memmap_disk_kv_cache path stride shape dt s = (Ok data, s') ∧
    (data = zeros_array stride shape ∨ s !! path = Some (NpyFile shape dt data)).
Proof.
  unfold memmap_disk_kv_cache. case_bool_decide as Hex; [|by eexists _, _; split; [done|left]].
  unfold np_load. destruct (s !! path) as [[shape' dt' data|]|] eqn:E; simpl.
  - destruct (bool_decide (shape' ≠ shape) || bool_decide (dt' ≠ dt)) eqn:Eb.
    + by eexists _, _; split; [done|left].
    + apply orb_false_elim in Eb as [H1%bool_decide_eq_false H2%bool_decide_eq_false].
      apply dec_stable in H1 as ->. apply dec_stable in H2 as ->.
      eexists _, _. split; [done|by right].
  - by eexists _, _; split; [done|left].
  - by destruct Hex.
Qed.

Lemma zeros_wf stride nb nl bs :
  0 ≤ stride → 0 ≤ nb → 0 ≤ nl →
  len (zeros_array stride (nb, nl, bs)) = nb ∧ caches_wf nl stride (zeros_array stride (nb, nl, bs)).
Proof.
  intros Hs Hb Hl. unfold zeros_array. split; [rewrite len_fmap; unfold len; rewrite length_py_range; lia|].
  apply Forall_fmap, Forall_forall. intros i _. simpl.
  split; [rewrite len_fmap; unfold len; rewrite length_py_range; lia|]. apply Forall_fmap, Forall_forall. intros j _. simpl. unfold len.
  rewrite length_replicate. lia.
Qed.

(** The KV worker of well-formed memory is well formed. *)
Lemma KVWorker_init_wf params element_size storage host (s : fs) dt stride :
  let nl := kvp_num_layers params in
  let nb := kvp_num_disk_blocks params in
  0 < nl → 0 < kvp_num_gpu_blocks params → 0 ≤ nb → 0 < stride →
  len storage = nl * kvp_num_gpu_blocks params * stride →
  caches_wf nl stride host → dtype_map (kvp_dtype params) = Some dt →
  (∀ data, s !! kvp_disk_kv_cache_file params = Some (NpyFile (nb, nl, stride / element_size) dt data) →
     len data = nb ∧ caches_wf nl stride data) →
  ∃ kv s', KVWorker_init params element_size storage host s = (Ok kv, s') ∧ store_wf kv ∧
    num_blocks kv GPU = kvp_num_gpu_blocks params ∧ num_blocks kv Host = len host ∧
    num_blocks kv Disk = nb ∧ num_layers kv = nl ∧ block_stride kv = stride.
Proof.
  intros nl nb Hl Hg Hb Hs Hlen Hhost Hdt Hfile.
  assert (0 < nl * kvp_num_gpu_blocks params) as Hrows by nia.
  assert (len storage / (nl * kvp_num_gpu_blocks params) = stride) as Estride.
  { rewrite Hlen, Z.mul_comm. apply Z.div_mul. lia. }
  unfold KVWorker_init. fold nl nb. rewrite M_bind_eq. unfold lift, py_require.
  rewrite (proj2 (Z.ltb_lt _ _) Hrows), Hlen, (Z.mul_comm _ stride), Z.mod_mul by lia.
  rewrite Z.div_mul by lia. simpl. rewrite M_bind_eq, Hdt.
  destruct (Z.ltb_spec 0 nb) as [Hpos|Hzero]; rewrite M_bind_eq.
  - destruct (memmap_cases (kvp_disk_kv_cache_file params) stride (nb, nl, stride / element_size) dt s)
      as (data & s' & E & Hdata).
    assert (len data = nb ∧ caches_wf nl stride data) as [Hn Hwf].
    { destruct Hdata as [-> |Hold]; [apply zeros_wf; lia|by apply Hfile]. }
    unfold fmap, M_fmap. rewrite E. eexists _, _. split; [done|]. split_and!; try done.
    split; simpl; try (done || lia).
  - eexists _, _. split; [done|]. split_and!; try done; [|simpl; unfold len; simpl; lia].
    split; simpl; try (done || lia). constructor.
Qed.

(** Requests served one after the other, whether they return or raise. *)
Definition serve_copies (requests : list CopyKVRequest) (kv : KVWorker) : KVWorker :=
  foldl (λ kv request, (CopyKV request kv).2) kv requests.

Lemma CopyKV_keeps request kv :
  store_wf kv → store_wf (CopyKV request kv).2 ∧ same_shape kv (CopyKV request kv).2.
Proof.
  intros Hwf. assert (kept kv (dst_device request) kv) as Hk by (split; try done; by repeat split).
  unfold CopyKV, copy_kv. rewrite M_bind_eq.
  destruct (COPY_KV_OP_MAP _ _) as [op|] eqn:E; [|done].
  pose proof (op_keeps kv _ _ _ (block_mappings request) E kv Hk) as [H1 H2 _ _ _].
  by destruct (op (block_mappings request) kv) as [[[]|e] kv'].
Qed.

Lemma serve_copies_keeps requests kv :
  store_wf kv → store_wf (serve_copies requests kv) ∧ same_shape kv (serve_copies requests kv).
Proof.
  revert kv. induction requests as [|r rs IH]; intros kv Hwf; simpl; [done|].
  destruct (CopyKV_keeps r kv Hwf) as [Hwf' Hsh]. destruct (IH _ Hwf') as [? ?].
  split; [done|]. by eapply same_shape_trans.
Qed.

Lemma wait_socket_appears fuel k : (k < fuel)%nat → wait_socket fuel (Some k) = Some tt.
Proof.
  revert k. induction fuel as [|fuel IH]; intros k Hk; [lia|]. simpl.
  destruct k; [done|]. apply IH. lia.
Qed.
Lemma wait_socket_never fuel : wait_socket fuel None = None.
Proof. by induction fuel. Qed.

Lemma wait_socket_short fuel boot : (fuel ≤ boot)%nat → wait_socket fuel (Some boot) = None.
Proof.
  revert boot. induction fuel as [|fuel IH]; intros boot Hf; [done|].
  destruct boot; [lia|]. apply IH. lia.
Qed.

(** No block on the device: the caches cannot be shaped. *)
Lemma init_kv_cache_no_room shared_memory pagelocked_empty element_size params (s : fs) :
  kvp_num_layers params * kvp_num_gpu_blocks params ≤ 0 →
  init_kv_cache shared_memory pagelocked_empty element_size params s = (Raise RuntimeError, s).
Proof.
  intros Hrows. unfold init_kv_cache, KVWorker_init. by rewrite (proj2 (Z.ltb_ge 0 _) Hrows).
Qed.

Section shutdown.
Context `{FlashInfer Q K V R} `{Sampling F}.
Context (shared_memory : KVWorkerParams → list Z).
Context (pagelocked_empty : Z → Z → Z → list (list (list Z))).
Context (element_size : KVWorkerParams → Z).
Notation InitCache := (InitCache shared_memory pagelocked_empty element_size).
Notation init_kv_cache := (init_kv_cache shared_memory pagelocked_empty element_size).

(** An [InitCache] that answered: the worker it left, and that its KV worker runs and is
    the one the service will stop. *)
Lemma InitCache_answered fuel boot request (n n' : node (K := K) (V := V) (F := F)) a :
  InitCache fuel boot request n = (Ok (Some a), n') →
  (∃ params,
    init_cache (gpu_cache_size request) (host_cache_size request) (disk_cache_size request)
      (disk_cache_path request) (worker (nd_service n)) = (Ok params, worker (nd_service n')) ∧
    num_gpu_blocks a = kvp_num_gpu_blocks params) ∧
  is_Some (nd_kv n') ∧ nd_kv (WorkerService___del__ n') = None.
Proof using.
  unfold WorkerService.InitCache. destruct (init_cache _ _ _ _ _) as [[params|e] w'] eqn:E; [|done].
  destruct (init_kv_cache _ _) as [child files]. cbn [nd_socket nd_kv set_worker nd_service].
  destruct (wait_socket _ _); [|done].
  destruct (match child with Ok kv => Some kv | Raise _ => nd_kv n end) as [kv|]; [|done].
  intros [= <- <-]. split; [by exists params|]. by split; [exists kv|].
Qed.

(** A service that is deleted while [InitCache] still waits for the socket leaves the
    process behind: it is not yet known to the service. *)
Lemma InitCache_interrupted fuel boot request (n : node (K := K) (V := V) (F := F)) params w kv files :
  init_cache (gpu_cache_size request) (host_cache_size request) (disk_cache_size request)
    (disk_cache_path request) (worker (nd_service n)) = (Ok params, w) →
  init_kv_cache params (nd_files n) = (Ok kv, files) →
  nd_socket n = false → kv_worker (nd_service n) = None → (fuel ≤ boot)%nat →
  ∃ n', InitCache fuel boot request n = (Ok None, n') ∧ nd_kv (WorkerService___del__ n') = Some kv.
Proof using.
  intros E1 E2 Hs Hk Hf. unfold WorkerService.InitCache. rewrite E1.
  cbn [nd_files nd_socket nd_kv set_worker nd_service]. rewrite E2, Hs.
  rewrite wait_socket_short by done.
  eexists. split; [done|]. unfold WorkerService___del__. cbn. by rewrite Hk.
Qed.
End shutdown.

(** ** Theorems *)

Section properties.
Context `{FlashInfer Q K V R} `{Sampling F}.
Context (shared_memory : KVWorkerParams → list Z).
Context (pagelocked_empty : Z → Z → Z → list (list (list Z))).
Context (element_size : KVWorkerParams → Z).
Context (n : node (K := K) (V := V) (F := F)) (bits : Z).
Let w := worker (nd_service n).
Context (Hbits : finfo_bits (mc_dtype (model_config w)) = Ok bits)
  (HL : 0 < mc_num_layers (model_config w)) (Hbs : 0 < block_size w)
  (Hkv : 0 < mc_num_kv_heads (model_config w)) (Hhd : 0 < mc_head_dim (model_config w)).
Let stride := 2 * (block_size w * mc_num_kv_heads (model_config w) * mc_head_dim (model_config w)
                   * (bits / 8)).

Lemma block_bytes_stride : block_bytes w bits = mc_num_layers (model_config w) * stride.
Proof using. unfold block_bytes, stride. lia. Qed.

(** What the rest of the machine owes the KV worker: device memory of the size of the
    caches, pinned arrays of the shape asked for, and on disk no array file whose header
    has the worker's shape and whose contents have not. *)
Record memory_ok : Prop := {
  mo_shared params : 0 ≤ kvp_num_layers params → 0 ≤ kvp_num_gpu_blocks params →
    len (shared_memory params) = kvp_num_layers params * kvp_num_gpu_blocks params * stride;
  mo_pinned blocks layers s : 0 ≤ blocks → 0 ≤ layers → 0 ≤ s →
    len (pagelocked_empty blocks layers s) = blocks ∧ caches_wf layers s (pagelocked_empty blocks layers s);
  mo_files params path blocks layers dt data :
    nd_files n !! path = Some (NpyFile (blocks, layers, stride / element_size params) dt data) →
    len data = blocks ∧ caches_wf layers stride data;
}.
Hypothesis (Hmem : memory_ok).

(** The blocks of an answer. *)
Definition answer_blocks (a : InitCacheResponse) (d : Device) : Z :=
  match d with GPU => num_gpu_blocks a | Host => num_host_blocks a | Disk => num_disk_blocks a end.
Definition started_store (a : InitCacheResponse) (kv : KVWorker) : Prop :=
  store_wf kv ∧ num_layers kv = mc_num_layers (model_config w) ∧ block_stride kv = stride ∧
  ∀ d, num_blocks kv d = answer_blocks a d.

Lemma InitCache_room (fuel boot : nat) request :
  block_bytes w bits ≤ gpu_cache_size request →
  0 ≤ host_cache_size request → 0 ≤ disk_cache_size request → (boot < fuel)%nat →
  ∃ answer kv n', InitCache shared_memory pagelocked_empty element_size fuel boot request n
                  = (Ok (Some answer), n') ∧
    nd_kv n' = Some kv ∧ started_store answer kv.
Proof using All.
  intros Hgpu Hhost Hdisk Hfuel. destruct Hmem as [Hshared Hpinned Hfiles].
  destruct (init_cache_eq w (gpu_cache_size request) (host_cache_size request)
    (disk_cache_size request) (disk_cache_path request) bits Hbits HL Hbs Hkv Hhd) as [Hpos E].
  unfold InitCache. fold w. rewrite E. clear E.
  set (params := Build_KVWorkerParams _ _ _ _ _ _ _ _). pose proof block_bytes_stride as Eb.
  assert (0 < stride) as Hs by nia.
  assert (0 < kvp_num_gpu_blocks params) as Hg by (by apply Z.div_str_pos).
  assert (0 ≤ kvp_num_host_blocks params ∧ 0 ≤ kvp_num_disk_blocks params) as [Hh Hd]
    by (split; apply Z.div_pos; lia).
  assert (∃ dt, dtype_map (kvp_dtype params) = Some dt) as [dt Hdt].
  { simpl. destruct (mc_dtype (model_config w)); try done; by eexists. }
  assert (len (shared_memory params) / (kvp_num_layers params * kvp_num_gpu_blocks params) = stride)
    as Estride.
  { rewrite Hshared, Z.mul_comm by (simpl in *; lia). apply Z.div_mul. simpl in *. nia. }
  set (host := pagelocked_empty (kvp_num_host_blocks params) (kvp_num_layers params) stride).
  destruct (Hpinned _ (kvp_num_layers params) stride Hh) as [Hlen Hwf];
    [simpl; lia|lia|].
  destruct (KVWorker_init_wf params (element_size params) (shared_memory params) host (nd_files n)
    dt stride HL Hg Hd Hs (Hshared params ltac:(simpl; lia) ltac:(lia)) Hwf Hdt (Hfiles params _ _ _ _))
    as (kv & files & E & Hkvwf & EG & EH & ED & EL & ES).
  assert (wait_socket fuel (if nd_socket n then Some O else Some boot) = Some tt) as Ewait.
  { destruct (nd_socket n); apply wait_socket_appears; lia. }
  unfold init_kv_cache. cbn [nd_files nd_service set_worker nd_socket]. rewrite Estride. fold host.
  rewrite E. rewrite Ewait. eexists _, kv, _. split; [done|]. split; [done|].
  split_and!; [done..|]. intros []; [by rewrite EG| |by rewrite ED].
  rewrite EH. unfold host. by rewrite Hlen.
Qed.

(** The store of an [InitCache] that answered, with no older process to answer for it. *)
Lemma InitCache_store (fuel boot : nat) request n' a :
  0 ≤ host_cache_size request → 0 ≤ disk_cache_size request → nd_socket n = false →
  InitCache shared_memory pagelocked_empty element_size fuel boot request n = (Ok (Some a), n') →
  ∃ kv, nd_kv n' = Some kv ∧ started_store a kv.
Proof using All.
  intros Hhost Hdisk Hsock Hans.
  assert (block_bytes w bits ≤ gpu_cache_size request ∧ (boot < fuel)%nat) as [Hgpu Hfuel].
  { unfold InitCache in Hans. fold w in Hans.
    destruct (init_cache_eq w (gpu_cache_size request) (host_cache_size request)
      (disk_cache_size request) (disk_cache_path request) bits Hbits HL Hbs Hkv Hhd) as [Hpos E].
    rewrite E in Hans. clear E. cbn [nd_files nd_service set_worker nd_socket] in Hans. rewrite Hsock in Hans.
    set (params := Build_KVWorkerParams _ _ _ _ _ _ _ _) in *. split.
    - destruct (Z.le_gt_cases (block_bytes w bits) (gpu_cache_size request)) as [|Hlt]; [done|].
      assert (init_kv_cache shared_memory pagelocked_empty element_size params (nd_files n)
        = (Raise RuntimeError, nd_files n)) as E.
      { apply init_kv_cache_no_room. cbn [kvp_num_layers kvp_num_gpu_blocks params].
        assert (gpu_cache_size request / block_bytes w bits < 1) by (by apply Z.div_lt_upper_bound; lia). nia. }
      rewrite E, wait_socket_never in Hans. done.
    - destruct (init_kv_cache _ _ _ _ _) as [[kv|e] files]; [|by rewrite wait_socket_never in Hans].
      destruct (Nat.lt_ge_cases boot fuel) as [|Hge]; [done|]. by rewrite wait_socket_short in Hans. }
  destruct (InitCache_room fuel boot request Hgpu Hhost Hdisk Hfuel) as (a' & kv & n1 & E & Hkv' & Hst).
  rewrite Hans in E. injection E as <- <-. by exists kv.
Qed.

(** C18: the service brings up a well-formed KV store that no request can break.
    When the sizes leave room for a GPU block and the machine provides the memory,
    [InitCache] answers as soon as the new process listens, and that process has the
    block counts of the answer.  Whatever list of [CopyKV] requests follows, with valid
    or invalid ids, returning or raising, the store is well formed and has the
    same shape. *)
Theorem kv_service_store_invariant (fuel boot : nat) request requests :
  block_bytes w bits ≤ gpu_cache_size request →
  0 ≤ host_cache_size request → 0 ≤ disk_cache_size request → (boot < fuel)%nat →
  ∃ answer kv n', InitCache shared_memory pagelocked_empty element_size fuel boot request n
                  = (Ok (Some answer), n') ∧
    nd_kv n' = Some kv ∧
    let kv' := serve_copies requests kv in
    store_wf kv' ∧ num_layers kv' = mc_num_layers (model_config w) ∧ block_stride kv' = stride ∧
    num_blocks kv' GPU = num_gpu_blocks answer ∧
    num_blocks kv' Host = num_host_blocks answer ∧
    num_blocks kv' Disk = num_disk_blocks answer.
Proof using All.
  intros Hgpu Hhost Hdisk Hfuel.
  destruct (InitCache_room fuel boot request Hgpu Hhost Hdisk Hfuel)
    as (a & kv & n' & E & Hkv' & Hwf & EL & ES & EB).
  destruct (serve_copies_keeps requests kv Hwf) as [Hwf' (L' & S' & B')].
  exists a, kv, n'. split; [done|]. split; [done|]. cbn zeta. rewrite L', S', !B', !EB. done.
Qed.

(** C40: [InitCache] never answers when the sizes leave no room for a GPU block: the
    KV worker dies of [RuntimeError] while it shapes the empty caches, its socket
    never appears, and the handler polls for it for as long as it is run, with the
    new caches of the model already allocated. *)
Theorem init_cache_waits_for_dead_worker (fuel boot : nat) request :
  gpu_cache_size request < block_bytes w bits → nd_kv n = None →
  ∃ n', InitCache shared_memory pagelocked_empty element_size fuel boot request n = (Ok None, n') ∧
    nd_kv n' = None ∧ kv_worker (nd_service n') = kv_worker (nd_service n) ∧
    nd_files n' = nd_files n ∧ is_Some (kv_caches (worker (nd_service n'))).
Proof using Hbits HL Hbs Hkv Hhd.
  intros Hgpu Hnone.
  destruct (init_cache_eq w (gpu_cache_size request) (host_cache_size request)
    (disk_cache_size request) (disk_cache_path request) bits Hbits HL Hbs Hkv Hhd) as [Hpos E].
  unfold InitCache. fold w. rewrite E. clear E.
  set (params := Build_KVWorkerParams _ _ _ _ _ _ _ _).
  assert (init_kv_cache shared_memory pagelocked_empty element_size params (nd_files n)
    = (Raise RuntimeError, nd_files n)) as E.
  { apply init_kv_cache_no_room. cbn [kvp_num_layers kvp_num_gpu_blocks params].
    assert (gpu_cache_size request / block_bytes w bits < 1) by (by apply Z.div_lt_upper_bound; lia). nia. }
  cbn [nd_files nd_service set_worker nd_socket nd_kv]. rewrite E, Hnone.
  rewrite orb_false_r. eexists. split; [by destruct (wait_socket _ _) as [[]|]|]. done.
Qed.
End properties.

(** ** Witnesses *)

#[local] Existing Instances sampling_Z fi_Z.
Definition node_Z : node (K := Z) (V := Z) (F := Z) :=
  {| nd_service := WorkerService_init worker_Z "/run/w"; nd_files := ∅; nd_socket := false;
     nd_kv := None |}.
Definition shared_zeros (params : KVWorkerParams) : list Z :=
  replicate (Z.to_nat (kvp_num_layers params * kvp_num_gpu_blocks params * 8)) 0.
Definition pinned_zeros (blocks layers s : Z) : list (list (list Z)) :=
  zeros_array s (blocks, layers, s).

Lemma memory_Z : memory_ok shared_zeros pinned_zeros (λ _, 2) node_Z 16.
Proof.
  split.
  - intros params Hl Hg. unfold len, shared_zeros. rewrite length_replicate.
    change (2 * _) with 8. nia.
  - intros. by apply zeros_wf.
  - done.
Qed.

(** 2 blocks on the device, 3 in host memory, 1 on disk; of the two copies the
    second has an id out of range. *)
Example kv_service_store_invariant_witness :
  ∃ answer kv n', InitCache shared_zeros pinned_zeros (λ _, 2) 5 3
      {| gpu_cache_size := 17; host_cache_size := 24; disk_cache_size := 8;
         disk_cache_path := "/tmp" |} node_Z = (Ok (Some answer), n') ∧
    nd_kv n' = Some kv ∧
    num_gpu_blocks answer = 2 ∧ num_host_blocks answer = 3 ∧ num_disk_blocks answer = 1 ∧
    let request dst := {| block_mappings := [[Build_BlockMappingEntry 1 dst]];
                          src_device := Host; dst_device := Disk |} in
    (CopyKV (request 7) kv).1 = Raise IndexError ∧
    store_wf (serve_copies [request 0; request 7] kv).
Proof.
  pose (request dst := {| block_mappings := [[Build_BlockMappingEntry 1 dst]];
                          src_device := Host; dst_device := Disk |}).
  destruct (kv_service_store_invariant shared_zeros pinned_zeros (λ _, 2) node_Z 16 eq_refl
    eq_refl eq_refl eq_refl eq_refl memory_Z 5 3
    {| gpu_cache_size := 17; host_cache_size := 24; disk_cache_size := 8;
       disk_cache_path := "/tmp" |} [request 0; request 7])
    as (answer & kv & n' & E & Hkv & Hwf & _); try (vm_compute; discriminate).
  - lia.
  - exists answer, kv, n'. split; [exact E|]. split; [exact Hkv|].
    pose proof (f_equal (λ r, (r.1, nd_kv r.2)) E) as E'. simpl in E'. rewrite Hkv in E'.
    vm_compute in E'. injection E' as <- <-. do 3 (split; [reflexivity|]).
    split; [reflexivity|exact Hwf].
Defined.

Example init_cache_waits_for_dead_worker_witness :
  ∃ n', InitCache shared_zeros pinned_zeros (λ _, 2) 100 3
      {| gpu_cache_size := 7; host_cache_size := 24; disk_cache_size := 8;
         disk_cache_path := "/tmp" |} node_Z = (Ok None, n').
Proof.
  destruct (init_cache_waits_for_dead_worker shared_zeros pinned_zeros (λ _, 2) node_Z 16 eq_refl
    eq_refl eq_refl eq_refl eq_refl 100 3
    {| gpu_cache_size := 7; host_cache_size := 24; disk_cache_size := 8;
       disk_cache_path := "/tmp" |}) as (n' & E & _); [by vm_compute|done|].
  by exists n'.
Defined.
