(* ===== verification/Setup.v ===== *)
(** * Start of a worker

    [llm_worker/utils.py] (the CPU affinity of a GPU, the process groups) and
    [ModelConfig] of [models/__init__.py].  [nvidia-smi], the files of sysfs and
    the operating system are parameters. *)
From Stdlib Require Import Ascii.
From stdpp Require Import strings pretty gmap.
From S2P Require Import Prelude PyString Torch ParallelUtils ParallelState Tensor FlashInfer Batch ModelWorker.

#[local] Opaque py_range.

(** ** CPU affinity *)

Module PCIBus.

Record PCIBus := { gpu_idx : Z; domain : string; number : string }.

Definition path (self : PCIBus) : string :=
  let domain := lower (removeprefix "0x" (domain self)) in
  let number := lower (removeprefix "0x" (number self)) in
  ("/sys/class/pci_bus/" +:+ domain +:+ ":" +:+ number)%string.

(** [files]: the text of the files that exist. *)
Definition cpu_affinity (files : gmap string string) (self : PCIBus) : option string :=
  strip <$> files !! (path self +:+ "/cpulistaffinity")%string.

(** One part of the list. *)
Definition part_ids (part : string) : res (list Z) :=
  if contains "-" part then
    bounds ← mapM py_int (split "-" part);
    match bounds with
    | [start; end_] => Ok (py_range start (end_ + 1))
    | _ => Raise ValueError
    end
  else n ← py_int part; Ok [n].

Definition cpu_affinity_ids (files : gmap string string) (self : PCIBus)
    : res (option (list Z)) :=
  match cpu_affinity files self with
  | None => Ok None
  | Some affinity_str =>
      cpu_ids ← foldM (λ cpu_ids part, ids ← part_ids part; Ok (cpu_ids ++ ids)) []
                  (split "," affinity_str);
      Ok (Some cpu_ids)
  end.

(** [get_gpu_pci_bus], from the output of [nvidia-smi], [None] when the command
    fails; the function then returns [None] too. *)
Definition get_gpu_pci_bus (nvidia_smi : option string) (gpu_idx : Z) : res (option PCIBus) :=
  match nvidia_smi with
  | Some stdout =>
      match strip <$> split "," (strip stdout) with
      | [domain; number] => Ok (Some {| gpu_idx := gpu_idx; domain := domain; number := number |})
      | _ => Raise ValueError
      end
  | None => Ok None
  end.

(** The state is the set of CPUs of the process. *)
Definition set_cpu_affinity_for_gpu (nvidia_smi : option string) (files : gmap string string)
    (sched_setaffinity : list Z → res unit) (gpu_idx : Z) : M (list Z) unit :=
  pci_bus ← lift (get_gpu_pci_bus nvidia_smi gpu_idx);
  match pci_bus with
  | None => raise AttributeError
  | Some pci_bus =>
      cpu_ids ← lift (cpu_affinity_ids files pci_bus);
      match cpu_ids with
      | None => mret tt
      | Some cpu_ids => _ ← lift (sched_setaffinity cpu_ids); modify (λ _, cpu_ids)
      end
  end.

End PCIBus.

(** ** The process groups *)

Section distributed.
Context `{Dist} `{LongTensor}.

(** [pg]: the default process group of [torch.distributed], as rank and size. *)
Record process := { pg : option (Z * Z); mp_state : dist_state }.

(** [dist.init_process_group] when all ranks take part; a second one is a
    [ValueError]. *)
Definition init_process_group (rank world_size : Z) : M process unit := λ p,
  match pg p with
  | Some _ => (Raise ValueError, p)
  | None => (Ok tt, {| pg := Some (rank, world_size); mp_state := mp_state p |})
  end.
Definition destroy_process_group : M process unit := λ p,
  match pg p with
  | None => (Raise AssertionError, p)
  | Some _ => (Ok tt, {| pg := None; mp_state := mp_state p |})
  end.

(** A computation on the variables of [parallel/initialize.py]. *)
Definition on_state {A} (m : M dist_state A) : M process A := λ p,
  let '(r, s) := m (mp_state p) in (r, {| pg := pg p; mp_state := s |}).

Definition init_distributed (environ : gmap string string) : M process (Z * Z) :=
  _ ← lift (py_assert (bool_decide (is_Some (environ !! "RANK"%string))));
  _ ← lift (py_assert (bool_decide (is_Some (environ !! "WORLD_SIZE"%string))));
  _ ← lift (py_assert (bool_decide (is_Some (environ !! "MASTER_ADDR"%string))));
  _ ← lift (py_assert (bool_decide (is_Some (environ !! "MASTER_PORT"%string))));
  rank ← lift (s ← py_lookup environ "RANK"%string; py_int s);
  world_size ← lift (s ← py_lookup environ "WORLD_SIZE"%string; py_int s);
  _ ← init_process_group rank world_size;
  _ ← on_state (initialize_model_parallel true world_size rank world_size 1 1
                  None None None None None);
  mret (rank, world_size).

Definition deinit_distributed : M process unit :=
  _ ← destroy_process_group; on_state destroy_model_parallel.
End distributed.

(** ** ModelConfig *)

(** What [AutoConfig] reads; the attributes a model type may lack are options. *)
Record tf_config := {
  num_hidden_layers : Z;
  hidden_size : Z;
  num_attention_heads : Z;
  num_key_value_heads : option Z;
  torch_dtype : option dtype;
}.

Definition ModelConfig_init (tf_config : tf_config) (tp_size : Z) : res ModelConfig :=
  let orig_num_heads := num_attention_heads tf_config in
  let orig_num_kv_heads := default orig_num_heads (num_key_value_heads tf_config) in
  head_dim ← py_floordiv (hidden_size tf_config) orig_num_heads;
  r ← py_mod orig_num_heads tp_size; _ ← py_assert (r =? 0);
  num_heads ← py_floordiv orig_num_heads tp_size;
  r ← py_mod orig_num_kv_heads tp_size; _ ← py_assert (r =? 0);
  num_kv_heads ← py_floordiv orig_num_kv_heads tp_size;
  Ok {| mc_num_layers := num_hidden_layers tf_config; mc_num_heads := num_heads;
        mc_num_kv_heads := num_kv_heads; mc_head_dim := head_dim;
        mc_dtype := default float16 (torch_dtype tf_config) |}.

(** ** Lemmas *)

(** A CPU list as the kernel prints it. *)
Definition print_range (r : N * N) : string :=
  if decide (r.1 = r.2) then pretty r.1 else (pretty r.1 +:+ "-" +:+ pretty r.2)%string.
Definition print_cpulist (rs : list (N * N)) : string :=
  (String.concat "," (print_range <$> rs) +:+ String "010" "")%string.
Definition range_ids (r : N * N) : list Z := py_range (Z.of_N r.1) (Z.of_N r.2 + 1).

Lemma no_dash_pretty (n : N) : no_char "-" (pretty n) = true.
Proof. apply no_char_pretty_N. not_a_digit. Qed.
Lemma no_comma_pretty (n : N) : no_char "," (pretty n) = true.
Proof. apply no_char_pretty_N. not_a_digit. Qed.

Lemma part_ids_range r : PCIBus.part_ids (print_range r) = Ok (range_ids r).
Proof.
  destruct r as [a b]. unfold PCIBus.part_ids, print_range, range_ids. simpl.
  change ("-"%string) with (String "-" EmptyString). rewrite contains_char. case_decide as E.
  - rewrite no_dash_pretty. simpl. rewrite py_int_pretty. subst. simpl. f_equal.
    by rewrite py_range_cons, py_range_empty by lia.
  - rewrite !no_char_app, no_dash_pretty. simpl. change ("-" +:+ pretty b)%string with (String "-" (pretty b)).
    rewrite split_app, split_one by apply no_dash_pretty.
    simpl. by rewrite !py_int_pretty.
Qed.

Lemma print_range_chars r :
  no_char "," (print_range r) = true ∧ no_spaces (print_range r) = true.
Proof.
  assert (∀ n : N, no_spaces (pretty n) = true) by (intros; apply no_spaces_digits, all_digits_pretty).
  unfold print_range. case_decide; [by rewrite no_comma_pretty|].
  by rewrite !no_char_app, !no_spaces_app, !no_comma_pretty, !H.
Qed.

Lemma cpu_affinity_ids_print files bus rs :
  rs ≠ [] → files !! (PCIBus.path bus +:+ "/cpulistaffinity")%string = Some (print_cpulist rs) →
  PCIBus.cpu_affinity_ids files bus = Ok (Some (concat (range_ids <$> rs))).
Proof.
  intros Hne Hfile. unfold PCIBus.cpu_affinity_ids, PCIBus.cpu_affinity. rewrite Hfile. simpl.
  unfold print_cpulist. rewrite strip_spaces.
  - rewrite split_concat.
    + rewrite foldM_fmap. rewrite (foldM_pure _ (λ ids r, ids ++ range_ids r)).
      * simpl. f_equal. f_equal. clear. change (concat (range_ids <$> rs)) with ([] ++ concat (range_ids <$> rs)).
        generalize (@nil Z). induction rs as [|r rs IH]; intros l; csimpl; [by rewrite app_nil_r|].
        by rewrite IH, app_assoc.
      * intros ids r _. by rewrite part_ids_range.
    + by destruct rs.
    + apply Forall_fmap, Forall_forall. intros r _. by apply print_range_chars.
  - apply no_spaces_concat; [done|]. apply Forall_fmap, Forall_forall. intros r _. by apply print_range_chars.
  - done.
Qed.

(** ** Theorems *)

(** Every CPU list the kernel prints is read back: for the text of any list of
    CPU numbers and ranges, the process is bound to the CPUs of the ranges in order,
    provided the system accepts them.  The text of an empty list is a [ValueError]
    instead of an empty list, a missing file leaves the process unbound, and when
    [nvidia-smi] fails the function uses the [None] it got ([AttributeError]). *)
Theorem cpu_affinity_reads_cpulist stdout files accept gpu bus (cpus : list Z) :
  PCIBus.get_gpu_pci_bus (Some stdout) gpu = Ok (Some bus) →
  let file := (PCIBus.path bus +:+ "/cpulistaffinity")%string in
  let run files := PCIBus.set_cpu_affinity_for_gpu (Some stdout) files accept gpu cpus in
  (∀ rs : list (N * N), rs ≠ [] → accept (concat (range_ids <$> rs)) = Ok tt →
     run (<[file := print_cpulist rs]> files) = (Ok tt, concat (range_ids <$> rs))) ∧
  run (<[file := print_cpulist []]> files) = (Raise ValueError, cpus) ∧
  run (delete file files) = (Ok tt, cpus) ∧
  PCIBus.set_cpu_affinity_for_gpu None files accept gpu cpus = (Raise AttributeError, cpus).
Proof.
  intros Hbus file run. unfold run, PCIBus.set_cpu_affinity_for_gpu. rewrite Hbus.
  split; [|split; [|split]].
  - intros rs Hne Hacc. rewrite M_bind_eq. simpl. unfold lift at 1.
    rewrite (cpu_affinity_ids_print _ bus rs) by (try done; by rewrite lookup_insert_eq).
    rewrite M_bind_eq. simpl. rewrite M_bind_eq. unfold lift. by rewrite Hacc.
  - rewrite M_bind_eq. simpl. unfold PCIBus.cpu_affinity_ids, PCIBus.cpu_affinity.
    fold file. by rewrite lookup_insert_eq.
  - rewrite M_bind_eq. simpl. unfold PCIBus.cpu_affinity_ids, PCIBus.cpu_affinity.
    fold file. by rewrite lookup_delete_eq.
  - done.
Qed.

Section distributed_properties.
Context `{DistLaws} `{LongTensorLaws}.

(** The variables [torchrun] sets. *)
Definition launched (environ : gmap string string) (rank size : N) : Prop :=
  environ !! "RANK"%string = Some (pretty rank) ∧
  environ !! "WORLD_SIZE"%string = Some (pretty size) ∧
  is_Some (environ !! "MASTER_ADDR"%string) ∧ is_Some (environ !! "MASTER_PORT"%string).

Definition groups_unset (v : globals) : Prop :=
  _MODEL_PARALLEL_GROUP v = None ∧ _DATA_PARALLEL_GROUP v = None ∧
  _PIPELINE_PARALLEL_GROUP v = None ∧ _CONTEXT_PARALLEL_GROUP v = None.

Lemma init_distributed_eq environ (rank size : N) v gs :
  launched environ rank size → (rank < size)%N → groups_unset v →
  ∃ gs', init_distributed environ {| pg := None; mp_state := DistState v gs |}
    = (Ok (Z.of_N rank, Z.of_N size),
       {| pg := Some (Z.of_N rank, Z.of_N size);
          mp_state := DistState (topology 1 1 1 (Z.of_N size) (Z.of_N rank) None None None None None v) gs' |}).
Proof.
  intros (Hr & Hw & [a Ha] & [p Hp]) Hlt (HM & HD & HP & HC). eexists.
  unfold init_distributed. rewrite Hr, Hw, Ha, Hp. rewrite !bool_decide_true by done.
  unfold py_lookup. rewrite Hr, Hw. cbn [py_assert mbind res_bind]. rewrite !py_int_pretty.
  do 6 (rewrite M_bind_eq; cbn [lift]). rewrite M_bind_eq. cbn [init_process_group pg].
  rewrite M_bind_eq. unfold on_state. cbn [mp_state].
  pose proof (initialize_runs 1 1 1 (Z.of_N size) (Z.of_N rank) None None None None None
    ltac:(lia) ltac:(lia) ltac:(lia) ltac:(lia) ltac:(lia) v gs HM HD HP HC) as E.
  rewrite !Z.mul_1_l in E. rewrite E. done.
Qed.

(** A launched process joins the world its environment describes: it gets its
    rank and the size of the world, the model-parallel group is the whole world with
    the same ranks, and data parallelism is trivial.  A second initialization is a
    [ValueError] that changes nothing; after [deinit_distributed] the groups are
    unset and initialization works again. *)
Theorem init_distributed_joins_world environ (rank size : N) v gs :
  launched environ rank size → (rank < size)%N → groups_unset v →
  let s0 := {| pg := None; mp_state := DistState v gs |} in
  let '(r1, s1) := init_distributed environ s0 in
  let '(r2, s2) := deinit_distributed s1 in
  let w := vars (mp_state s1) in
  r1 = Ok (Z.of_N rank, Z.of_N size) ∧
  get_model_parallel_world_size w = Ok (Z.of_N size) ∧
  get_model_parallel_rank (Z.of_N rank) w = Ok (Z.of_N rank) ∧
  get_data_parallel_world_size w = Ok 1 ∧ get_data_parallel_rank (Z.of_N rank) w = Ok 0 ∧
  init_distributed environ s1 = (Raise ValueError, s1) ∧
  r2 = Ok tt ∧ pg s2 = None ∧ groups_unset (vars (mp_state s2)) ∧
  (init_distributed environ s2).1 = r1.
Proof.
  intros Hl Hlt Hv s0. destruct (init_distributed_eq environ rank size v gs Hl Hlt Hv) as (gs' & E).
  unfold s0. rewrite E. destruct (getters_of_topology 1 1 1 (Z.of_N size) (Z.of_N rank)
    None None None None None v) as (G1 & G2 & G3 & G4 & _); [lia..|].
  destruct (deinit_distributed _) as [r2 s2] eqn:E2. unfold deinit_distributed in E2.
  rewrite M_bind_eq in E2. cbn [destroy_process_group pg] in E2. injection E2 as <- <-.
  split_and!; try done.
  - etransitivity; [exact G2|]. by rewrite Z.mod_small by lia.
  - etransitivity; [exact G4|]. by rewrite Z.mod_1_r.
  - destruct Hl as (Hr & Hw & [a Ha] & [p Hp]). unfold init_distributed.
    rewrite Hr, Hw, Ha, Hp. rewrite !bool_decide_true by done. unfold py_lookup. rewrite Hr, Hw.
    cbn [py_assert mbind res_bind]. rewrite !py_int_pretty. by do 7 (rewrite M_bind_eq; cbn [lift]).
  - match goal with |- (init_distributed _ ?s).1 = _ =>
      destruct (init_distributed_eq environ rank size (vars (mp_state s)) (new_groups (mp_state s))
        Hl Hlt) as (gs2 & E3); [done|] end.
    cbn [mp_state vars new_groups pg] in *. by rewrite E3.
Qed.
End distributed_properties.

(** The ranks share the heads evenly: the configuration of a rank of [tp_size]
    has a [tp_size]-th of the query and of the key-value heads of the whole model and
    otherwise the same sizes, so that the keys and values of a block take a
    [tp_size]-th of the bytes; when one of the two numbers of heads is not a multiple
    of the parallel size the worker stops with [AssertionError]. *)
Theorem model_config_shares_heads (tf : tf_config) tp_size :
  0 < tp_size → 0 < num_attention_heads tf →
  match ModelConfig_init tf tp_size with
  | Ok c => ∃ whole, ModelConfig_init tf 1 = Ok whole ∧
      mc_num_heads whole = tp_size * mc_num_heads c ∧
      mc_num_kv_heads whole = tp_size * mc_num_kv_heads c ∧
      mc_head_dim whole = mc_head_dim c ∧ mc_num_layers whole = mc_num_layers c ∧
      mc_dtype whole = mc_dtype c ∧
      ∀ block_size bits,
        block_size * mc_num_kv_heads whole * mc_head_dim whole * (bits / 8)
        = tp_size * (block_size * mc_num_kv_heads c * mc_head_dim c * (bits / 8))
  | Raise e => e = AssertionError ∧
      ¬ ((tp_size | num_attention_heads tf) ∧
         (tp_size | default (num_attention_heads tf) (num_key_value_heads tf)))
  end.
Proof.
  intros Ht Hh. unfold ModelConfig_init.
  set (h := num_attention_heads tf) in *. set (k := default h _).
  rewrite !py_floordiv_pos, !py_mod_pos by done. cbn [mbind res_bind].
  destruct (Z.eqb_spec (h `mod` tp_size) 0) as [Eh|Eh]; simpl.
  2:{ split; [done|]. intros [[q ->] _]. by rewrite Z.mod_mul in Eh by lia. }
  destruct (Z.eqb_spec (k `mod` tp_size) 0) as [Ek|Ek]; simpl.
  2:{ split; [done|]. intros [_ [q Eq]]. rewrite Eq in Ek. by rewrite Z.mod_mul in Ek by lia. }
  rewrite !Z.mod_1_r, !Z.div_1_r. eexists. split; [done|]. simpl.
  pose proof (Z.div_mod h tp_size ltac:(lia)). pose proof (Z.div_mod k tp_size ltac:(lia)).
  split_and!; try done; [lia..|]. intros b bits. replace k with (tp_size * (k / tp_size)) at 1 by lia. ring.
Qed.

(** ** Witnesses *)

Example cpu_affinity_reads_cpulist_witness :
  let bus := {| PCIBus.gpu_idx := 0; PCIBus.domain := "0x0000"; PCIBus.number := "0x3B" |} in
  PCIBus.path bus = "/sys/class/pci_bus/0000:3b"%string ∧
  print_cpulist [(0%N, 3%N); (10%N, 10%N)] = ("0-3,10" +:+ String "010" "")%string ∧
  PCIBus.set_cpu_affinity_for_gpu (Some "0x0000, 0x3B"%string)
    (<["/sys/class/pci_bus/0000:3b/cpulistaffinity"%string := print_cpulist [(0%N, 3%N); (10%N, 10%N)]]> ∅)
    (λ _, Ok tt) 0 [] = (Ok tt, [0; 1; 2; 3; 10]).
Proof.
  split; [done|]. split; [done|].
  destruct (cpu_affinity_reads_cpulist "0x0000, 0x3B" ∅ (λ _, Ok tt) 0
    {| PCIBus.gpu_idx := 0; PCIBus.domain := "0x0000"; PCIBus.number := "0x3B" |} [] eq_refl)
    as [Hall _].
  exact (Hall [(0%N, 3%N); (10%N, 10%N)] ltac:(done) eq_refl).
Defined.

Definition environ_2 : gmap string string :=
  {["RANK" := "1"; "WORLD_SIZE" := "2"; "MASTER_ADDR" := "localhost"; "MASTER_PORT" := "29500"]}%string.

Example init_distributed_joins_world_witness :
  let s1 := (init_distributed environ_2 {| pg := None; mp_state := DistState module_globals [] |}).2 in
  get_model_parallel_rank 1 (vars (mp_state s1)) = Ok 1 ∧
  init_distributed environ_2 s1 = (Raise ValueError, s1) ∧
  (init_distributed environ_2 (deinit_distributed s1).2).1 = Ok (1, 2).
Proof.
  intros s1. assert (launched environ_2 1 2) as Hl.
  { split_and!; try reflexivity; by eexists. }
  pose proof (init_distributed_joins_world environ_2 1 2 module_globals [] Hl eq_refl) as H.
  specialize (H (conj eq_refl (conj eq_refl (conj eq_refl eq_refl)))). cbv zeta in H. fold s1 in H.
  unfold s1 in *. destruct (init_distributed environ_2 _) as [r1 s]. simpl in *.
  destruct (deinit_distributed s) as [r2 s2]. simpl in *.
  destruct H as (-> & _ & Hr & _ & _ & E & _ & _ & _ & E2). auto.
Defined.

Example model_config_shares_heads_witness :
  let tf := {| num_hidden_layers := 32; hidden_size := 4096; num_attention_heads := 32;
               num_key_value_heads := Some 8; torch_dtype := Some bfloat16 |} in
  (∃ whole, ModelConfig_init tf 1 = Ok whole ∧ mc_num_kv_heads whole = 4 * 2) ∧
  ModelConfig_init tf 3 = Raise AssertionError.
Proof.
  intros tf. split.
  - destruct (model_config_shares_heads tf 4 eq_refl eq_refl) as (whole & E & _ & Hk & _).
    exists whole. split; [exact E|exact Hk].
  - reflexivity.
Defined.
