(* ===== verification/ModelUtils.v ===== *)
(** * Module trees and weight loading

    [models/utils.py] ([get_layer_type], [load_weights], [travel_layers]), the
    loop of the models' [load_weights] methods and [get_model_size].  A model is
    the tree of its modules on one rank; the hub files are I/O and left out. *)
From Stdlib Require Import Ascii.
From stdpp Require Import strings.
From S2P Require Import Prelude PyString Tensor.

(** ** Names *)

Notation split_dots := (split ".").
Notation no_dot := (no_char ".").

(** The part of [s] before the suffix [suf]. *)
Definition before_suffix (suf s : string) : option string :=
  let n := (String.length s - String.length suf)%nat in
  if String.eqb (String.substring n (String.length suf) s) suf
  then Some (String.substring 0 n s) else None.

(** ** Module trees *)

Section modules.
Context {V : Type}.

(** A parameter: a vector or a matrix. *)
Inductive tensor := Vec (v : list V) | Matrix (m : mat V).

Definition shape (t : tensor) : list Z :=
  match t with Vec v => [len v] | Matrix m => [nrows m; cols m] end.
Definition numel (t : tensor) : Z := foldr Z.mul 1 (shape t).

(** [t[a:b]] and [t[:, a:b]] for [0 <= a]. *)
Definition slice_rows (t : tensor) (a b : Z) : tensor :=
  match t with
  | Vec v => Vec (py_slice v a b)
  | Matrix m => Matrix (Mat (cols m) (py_slice (rows m) a b))
  end.
Definition slice_cols (t : tensor) (a b : Z) : res tensor :=
  match t with
  | Vec _ => Raise IndexError
  | Matrix m => Ok (Matrix (map_rows (Z.max 0 (Z.min b (cols m) - a)) (λ r, py_slice r a b) m))
  end.

(** A module: its class, its own parameters by name, its buffers, its children
    by name, all in the order of their registration. *)
Inductive module :=
  | Module_ (cls : string) (parameters : list (string * tensor)) (buffers : list tensor)
      (children : list (string * module)).

Definition class_of (m : module) : string := let '(Module_ c _ _ _) := m in c.
Definition named_children (m : module) : list (string * module) := let '(Module_ _ _ _ k) := m in k.

(** The parameters of a module and of those below it, with the names of the
    modules on the way, the class of the owner and the name there. *)
Fixpoint parameter_paths (path : list string) (m : module)
    : list (list string * (string * string) * tensor) :=
  match m with
  | Module_ c ps _ cs =>
      ((λ '(n, p), (path, (c, n), p)) <$> ps)
      ++ concat ((λ '(n, child), parameter_paths (path ++ [n]) child) <$> cs)
  end.

(** [named_parameters]: the full name joins the path and the name by dots. *)
Definition full_name (path : list string) (n : string) : string :=
  String.concat "." (path ++ [n]).
Definition named_parameters (m : module) : list (string * tensor) :=
  (λ '(path, (_, n), p), (full_name path n, p)) <$> parameter_paths [] m.

(** [getattr(obj, name)] where the attribute is a module. *)
Definition py_getattr (m : module) (name : string) : res module :=
  match list_find (λ c, c.1 = name) (named_children m) with
  | Some (_, (_, child)) => Ok child
  | None => Raise AttributeError
  end.
Definition rgetattr (obj : module) (attr : string) : res module :=
  foldM py_getattr obj (split_dots attr).

(** The regular expression: a layer name, a dot, [weight] or [bias]. *)
Definition match_param (param_name : string) : option (string * string) :=
  match before_suffix ".weight" param_name with
  | Some l => Some (l, "weight"%string)
  | None => (λ l, (l, "bias"%string)) <$> before_suffix ".bias" param_name
  end.

Definition get_layer_type (model : module) (param_name : string) : res (string * string) :=
  match match_param param_name with
  | None => Raise ValueError
  | Some (layer_name, param_type) =>
      m ← rgetattr model layer_name; Ok (class_of m, param_type)
  end.

(** The new contents of [param]. *)
Definition load_weights (param loaded_weight : tensor) (layer_types : string * string)
    (tensor_model_parallel_rank : Z) : res tensor :=
  let '(layer_type, param_type) := layer_types in
  loaded_weight ←
    (if bool_decide (layer_type ∈ ["VocabParallelEmbedding"; "ColumnParallelLinear"]%string) then
       shard_size ← py_get (shape param) 0;
       let start_idx := tensor_model_parallel_rank * shard_size in
       let end_idx := (tensor_model_parallel_rank + 1) * shard_size in
       Ok (slice_rows loaded_weight start_idx end_idx)
     else if bool_decide (layer_type ∈ ["RowParallelLinear"]%string) then
       shard_size ← (if bool_decide (param_type = "bias"%string) then py_get (shape param) 0
                     else py_get (shape param) 1);
       let start_idx := tensor_model_parallel_rank * shard_size in
       let end_idx := (tensor_model_parallel_rank + 1) * shard_size in
       slice_cols loaded_weight start_idx end_idx
     else Ok loaded_weight);
  _ ← py_assert (bool_decide (shape param = shape loaded_weight));
  Ok loaded_weight.

(** *** Weight files *)

(** What the hub and the disk answer for the model: the files of the repository, the
    directory of a snapshot from the disk alone or downloaded, whether a path exists,
    and the tensors of a file in their order. *)
Record hub := {
  list_repo_files : list string;
  snapshot_local : res string;
  snapshot_download : res string;
  path_exists : string → bool;
  load_safetensors : string → res (list (string * tensor));
  torch_load : string → res (list (string * tensor));
}.

(** The loop over [extensions] ends at the first one with files. *)
Fixpoint select_files (repo_files extensions : list string) : list string :=
  match extensions with
  | [] => []
  | ext :: extensions =>
      let weight_files := filter (λ f, endswith ext f = true) repo_files in
      if 0 <? len weight_files then weight_files else select_files repo_files extensions
  end.

Definition _get_hf_weight_files (h : hub) (extensions : list string) : res (list string) :=
  let weight_files := select_files (list_repo_files h) extensions in
  _ ← py_require (negb (len weight_files =? 0)) FileNotFoundError;
  local_path ←
    match (local_path ← snapshot_local h;
           _ ← mapM (λ fname, py_require (path_exists h (path_join local_path fname))
                                FileNotFoundError) weight_files;
           Ok local_path) with
    | Raise FileNotFoundError => snapshot_download h
    | r => r
    end;
  Ok (path_join local_path <$> weight_files).

(** What a generator yields, and the exception that ends it if one does. *)
Notation weight_iter := (list (string * tensor) * option exc)%type.
Definition for_weights {S} (body : S → string * tensor → res S) (s : S) (weights : weight_iter)
    : res S :=
  s ← foldM body s weights.1;
  match weights.2 with Some e => Raise e | None => Ok s end.

Definition load_file (h : hub) (file : string) : res (list (string * tensor)) :=
  if endswith ".safetensors" file then load_safetensors h file else torch_load h file.
Fixpoint iter_files (h : hub) (files : list string) : weight_iter :=
  match files with
  | [] => ([], None)
  | file :: files =>
      match load_file h file with
      | Raise e => ([], Some e)
      | Ok state => let '(rest, e) := iter_files h files in (state ++ rest, e)
      end
  end.
Definition hf_weight_iter (h : hub) : weight_iter :=
  match _get_hf_weight_files h [".bin"; ".safetensors"]%string with
  | Raise e => ([], Some e)
  | Ok hf_weight_files => iter_files h hf_weight_files
  end.

(** *** The models' [load_weights] *)

(** [params_dict]: the parameters of the model by their full names. *)
Notation params_dict := (gmap string tensor).

(** One iteration of the loop, after the model's own renaming of the entry. *)
Definition load_entry (model : module) (rank : Z) (params : params_dict) (name : string)
    (loaded_weight : tensor) : res params_dict :=
  param ← (match params !! name with Some p => Ok p | None => Raise KeyError end);
  types ← get_layer_type model name;
  new ← load_weights param loaded_weight types rank;
  Ok (<[name := new]> params).

(** [dst.data.copy_(src)], which broadcasts only between equal shapes here. *)
Definition copy_param (params : params_dict) (dst src : string) : res params_dict :=
  match params !! src, params !! dst with
  | Some s, Some d =>
      _ ← py_require (bool_decide (shape s = shape d)) RuntimeError; Ok (<[dst := s]> params)
  | _, _ => Raise AttributeError
  end.

(** [LlamaForCausalLM.load_weights] (and that of Qwen2). *)
Definition llama_load_weights (model : module) (rank : Z) (tie_word_embeddings : bool)
    (weights : weight_iter) (params : params_dict) : res params_dict :=
  params ← for_weights (λ params '(name, loaded_weight),
    if contains "rotary_emb.inv_freq" name then Ok params
    else load_entry model rank params name loaded_weight) params weights;
  if tie_word_embeddings
  then copy_param params "lm_head.weight" "model.embed_tokens.weight" else Ok params.

Definition qwen2_load_weights := llama_load_weights.

(** [OPTForCausalLM.load_weights] *)
Definition opt_load_weights (model : module) (rank : Z) (tie_word_embeddings : bool)
    (weights : weight_iter) (params : params_dict) : res params_dict :=
  params ← for_weights (λ params '(name, loaded_weight),
    if contains "lm_head.weight" name && tie_word_embeddings then Ok params
    else
      let name := if String.prefix "decoder." name then ("model." +:+ name)%string else name in
      load_entry model rank params name loaded_weight) params weights;
  copy_param params "lm_head.weight" "model.decoder.embed_tokens.weight".

(** *** Traversals *)

(** Whether a leaf is kept. *)
Definition included (includes : option (list string)) (mod_ : module) : bool :=
  match includes with
  | None => true
  | Some includes => existsb (λ i, contains (lower i) (lower (class_of mod_))) includes
  end.

Fixpoint travel_layers (mod_ : module) (includes : option (list string)) : list module :=
  match named_children mod_ with
  | [] => if included includes mod_ then [mod_] else []
  | _ => match mod_ with
         | Module_ _ _ _ cs => concat ((λ '(_, child), travel_layers child includes) <$> cs)
         end
  end.

(** [get_model_size]; only the leaves are counted. *)
Fixpoint get_total_size (element_size : tensor → Z) (mod_ : module) : Z :=
  match mod_ with
  | Module_ _ ps bs [] => sumZ ((λ p, numel p.2 * element_size p.2) <$> ps)
                          + sumZ ((λ b, numel b * element_size b) <$> bs)
  | Module_ _ _ _ cs => sumZ ((λ '(_, child), get_total_size element_size child) <$> cs)
  end.
End modules.
Arguments tensor : clear implicits.
Arguments module : clear implicits.

Lemma full_name_path path n :
  path ≠ [] → full_name path n = (String.concat "." path +:+ "." +:+ n)%string.
Proof.
  unfold full_name. induction path as [|p [|p' path] IH]; intros Hne; [done|done|].
  change (String.concat "." ((p :: p' :: path) ++ [n]))
    with (p +:+ "." +:+ String.concat "." ((p' :: path) ++ [n]))%string.
  change (String.concat "." (p :: p' :: path))
    with (p +:+ "." +:+ String.concat "." (p' :: path))%string.
  rewrite IH by done. by rewrite !string_app_assoc.
Qed.

Lemma substring_all s : String.substring 0 (String.length s) s = s.
Proof. induction s as [|c s IH]; simpl; [done|by rewrite IH]. Qed.
Lemma substring_app_r a b :
  String.substring (String.length a) (String.length b) (a +:+ b) = b.
Proof. induction a as [|c a IH]; [apply substring_all|done]. Qed.
Lemma substring_app_l a b : String.substring 0 (String.length a) (a +:+ b) = a.
Proof.
  induction a as [|c a IH]; [by destruct b|].
  change (String c (String.substring 0 (String.length a) (a +:+ b)) = String c a). by rewrite IH.
Qed.

Lemma before_suffix_app suf a : before_suffix suf (a +:+ suf) = Some a.
Proof.
  unfold before_suffix. rewrite string_length_app, Nat.add_sub, substring_app_r, String.eqb_refl.
  by rewrite substring_app_l.
Qed.

(** The last character tells the two kinds of parameters apart. *)
Fixpoint last_char (s : string) : option ascii :=
  match s with
  | EmptyString => None
  | String c EmptyString => Some c
  | String _ s => last_char s
  end.
Lemma last_char_app a b : b ≠ ""%string → last_char (a +:+ b) = last_char b.
Proof.
  intros Hb. induction a as [|c a IH]; [done|]. rewrite string_cons_app. rewrite <-IH.
  destruct a; [by destruct b|done].
Qed.
Lemma last_char_substring n s : (n < String.length s)%nat →
  last_char (String.substring n (String.length s - n) s) = last_char s.
Proof.
  revert n. induction s as [|c s IH]; intros n Hn; [simpl in Hn; lia|].
  destruct n as [|n]; [by rewrite Nat.sub_0_r, substring_all|]. simpl in Hn.
  change (last_char (String.substring n (String.length s - n) s) = last_char (String c s)).
  rewrite IH by lia. destruct s; [simpl in Hn; lia|done].
Qed.

Lemma match_param_weight a : match_param (a +:+ ".weight") = Some (a, "weight"%string).
Proof. unfold match_param. by rewrite before_suffix_app. Qed.

Lemma match_param_bias a : match_param (a +:+ ".bias") = Some (a, "bias"%string).
Proof.
  unfold match_param. rewrite (before_suffix_app ".bias" a).
  destruct (before_suffix ".weight" (a +:+ ".bias")) as [l|] eqn:E; [|done].
  exfalso. unfold before_suffix in E. rewrite string_length_app in E.
  destruct (String.eqb _ ".weight") eqn:Hs; [|done]. apply String.eqb_eq in Hs.
  apply (f_equal last_char) in Hs. simpl String.length in Hs.
  destruct (decide (2 ≤ String.length a)%nat) as [Ha|Ha].
  - pose proof (last_char_substring (String.length a + 5 - 7) (a +:+ ".bias")) as Hl.
    rewrite string_length_app in Hl. simpl String.length in Hl.
    replace (String.length a + 5 - (String.length a + 5 - 7))%nat with 7%nat in Hl by lia.
    rewrite Hl, last_char_app in Hs by (done || lia). done.
  - destruct a as [|x [|y a]]; simpl in Hs; [done|done|simpl in Ha; lia].
Qed.

Lemma match_param_full path n :
  path ≠ [] → n = "weight"%string ∨ n = "bias"%string →
  match_param (full_name path n) = Some (String.concat "." path, n).
Proof.
  intros Hp Hn. rewrite full_name_path by done.
  destruct Hn as [-> | ->]; [apply match_param_weight|apply match_param_bias].
Qed.

(** ** Trees *)

Section tree.
Context {V : Type}.
Notation module := (module V).

(** Induction over a module and its children. *)
Lemma module_tree_ind (P : module → Prop) :
  (∀ c ps bs cs, Forall (λ e, P e.2) cs → P (Module_ c ps bs cs)) → ∀ m, P m.
Proof.
  intros H. fix IH 1. intros [c ps bs cs]. apply H.
  induction cs as [|[n m] cs IHcs]; constructor; [apply IH|done].
Qed.

(** Names that full names can be taken apart into again. *)
Inductive names_ok : module → Prop :=
  | names_ok_intro c ps bs cs :
      Forall (λ p, p.1 = "weight"%string ∨ p.1 = "bias"%string) ps → NoDup ps.*1 →
      Forall (λ e, no_dot e.1 = true) cs → NoDup cs.*1 → Forall (λ e, names_ok e.2) cs →
      names_ok (Module_ c ps bs cs).

Definition entry_key (e : list string * (string * string) * tensor V) : list string :=
  e.1.1 ++ [e.1.2.2].
Definition entry_name (e : list string * (string * string) * tensor V) : string :=
  full_name e.1.1 e.1.2.2.

Lemma named_parameters_fmap (m : module) :
  named_parameters m = (λ e, (entry_name e, e.2)) <$> parameter_paths [] m.
Proof. unfold named_parameters. apply list_fmap_ext. by intros ? [[path [c n]] p] _. Qed.

Lemma elem_of_parameter_paths path c ps bs cs (e : list string * (string * string) * tensor V) :
  e ∈ parameter_paths path (Module_ c ps bs cs) ↔
  (∃ n p, (n, p) ∈ ps ∧ e = (path, (c, n), p)) ∨
  (∃ n child, (n, child) ∈ cs ∧ e ∈ parameter_paths (path ++ [n]) child).
Proof.
  cbn [parameter_paths]. rewrite elem_of_app, list_elem_of_fmap, elem_of_concat_fmap.
  split; (intros [Ho|Hc]; [left|right]).
  - destruct Ho as ([n p] & -> & Hin). eauto.
  - destruct Hc as ([n m] & Hin & He). eauto.
  - destruct Ho as (n & p & Hin & ->). by exists (n, p).
  - destruct Hc as (n & m & Hin & He). by exists (n, m).
Qed.

(** A path through a tree with such names leads back to the owner. *)
Lemma py_getattr_child c ps bs (cs : list (string * module)) n child :
  NoDup cs.*1 → (n, child) ∈ cs → py_getattr (Module_ c ps bs cs) n = Ok child.
Proof.
  intros Hnd (i & Hi)%list_elem_of_lookup. unfold py_getattr. cbn [named_children].
  destruct (list_find (λ c, c.1 = n) cs) as [[j [n' m]]|] eqn:E.
  - apply list_find_Some in E as (Hj & Hn & _). simpl in Hn. subst n'.
    assert (j = i) as ->.
    { apply (NoDup_lookup cs.*1 _ _ n Hnd); by rewrite list_lookup_fmap, ?Hj, ?Hi. }
    congruence.
  - apply list_find_None in E. rewrite Forall_forall in E.
    apply list_elem_of_lookup_2 in Hi. by destruct (E _ Hi).
Qed.

Lemma paths_resolve root (m : module) :
  names_ok m → ∀ pre, foldM py_getattr root pre = Ok m → Forall (λ p, no_dot p = true) pre →
  ∀ e, e ∈ parameter_paths pre m →
  pre `prefix_of` e.1.1 ∧ Forall (λ p, no_dot p = true) e.1.1 ∧
  (e.1.2.2 = "weight"%string ∨ e.1.2.2 = "bias"%string) ∧
  ∃ sub, foldM py_getattr root e.1.1 = Ok sub ∧ class_of sub = e.1.2.1.
Proof.
  induction m as [c ps bs cs IH] using module_tree_ind. intros Hok pre Hpre Hnd e He.
  inversion Hok as [? ? ? ? Hps _ Hdots Hcs Hchildren]; subst.
  apply elem_of_parameter_paths in He as [(n & p & Hin & ->)|(n & child & Hin & He)].
  - split; [done|]. split; [done|]. rewrite Forall_forall in Hps.
    split; [by apply (Hps (n, p))|]. by exists (Module_ c ps bs cs).
  - rewrite Forall_forall in IH, Hdots, Hchildren.
    destruct (IH (n, child) Hin (Hchildren _ Hin) (pre ++ [n])) with e as (Hp & Hrest); [| |done|].
    + rewrite foldM_app, Hpre. simpl. by rewrite (py_getattr_child c ps bs cs n child).
    + apply Forall_app. split; [done|]. constructor; [by apply (Hdots (n, child))|done].
    + split; [|done]. etransitivity; [|exact Hp]. by eexists.
Qed.

(** The keys are different, so the full names are. *)
Lemma entry_key_prefix (m : module) : ∀ pre e,
  e ∈ parameter_paths pre m → ∃ x k, entry_key e = pre ++ x :: k.
Proof.
  induction m as [c ps bs cs IH] using module_tree_ind. intros pre e He.
  apply elem_of_parameter_paths in He as [(n & p & Hin & ->)|(n & child & Hin & He)].
  - by exists n, [].
  - rewrite Forall_forall in IH. destruct (IH (n, child) Hin _ _ He) as (x & k & ->).
    exists n, (x :: k). by rewrite <-app_assoc.
Qed.

Lemma NoDup_keys (m : module) :
  names_ok m → ∀ pre, NoDup (entry_key <$> parameter_paths pre m).
Proof.
  induction m as [c ps bs cs IH] using module_tree_ind. intros Hok pre.
  inversion Hok as [? ? ? ? Hps Hndps Hdots Hcs Hchildren]; subst. cbn [parameter_paths].
  rewrite fmap_app, fmap_concat, <-!list_fmap_compose. apply NoDup_app. split_and!.
  - replace (_ <$> ps) with ((λ n, pre ++ [n]) <$> ps.*1).
    + by apply NoDup_fmap_2; [intros a b [= ->]%(inj _)|].
    + rewrite <-list_fmap_compose. by apply list_fmap_ext; intros ? [] _.
  - intros k ([n p] & -> & Hin)%list_elem_of_fmap ([n' child] & Hin' & Hk)%elem_of_concat_fmap.
    apply list_elem_of_fmap in Hk as (e & Hk & He).
    destruct (entry_key_prefix child _ _ He) as (x & l & Ee). rewrite Ee in Hk.
    unfold entry_key in Hk. simpl in Hk. rewrite <-app_assoc in Hk. by apply (inj _) in Hk.
  - apply NoDup_concat_fmap.
    + by apply (NoDup_fmap_1 fst).
    + intros [n child] Hin. simpl. rewrite Forall_forall in IH, Hchildren.
      by apply (IH (n, child)), (Hchildren (n, child)).
    + intros [n1 m1] [n2 m2] k Hin1 Hin2 (e1 & -> & H1)%list_elem_of_fmap (e2 & Hk & H2)%list_elem_of_fmap.
      destruct (entry_key_prefix m1 _ _ H1) as (x1 & k1 & E1).
      destruct (entry_key_prefix m2 _ _ H2) as (x2 & k2 & E2).
      rewrite E1, E2, <-!app_assoc in Hk. apply (inj _) in Hk. injection Hk as -> _ _.
      apply list_elem_of_lookup in Hin1 as (i & Hi), Hin2 as (j & Hj).
      assert (i = j) as <-.
      { apply (NoDup_lookup cs.*1 _ _ n2 Hcs); by rewrite list_lookup_fmap, ?Hi, ?Hj. }
      congruence.
Qed.

(** A model, that has no parameters of its own. *)
Definition model_ok (root : module) : Prop :=
  names_ok root ∧ match root with Module_ _ ps _ _ => ps = [] end.

Lemma layer_type_of_entry root e :
  model_ok root → e ∈ parameter_paths [] root →
  get_layer_type root (entry_name e) = Ok e.1.2.
Proof.
  intros [Hok Hps] He.
  destruct (paths_resolve root root Hok []) with e as (_ & Hdots & Hn & sub & Hsub & Hc);
    [done|constructor|done|].
  assert (e.1.1 ≠ []) as Hne.
  { destruct root as [c ps bs cs]. subst ps.
    apply elem_of_parameter_paths in He as [(n & p & Hin & _)|(n & child & Hin & He)].
    - by apply not_elem_of_nil in Hin.
    - inversion Hok as [? ? ? ? _ _ Hd Hcs Hch]; subst.
      assert (foldM py_getattr (Module_ c [] bs cs) [n] = Ok child) as Hget.
      { simpl. by rewrite (py_getattr_child c [] bs cs n child). }
      rewrite Forall_forall in Hd, Hch.
      destruct (paths_resolve (Module_ c [] bs cs) child (Hch _ Hin) [n] Hget) with e as ([k ->] & _);
        [by constructor; [apply (Hd (n, child))|]|done|done]. }
  unfold get_layer_type, entry_name. rewrite match_param_full by done.
  unfold rgetattr. rewrite split_concat, Hsub by done. simpl. rewrite Hc. by destruct (e.1.2).
Qed.

Lemma NoDup_names root : model_ok root → NoDup (entry_name <$> parameter_paths [] root).
Proof.
  intros [Hok _]. pose proof (NoDup_keys root Hok []) as Hnd.
  apply NoDup_alt. intros i j n Hi Hj. rewrite list_lookup_fmap in Hi, Hj.
  apply fmap_Some in Hi as (e1 & H1 & ->), Hj as (e2 & H2 & E).
  apply (NoDup_lookup _ _ _ (entry_key e1) Hnd); rewrite list_lookup_fmap, ?H1, ?H2; [done|].
  simpl. f_equal. unfold entry_name, full_name in E. apply (f_equal split_dots) in E.
  apply list_elem_of_lookup_2 in H1, H2.
  destruct (paths_resolve root root Hok []) with e1 as (_ & D1 & N1 & _); [done|constructor|done|].
  destruct (paths_resolve root root Hok []) with e2 as (_ & D2 & N2 & _); [done|constructor|done|].
  rewrite !split_concat in E; [done|..]; try (by destruct (e1.1.1), (e2.1.1)).
  - apply Forall_app. split; [done|]. constructor; [|done]. by destruct N2 as [-> | ->].
  - apply Forall_app. split; [done|]. constructor; [|done]. by destruct N1 as [-> | ->].
Qed.
End tree.

(** ** Loading a checkpoint *)

Section load.
Context {V : Type}.
Notation module := (module V).
Notation params_dict := (gmap string (tensor V)).

(** [loads r m c m']: loading the parameters of [c] into those of [m] on rank
    [r] makes them those of [m']; the three trees have one shape. *)
Inductive loads (r : Z) : module → module → module → Prop :=
  | loads_intro c ps ts qs b0 b1 b2 cs0 cs1 cs2 :
      Forall3 (λ p t q, p.1 = t.1 ∧ p.1 = q.1 ∧ load_weights p.2 t.2 (c, p.1) r = Ok q.2) ps ts qs →
      Forall3 (λ x y z, x.1 = y.1 ∧ x.1 = z.1 ∧ loads r x.2 y.2 z.2) cs0 cs1 cs2 →
      loads r (Module_ c ps b0 cs0) (Module_ c ts b1 cs1) (Module_ c qs b2 cs2).

Notation entry := (list string * (string * string) * tensor V)%type.
Definition loads_entry (r : Z) (a b c : entry) : Prop :=
  a.1 = b.1 ∧ a.1 = c.1 ∧ load_weights a.2 b.2 a.1.2 r = Ok c.2.

Lemma loads_paths r (m ck m' : module) :
  loads r m ck m' → ∀ pre, Forall3 (loads_entry r) (parameter_paths pre m)
    (parameter_paths pre ck) (parameter_paths pre m').
Proof.
  revert ck m'. induction m as [c ps b0 cs IH] using module_tree_ind. intros ck m' Hl pre.
  inversion Hl as [? ? ts qs ? b1 b2 ? cs1 cs2 Hps Hcs]; subst. clear Hl. cbn [parameter_paths].
  apply Forall3_app.
  - clear Hcs. induction Hps as [|[n p] [n1 t] [n2 q] ps ts qs (H1 & H2 & Hl) _ IHps];
      csimpl; constructor; [|done]. simpl in *. subst. by repeat split.
  - clear Hps. induction Hcs as [|[n x] [n1 y] [n2 z] cs cs1 cs2 (H1 & H2 & Hl) _ IHcs];
      csimpl; [constructor|].
    apply Forall_cons in IH as [IHx IH]. simpl in *. subst n1 n2.
    apply Forall3_app; [by apply IHx|by apply IHcs].
Qed.

Lemma load_loop model r (skip : string → bool) (ws : list (string * tensor V)) (P Q : params_dict) :
  NoDup (filter (λ e, skip e.1 = false) ws).*1 →
  (∀ n t, (n, t) ∈ ws → skip n = false → ∃ p q ty, P !! n = Some p ∧ Q !! n = Some q ∧
     get_layer_type model n = Ok ty ∧ load_weights p t ty r = Ok q) →
  (∀ n, n ∉ (filter (λ e, skip e.1 = false) ws).*1 → P !! n = Q !! n) →
  foldM (λ params '(name, w), if skip name then Ok params else load_entry model r params name w)
    P ws = Ok Q.
Proof.
  revert P. induction ws as [|[n t] ws IH]; intros P Hnd Hws Hrest; simpl.
  - f_equal. apply map_eq. intros n. apply Hrest, not_elem_of_nil.
  - rewrite filter_cons in Hnd, Hrest. simpl in Hnd, Hrest.
    destruct (skip n) eqn:Es; simpl.
    + rewrite decide_False in Hnd, Hrest by done. apply IH; [done| |done].
      intros n' t' Hin. apply Hws. by right.
    + rewrite decide_True in Hnd, Hrest by done. csimpl in *. apply NoDup_cons in Hnd as [Hn Hnd].
      destruct (Hws n t) as (p & q & ty & HP & HQ & Hty & Hl); [by left|done|].
      unfold load_entry. rewrite HP, Ok_bind, Hty, Ok_bind, Hl. simpl. apply IH; [done| |].
      * intros n' t' Hin Hs. assert (n' ≠ n) as Hne.
        { intros ->. apply Hn. apply list_elem_of_fmap. exists (n, t').
          split; [done|]. by apply list_elem_of_filter. }
        destruct (Hws n' t') as (p' & q' & ty' & HP' & Hr); [by right|done|].
        exists p', q', ty'. by rewrite lookup_insert_ne.
      * intros n' Hn'. destruct (decide (n' = n)) as [->|Hne]; [by rewrite lookup_insert_eq|].
        rewrite lookup_insert_ne by done. apply Hrest. set_solver.
Qed.

Lemma Forall3_lookup_m {A B C} (R : A → B → C → Prop) l k k' i y :
  Forall3 R l k k' → k !! i = Some y →
  ∃ x z, l !! i = Some x ∧ k' !! i = Some z ∧ R x y z.
Proof.
  intros HR. revert i. induction HR as [|x y' z l k k' Hxyz _ IH]; intros i Hi; [done|].
  destruct i as [|i]; simpl in *; [naive_solver|by apply IH].
Qed.

Definition dict_of (m : module) : params_dict := list_to_map (named_parameters m).

Lemma lookup_dict m e :
  model_ok m → e ∈ parameter_paths [] m → dict_of m !! entry_name e = Some e.2.
Proof.
  intros Hok He. unfold dict_of. apply elem_of_list_to_map_1.
  - rewrite named_parameters_fmap, <-list_fmap_compose. by apply NoDup_names.
  - rewrite named_parameters_fmap. apply list_elem_of_fmap. by exists e.
Qed.

(** What is below a module is below the root. *)
Lemma paths_below (path pre : list string) (m sub : module) e :
  foldM py_getattr m path = Ok sub → e ∈ parameter_paths (pre ++ path) sub → e ∈ parameter_paths pre m.
Proof.
  revert pre m. induction path as [|n path IH]; intros pre m Hsub He.
  - simpl in Hsub. injection Hsub as ->. by rewrite app_nil_r in He.
  - cbn [foldM] in Hsub. apply bind_Ok in Hsub as (child & Hget & Hsub).
    destruct m as [c ps bs cs]. apply elem_of_parameter_paths. right.
    unfold py_getattr in Hget. cbn [named_children] in Hget.
    destruct (list_find (λ c, c.1 = n) cs) as [[j [n' m']]|] eqn:E; [|done].
    apply list_find_Some in E as (Hj & Hn & _). simpl in Hn. subst n'. injection Hget as ->.
    exists n, child. split; [by eapply list_elem_of_lookup_2|].
    apply (IH (pre ++ [n])); [done|]. by rewrite <-app_assoc.
Qed.

Lemma lookup_dict_path m path cls ps bs cs n p :
  model_ok m → foldM py_getattr m path = Ok (Module_ cls ps bs cs) → (n, p) ∈ ps →
  dict_of m !! full_name path n = Some p.
Proof.
  intros Hok Hsub Hp. apply (lookup_dict m (path, (cls, n), p) Hok).
  apply (paths_below path [] m _ _ Hsub). apply elem_of_parameter_paths. left. eauto.
Qed.

(** The loop over a checkpoint that has, besides skipped entries, the
    parameters of [ck] in some order. *)
Lemma load_checkpoint r (m ck m' : module) (skip : string → bool) ws :
  model_ok m → loads r m ck m' →
  filter (λ e, skip e.1 = false) ws ≡ₚ named_parameters ck →
  foldM (λ params '(name, w), if skip name then Ok params else load_entry m r params name w)
    (dict_of m) ws = Ok (dict_of m').
Proof.
  intros Hok Hl Hws. pose proof (loads_paths r m ck m' Hl []) as H3.
  assert (Hnames : ∀ l k k', Forall3 (loads_entry r) l k k' →
    entry_name <$> l = entry_name <$> k ∧ entry_name <$> l = entry_name <$> k').
  { induction 1 as [|x y z l k k' (E1 & E2 & _) _ [IH1 IH2]]; csimpl; [done|].
    assert (entry_name x = entry_name y) by (unfold entry_name; by rewrite E1).
    assert (entry_name x = entry_name z) by (unfold entry_name; by rewrite E2).
    split; congruence. }
  destruct (Hnames _ _ _ H3) as [Ek Em]. pose proof (NoDup_names m Hok) as Hnd.
  assert ((filter (λ e, skip e.1 = false) ws).*1 ≡ₚ entry_name <$> parameter_paths [] m) as Hperm.
  { rewrite Hws, named_parameters_fmap, <-list_fmap_compose, Ek. done. }
  assert (∀ e, e ∈ parameter_paths [] m' → dict_of m' !! entry_name e = Some e.2) as Hm'.
  { intros e He. unfold dict_of. apply elem_of_list_to_map_1.
    - rewrite named_parameters_fmap, <-list_fmap_compose. change (NoDup (entry_name <$> parameter_paths [] m')).
      by rewrite <-Em.
    - rewrite named_parameters_fmap. apply list_elem_of_fmap. by exists e. }
  apply load_loop.
  - by rewrite Hperm.
  - intros n t Hin Hs. assert ((n, t) ∈ named_parameters ck) as Hck.
    { rewrite <-Hws. by apply list_elem_of_filter. }
    rewrite named_parameters_fmap in Hck. apply list_elem_of_fmap in Hck as (b & [= -> ->] & Hb).
    apply list_elem_of_lookup in Hb as (i & Hi).
    destruct (Forall3_lookup_m _ _ _ _ _ _ H3 Hi) as (a & c & Ha & Hc & (Eb & Ec & Hload)).
    apply list_elem_of_lookup_2 in Ha, Hc.
    assert (entry_name b = entry_name a) as -> by (unfold entry_name; by rewrite Eb).
    exists a.2, c.2, a.1.2. split; [by apply lookup_dict|]. split.
    + assert (entry_name a = entry_name c) as -> by (unfold entry_name; by rewrite Ec).
      by apply Hm'.
    + split; [by apply layer_type_of_entry|done].
  - intros n Hn. rewrite Hperm in Hn. unfold dict_of.
    rewrite !not_elem_of_list_to_map_1; [done|..];
      rewrite named_parameters_fmap, <-list_fmap_compose;
      [change (n ∉ entry_name <$> parameter_paths [] m'); by rewrite <-Em|done].
Qed.
End load.

(** The copy of a parameter does what loading an equal one would have done. *)
Lemma copy_param_equal {V} (params D : gmap string (tensor V)) dst src p t :
  dst ≠ src → D !! src = Some t → params !! dst = Some p → shape p = shape t →
  <[dst := t]> params = D → copy_param params dst src = Ok D.
Proof.
  intros Hne Hsrc Hp Hs <-. rewrite lookup_insert_ne in Hsrc by done.
  unfold copy_param, py_require. by rewrite Hsrc, Hp, bool_decide_true, Ok_bind by done.
Qed.

(** ** What a layer loads *)

Section parts.
Context {V : Type}.

Lemma load_row_shard cls n (W0 W : mat V) s r :
  cls = "VocabParallelEmbedding"%string ∨ cls = "ColumnParallelLinear"%string →
  cols W0 = cols W → len (block (rows W0) s r) = s → len (block (rows W) s r) = s →
  load_weights (Matrix (row_shard W0 s r)) (Matrix W) (cls, n) r = Ok (Matrix (row_shard W s r)).
Proof.
  intros Hcls Hc H0 H1. unfold load_weights. rewrite bool_decide_true by set_solver.
  cbn [shape]. change (py_get _ 0) with (Ok (nrows (row_shard W0 s r))).
  change (nrows (row_shard W0 s r)) with (len (block (rows W0) s r)). rewrite H0, !Ok_bind.
  change (slice_rows (Matrix W) (r * s) ((r + 1) * s)) with (Matrix (row_shard W s r)).
  rewrite bool_decide_true; [done|]. 
  unfold shape, nrows, row_shard. cbn [rows cols]. by rewrite H1, Hc.
Qed.

Lemma load_bias_shard n (b0 b : list V) s r :
  len (block b0 s r) = s → len (block b s r) = s →
  load_weights (Vec (block b0 s r)) (Vec b) ("ColumnParallelLinear"%string, n) r
  = Ok (Vec (block b s r)).
Proof.
  intros H0 H1. unfold load_weights. rewrite bool_decide_true by set_solver.
  cbn [shape]. change (py_get _ 0) with (Ok (len (block b0 s r))). rewrite H0, !Ok_bind.
  change (slice_rows (Vec b) (r * s) ((r + 1) * s)) with (Vec (block b s r)).
  rewrite bool_decide_true; [done|]. cbn [shape]. by rewrite H1.
Qed.

Lemma load_col_shard (W0 W : mat V) w s r :
  nrows W0 = nrows W → cols W = w * s → 0 ≤ s → 0 ≤ r < w →
  load_weights (Matrix (col_shard W0 s r)) (Matrix W) ("RowParallelLinear"%string, "weight"%string) r
  = Ok (Matrix (col_shard W s r)).
Proof.
  intros Hn Hc Hs Hr. unfold load_weights. rewrite bool_decide_false by set_solver.
  rewrite bool_decide_true, bool_decide_false by set_solver.
  change (py_get (shape (Matrix (col_shard W0 s r))) 1) with (Ok s). rewrite !Ok_bind.
  unfold slice_cols. replace (Z.max 0 (Z.min ((r + 1) * s) (cols W) - r * s)) with s by nia.
  change (map_rows s _ W) with (col_shard W s r). rewrite Ok_bind.
  rewrite bool_decide_true; [done|]. simpl. unfold nrows, col_shard, map_rows in *. simpl.
  by rewrite !len_fmap, Hn.
Qed.

Lemma load_whole cls n (t0 t : tensor V) r :
  cls ∉ ["VocabParallelEmbedding"; "ColumnParallelLinear"; "RowParallelLinear"]%string →
  shape t0 = shape t → load_weights t0 t (cls, n) r = Ok t.
Proof.
  intros Hcls Hs. unfold load_weights. rewrite !bool_decide_false by set_solver. simpl.
  by rewrite bool_decide_true.
Qed.

(** The bias of a row-parallel layer has one dimension and is sliced along two. *)
Lemma load_row_bias (p : tensor V) (b : list V) r :
  load_weights p (Vec b) ("RowParallelLinear"%string, "bias"%string) r = Raise IndexError.
Proof.
  unfold load_weights. rewrite bool_decide_false by set_solver.
  rewrite !bool_decide_true by set_solver. by destruct p.
Qed.
End parts.
