(* ===== verification/Triton.v ===== *)
(** * Triton kernels

    A kernel works on flat buffers.  The grid's programs run concurrently; each
    is a sequence of masked vector loads and stores, and a lane whose mask is
    false neither loads nor stores.  An access outside a buffer is a CUDA
    error.  A vector operation below is given the offsets of its active lanes. *)
From S2P Require Import Prelude Batch.

(** [range(a, b, step)] of a kernel, for a positive step. *)
Definition range_step (a b step : Z) : list Z :=
  (λ i, a + i * step) <$> py_range 0 ((b - a + step - 1) / step).

(** [offset + tl.arange(0, n)] under the mask [idxs < bound]. *)
Definition lanes (i n bound : Z) : list Z :=
  filter (λ x, x < bound) ((λ a, i + a) <$> py_range 0 n).

Definition tl_load {A} (mem : list A) (ptrs : list Z) : res (list A) :=
  mapM (λ p, if p <? 0 then Raise CudaError
             else match mem !! Z.to_nat p with Some x => Ok x | None => Raise CudaError end) ptrs.

Definition tl_store {A} (mem : list A) (ptrs : list Z) (data : list A) : res (list A) :=
  foldM (λ mem '(p, x), if (p <? 0) || (len mem <=? p) then Raise CudaError
                        else Ok (<[Z.to_nat p := x]> mem)) mem (zip ptrs data).

(** [tl.cast(x, dtype=tl.int64)] *)
Definition int64 (x : Z) : Z := wrap 64 x.

Lemma int64_id x : - 2 ^ 63 ≤ x < 2 ^ 63 → int64 x = x.
Proof. intros Hx. unfold int64, wrap. change (64 - 1) with 63. rewrite Z.mod_small; lia. Qed.

(** ** Contiguous lanes *)

Lemma lanes_range i n bound : 0 ≤ n → lanes i n bound = py_range i (Z.min (i + n) bound).
Proof.
  intros Hn. unfold lanes.
  assert ((λ a, i + a) <$> py_range 0 n = py_range i (i + n)) as ->.
  { rewrite (Z.add_comm i n). pose proof (py_range_shift 0 n i) as E. rewrite Z.add_0_l in E.
    rewrite E. apply list_fmap_ext. intros; lia. }
  destruct (Z.le_ge_cases bound i).
  - rewrite (py_range_empty i (Z.min _ _)) by lia. apply filter_none.
    intros x Hx%elem_of_py_range. lia.
  - rewrite <-(py_range_app i (Z.min (i + n) bound) (i + n)) by lia.
    rewrite filter_app, filter_all, filter_none, app_nil_r; [done|..];
      intros x Hx%elem_of_py_range; lia.
Qed.

Lemma range_step_single n b : 0 < n → 0 ≤ b ≤ n → range_step 0 b n = if b =? 0 then [] else [0].
Proof.
  intros Hn Hb. unfold range_step. destruct (Z.eqb_spec b 0) as [->|Hne].
  - rewrite py_range_empty; [done|]. rewrite Z.div_small; lia.
  - replace ((b - 0 + n - 1) / n) with 1; [done|].
    apply Z.div_unique with (b - 1); lia.
Qed.

(** The lanes of successive iterations cover the range once, in order. *)
Lemma range_step_lanes b n :
  0 < n → 0 ≤ b → concat ((λ i, lanes i n b) <$> range_step 0 b n) = py_range 0 b.
Proof.
  intros Hn Hb. unfold range_step.
  assert (∀ k, 0 ≤ k → concat ((λ i, lanes i n b) <$> ((λ i, 0 + i * n) <$> py_range 0 k))
                       = py_range 0 (Z.min (k * n) b)) as Hk.
  { apply (natlike_ind (λ k, _ = _)); [rewrite (py_range_empty 0 (Z.min _ _)) by lia; done|].
    intros k Hk IH. rewrite <-Z.add_1_r, py_range_snoc by lia.
    rewrite !fmap_app, concat_app, IH. csimpl. rewrite app_nil_r, lanes_range, Z.add_0_l by lia.
    destruct (Z.le_ge_cases (k * n) b).
    - rewrite Z.min_l by lia. rewrite py_range_app by lia. f_equal. lia.
    - rewrite !Z.min_r by lia. rewrite (py_range_empty (k * n)) by lia. apply app_nil_r. }
  rewrite Hk by (apply Z.div_pos; lia). rewrite Z.min_r; [done|].
  pose proof (Z.div_mod (b - 0 + n - 1) n). pose proof (Z.mod_pos_bound (b - 0 + n - 1) n). nia.
Qed.

(** ** Loads and stores *)

Section memory.
Context {A : Type}.
Implicit Types (mem : list A) (ptrs : list Z).

Lemma tl_load_Ok mem ptrs data :
  Forall2 (λ p x, 0 ≤ p ∧ mem !! Z.to_nat p = Some x) ptrs data → tl_load mem ptrs = Ok data.
Proof.
  intros Hp. apply mapM_res_Ok. eapply Forall2_impl; [exact Hp|].
  intros p x [Hp0 Hx]. simpl. destruct (Z.ltb_spec p 0); [lia|]. by rewrite Hx.
Qed.

Lemma tl_load_total mem ptrs (f : Z → A) :
  (∀ p, p ∈ ptrs → 0 ≤ p ∧ mem !! Z.to_nat p = Some (f p)) → tl_load mem ptrs = Ok (f <$> ptrs).
Proof.
  intros Hp. apply tl_load_Ok, Forall2_fmap_r, Forall_Forall2_diag, Forall_forall. done.
Qed.

(** What a store leaves: the lanes' values, and the rest as it was. *)
Definition stored mem ptrs (f : Z → A) : list A :=
  foldl (λ mem p, <[Z.to_nat p := f p]> mem) mem ptrs.

Lemma tl_store_Ok mem ptrs (f : Z → A) :
  (∀ p, p ∈ ptrs → 0 ≤ p < len mem) → tl_store mem ptrs (f <$> ptrs) = Ok (stored mem ptrs f).
Proof.
  intros Hp. unfold tl_store, stored. rewrite zip_with_fmap_r, zip_with_diag.
  revert mem Hp. induction ptrs as [|p ptrs IH]; intros mem Hp; csimpl; [done|].
  destruct (Hp p) as [? ?]; [set_solver|].
  destruct (Z.ltb_spec p 0), (Z.leb_spec (len mem) p); try lia. simpl. apply IH.
  intros q Hq. unfold len. rewrite length_insert. apply Hp. set_solver.
Qed.

Lemma length_stored mem ptrs f : length (stored mem ptrs f) = length mem.
Proof.
  unfold stored. revert mem. induction ptrs as [|p ptrs IH]; intros mem; simpl; [done|].
  by rewrite IH, length_insert.
Qed.

Lemma lookup_stored mem ptrs f i :
  (∀ p, p ∈ ptrs → 0 ≤ p < len mem) →
  stored mem ptrs f !! i = if decide (Z.of_nat i ∈ ptrs) then Some (f (Z.of_nat i)) else mem !! i.
Proof.
  unfold stored. revert mem. induction ptrs as [|p ptrs IH] using rev_ind; intros mem Hp.
  { by rewrite decide_False by set_solver. }
  rewrite foldl_app. simpl. rewrite list_lookup_insert.
  assert (length (foldl (λ mem p, <[Z.to_nat p := f p]> mem) mem ptrs) = length mem) as ->
    by apply length_stored.
  destruct (Hp p) as [? ?]; [set_solver|]. unfold len in *.
  destruct (decide (p = Z.of_nat i)) as [->|Hne].
  - rewrite Nat2Z.id, !decide_True; [done|set_solver|lia].
  - rewrite decide_False by lia. rewrite IH by set_solver.
    apply decide_ext. set_solver.
Qed.

Lemma stored_app mem p q f : stored mem (p ++ q) f = stored (stored mem p f) q f.
Proof. unfold stored. by rewrite foldl_app. Qed.
End memory.
