(* ===== verification/CacheOps.v ===== *)
(** * Copying blocks within the device cache

    [ops/cache_ops.py] and its kernels of [ops/triton/cache_kernels.py]: the
    cache of one worker is a tensor of [num_layers] x [num_blocks] blocks of
    [numel_per_block] elements, stored flat; the grid has one program per layer
    and copied block. *)
From S2P Require Import Prelude Batch Concurrency Triton.

Record kv_tensor (A : Type) := KVTensor {
  kt_num_layers : Z;
  kt_num_blocks : Z;
  kt_numel_per_block : Z;
  kt_data : list A;
}.
Arguments KVTensor {A} kt_num_layers kt_num_blocks kt_numel_per_block kt_data.
Arguments kt_num_layers {A} k.
Arguments kt_num_blocks {A} k.
Arguments kt_numel_per_block {A} k.
Arguments kt_data {A} k.

Section cache_ops.
Context {A : Type}.

(** The loop body of [copy_blocks_kernel]: the lanes at [idxs], from
    [layer_kv_ptr + src_offset] to [layer_kv_ptr + dst_offset]. *)
Definition copy_lanes (kv_cache : list A) (src_ptr dst_ptr : Z) (idxs : list Z) : res (list A) :=
  data ← tl_load kv_cache ((λ x, src_ptr + x) <$> idxs);
  tl_store kv_cache ((λ x, dst_ptr + x) <$> idxs) data.

(** One program of the grid. *)
Definition copy_blocks_kernel (BLOCK_SIZE numel_per_layer numel_per_block : Z)
    (block_maps : list Z) (layer_idx block_idx : Z) (kv_cache : list A) : res (list A) :=
  let numel_per_layer := int64 numel_per_layer in
  let numel_per_block := int64 numel_per_block in
  src ← tl_load block_maps [block_idx * 2]; src_block_id ← py_get src 0;
  dst ← tl_load block_maps [block_idx * 2 + 1]; dst_block_id ← py_get dst 0;
  let layer_kv_ptr := layer_idx * numel_per_layer in
  let src_offset := int64 src_block_id * numel_per_block in
  let dst_offset := int64 dst_block_id * numel_per_block in
  foldM (λ kv_cache i,
    copy_lanes kv_cache (layer_kv_ptr + src_offset) (layer_kv_ptr + dst_offset)
      (lanes i BLOCK_SIZE numel_per_block))
    kv_cache (range_step 0 numel_per_block BLOCK_SIZE).

(** The (source, destination) pairs of the dictionary, in order. *)
Definition copy_pairs (src_to_dst : list (Z * list Z)) : list (Z * Z) :=
  concat ((λ e : Z * list Z, let '(src, dsts) := e in (λ dst, (src, dst)) <$> dsts)
            <$> src_to_dst).
Definition block_maps_of (src_to_dst : list (Z * list Z)) : list Z :=
  concat ((λ e : Z * Z, let '(src, dst) := e in [src; dst]) <$> copy_pairs src_to_dst).

(** The programs of a grid, the last index running fastest. *)
Definition grid (n m : Z) : list (Z * Z) :=
  concat ((λ i, (λ j, (i, j)) <$> py_range 0 m) <$> py_range 0 n).

Definition copy_blocks (kv_caches : kv_tensor A) (src_to_dst : list (Z * list Z))
    : res (kv_tensor A) :=
  let block_maps := block_maps_of src_to_dst in
  block_maps_tensor ← torch_tensor 64 block_maps;
  let num_layers := kt_num_layers kv_caches in
  (* kv_caches[0] and kv_caches[0][0] *)
  _ ← py_require (0 <? num_layers) IndexError;
  let numel_per_layer := kt_num_blocks kv_caches * kt_numel_per_block kv_caches in
  _ ← py_require (0 <? kt_num_blocks kv_caches) IndexError;
  let numel_per_block := kt_numel_per_block kv_caches in
  num_copy_blocks ← py_floordiv (len block_maps) 2;
  data ← foldM (λ kv_cache '(layer_idx, block_idx),
           copy_blocks_kernel 1024 numel_per_layer numel_per_block block_maps_tensor
             layer_idx block_idx kv_cache)
         (kt_data kv_caches) (grid num_layers num_copy_blocks);
  Ok (KVTensor num_layers (kt_num_blocks kv_caches) numel_per_block data).

(** [fill_key_cache_kernel]: token [block_idx]'s key and value rows go to the
    slot of the token. *)
Definition fill_key_cache_kernel (BLOCK_SIZE num_kv_heads head_size : Z)
    (key value : list A) (slot_mapping : list Z) (block_idx : Z)
    (caches : list A * list A) : res (list A * list A) :=
  let row := num_kv_heads * head_size in
  slot ← tl_load slot_mapping [block_idx]; slot_idx ← py_get slot 0;
  foldM (λ '(key_cache, value_cache) i,
    let offsets := lanes i BLOCK_SIZE row in
    let from := (λ x, block_idx * num_kv_heads * head_size + x) <$> offsets in
    let to := (λ x, int64 slot_idx * num_kv_heads * head_size + x) <$> offsets in
    k ← tl_load key from; v ← tl_load value from;
    key_cache ← tl_store key_cache to k; value_cache ← tl_store value_cache to v;
    Ok (key_cache, value_cache))
    caches (range_step 0 row BLOCK_SIZE).

Definition fill_key_cache (num_kv_heads head_size : Z) (key value key_cache value_cache : list A)
    (slot_mapping : list Z) : res (list A * list A) :=
  foldM (λ caches block_idx,
    fill_key_cache_kernel 1024 num_kv_heads head_size key value slot_mapping block_idx caches)
    (key_cache, value_cache) (py_range 0 (len slot_mapping)).
End cache_ops.

(** ** Copies between disjoint places, in any order *)

Section copies.
Context {A : Type}.

(** A copy of several elements: (source, destination) positions. *)
Definition copy_step (mem : list A) (c : list (Z * Z)) : res (list A) :=
  data ← tl_load mem c.*1; tl_store mem c.*2 data.

(** What the copies [ps] leave of [mem]. *)
Definition copied (mem mem' : list A) (ps : list (Z * Z)) : Prop :=
  length mem' = length mem ∧
  (∀ s d, (s, d) ∈ ps → mem' !! Z.to_nat d = mem !! Z.to_nat s) ∧
  (∀ i, Z.of_nat i ∉ ps.*2 → mem' !! i = mem !! i).

Lemma tl_store_copied (mem mem0 : list A) (c : list (Z * Z)) (data : list A) :
  NoDup c.*2 → (∀ p, p ∈ c.*2 → 0 ≤ p < len mem) →
  Forall2 (λ s x, mem0 !! Z.to_nat s = Some x) c.*1 data →
  ∃ mem', tl_store mem c.*2 data = Ok mem' ∧ length mem' = length mem ∧
    (∀ s d, (s, d) ∈ c → mem' !! Z.to_nat d = mem0 !! Z.to_nat s) ∧
    (∀ i, Z.of_nat i ∉ c.*2 → mem' !! i = mem !! i).
Proof.
  revert mem data. induction c as [|[s d] c IH]; intros mem data Hnd Hin Hdata; csimpl in *.
  - apply Forall2_nil_inv_l in Hdata as ->. exists mem. split_and!; try done. set_solver.
  - apply NoDup_cons in Hnd as [Hd Hnd]. apply Forall2_cons_inv_l in Hdata as (x & data' & Hx & Hdata & ->).
    destruct (Hin d) as [Hd0 Hdl]; [set_solver|].
    destruct (IH (<[Z.to_nat d := x]> mem) data') as (mem' & Hst & Hlen & Hnew & Hold).
    + done.
    + intros p Hp. unfold len. rewrite length_insert. apply Hin. set_solver.
    + done.
    + exists mem'. split_and!.
      * unfold tl_store in *. simpl. destruct (Z.ltb_spec d 0), (Z.leb_spec (len mem) d); try lia.
        exact Hst.
      * by rewrite Hlen, length_insert.
      * intros s' d' [[= -> ->]|Hin']%elem_of_cons; [|auto].
        rewrite Hold by (by rewrite Z2Nat.id by lia).
        rewrite list_lookup_insert_eq by (unfold len in *; lia). done.
      * intros i Hi. rewrite Hold by set_solver. apply list_lookup_insert_ne. set_solver by lia.
Qed.

Lemma copy_step_Ok (mem : list A) (c : list (Z * Z)) :
  NoDup c.*2 → (∀ p, p ∈ c.*1 → 0 ≤ p < len mem) → (∀ p, p ∈ c.*2 → 0 ≤ p < len mem) →
  ∃ mem', copy_step mem c = Ok mem' ∧ copied mem mem' c.
Proof.
  intros Hnd Hsrc Hdst.
  assert (∃ data, tl_load mem c.*1 = Ok data ∧
    Forall2 (λ s x, mem !! Z.to_nat s = Some x) c.*1 data) as (data & Hload & Hdata).
  { clear Hnd Hdst. induction (c.*1) as [|p l IH]; [by exists []; split; constructor|].
    destruct IH as (data & Hl & Hd); [set_solver|].
    destruct (Hsrc p) as [? ?]; [set_solver|].
    destruct (lookup_lt_is_Some_2 mem (Z.to_nat p)) as [x Hx]; [unfold len in *; lia|].
    exists (x :: data). split; [|by constructor].
    apply tl_load_Ok. constructor; [by split; [lia|]|].
    apply Forall2_same_length_lookup. split; [by apply Forall2_length in Hd|].
    intros i s y Hs Hy. destruct (Hsrc s) as [? _].
    { apply list_elem_of_lookup_2 in Hs. set_solver. }
    split; [done|]. by apply (Forall2_lookup_lr _ _ _ _ _ _ Hd Hs Hy). }
  destruct (tl_store_copied mem mem c data Hnd Hdst Hdata) as (mem' & Hst & Hl & Hn & Ho).
  exists mem'. split; [|done]. unfold copy_step. by rewrite Hload.
Qed.

(** Copies whose destinations are distinct and are no sources. *)
Lemma copy_steps (mem : list A) (cs : list (list (Z * Z))) :
  let ps := concat cs in
  NoDup ps.*2 → (∀ p, p ∈ ps.*1 → p ∉ ps.*2) →
  (∀ p, p ∈ ps.*1 → 0 ≤ p < len mem) → (∀ p, p ∈ ps.*2 → 0 ≤ p < len mem) →
  ∃ mem', foldM copy_step mem cs = Ok mem' ∧ copied mem mem' ps.
Proof.
  simpl. induction cs as [|c cs IH] using rev_ind; intros Hnd Hdisj Hsrc Hdst.
  { exists mem. split; [done|]. split_and!; [done|set_solver|done]. }
  rewrite concat_app in *. simpl in *. rewrite app_nil_r in *. rewrite !fmap_app in *.
  apply NoDup_app in Hnd as (Hnd1 & Hnd2 & Hnd3).
  setoid_rewrite elem_of_app in Hdisj. setoid_rewrite elem_of_app in Hsrc.
  setoid_rewrite elem_of_app in Hdst.
  destruct IH as (m1 & Hm1 & Hl1 & Hn1 & Ho1); [done|naive_solver..|].
  destruct (copy_step_Ok m1 c) as (m2 & Hm2 & Hl2 & Hn2 & Ho2);
    [done|unfold len in *; rewrite Hl1; auto..|].
  exists m2. split; [rewrite foldM_app, Hm1; simpl; by rewrite Hm2|]. split_and!.
  - by rewrite Hl2.
  - intros s d [Hsd|Hsd]%elem_of_app.
    + pose proof (list_elem_of_fmap_2 snd _ _ Hsd) as Hd. simpl in Hd.
      destruct (Hdst d (or_introl Hd)) as [? _].
      rewrite Ho2 by (rewrite Z2Nat.id by lia; by apply Hnd2). auto.
    + rewrite (Hn2 _ _ Hsd). pose proof (list_elem_of_fmap_2 fst _ _ Hsd) as Hs. simpl in Hs.
      destruct (Hsrc s (or_intror Hs)) as [? _]. apply Ho1. rewrite Z2Nat.id by lia.
      intros Hin. apply (Hdisj s (or_intror Hs)). auto.
  - intros i. rewrite fmap_app, not_elem_of_app. intros [Hi1 Hi2].
    rewrite Ho2 by done. by apply Ho1.
Qed.

Lemma copied_perm (mem mem' : list A) ps qs : ps ≡ₚ qs → copied mem mem' ps → copied mem mem' qs.
Proof.
  intros Hp (Hl & Hn & Ho). split_and!; [done|..].
  - intros s d. rewrite <-Hp. apply Hn.
  - intros i. rewrite <-Hp. apply Ho.
Qed.
End copies.

(** ** The programs of [copy_blocks] *)

(** The copies of a program, one list per iteration of its loop. *)
Definition program (B n : Z) (l : Z) (p : Z * Z) : list (list (Z * Z)) :=
  (λ i, (λ x, (l * (B * n) + p.1 * n + x, l * (B * n) + p.2 * n + x)) <$> lanes i 1024 n)
    <$> range_step 0 n 1024.
Definition layer_pairs (L : Z) (pairs : list (Z * Z)) : list (Z * (Z * Z)) :=
  concat ((λ l, (λ p, (l, p)) <$> pairs) <$> py_range 0 L).
Definition programs (L B n : Z) (pairs : list (Z * Z)) : list (list (list (Z * Z))) :=
  (λ k, program B n k.1 k.2) <$> layer_pairs L pairs.

(** Element [x] of block [b] of layer [l]. *)
Definition addr (B n l b x : Z) : Z := l * (B * n) + b * n + x.
Definition element {A} (t : kv_tensor A) (l b x : Z) : option A :=
  kt_data t !! Z.to_nat (addr (kt_num_blocks t) (kt_numel_per_block t) l b x).

(** The block whose contents block [b] gets. *)
Definition source_of (pairs : list (Z * Z)) (b : Z) : Z :=
  match list_find (λ p, p.2 = b) pairs with Some (_, p) => p.1 | None => b end.

Record copy_request {A} (t : kv_tensor A) (pairs : list (Z * Z)) : Prop := {
  cr_layers : 0 < kt_num_layers t;
  cr_blocks : 0 < kt_num_blocks t;
  cr_numel : 0 ≤ kt_numel_per_block t;
  cr_data : len (kt_data t) = kt_num_layers t * (kt_num_blocks t * kt_numel_per_block t);
  cr_int64 : kt_num_layers t * (kt_num_blocks t * kt_numel_per_block t) < 2 ^ 63;
  cr_int64_blocks : kt_num_blocks t < 2 ^ 63;
  cr_valid : ∀ s d, (s, d) ∈ pairs → 0 ≤ s < kt_num_blocks t ∧ 0 ≤ d < kt_num_blocks t;
  cr_distinct : NoDup pairs.*2;
  cr_disjoint : ∀ b, b ∈ pairs.*1 → b ∉ pairs.*2;
}.

Section copy_blocks.
Context {A : Type} (t : kv_tensor A) (pairs : list (Z * Z)) (Hcr : copy_request t pairs).
Notation L := (kt_num_layers t).
Notation B := (kt_num_blocks t).
Notation n := (kt_numel_per_block t).

Lemma addr_range l b x : 0 ≤ l < L → 0 ≤ b < B → 0 ≤ x < n → 0 ≤ addr B n l b x < L * (B * n).
Proof using Hcr.
  intros. unfold addr. assert (0 ≤ b * n + x < B * n) by nia.
  assert ((l + 1) * (B * n) ≤ L * (B * n)) by (apply Z.mul_le_mono_nonneg_r; lia).
  assert (0 ≤ l * (B * n)) by (apply Z.mul_nonneg_nonneg; lia). lia.
Qed.

Lemma addr_inj l b x l' b' x' :
  0 ≤ b < B → 0 ≤ b' < B → 0 ≤ x < n → 0 ≤ x' < n →
  addr B n l b x = addr B n l' b' x' → l = l' ∧ b = b' ∧ x = x'.
Proof using Hcr.
  intros Hb Hb' Hx Hx' E. unfold addr in E.
  assert (0 ≤ b * n + x < B * n) by nia. assert (0 ≤ b' * n + x' < B * n) by nia.
  destruct (Z.div_mod_unique (B * n) l l' (b * n + x) (b' * n + x')) as [-> E']; [lia..|].
  destruct (Z.div_mod_unique n b b' x x') as [-> ->]; [lia..|]. done.
Qed.

Lemma elem_of_layer_pairs l p : (l, p) ∈ layer_pairs L pairs ↔ 0 ≤ l < L ∧ p ∈ pairs.
Proof using.
  unfold layer_pairs. rewrite elem_of_concat_fmap. split.
  - intros (l' & Hl & (p' & [= -> ->] & Hp)%list_elem_of_fmap). by apply elem_of_py_range in Hl.
  - intros [Hl Hp]. exists l. split; [by apply elem_of_py_range|]. by apply list_elem_of_fmap_2.
Qed.

(** All the element copies. *)
Definition moves : list (Z * Z) :=
  concat ((λ k, (λ x, (addr B n k.1 k.2.1 x, addr B n k.1 k.2.2 x)) <$> py_range 0 n)
    <$> layer_pairs L pairs).

Lemma programs_moves : concat (concat (programs L B n pairs)) = moves.
Proof using Hcr.
  unfold programs, moves. rewrite concat_concat_fmap. f_equal. apply list_fmap_ext.
  intros i [l p] _. simpl. unfold program.
  rewrite <-(range_step_lanes n 1024) by (destruct Hcr; lia).
  rewrite fmap_concat, <-list_fmap_compose. done.
Qed.

Lemma elem_of_moves a c :
  (a, c) ∈ moves ↔ ∃ l s d x, 0 ≤ l < L ∧ (s, d) ∈ pairs ∧ 0 ≤ x < n ∧
                     a = addr B n l s x ∧ c = addr B n l d x.
Proof using.
  unfold moves. rewrite elem_of_concat_fmap. split.
  - intros ([l [s d]] & Hk%elem_of_layer_pairs & (x & [= -> ->] & Hx%elem_of_py_range)%list_elem_of_fmap).
    destruct Hk as [Hl Hp]. by exists l, s, d, x.
  - intros (l & s & d & x & Hl & Hp & Hx & -> & ->). exists (l, (s, d)).
    split; [by apply elem_of_layer_pairs|]. simpl.
    apply (list_elem_of_fmap_2 (λ x, (addr B n l s x, addr B n l d x))). by apply elem_of_py_range.
Qed.

Lemma moves_dst c : c ∈ moves.*2 → ∃ l d x, 0 ≤ l < L ∧ d ∈ pairs.*2 ∧ 0 ≤ d < B ∧ 0 ≤ x < n ∧
  c = addr B n l d x.
Proof using Hcr.
  intros ([a c'] & -> & (l & s & d & x & Hl & Hp & Hx & -> & ->)%elem_of_moves)%list_elem_of_fmap.
  exists l, d, x. pose proof (cr_valid _ _ Hcr s d Hp). split_and!; try done; try lia.
  apply (list_elem_of_fmap_2 snd _ _ Hp).
Qed.

Lemma moves_src a : a ∈ moves.*1 → ∃ l s x, 0 ≤ l < L ∧ s ∈ pairs.*1 ∧ 0 ≤ s < B ∧ 0 ≤ x < n ∧
  a = addr B n l s x.
Proof using Hcr.
  intros ([a' c] & -> & (l & s & d & x & Hl & Hp & Hx & -> & ->)%elem_of_moves)%list_elem_of_fmap.
  exists l, s, x. pose proof (cr_valid _ _ Hcr s d Hp). split_and!; try done; try lia.
  apply (list_elem_of_fmap_2 fst _ _ Hp).
Qed.

Lemma pair_dst_inj p p' : p ∈ pairs → p' ∈ pairs → p.2 = p'.2 → p = p'.
Proof using Hcr.
  intros (i & Hi)%list_elem_of_lookup (j & Hj)%list_elem_of_lookup E.
  assert (i = j) as ->; [|congruence].
  apply (NoDup_lookup pairs.*2 i j p.2); [apply Hcr|..]; rewrite list_lookup_fmap.
  - by rewrite Hi.
  - by rewrite Hj, E.
Qed.

Lemma moves_NoDup : NoDup moves.*2.
Proof using Hcr.
  unfold moves. rewrite fmap_concat, <-list_fmap_compose.
  assert (∀ l p, (l, p) ∈ layer_pairs L pairs → 0 ≤ l < L ∧ p ∈ pairs ∧ 0 ≤ p.2 < B) as Hk.
  { intros l [s d] [Hl Hp]%elem_of_layer_pairs. pose proof (cr_valid _ _ Hcr s d Hp). split_and!; simpl; (done || lia). }
  apply NoDup_concat_fmap.
  - unfold layer_pairs. apply NoDup_concat_fmap; [apply NoDup_py_range|..].
    + intros l _. apply NoDup_fmap; [by intros ?? [= ->]|]. eapply NoDup_fmap_1, Hcr.
    + intros l l' z _ _ (? & -> & _)%list_elem_of_fmap (? & [= -> _] & _)%list_elem_of_fmap. done.
  - intros [l p] (Hl & Hp & Hd)%Hk. simpl. rewrite <-list_fmap_compose.
    apply NoDup_fmap_2_strong; [|apply NoDup_py_range].
    intros x y Hx%elem_of_py_range Hy%elem_of_py_range E. simpl in E.
    by apply addr_inj in E as (_ & _ & ->).
  - intros [l p] [l' p'] z (Hl & Hp & Hd)%Hk (Hl' & Hp' & Hd')%Hk. simpl.
    rewrite <-!list_fmap_compose.
    intros (x & -> & Hx%elem_of_py_range)%list_elem_of_fmap (y & E & Hy%elem_of_py_range)%list_elem_of_fmap.
    simpl in E. apply addr_inj in E as (-> & E & _); [|done..]. f_equal. by apply pair_dst_inj.
Qed.

(** The kernels in any order of their iterations. *)
Lemma any_order ops :
  ops ≡ₚ concat (programs L B n pairs) →
  ∃ data, foldM copy_step (kt_data t) ops = Ok data ∧ copied (kt_data t) data moves.
Proof using Hcr.
  intros Hops. assert (concat ops ≡ₚ moves) as Hp.
  { rewrite <-programs_moves. by rewrite Hops. }
  destruct (copy_steps (kt_data t) ops) as (data & Hd & Hc); try setoid_rewrite Hp.
  - apply moves_NoDup.
  - intros a (l & s & x & Hl & Hs & Hsb & Hx & ->)%moves_src
      (l' & d & x' & Hl' & Hd & Hdb & Hx' & E)%moves_dst.
    apply addr_inj in E as (_ & -> & _); [|done..]. by apply (cr_disjoint _ _ Hcr d).
  - intros a (l & s & x & Hl & Hs & Hsb & Hx & ->)%moves_src.
    rewrite (cr_data _ _ Hcr). by apply addr_range.
  - intros a (l & s & x & Hl & Hs & Hsb & Hx & ->)%moves_dst.
    rewrite (cr_data _ _ Hcr). by apply addr_range.
  - exists data. split; [done|]. by apply (copied_perm _ _ (concat ops)).
Qed.
End copy_blocks.

Section copy_kernel.
Context {A : Type} (t : kv_tensor A) (src_to_dst : list (Z * list Z)).
Notation pairs := (copy_pairs src_to_dst).
Hypothesis (Hcr : copy_request t pairs).
Notation L := (kt_num_layers t).
Notation B := (kt_num_blocks t).
Notation n := (kt_numel_per_block t).

Lemma lookup_block_maps (ps : list (Z * Z)) (j : nat) s d :
  ps !! j = Some (s, d) →
  concat ((λ e : Z * Z, let '(src, dst) := e in [src; dst]) <$> ps) !! (j * 2)%nat = Some s ∧
  concat ((λ e : Z * Z, let '(src, dst) := e in [src; dst]) <$> ps) !! (j * 2 + 1)%nat = Some d.
Proof using.
  revert j; induction ps as [|[s' d'] ps IH]; intros [|j] Hj; try done; csimpl in *.
  - by injection Hj as -> ->.
  - apply IH, Hj.
Qed.

Lemma len_block_maps : len (block_maps_of src_to_dst) = len pairs * 2.
Proof using.
  clear Hcr. unfold block_maps_of. generalize pairs. intros ps.
  induction ps as [|[s d] ps IH]; csimpl; [done|]. rewrite !len_cons, IH. lia.
Qed.

Lemma block_maps_tensor :
  torch_tensor 64 (block_maps_of src_to_dst) = Ok (block_maps_of src_to_dst).
Proof using Hcr.
  apply torch_tensor_Ok, Forall_forall. intros b (p & Hp & Hb)%elem_of_concat_fmap. destruct p as [s d].
  pose proof (cr_valid _ _ Hcr s d Hp). pose proof (cr_int64_blocks _ _ Hcr).
  apply elem_of_cons in Hb as [ ->| ->%list_elem_of_singleton]; simpl; lia.
Qed.

Lemma addr_int64 : - 2 ^ 63 ≤ B * n < 2 ^ 63 ∧ - 2 ^ 63 ≤ n < 2 ^ 63.
Proof using Hcr. destruct Hcr. nia. Qed.

(** A program of the grid performs the copies of its pair. *)
Lemma kernel_program l (j : nat) p (mem : list A) :
  pairs !! j = Some p →
  copy_blocks_kernel 1024 (B * n) n (block_maps_of src_to_dst) l (Z.of_nat j) mem
  = foldM copy_step mem (program B n l p).
Proof using Hcr.
  destruct p as [s d]. intros Hj. unfold copy_blocks_kernel.
  destruct (lookup_block_maps pairs j s d Hj) as [Hs Hd].
  fold (block_maps_of src_to_dst) in Hs, Hd. destruct addr_int64 as [HBn Hn].
  pose proof (cr_valid _ _ Hcr s d (list_elem_of_lookup_2 _ _ _ Hj)).
  pose proof (cr_int64_blocks _ _ Hcr).
  rewrite (tl_load_Ok _ [Z.of_nat j * 2] [s]).
  2:{ constructor; [|constructor]. split; [lia|]. replace (Z.to_nat (Z.of_nat j * 2)) with (j * 2)%nat by lia. exact Hs. }
  rewrite (tl_load_Ok _ [Z.of_nat j * 2 + 1] [d]).
  2:{ constructor; [|constructor]. split; [lia|].
      replace (Z.to_nat (Z.of_nat j * 2 + 1)) with (j * 2 + 1)%nat by lia. exact Hd. }
  simpl. rewrite !int64_id by lia. unfold program. rewrite foldM_fmap.
  apply foldM_ext. intros m i _. unfold copy_lanes, copy_step. rewrite <-!list_fmap_compose. done.
Qed.

Lemma copy_blocks_programs :
  copy_blocks t src_to_dst
  = KVTensor L B n <$> foldM copy_step (kt_data t) (concat (programs L B n pairs)).
Proof using Hcr.
  unfold copy_blocks. rewrite block_maps_tensor, Ok_bind.
  pose proof (cr_layers _ _ Hcr). pose proof (cr_blocks _ _ Hcr).
  destruct (Z.ltb_spec 0 L), (Z.ltb_spec 0 B); try lia. simpl.
  rewrite len_block_maps, Z.div_mul by lia.
  assert (∀ m : list A, foldM (λ kv_cache '(layer_idx, block_idx),
      copy_blocks_kernel 1024 (B * n) n (block_maps_of src_to_dst) layer_idx block_idx kv_cache)
      m (grid L (len pairs))
    = foldM copy_step m (concat (programs L B n pairs))) as Hg.
  { intros m. unfold programs, grid, layer_pairs. rewrite !foldM_concat, !foldM_fmap, foldM_concat, foldM_fmap.
    apply foldM_ext. intros m' l _. rewrite foldM_fmap.
    assert (∀ (ps : list (Z * Z)) k (m : list A), (∀ i p, ps !! i = Some p → pairs !! (k + i)%nat = Some p) →
      foldM (λ s j, copy_blocks_kernel 1024 (B * n) n (block_maps_of src_to_dst) l j s) m
        (py_range (Z.of_nat k) (Z.of_nat k + len ps))
      = foldM (λ s p, foldM copy_step s (program B n l p)) m ps) as Hps.
    { induction ps as [|p ps IH]; intros k m0 Hk.
      - rewrite py_range_empty; [done|]. unfold len. simpl. lia.
      - rewrite len_cons. pose proof (len_nonneg ps). rewrite py_range_cons by lia. simpl.
        rewrite (kernel_program l k p) by (rewrite <-(Hk 0%nat p); [f_equal; lia|done]).
        destruct (foldM copy_step m0 (program B n l p)); simpl; [|done].
        rewrite <-(IH (S k)).
        + f_equal. f_equal; lia.
        + intros i p' Hi. rewrite <-(Hk (S i) p' Hi). f_equal. lia. }
    rewrite (foldM_fmap _ (λ p, (l, p))). simpl. by rewrite <-(Hps pairs 0%nat). }
  rewrite Hg. by destruct (foldM _ _ _).
Qed.
End copy_kernel.

Lemma copied_unique {A} (mem m1 m2 : list A) ps :
  copied mem m1 ps → copied mem m2 ps → (∀ d, d ∈ ps.*2 → 0 ≤ d) → m1 = m2.
Proof.
  intros (_ & Hn1 & Ho1) (_ & Hn2 & Ho2) Hpos. apply list_eq. intros i.
  destruct (decide (Z.of_nat i ∈ ps.*2)) as [([s d] & E & Hp)%list_elem_of_fmap|Hi].
  - simpl in E. specialize (Hn1 s d Hp). specialize (Hn2 s d Hp). subst d.
    rewrite Nat2Z.id in *. congruence.
  - by rewrite Ho1, Ho2.
Qed.

Lemma source_of_spec ps b :
  (source_of ps b, b) ∈ ps ∨ (source_of ps b = b ∧ b ∉ ps.*2).
Proof.
  unfold source_of. destruct (list_find _ ps) as [[i [s d]]|] eqn:E.
  - apply list_find_Some in E as (Hi & Hd & _). simpl in *. subst d. left.
    by apply list_elem_of_lookup_2 in Hi.
  - apply list_find_None in E. right. split; [done|].
    intros ([s d] & -> & Hp)%list_elem_of_fmap. rewrite Forall_forall in E. by apply (E _ Hp).
Qed.

(** C33: [copy_blocks] gives every destination block of every layer the
    contents of its source block and changes no other block, in whatever order
    the programs of the grid and the iterations of their loops run; the
    destinations are distinct and none of them is a source. *)
Theorem copy_blocks_copies {A} (t : kv_tensor A) (src_to_dst : list (Z * list Z)) ops :
  let pairs := copy_pairs src_to_dst in
  copy_request t pairs →
  interleaves (programs (kt_num_layers t) (kt_num_blocks t) (kt_numel_per_block t) pairs) ops →
  ∃ data, let t' := KVTensor (kt_num_layers t) (kt_num_blocks t) (kt_numel_per_block t) data in
    copy_blocks t src_to_dst = Ok t' ∧
    foldM copy_step (kt_data t) ops = Ok data ∧
    ∀ l b x, 0 ≤ l < kt_num_layers t → 0 ≤ b < kt_num_blocks t → 0 ≤ x < kt_numel_per_block t →
      element t' l b x = element t l (source_of pairs b) x.
Proof.
  intros pairs Hcr Hops%interleaves_perm.
  destruct (any_order t pairs Hcr ops Hops) as (data & Hd & Hc).
  destruct (any_order t pairs Hcr _ (reflexivity _)) as (data' & Hd' & Hc').
  assert (data' = data) as ->.
  { apply (copied_unique _ _ _ _ Hc' Hc). intros d (l & b & x & Hl & _ & Hb & Hx & ->)%moves_dst;
      [|done]. by apply (addr_range t pairs Hcr). }
  exists data. split; [rewrite (copy_blocks_programs t _ Hcr); fold pairs; by rewrite Hd'|]. split; [done|].
  intros l b x Hl Hb Hx. unfold element. simpl. destruct Hc as (_ & Hn & Ho).
  destruct (source_of_spec pairs b) as [Hp|[-> Hp]].
  - apply Hn, elem_of_moves. by exists l, (source_of pairs b), b, x.
  - apply Ho. pose proof (addr_range t pairs Hcr l b x Hl Hb Hx). rewrite Z2Nat.id by lia.
    intros (l' & d & x' & Hl' & Hd2 & Hdb & Hx' & E)%moves_dst; [|done].
    by apply (addr_inj t pairs Hcr) in E as (_ & -> & _).
Qed.

Definition tensor_Z : kv_tensor Z := KVTensor 2 3 2 [0; 1; 2; 3; 4; 5; 10; 11; 12; 13; 14; 15].

Example copy_blocks_copies_witness :
  copy_blocks tensor_Z [(0, [2])] = Ok (KVTensor 2 3 2 [0; 1; 2; 3; 0; 1; 10; 11; 12; 13; 10; 11])
  ∧ source_of (copy_pairs [(0, [2])]) 2 = 0.
Proof.
  assert (copy_request tensor_Z (copy_pairs [(0, [2])])) as Hcr.
  { split; try (vm_compute; done).
    - intros s d [= -> ->]%list_elem_of_singleton. simpl. lia.
    - apply NoDup_singleton.
    - intros b ->%list_elem_of_singleton. simpl. intros E%list_elem_of_singleton. lia. }
  assert (interleaves (programs 2 3 2 (copy_pairs [(0, [2])]))
    [[(6, 10); (7, 11)]; [(0, 4); (1, 5)]]) as Hi.
  { vm_compute. eapply (interleaves_cons _ 1); [reflexivity|].
    eapply (interleaves_cons _ 0); [reflexivity|]. apply interleaves_nil. by repeat constructor. }
  destruct (copy_blocks_copies tensor_Z [(0, [2])] _ Hcr Hi) as (data & Hc & Hd & _).
  split; [|reflexivity]. simpl in Hc. rewrite Hc.
  assert (data = [0; 1; 2; 3; 0; 1; 10; 11; 12; 13; 10; 11]) as ->; [|done].
  vm_compute in Hd. congruence.
Defined.
