(* ===== verification/Rotary.v ===== *)
(** * Rotary position embedding

    [models/layers/rotary_embedding.py] (the cosine and sine table),
    [ops/rotary_embedding_ops.py] (the launch) and the kernel of
    [ops/triton/rotary_embedding.py].  Tensors are flat buffers for the kernel.
    Its outputs start as uninitialized memory, which [torch_empty] supplies. *)
From S2P Require Import Prelude Tensor Triton.

(** The floating-point operations used besides addition. *)
Class Floats (V : Type) `{Scalar V} := {
  smul : V → V → V;
  ssub : V → V → V;
  sdiv : V → V → V;
  spow : V → V → V;
  scos : V → V;
  ssin : V → V;
  spi : V;
  slt : V → V → bool;
  of_Z : Z → V;
  to_Z : V → Z;
  (* rounding to the model's element type *)
  to_dtype : V → V;
}.

(** ** The table *)

Record RopeScaling (V : Type) := {
  rs_factor : V;
  rs_low_freq_factor : V;
  rs_high_freq_factor : V;
  rs_original_max_position_embeddings : V;
}.
Arguments rs_factor {V} r.
Arguments rs_low_freq_factor {V} r.
Arguments rs_high_freq_factor {V} r.
Arguments rs_original_max_position_embeddings {V} r.

(** The attributes of the configuration the constructor reads; the optional
    ones have a default. *)
Record RopeConfig (V : Type) := {
  rc_rope_theta : option V;
  rc_partial_rotary_factor : option V;
  rc_head_dim : option Z;
  rc_hidden_size : Z;
  rc_num_attention_heads : Z;
  rc_max_position_embeddings : Z;
  rc_rope_scaling : option (RopeScaling V);
}.
Arguments rc_rope_theta {V} r.
Arguments rc_partial_rotary_factor {V} r.
Arguments rc_head_dim {V} r.
Arguments rc_hidden_size {V} r.
Arguments rc_num_attention_heads {V} r.
Arguments rc_max_position_embeddings {V} r.
Arguments rc_rope_scaling {V} r.

Record RotaryEmbedding (V : Type) := {
  re_rotary_dim : Z;
  re_head_dim : Z;
  re_cos_sin_cached : mat V;
}.
Arguments re_rotary_dim {V} r.
Arguments re_head_dim {V} r.
Arguments re_cos_sin_cached {V} r.

Section rotary.
Context `{Floats V}.

Definition sneg (x : V) : V := ssub szero x.

(** [inv_freq] before scaling: one frequency per pair of dimensions. *)
Definition base_inv_freq (base : V) (rotary_dim : Z) : list V :=
  (λ i, sdiv (of_Z 1) (spow base (sdiv (of_Z i) (of_Z rotary_dim))))
    <$> range_step 0 rotary_dim 2.

(** The scaling of one frequency: low frequencies are divided, high ones kept,
    the ones between interpolated. *)
Definition scale_freq (s : RopeScaling V) (inv_freq : V) : V :=
  let factor := rs_factor s in
  let old_context_len := rs_original_max_position_embeddings s in
  let low_freq_wavelen := sdiv old_context_len (rs_low_freq_factor s) in
  let high_freq_wavelen := sdiv old_context_len (rs_high_freq_factor s) in
  let wavelen := sdiv (smul (of_Z 2) spi) inv_freq in
  let inv_freq := if slt low_freq_wavelen wavelen then sdiv inv_freq factor else inv_freq in
  let smooth_factor :=
    sdiv (ssub (sdiv old_context_len wavelen) (rs_low_freq_factor s))
         (ssub (rs_high_freq_factor s) (rs_low_freq_factor s)) in
  let smoothed_inv_freq :=
    sadd (sdiv (smul (ssub (of_Z 1) smooth_factor) inv_freq) factor)
         (smul smooth_factor inv_freq) in
  let is_medium_freq :=
    negb (slt wavelen high_freq_wavelen) && negb (slt low_freq_wavelen wavelen) in
  if is_medium_freq then smoothed_inv_freq else inv_freq.

(** The table: row [t] holds the cosines, then the sines, of the angles
    [t * inv_freq], each twice. *)
Definition cos_sin_table (max_position_embeddings : Z) (inv_freq : list V) : mat V :=
  Mat (4 * len inv_freq) ((λ t,
    let freqs := (λ f, smul (of_Z t) f) <$> inv_freq in
    let emb := freqs ++ freqs in
    ((λ a, to_dtype (scos a)) <$> emb) ++ ((λ a, to_dtype (ssin a)) <$> emb))
    <$> py_range 0 max_position_embeddings).

Definition RotaryEmbedding_init (config : RopeConfig V) (base : V) : res (RotaryEmbedding V) :=
  let base := default base (rc_rope_theta config) in
  let partial_rotary_factor := default (of_Z 1) (rc_partial_rotary_factor config) in
  default_head_dim ← py_floordiv (rc_hidden_size config) (rc_num_attention_heads config);
  let head_dim := default default_head_dim (rc_head_dim config) in
  let rotary_dim := to_Z (smul (of_Z head_dim) partial_rotary_factor) in
  let inv_freq := base_inv_freq base rotary_dim in
  let inv_freq := match rc_rope_scaling config with
                  | Some s => scale_freq s <$> inv_freq
                  | None => inv_freq end in
  Ok {| re_rotary_dim := rotary_dim; re_head_dim := head_dim;
        re_cos_sin_cached := cos_sin_table (rc_max_position_embeddings config) inv_freq |}.

(** ** The kernel *)

Definition load_at {A} (mem : list A) (ptr : Z) (idxs : list Z) : res (list A) :=
  tl_load mem ((λ x, ptr + x) <$> idxs).
Definition store_at (mem : list V) (ptr : Z) (idxs : list Z) (data : list V) : res (list V) :=
  tl_store mem ((λ x, ptr + x) <$> idxs) data.

(** The rotation of the dimensions [x_idx] against [y_idx] of one head. *)
Definition rotate_lanes (input : list V) (out : list V) (ptr : Z) (x_idx y_idx : list Z)
    (cos_x sin_x cos_y sin_y : list V) : res (list V) :=
  v_x ← load_at input ptr x_idx;
  v_y ← load_at input ptr y_idx;
  let out_x := zip_with ssub (zip_with smul v_x cos_x) (zip_with smul v_y sin_x) in
  let out_y := zip_with sadd (zip_with smul v_y cos_y) (zip_with smul v_x sin_y) in
  out ← store_at out ptr x_idx out_x;
  store_at out ptr y_idx out_y.

(** One program: a token. *)
Definition apply_rotary_pos_emb_kernel (query key : list V) (position : list Z)
    (cos_sin_cache : list V) (num_heads num_kv_heads head_dim rotary_dim BLOCK_SIZE : Z)
    (token_idx : Z) (outs : list V * list V) : res (list V * list V) :=
  p ← tl_load position [token_idx]; pos ← py_get p 0;
  let cos_ptr := pos * (rotary_dim * 2) in
  let sin_ptr := pos * (rotary_dim * 2) + rotary_dim in
  let query_ptr := token_idx * (num_heads * head_dim) in
  let key_ptr := token_idx * (num_kv_heads * head_dim) in
  let embed_dim := rotary_dim / 2 in
  foldM (λ outs head_id,
    let head_idx := head_id * head_dim in
    foldM (λ '(out_query, out_key) i,
      let x_idx := lanes i BLOCK_SIZE embed_dim in
      let y_idx := (λ x, embed_dim + x) <$> x_idx in
      cos_x ← load_at cos_sin_cache cos_ptr x_idx;
      cos_y ← load_at cos_sin_cache cos_ptr y_idx;
      sin_x ← load_at cos_sin_cache sin_ptr x_idx;
      sin_y ← load_at cos_sin_cache sin_ptr y_idx;
      out_query ← rotate_lanes query out_query (query_ptr + head_idx) x_idx y_idx
                    cos_x sin_x cos_y sin_y;
      out_key ← (if head_id <? num_kv_heads
                 then rotate_lanes key out_key (key_ptr + head_idx) x_idx y_idx
                        cos_x sin_x cos_y sin_y
                 else Ok out_key);
      Ok (out_query, out_key))
      outs (range_step 0 embed_dim BLOCK_SIZE))
    outs (py_range 0 num_heads).

Definition rotary_pos_emb (torch_empty : Z → list V) (query key : mat V) (positions : list Z)
    (cos_sin_cache : mat V) (head_dim : Z) : res (mat V * mat V) :=
  let num_tokens := len positions in
  num_heads ← py_floordiv (cols query) head_dim;
  num_kv_heads ← py_floordiv (cols key) head_dim;
  let rotary_dim := cols cos_sin_cache / 2 in
  let q_out := torch_empty (nrows query * cols query) in
  let k_out := torch_empty (nrows key * cols key) in
  (* a step of zero *)
  _ ← py_require (0 <? rotary_dim / 2) ValueError;
  '(q_out, k_out) ← foldM (λ outs token_idx,
      apply_rotary_pos_emb_kernel (concat (rows query)) (concat (rows key)) positions
        (concat (rows cos_sin_cache)) num_heads num_kv_heads head_dim rotary_dim
        (rotary_dim / 2) token_idx outs)
    (q_out, k_out) (py_range 0 num_tokens);
  Ok (unflatten (cols query) (nrows query) q_out, unflatten (cols key) (nrows key) k_out).

Definition RotaryEmbedding_forward (torch_empty : Z → list V) (self : RotaryEmbedding V)
    (query key : mat V) (positions : list Z) : res (mat V * mat V) :=
  rotary_pos_emb torch_empty query key positions (re_cos_sin_cached self) (re_head_dim self).
End rotary.

(** ** What the kernel computes *)

#[local] Opaque py_range.

Section spec.
Context `{Floats V}.
Implicit Types (mem : list V) (m : mat V).

Definition sget mem (p : Z) : V := default szero (mem !! Z.to_nat p).

(** The rotated value of dimension [x] of a head, given the head's entries, the
    cosines and the sines, for [e] pairs of dimensions. *)
Definition rotate (e : Z) (head cos sin : Z → V) (x : Z) : V :=
  if x <? e then ssub (smul (head x) (cos x)) (smul (head (x + e)) (sin x))
  else sadd (smul (head x) (cos x)) (smul (head (x - e)) (sin x)).

Lemma load_at_total mem ptr idxs :
  (∀ x, x ∈ idxs → 0 ≤ ptr + x < len mem) →
  load_at mem ptr idxs = Ok ((λ x, sget mem (ptr + x)) <$> idxs).
Proof.
  intros Hx. unfold load_at. rewrite (tl_load_total _ _ (sget mem)).
  - by rewrite <-list_fmap_compose.
  - intros p (x & -> & Hin)%list_elem_of_fmap. destruct (Hx x Hin) as [? ?]. split; [done|].
    unfold sget, len in *. destruct (lookup_lt_is_Some_2 mem (Z.to_nat (ptr + x))) as [v ->]; [lia|done].
Qed.

Lemma store_at_total mem ptr idxs (f : Z → V) :
  (∀ x, x ∈ idxs → 0 ≤ ptr + x < len mem) →
  store_at mem ptr idxs ((λ x, f (ptr + x)) <$> idxs)
  = Ok (stored mem ((λ x, ptr + x) <$> idxs) f).
Proof.
  intros Hx. unfold store_at. rewrite <-tl_store_Ok; [by rewrite <-list_fmap_compose|].
  intros p (x & -> & Hin)%list_elem_of_fmap. auto.
Qed.

Lemma len_stored mem ps (f : Z → V) : len (stored mem ps f) = len mem.
Proof. unfold len. by rewrite length_stored. Qed.

(** One head: the lanes of its first [2 * e] dimensions. *)
Lemma rotate_lanes_Ok input out ptr e (cos sin F : Z → V) :
  0 ≤ e → 0 ≤ ptr → ptr + 2 * e ≤ len input → ptr + 2 * e ≤ len out →
  (∀ x, 0 ≤ x < 2 * e → F (ptr + x) = rotate e (λ x, sget input (ptr + x)) cos sin x) →
  rotate_lanes input out ptr (py_range 0 e) ((λ x, e + x) <$> py_range 0 e)
    (cos <$> py_range 0 e) (sin <$> py_range 0 e)
    ((λ x, cos (e + x)) <$> py_range 0 e) ((λ x, sin (e + x)) <$> py_range 0 e)
  = Ok (stored out ((λ x, ptr + x) <$> py_range 0 (2 * e)) F).
Proof.
  intros He Hptr Hin Hout HF. unfold rotate_lanes.
  rewrite !load_at_total.
  2:{ intros x Hx%elem_of_py_range. lia. }
  2:{ intros y (x & -> & Hx%elem_of_py_range)%list_elem_of_fmap. lia. }
  rewrite !Ok_bind, <-!list_fmap_compose.
  rewrite !zip_with_fmap_l, !zip_with_fmap_r, !zip_with_diag.
  rewrite !zip_with_fmap_l, !zip_with_fmap_r, !zip_with_diag.
  rewrite (fmap_list_ext _ ((λ x, F (ptr + x)) ∘ (λ x, e + x)) (py_range 0 e)).
  2:{ intros x Hx%elem_of_py_range. simpl. rewrite HF by lia. unfold rotate.
      destruct (Z.ltb_spec (e + x) e); [lia|]. simpl.
      by replace (e + x - e) with x by lia. }
  rewrite (fmap_list_ext (λ x, ssub (smul (sget input (ptr + x)) (cos x))
                             (smul (sget input (ptr + (e + x))) (sin x)))
                (λ x, F (ptr + x)) (py_range 0 e)).
  2:{ intros x Hx%elem_of_py_range. rewrite HF by lia. unfold rotate.
      destruct (Z.ltb_spec x e); [|lia]. simpl. by rewrite (Z.add_comm e x). }
  rewrite store_at_total by (intros x Hx%elem_of_py_range; lia). rewrite Ok_bind.
  rewrite list_fmap_compose, store_at_total.
  2:{ intros y (x & -> & Hx%elem_of_py_range)%list_elem_of_fmap. rewrite len_stored. lia. }
  f_equal. rewrite <-stored_app, <-fmap_app. do 2 f_equal.
  rewrite <-(py_range_app 0 e (2 * e)) by lia. f_equal.
  pose proof (py_range_shift 0 e e) as E. rewrite Z.add_0_l, Z.add_diag in E. rewrite E.
  apply list_fmap_ext. intros; lia.
Qed.
End spec.

(** ** Flat buffers and rows *)

Section flat.
Context `{Floats V}.
Implicit Types (m : mat V).

Definition entry m (t j : Z) : option V := r ← rows m !! Z.to_nat t; r !! Z.to_nat j.
Definition mget m (t j : Z) : V := default szero (entry m t j).

Lemma sget_flat m t j :
  mat_wf m → 0 ≤ t < nrows m → 0 ≤ j < cols m →
  sget (concat (rows m)) (t * cols m + j) = mget m t j.
Proof.
  intros Hwf Ht Hj. unfold sget, mget, entry.
  destruct (lookup_lt_is_Some_2 (rows m) (Z.to_nat t)) as [r Hr]; [unfold nrows, len in Ht; lia|].
  rewrite Hr. simpl. rewrite <-(flat_row m _ r Hwf Hr) at 1. rewrite Z2Nat.id by lia.
  rewrite lookup_py_slice by nia. f_equal. f_equal. nia.
Qed.

Lemma entry_unflatten c n (flat : list V) t j :
  0 ≤ t < n → 0 ≤ j < c → entry (unflatten c n flat) t j = flat !! Z.to_nat (t * c + j).
Proof.
  intros Ht Hj. unfold entry, unflatten. simpl.
  rewrite list_lookup_fmap, lookup_py_range by lia. simpl.
  rewrite lookup_py_slice by nia. f_equal. rewrite Z2Nat.id by lia. nia.
Qed.

Lemma unflatten_wf c n (flat : list V) :
  0 ≤ c → 0 ≤ n → len flat = n * c →
  mat_wf (unflatten c n flat) ∧ nrows (unflatten c n flat) = n.
Proof.
  intros Hc Hn Hl. split; [split; [done|]|].
  - apply Forall_fmap, Forall_forall. intros t Ht%elem_of_py_range. simpl.
    rewrite len_py_slice; nia.
  - unfold nrows. simpl. rewrite len_fmap. unfold len. rewrite length_py_range. lia.
Qed.
End flat.

(** ** The whole launch *)

Section launch.
Context `{Floats V} (torch_empty : Z → list V).
Context (query key cache : mat V) (positions : list Z) (hd nh nkv e : Z).

Record rotary_inputs : Prop := {
  ri_query : mat_wf query; ri_key : mat_wf key; ri_cache : mat_wf cache;
  ri_cols_q : cols query = nh * hd;
  ri_cols_k : cols key = nkv * hd;
  ri_cols_c : cols cache = 4 * e;
  ri_rows_q : nrows query = len positions;
  ri_rows_k : nrows key = len positions;
  ri_positions : ∀ p, p ∈ positions → 0 ≤ p < nrows cache;
  ri_e : 0 < e; ri_hd : 2 * e ≤ hd; ri_nh : 0 ≤ nh; ri_nkv : 0 ≤ nkv;
  ri_empty : ∀ n, 0 ≤ n → len (torch_empty n) = n;
}.
Hypothesis (Hri : rotary_inputs).

(** The value for position [p] of the flat output of an input [m]. *)
Definition rotated_at (m : mat V) (p : Z) : V :=
  let t := p / cols m in
  let j := p `mod` cols m in
  let pos := default 0 (positions !! Z.to_nat t) in
  rotate e (λ x, mget m t (j - j `mod` hd + x)) (mget cache pos)
    (λ x, mget cache pos (2 * e + x)) (j `mod` hd).

Lemma rotated_at_head m n t h x pos :
  cols m = n * hd → 0 ≤ t → 0 ≤ h < n → 0 ≤ x < hd → positions !! Z.to_nat t = Some pos →
  rotated_at m (t * (n * hd) + h * hd + x)
  = rotate e (λ x, mget m t (h * hd + x)) (mget cache pos) (λ x, mget cache pos (2 * e + x)) x.
Proof using.
  intros Hc Ht Hh Hx Hpos. unfold rotated_at. rewrite Hc.
  assert (0 ≤ h * hd + x < n * hd) by nia.
  replace (t * (n * hd) + h * hd + x) with (h * hd + x + t * (n * hd)) by lia.
  rewrite Z.div_add, Z.mod_add, Z.div_small, Z.mod_small by lia. rewrite Z.add_0_l, Hpos. simpl.
  rewrite (Z.add_comm (h * hd) x), Z.mod_add, Z.mod_small by lia.
  replace (x + h * hd - x) with (h * hd) by lia. done.
Qed.

(** The positions written for token [t] and head [h]. *)
Definition written (n : Z) (t h : Z) : list Z :=
  if h <? n then (λ x, t * (n * hd) + h * hd + x) <$> py_range 0 (2 * e) else [].

Lemma head_bounds n t h :
  0 ≤ t < len positions → 0 ≤ h < n → t * (n * hd) + h * hd + 2 * e ≤ len positions * (n * hd).
Proof using Hri.
  intros Ht Hh. pose proof (ri_hd Hri). pose proof (ri_e Hri).
  assert ((t + 1) * (n * hd) ≤ len positions * (n * hd)) by (apply Z.mul_le_mono_nonneg_r; nia).
  assert ((h + 1) * hd ≤ n * hd) by (apply Z.mul_le_mono_nonneg_r; lia). lia.
Qed.

Lemma rotate_head (m : mat V) n out t h pos :
  mat_wf m → cols m = n * hd → nrows m = len positions → len out = len positions * (n * hd) →
  0 ≤ t < len positions → 0 ≤ h < n → positions !! Z.to_nat t = Some pos →
  rotate_lanes (concat (rows m)) out (t * (n * hd) + h * hd)
    (py_range 0 e) ((λ x, e + x) <$> py_range 0 e)
    (mget cache pos <$> py_range 0 e) ((λ x, mget cache pos (2 * e + x)) <$> py_range 0 e)
    ((λ x, mget cache pos (e + x)) <$> py_range 0 e)
    ((λ x, mget cache pos (2 * e + (e + x))) <$> py_range 0 e)
  = Ok (stored out (written n t h) (rotated_at m)).
Proof using Hri.
  intros Hwf Hc Hr Hlo Ht Hh Hpos. pose proof (ri_hd Hri). pose proof (ri_e Hri).
  pose proof (head_bounds n t h Ht Hh).
  assert (0 ≤ t * (n * hd)) by (apply Z.mul_nonneg_nonneg; nia).
  unfold written. destruct (Z.ltb_spec h n); [|lia].
  apply (rotate_lanes_Ok _ _ _ e (mget cache pos) (λ x, mget cache pos (2 * e + x))); try lia.
  - nia.
  - rewrite len_flat, Hr, Hc by done. lia.
  - intros x Hx. rewrite (rotated_at_head m n t h x pos) by (done || lia).
    unfold rotate. rewrite <-Hc. destruct (Z.ltb_spec x e);
      rewrite <-!Z.add_assoc, !sget_flat by (done || (rewrite ?Hr, ?Hc; nia)); done.
Qed.

(** The table's lanes. *)
Lemma cache_lanes pos off idxs :
  0 ≤ pos < nrows cache → (∀ x, x ∈ idxs → 0 ≤ off + x < 4 * e) →
  load_at (concat (rows cache)) (pos * (4 * e) + off) idxs
  = Ok ((λ x, mget cache pos (off + x)) <$> idxs).
Proof using Hri.
  intros Hp Hx. pose proof (ri_cols_c Hri) as Hc. pose proof (ri_cache Hri) as Hwf.
  rewrite load_at_total.
  - f_equal. apply fmap_list_ext. intros x Hin. rewrite <-Z.add_assoc, <-Hc.
    apply sget_flat; [done|done|]. rewrite Hc. auto.
  - intros x Hin. specialize (Hx x Hin). rewrite len_flat, Hc by done.
    assert ((pos + 1) * (4 * e) ≤ nrows cache * (4 * e)) by (apply Z.mul_le_mono_nonneg_r; lia).
    assert (0 ≤ pos * (4 * e)) by (apply Z.mul_nonneg_nonneg; lia). lia.
Qed.

Definition lens (outs : list V * list V) : Prop :=
  len outs.1 = len positions * (nh * hd) ∧ len outs.2 = len positions * (nkv * hd).
Definition write_head (t : Z) (outs : list V * list V) (h : Z) : list V * list V :=
  (stored outs.1 (written nh t h) (rotated_at query),
   stored outs.2 (if h <? nh then written nkv t h else []) (rotated_at key)).

Lemma write_head_lens t outs h : lens outs → lens (write_head t outs h).
Proof using. unfold lens. simpl. by rewrite !len_stored. Qed.

Lemma kernel_Ok t outs :
  0 ≤ t < len positions → lens outs →
  apply_rotary_pos_emb_kernel (concat (rows query)) (concat (rows key)) positions
    (concat (rows cache)) nh nkv hd (2 * e) e t outs
  = Ok (foldl (write_head t) outs (py_range 0 nh)) ∧
  lens (foldl (write_head t) outs (py_range 0 nh)).
Proof using Hri.
  intros Ht Hl. pose proof (ri_e Hri).
  destruct (lookup_lt_is_Some_2 positions (Z.to_nat t)) as [pos Hpos]; [unfold len in Ht; lia|].
  pose proof (ri_positions Hri pos (list_elem_of_lookup_2 _ _ _ Hpos)) as Hp.
  unfold apply_rotary_pos_emb_kernel.
  rewrite (tl_load_Ok _ [t] [pos]) by (repeat constructor; (lia || done)).
  rewrite Ok_bind. change (py_get [pos] 0) with (Ok pos). rewrite Ok_bind. cbv zeta.
  replace (2 * e / 2) with e by (rewrite Z.mul_comm, Z.div_mul; lia).
  replace (pos * (2 * e * 2)) with (pos * (4 * e) + 0) by lia.
  replace (pos * (4 * e) + 0 + 2 * e) with (pos * (4 * e) + 2 * e) by lia.
  rewrite range_step_single by lia. destruct (Z.eqb_spec e 0); [lia|].
  apply foldM_pure_inv; [|done]. clear outs Hl. intros outs h Hh%elem_of_py_range Hl.
  split; [|by apply write_head_lens]. destruct outs as [oq ok]. destruct Hl as [Hlq Hlk]. cbn [fst snd] in Hlq, Hlk.
  cbn [foldM]. rewrite lanes_range, Z.min_id by lia. cbv zeta.
  rewrite !cache_lanes by (done || (intros x; rewrite ?list_elem_of_fmap; intros;
    destruct_and?; repeat match goal with H : _ ∈ py_range _ _ |- _ => apply elem_of_py_range in H
      | H : ∃ _, _ |- _ => destruct H as (? & -> & ?) end; lia)).
  rewrite !Ok_bind, <-!list_fmap_compose.
  pose proof (rotate_head query nh oq t h pos (ri_query Hri) (ri_cols_q Hri) (ri_rows_q Hri)
    Hlq Ht Hh Hpos) as Eq.
  pose proof (rotate_head key nkv ok t h pos (ri_key Hri) (ri_cols_k Hri) (ri_rows_k Hri)
    Hlk Ht) as Ek.
  unfold compose. simpl. setoid_rewrite Eq. simpl. unfold write_head. simpl.
  destruct (Z.ltb_spec h nh); [|lia]. destruct (Z.ltb_spec h nkv).
  - setoid_rewrite Ek; [done|lia|done].
  - unfold written. destruct (Z.ltb_spec h nkv); [lia|done].
Qed.

Lemma foldl_stored {K} (P Q : K → list Z) (F G : Z → V) (l : list K) (outs : list V * list V) :
  foldl (λ outs k, (stored outs.1 (P k) F, stored outs.2 (Q k) G)) outs l
  = (stored outs.1 (concat (P <$> l)) F, stored outs.2 (concat (Q <$> l)) G).
Proof using.
  revert outs. induction l as [|k l IH]; intros [a b]; [done|]. csimpl.
  rewrite IH. simpl. by rewrite !stored_app.
Qed.

(** Every position the launch writes in an output of [n] heads. *)
Definition all_written (n : Z) : list Z :=
  concat ((λ t, concat ((λ h, if h <? nh then written n t h else []) <$> py_range 0 nh))
    <$> py_range 0 (len positions)).

Lemma launch_Ok :
  rotary_pos_emb torch_empty query key positions cache hd
  = Ok (unflatten (nh * hd) (len positions)
          (stored (torch_empty (len positions * (nh * hd))) (all_written nh) (rotated_at query)),
        unflatten (nkv * hd) (len positions)
          (stored (torch_empty (len positions * (nkv * hd))) (all_written nkv) (rotated_at key))).
Proof using Hri.
  pose proof (ri_e Hri) as He. pose proof (ri_hd Hri). pose proof (ri_nh Hri). pose proof (ri_nkv Hri).
  unfold rotary_pos_emb. rewrite (ri_cols_q Hri), (ri_cols_k Hri), (ri_cols_c Hri), (ri_rows_q Hri),
    (ri_rows_k Hri).
  rewrite !py_floordiv_pos, !Z.div_mul, !Ok_bind by lia. cbv zeta.
  replace (4 * e / 2) with (2 * e) by (apply Z.div_unique with 0; lia).
  replace (2 * e / 2) with e by (apply Z.div_unique with 0; lia).
  destruct (Z.ltb_spec 0 e); [|lia]. simpl.
  pose proof (len_nonneg positions).
  edestruct (foldM_pure_inv lens (λ outs token_idx,
      apply_rotary_pos_emb_kernel (concat (rows query)) (concat (rows key)) positions
        (concat (rows cache)) nh nkv hd (2 * e) e token_idx outs)
    (λ outs t, foldl (write_head t) outs (py_range 0 nh))) as [-> _].
  { intros outs t Ht%elem_of_py_range Hl. by apply kernel_Ok. }
  { assert (0 ≤ nh * hd) by nia. assert (0 ≤ nkv * hd) by nia.
    split; simpl; apply (ri_empty Hri), Z.mul_nonneg_nonneg; lia. }
  rewrite Ok_bind.
  rewrite (foldl_pointwise _ (λ outs t,
    (stored outs.1 (concat ((λ h, if h <? nh then written nh t h else []) <$> py_range 0 nh)) (rotated_at query),
     stored outs.2 (concat ((λ h, if h <? nh then written nkv t h else []) <$> py_range 0 nh)) (rotated_at key)))).
  - by rewrite foldl_stored.
  - intros outs t. unfold write_head. rewrite foldl_stored. do 2 f_equal. f_equal.
    apply list_fmap_ext. intros i h _. unfold written. by destruct (h <? nh).
Qed.

Lemma elem_of_all_written n t h x :
  0 ≤ t < len positions → 0 ≤ h < n → 0 ≤ x < hd →
  t * (n * hd) + h * hd + x ∈ all_written n ↔ h < nh ∧ x < 2 * e.
Proof using Hri.
  intros Ht Hh Hx. pose proof (ri_hd Hri). pose proof (ri_e Hri). unfold all_written.
  rewrite elem_of_concat_fmap. setoid_rewrite elem_of_concat_fmap. setoid_rewrite elem_of_py_range.
  unfold written. split.
  - intros (t' & Ht' & h' & Hh' & Hin). destruct (Z.ltb_spec h' nh); [|set_solver].
    destruct (Z.ltb_spec h' n); [|set_solver].
    apply list_elem_of_fmap in Hin as (x' & E & Hx'%elem_of_py_range).
    assert (0 ≤ h * hd + x < n * hd) by nia. assert (0 ≤ h' * hd + x' < n * hd) by nia.
    destruct (Z.div_mod_unique (n * hd) t t' (h * hd + x) (h' * hd + x')) as [_ E']; [lia..|].
    destruct (Z.div_mod_unique hd h h' x x'); lia.
  - intros [Hhn Hx2]. exists t. split; [done|]. exists h. split; [lia|].
    destruct (Z.ltb_spec h nh), (Z.ltb_spec h n); try lia.
    apply (list_elem_of_fmap_2 (λ x, t * (n * hd) + h * hd + x)), elem_of_py_range. lia.
Qed.

(** What the launch leaves in an output of [n] heads. *)
Lemma launch_entry (m : mat V) n t h x pos :
  cols m = n * hd → 0 ≤ n → 0 ≤ t < len positions → 0 ≤ h < n → 0 ≤ x < hd →
  positions !! Z.to_nat t = Some pos →
  entry (unflatten (n * hd) (len positions)
           (stored (torch_empty (len positions * (n * hd))) (all_written n) (rotated_at m)))
    t (h * hd + x)
  = if decide (h < nh ∧ x < 2 * e)
    then Some (rotate e (λ x, mget m t (h * hd + x)) (mget cache pos)
                 (λ x, mget cache pos (2 * e + x)) x)
    else torch_empty (len positions * (n * hd)) !! Z.to_nat (t * (n * hd) + h * hd + x).
Proof using Hri.
  intros Hc Hn Ht Hh Hx Hpos. pose proof (ri_hd Hri). pose proof (ri_e Hri).
  assert (0 ≤ h * hd + x < n * hd) by nia.
  rewrite entry_unflatten by done. assert (0 ≤ t * (n * hd)) by (apply Z.mul_nonneg_nonneg; nia).
  rewrite lookup_stored.
  - rewrite Z2Nat.id, Z.add_assoc by lia.
    destruct (decide (h < nh ∧ x < 2 * e)) as [Hw|Hw].
    + rewrite decide_True by (by apply elem_of_all_written).
      f_equal. apply rotated_at_head; (done || lia).
    + rewrite decide_False by (by rewrite elem_of_all_written).
      done.
  - intros p. unfold all_written. rewrite elem_of_concat_fmap. setoid_rewrite elem_of_concat_fmap.
    intros (t' & Ht'%elem_of_py_range & h' & Hh'%elem_of_py_range & Hin).
    destruct (Z.ltb_spec h' nh); [|set_solver]. unfold written in Hin.
    destruct (Z.ltb_spec h' n); [|set_solver].
    apply list_elem_of_fmap in Hin as (x' & -> & Hx'%elem_of_py_range).
    rewrite (ri_empty Hri) by nia. pose proof (head_bounds n t' h' Ht').
    assert (0 ≤ t' * (n * hd)) by (apply Z.mul_nonneg_nonneg; nia). nia.
Qed.
End launch.

(** ** Rows *)

Section rows.
Context `{Floats V} (cache : mat V) (hd e : Z).

(** A row rotated at position [pos], when the whole heads are rotated. *)
Definition rotate_row (pos : Z) (row : list V) : list V :=
  (λ j, rotate e (λ x, sget row (j - j `mod` hd + x)) (mget cache pos)
          (λ x, mget cache pos (2 * e + x)) (j `mod` hd)) <$> py_range 0 (len row).

Lemma len_rotate_row pos row : len (rotate_row pos row) = len row.
Proof. unfold rotate_row. rewrite len_fmap. unfold len. rewrite length_py_range. lia. Qed.

Lemma lookup_rotate_row pos row (j : Z) :
  0 ≤ j < len row →
  rotate_row pos row !! Z.to_nat j
  = Some (rotate e (λ x, sget row (j - j `mod` hd + x)) (mget cache pos)
            (λ x, mget cache pos (2 * e + x)) (j `mod` hd)).
Proof.
  intros Hj. unfold rotate_row. rewrite list_lookup_fmap, lookup_py_range by lia. simpl.
  by rewrite Z2Nat.id, Z.add_0_l by lia.
Qed.

Lemma sget_block (row : list V) s r x :
  0 ≤ r → 0 ≤ x < s → sget (block row s r) x = sget row (r * s + x).
Proof.
  intros Hr Hx. assert (0 ≤ r * s) by nia. unfold sget, block.
  rewrite lookup_py_slice by lia. do 2 f_equal. lia.
Qed.

(** Rotating a block of heads. *)
Lemma rotate_row_block pos row n w r :
  2 * e = hd → 0 < e → 0 < n → 0 ≤ r < w → len row = w * (n * hd) →
  rotate_row pos (block row (n * hd) r) = block (rotate_row pos row) (n * hd) r.
Proof.
  intros He Hpos Hn Hr Hl.
  assert (0 < n * hd) by nia.
  assert (len (block row (n * hd) r) = n * hd) as Hlb by (apply (len_block _ _ w); (done || lia)).
  assert (len (block (rotate_row pos row) (n * hd) r) = n * hd) as Hlr
    by (apply (len_block _ _ w); rewrite ?len_rotate_row; (done || lia)).
  apply list_eq_same_length with (Z.to_nat (n * hd)).
  - unfold len in Hlr; lia.
  - pose proof (len_rotate_row pos (block row (n * hd) r)) as E. unfold len in E, Hlb. lia.
  - intros k x y Hk Hx Hy.
    assert (0 ≤ r * (n * hd)) by nia.
    assert ((r + 1) * (n * hd) ≤ w * (n * hd)) by (apply Z.mul_le_mono_nonneg_r; lia).
    rewrite <-(Nat2Z.id k) in Hx. rewrite lookup_rotate_row in Hx by lia.
    unfold block in Hy. rewrite lookup_py_slice in Hy by lia.
    replace (Z.to_nat (r * (n * hd)) + k)%nat with (Z.to_nat (r * (n * hd) + Z.of_nat k)) in Hy by lia.
    rewrite lookup_rotate_row in Hy by lia.
    assert ((r * (n * hd) + Z.of_nat k) `mod` hd = Z.of_nat k `mod` hd) as Emod.
    { replace (r * (n * hd) + Z.of_nat k) with (Z.of_nat k + (r * n) * hd) by lia.
      by rewrite Z.mod_add by lia. }
    rewrite Emod in Hy. injection Hx as <-. injection Hy as <-.
    set (j := Z.of_nat k `mod` hd).
    assert (0 ≤ j < hd) as Hj by (apply Z.mod_pos_bound; lia).
    assert (∀ x, 0 ≤ x < hd →
      sget (block row (n * hd) r) (Z.of_nat k - j + x) = sget row (r * (n * hd) + Z.of_nat k - j + x)) as Hs.
    { intros x0 Hx0. pose proof (Z.div_mod (Z.of_nat k) hd ltac:(lia)) as Ed. fold j in Ed.
      assert (Z.of_nat k / hd < n) by (apply Z.div_lt_upper_bound; lia).
      assert (0 ≤ Z.of_nat k / hd) by (apply Z.div_pos; lia).
      assert (hd * (Z.of_nat k / hd + 1) ≤ hd * n) by (apply Z.mul_le_mono_nonneg_l; lia).
      rewrite sget_block by lia. f_equal. lia. }
    unfold rotate. destruct (Z.ltb_spec j e); rewrite !Hs by lia; done.
Qed.
End rows.

Lemma mat_eq_entries {V} (a b : mat V) :
  mat_wf a → mat_wf b → cols a = cols b → nrows a = nrows b →
  (∀ t j, 0 ≤ t < nrows a → 0 ≤ j < cols a → entry a t j = entry b t j) → a = b.
Proof.
  intros Ha Hb Hc Hn He. destruct a as [c ra], b as [c' rb]. simpl in *. subst c'. f_equal.
  unfold nrows in *. simpl in *.
  apply list_eq_same_length with (length ra); [unfold len in Hn; lia|done|].
  intros t x y Ht Hx Hy.
  assert (len x = c) as Hlx by (apply (rows_len _ _ Ha); by eapply list_elem_of_lookup_2).
  assert (len y = c) as Hly by (apply (rows_len _ _ Hb); by eapply list_elem_of_lookup_2).
  apply list_eq_same_length with (Z.to_nat c); [unfold len in *; lia..|].
  intros j u v Hj Hu Hv. specialize (He (Z.of_nat t) (Z.of_nat j)). unfold entry in He. simpl in He.
  rewrite !Nat2Z.id, Hx, Hy in He. simpl in He. unfold len in *. rewrite Hu, Hv in He.
  assert (Some u = Some v) as [= ->] by (apply He; lia). done.
Qed.

Section forward_rows.
Context `{Floats V} (torch_empty : Z → list V).
Context (query key cache : mat V) (positions : list Z) (hd nh nkv e : Z).
Hypothesis (Hri : rotary_inputs torch_empty query key cache positions hd nh nkv e).
Hypothesis (He : 2 * e = hd) (Hkv : nkv ≤ nh).

Definition rotated (m : mat V) : mat V :=
  Mat (cols m) (zip_with (rotate_row cache hd e) positions (rows m)).

Lemma rotated_wf (m : mat V) :
  mat_wf m → nrows m = len positions → mat_wf (rotated m) ∧ nrows (rotated m) = nrows m.
Proof using.
  intros Hwf Hn. split.
  - split; [apply Hwf|]. apply Forall_lookup_2. intros t r Ht. simpl in Ht.
    apply lookup_zip_with_Some in Ht as (p & row & -> & _ & Hrow). rewrite len_rotate_row.
    apply (rows_len _ _ Hwf). by eapply list_elem_of_lookup_2.
  - unfold nrows, len in *. simpl. rewrite length_zip_with. lia.
Qed.

(** When whole heads are rotated, every row is rotated at its position. *)
Lemma rotary_rows :
  rotary_pos_emb torch_empty query key positions cache hd = Ok (rotated query, rotated key).
Proof using Hri He Hkv.
  pose proof (ri_e _ _ _ _ _ _ _ _ _ Hri). pose proof (len_nonneg positions).
  pose proof (ri_nh _ _ _ _ _ _ _ _ _ Hri). pose proof (ri_nkv _ _ _ _ _ _ _ _ _ Hri).
  rewrite (launch_Ok _ _ _ _ _ _ _ _ _ Hri).
  assert (∀ n (m : mat V), 0 ≤ n ≤ nh → mat_wf m → cols m = n * hd → nrows m = len positions →
    unflatten (n * hd) (len positions)
      (stored (torch_empty (len positions * (n * hd))) (all_written positions hd nh e n)
         (rotated_at cache positions hd e m)) = rotated m) as Hm.
  { intros n m Hn Hwf Hc Hr. destruct (rotated_wf m Hwf Hr) as [Hwf' Hr'].
    assert (0 ≤ n * hd) by nia.
    destruct (unflatten_wf (n * hd) (len positions)
      (stored (torch_empty (len positions * (n * hd))) (all_written positions hd nh e n)
         (rotated_at cache positions hd e m))) as [Hwfu Hru]; [lia|lia| |].
    { rewrite len_stored. apply (ri_empty _ _ _ _ _ _ _ _ _ Hri). nia. }
    apply mat_eq_entries; try done; [lia|]. simpl. rewrite Hru. intros t j Ht Hj.
    destruct (lookup_lt_is_Some_2 positions (Z.to_nat t)) as [pos Hpos]; [unfold len in Ht; lia|].
    destruct (lookup_lt_is_Some_2 (rows m) (Z.to_nat t)) as [row Hrow];
      [unfold nrows, len in *; lia|].
    assert (len row = n * hd) as Hlr.
    { rewrite <-Hc. apply (rows_len _ _ Hwf). by eapply list_elem_of_lookup_2. }
    pose proof (Z.div_mod j hd ltac:(lia)) as Ed. pose proof (Z.mod_pos_bound j hd ltac:(lia)).
    assert (0 ≤ j / hd < n) by (split; [apply Z.div_pos; lia|apply Z.div_lt_upper_bound; lia]).
    replace (entry (unflatten _ _ _) t j) with (entry (unflatten (n * hd) (len positions)
      (stored (torch_empty (len positions * (n * hd))) (all_written positions hd nh e n)
         (rotated_at cache positions hd e m))) t (j / hd * hd + j `mod` hd)) by (f_equal; lia).
    rewrite (launch_entry _ _ _ _ _ _ _ _ _ Hri m n t (j / hd) (j `mod` hd) pos) by (done || lia).
    rewrite decide_True by lia. unfold entry, rotated. simpl.
    rewrite lookup_zip_with, Hpos, Hrow. simpl. rewrite lookup_rotate_row by lia.
    f_equal. unfold rotate, mget, entry, sget. rewrite Hrow. simpl.
    replace (j - j `mod` hd) with (j / hd * hd) by lia. done. }
  rewrite !Hm; try done; try lia; apply Hri.
Qed.
End forward_rows.


(** One token with one head of three dimensions, of which two are rotated. *)
#[local] Instance floats_Z : Floats Z := {| smul := Z.mul; ssub := Z.sub; sdiv := Z.div;
  spow := Z.pow; scos := λ _, 1; ssin := λ _, 0; spi := 3; slt := Z.ltb; of_Z := λ x, x;
  to_Z := λ x, x; to_dtype := λ x, x |}.
Definition empty_Z (n : Z) : list Z := (λ _, -1) <$> py_range 0 n.

