(* ===== verification/RotaryReal.v ===== *)
(** * Rotary embedding over the real numbers

    With exact arithmetic the rotation by the table of [RotaryEmbedding] encodes
    relative positions: attention scores depend on the distance of two tokens
    only. *)
From S2P Require Import Prelude Tensor Triton Rotary.
From Stdlib Require Import Reals Lra.
Open Scope Z_scope.

#[export] Instance R_scalar : Scalar R := {| szero := 0%R; sadd := Rplus |}.
#[export] Instance R_floats : Floats R := {|
  smul := Rmult; ssub := Rminus; sdiv := Rdiv; spow := Rpower;
  scos := cos; ssin := sin; spi := PI;
  slt := λ a b, if Rlt_dec a b then true else false;
  of_Z := IZR; to_Z := Int_part; to_dtype := λ x, x |}.

#[local] Opaque py_range.

Definition sumR (l : list R) : R := foldr Rplus 0%R l.

(** The inner product of head [h] of row [t] of [q] and head [h'] of row [t']
    of [k]. *)
Definition score (hd : Z) (q k : mat R) (t h t' h' : Z) : R :=
  sumR ((λ x, mget q t (h * hd + x) * mget k t' (h' * hd + x))%R <$> py_range 0 hd).

Lemma sumR_app a b : sumR (a ++ b) = (sumR a + sumR b)%R.
Proof. induction a as [|x a IH]; simpl; [lra|]. unfold sumR in *. rewrite IH. lra. Qed.

Lemma sumR_plus {A} (f g : A → R) (l : list A) :
  (sumR (f <$> l) + sumR (g <$> l))%R = sumR ((λ x, f x + g x)%R <$> l).
Proof. induction l as [|x l IH]; csimpl; [lra|]. unfold sumR in *. simpl. rewrite <-IH. lra. Qed.

Lemma range_double e :
  0 ≤ e → py_range 0 (2 * e) = py_range 0 e ++ ((λ x, x + e) <$> py_range 0 e).
Proof.
  intros He. rewrite <-(py_range_app 0 e (2 * e)) by lia. f_equal.
  pose proof (py_range_shift 0 e e) as E. rewrite Z.add_0_l, Z.add_diag in E. done.
Qed.

Section table.
Context (max_pos : Z) (inv_freq : list R).
Notation e := (len inv_freq).

Definition freq (x : Z) : R := default 0%R (inv_freq !! Z.to_nat x).

Lemma table_entry pos x :
  0 ≤ pos < max_pos → 0 ≤ x < e →
  let tb := cos_sin_table max_pos inv_freq in
  mget tb pos x = cos (IZR pos * freq x) ∧ mget tb pos (x + e) = cos (IZR pos * freq x) ∧
  mget tb pos (2 * e + x) = sin (IZR pos * freq x) ∧
  mget tb pos (2 * e + (x + e)) = sin (IZR pos * freq x).
Proof.
  intros Hp Hx. simpl. unfold mget, entry, cos_sin_table. simpl.
  rewrite list_lookup_fmap, lookup_py_range by lia. simpl.
  rewrite Z2Nat.id, Z.add_0_l by lia.
  destruct (lookup_lt_is_Some_2 inv_freq (Z.to_nat x)) as [f Hf]; [unfold len in Hx; lia|].
  assert (freq x = f) as -> by (unfold freq; by rewrite Hf).
  set (fs := (λ f, IZR pos * f)%R <$> inv_freq).
  assert (fs !! Z.to_nat x = Some (IZR pos * f)%R) as Hfs by (unfold fs; by rewrite list_lookup_fmap, Hf).
  assert (length fs = Z.to_nat e) as Hlen by (unfold fs, len; rewrite length_fmap; lia).
  rewrite !fmap_app.
  split_and!.
  - rewrite !lookup_app_l by (rewrite ?length_app, ?length_fmap; lia).
    by rewrite list_lookup_fmap, Hfs.
  - rewrite lookup_app_l by (rewrite ?length_app, ?length_fmap; lia).
    rewrite lookup_app_r by (rewrite ?length_fmap; lia).
    rewrite length_fmap, Hlen, list_lookup_fmap.
    replace (Z.to_nat (x + e) - Z.to_nat e)%nat with (Z.to_nat x) by lia. by rewrite Hfs.
  - rewrite lookup_app_r by (rewrite ?length_app, ?length_fmap; lia).
    rewrite lookup_app_l by (rewrite ?length_app, ?length_fmap; lia).
    rewrite length_app, !length_fmap, Hlen, list_lookup_fmap.
    replace (Z.to_nat (2 * e + x) - (Z.to_nat e + Z.to_nat e))%nat with (Z.to_nat x) by lia.
    by rewrite Hfs.
  - rewrite lookup_app_r by (rewrite ?length_app, ?length_fmap; lia).
    rewrite lookup_app_r by (rewrite ?length_app, ?length_fmap; lia).
    rewrite length_app, !length_fmap, Hlen, list_lookup_fmap.
    replace (Z.to_nat (2 * e + (x + e)) - (Z.to_nat e + Z.to_nat e) - Z.to_nat e)%nat
      with (Z.to_nat x) by lia.
    by rewrite Hfs.
Qed.

(** The score of two rotated heads, as a sum over the pairs of dimensions. *)
Lemma rotated_score (q k : Z → R) p p' :
  0 ≤ p < max_pos → 0 ≤ p' < max_pos →
  let tb := cos_sin_table max_pos inv_freq in
  sumR ((λ x, rotate e q (mget tb p) (λ x, mget tb p (2 * e + x)) x
              * rotate e k (mget tb p') (λ x, mget tb p' (2 * e + x)) x)%R <$> py_range 0 (2 * e))
  = sumR ((λ x, (q x * k x + q (x + e)%Z * k (x + e)%Z) * cos (IZR (p - p') * freq x)
              + (q x * k (x + e)%Z - q (x + e)%Z * k x) * sin (IZR (p - p') * freq x))%R
          <$> py_range 0 e).
Proof.
  intros Hp Hp'. cbv zeta. pose proof (len_nonneg inv_freq).
  rewrite range_double, fmap_app, sumR_app by lia. rewrite <-list_fmap_compose, sumR_plus.
  f_equal. apply fmap_list_ext. intros x Hx%elem_of_py_range.
  destruct (table_entry p x Hp Hx) as (E1 & E2 & E3 & E4).
  destruct (table_entry p' x Hp' Hx) as (F1 & F2 & F3 & F4).
  unfold rotate, compose. cbv beta. destruct (Z.ltb_spec x e); [|lia].
  destruct (Z.ltb_spec (x + e) e); [lia|].
  replace (x + e - e) with x by lia. rewrite E1, E2, E3, E4, F1, F2, F3, F4. simpl.
  replace (IZR (p - p') * freq x)%R with (IZR p * freq x - IZR p' * freq x)%R
    by (rewrite minus_IZR; ring).
  rewrite cos_minus, sin_minus. ring.
Qed.
End table.

(** The score of two heads of the launch's outputs. *)
Definition pair_score (inv_freq : list R) (query key : mat R) (hd t h t' h' d : Z) : R :=
  let e := len inv_freq in
  let q x := mget query t (h * hd + x) in
  let k x := mget key t' (h' * hd + x) in
  sumR ((λ x, (q x * k x + q (x + e)%Z * k (x + e)%Z) * cos (IZR d * freq inv_freq x)
            + (q x * k (x + e)%Z - q (x + e)%Z * k x) * sin (IZR d * freq inv_freq x))%R
        <$> py_range 0 e).

Lemma launch_score torch_empty (query key : mat R) positions nh nkv max_pos inv_freq t h t' h' p p' :
  let e := len inv_freq in
  let hd := 2 * e in
  let table := cos_sin_table max_pos inv_freq in
  rotary_inputs torch_empty query key table positions hd nh nkv e →
  ∃ q k, rotary_pos_emb torch_empty query key positions table hd = Ok (q, k) ∧
    (0 ≤ t → 0 ≤ t' → 0 ≤ h < nh → 0 ≤ h' < nkv → h' < nh →
     positions !! Z.to_nat t = Some p → positions !! Z.to_nat t' = Some p' →
     score hd q k t h t' h' = pair_score inv_freq query key hd t h t' h' (p - p')).
Proof.
  intros e hd table Hri. eexists _, _. split; [exact (launch_Ok _ _ _ _ _ _ _ _ _ Hri)|].
  intros Ht Ht' Hh Hh' Hhh Hp Hp'.
  assert (∀ (i : nat) p, positions !! i = Some p → Z.of_nat i < len positions ∧ 0 ≤ p < max_pos) as Hb.
  { intros i p0 Hi. split; [apply lookup_lt_Some in Hi; unfold len; lia|].
    apply list_elem_of_lookup_2, (ri_positions _ _ _ _ _ _ _ _ _ Hri) in Hi.
    unfold nrows, table in Hi. simpl in Hi. rewrite len_fmap in Hi. unfold len in Hi.
    rewrite length_py_range in Hi. lia. }
  destruct (Hb _ _ Hp), (Hb _ _ Hp'). unfold pair_score.
  rewrite <-(rotated_score max_pos inv_freq (λ x, mget query t (h * hd + x))
    (λ x, mget key t' (h' * hd + x)) p p') by done.
  fold e table. unfold score. f_equal.
  apply fmap_list_ext. intros x Hx%elem_of_py_range. unfold mget at 1 2.
  rewrite (launch_entry _ _ _ _ _ _ _ _ _ Hri query nh t h x p) by (done || lia || apply Hri).
  rewrite (launch_entry _ _ _ _ _ _ _ _ _ Hri key nkv t' h' x p') by (done || lia || apply Hri).
  by rewrite !decide_True by (unfold hd in Hx; lia).
Qed.


Definition empty_R (n : Z) : list R := (λ _, 0%R) <$> py_range 0 n.

