(* ===== verification/CrossEntropy.v ===== *)
(** * Vocabulary-parallel cross entropy

    [parallel/cross_entropy.py], with exact real arithmetic.  The ranks run in step
    as in [TensorParallel]: the logits are a matrix per rank, the targets are the
    same on all of them and are a flat list, one class for each row. *)
From S2P Require Import Prelude ParallelUtils Tensor TensorParallel Triton Rotary RotaryReal.
From Stdlib Require Import Reals Lra.
Open Scope Z_scope.

#[local] Opaque py_range.

(** ** Tensor operations *)

(** [torch.max(m, dim=-1)[0]] *)
Definition max_last (m : mat R) : res (list R) :=
  mapM (λ row, match row with [] => Raise IndexError | x :: l => Ok (foldl Rmax x l) end) (rows m).

(** [all_reduce(t, op=op)]: every rank gets the combination of all tensors. *)
Definition all_reduce (op : R → R → R) (ts : list (list R)) : list (list R) :=
  match ts with
  | [] => []
  | t :: rest => (λ _, foldl (zip_with op) t rest) <$> ts
  end.

(** [m op v.unsqueeze(dim=-1)] *)
Definition with_column (op : R → R → R) (m : mat R) (v : list R) : mat R :=
  Mat (cols m) (zip_with (λ row x, (λ e, op e x) <$> row) (rows m) v).

(** [m[arange, idx]] *)
Definition pick (m : mat R) (idx : list Z) : res (list R) :=
  mapM (λ '(row, i), py_get row i) (zip (rows m) idx).

(** [v[mask] = 0.0] *)
Definition masked_zero (mask : list bool) (v : list R) : list R :=
  zip_with (λ (m : bool) x, if m then 0%R else x) mask v.

(** ** The autograd function *)

(** [ctx.saved_tensors] of a rank. *)
Record saved := { softmax : mat R; target_mask : list bool; masked_target_1d : list Z }.

(** The mask of the targets of other ranks and the local indices of the rank's
    own. *)
Definition local_target (world_size rank partition_vocab_size : Z) (target : list Z)
    : list bool * list Z :=
  let '(vocab_start_index, vocab_end_index) :=
    VocabUtility.vocab_range_from_per_partition_vocab_size partition_vocab_size rank world_size in
  let target_mask := (λ t, (t <? vocab_start_index) || (vocab_end_index <=? t)) <$> target in
  (target_mask,
   zip_with (λ (m : bool) t, if m then 0 else t - vocab_start_index) target_mask target).

(** The losses, the saved tensors and what is left in the logits, by rank. *)
Definition forward (vocab_parallel_logits : list (mat R)) (target : list Z)
    : res (list (list R) * list saved * list (mat R)) :=
  let world_size := len vocab_parallel_logits in
  logits_max ← mapM max_last vocab_parallel_logits;
  let logits_max := all_reduce Rmax logits_max in
  let vocab_parallel_logits := zip_with (with_column Rminus) vocab_parallel_logits logits_max in
  let masked := zip_with (λ rank l, local_target world_size rank (cols l) target)
                  (py_range 0 world_size) vocab_parallel_logits in
  predicted_logits ← mapM (λ '(l, (mask, idx)), p ← pick l idx; Ok (masked_zero mask p))
                       (zip vocab_parallel_logits masked);
  let predicted_logits := all_reduce Rplus predicted_logits in
  let exp_logits := mat_map exp <$> vocab_parallel_logits in
  let sum_exp_logits := all_reduce Rplus ((λ m, sumR <$> rows m) <$> exp_logits) in
  let loss := zip_with (zip_with Rminus) ((λ v : list R, ln <$> v) <$> sum_exp_logits) predicted_logits in
  let exp_logits := zip_with (with_column Rdiv) exp_logits sum_exp_logits in
  Ok (loss,
      zip_with (λ sm '(mask, idx),
        {| softmax := sm; target_mask := mask; masked_target_1d := idx |}) exp_logits masked,
      vocab_parallel_logits).

(** On one rank.  The gradient is computed in the memory of the saved softmax. *)
Definition backward (grad_output : list R) : M saved (mat R) := λ ctx,
  let float (m : bool) := if m then 1%R else 0%R in
  match mapM (λ '(row, (m, i)), x ← py_get row i; py_set row i (x - (1 - float m))%R)
          (zip (rows (softmax ctx)) (zip (target_mask ctx) (masked_target_1d ctx))) with
  | Raise e => (Raise e, ctx)
  | Ok grad_2d =>
      let grad_input := with_column Rmult (Mat (cols (softmax ctx)) grad_2d) grad_output in
      (Ok grad_input, {| softmax := grad_input; target_mask := target_mask ctx;
                         masked_target_1d := masked_target_1d ctx |})
  end.

Definition vocab_parallel_cross_entropy := forward.

(** ** The serial specification *)

(** The loss of a row of logits and its gradient. *)
Definition cross_entropy (row : list R) (t : Z) : R :=
  (ln (sumR (exp <$> row)) - default 0 (row !! Z.to_nat t))%R.
Definition softmax_of (row : list R) : list R := (λ x, exp x / sumR (exp <$> row))%R <$> row.
Definition gradient (row : list R) (t : Z) : list R :=
  imap (λ j p, p - (if decide (Z.of_nat j = t) then 1 else 0))%R (softmax_of row).

(** ** Lemmas *)

Lemma foldl_Rplus x l : foldl Rplus x l = (x + sumR l)%R.
Proof.
  revert x. induction l as [|y l IH]; intros x; simpl; [lra|]. rewrite IH. unfold sumR. simpl. lra.
Qed.

Lemma foldl_Rmax_ge x l : (x <= foldl Rmax x l)%R ∧ ∀ y, y ∈ l → (y <= foldl Rmax x l)%R.
Proof.
  revert x. induction l as [|z l IH]; intros x; simpl; [split; [lra|by intros ? ?%elem_of_nil]|].
  destruct (IH (Rmax x z)) as [H1 H2]. pose proof (Rmax_l x z). pose proof (Rmax_r x z).
  split; [lra|]. intros y [->|Hy]%elem_of_cons; [lra|auto].
Qed.

Lemma sumR_concat (ls : list (list R)) : sumR (concat ls) = sumR (sumR <$> ls).
Proof. induction ls as [|l ls IH]; csimpl; [done|]. by rewrite sumR_app, IH. Qed.

Lemma sumR_pos l : l ≠ [] → (∀ x, x ∈ l → (0 < x)%R) → (0 < sumR l)%R.
Proof.
  induction l as [|x l IH]; [done|]. intros _ Hpos.
  assert (0 < x)%R by (apply Hpos; left). unfold sumR in *. simpl.
  destruct l as [|y l]; [simpl; lra|].
  assert (0 < foldr Rplus 0 (y :: l))%R; [|lra]. apply IH; [done|]. intros. apply Hpos. by right.
Qed.

(** A sum over the ranks with one term that is not 0. *)
Lemma sumR_one (l : list Z) q v :
  NoDup l → sumR ((λ r, if decide (r = q) then v else 0%R) <$> l) = if decide (q ∈ l) then v else 0%R.
Proof.
  induction 1 as [|r l Hr Hl IH]; csimpl; [done|]. unfold sumR in *. simpl. rewrite IH.
  destruct (decide (r = q)) as [->|Hne].
  - rewrite decide_False, decide_True by set_solver. lra.
  - destruct (decide (q ∈ l)); [rewrite decide_True by set_solver|rewrite decide_False by set_solver]; lra.
Qed.

Lemma sumR_exp_shift (m : R) (row : list R) :
  sumR (exp <$> ((λ e, e - m)%R <$> row)) = (sumR (exp <$> row) / exp m)%R.
Proof.
  pose proof (exp_pos m). induction row as [|x row IH]; csimpl; [unfold sumR; simpl; field; lra|].
  unfold sumR in *. simpl. rewrite IH. unfold Rminus. rewrite exp_plus, exp_Ropp. field. lra.
Qed.

Lemma sumR_exp_pos (row : list R) : row ≠ [] → (0 < sumR (exp <$> row))%R.
Proof.
  intros Hne. apply sumR_pos; [by destruct row|].
  intros x (y & -> & _)%list_elem_of_fmap. apply exp_pos.
Qed.

(** Subtracting a number from the logits changes neither the loss nor the softmax. *)
Lemma shifted_loss m (row : list R) t x :
  row !! Z.to_nat t = Some x →
  (ln (sumR (exp <$> ((λ e, e - m)%R <$> row))) - (x - m))%R = cross_entropy row t.
Proof.
  intros Hx. assert (row ≠ []) as Hne by (by intros ->). pose proof (sumR_exp_pos row Hne).
  pose proof (exp_pos m). unfold cross_entropy. rewrite sumR_exp_shift, Hx. simpl.
  unfold Rdiv. rewrite ln_mult, ln_Rinv, ln_exp by (try apply Rinv_0_lt_compat; done). lra.
Qed.

Lemma shifted_softmax m (row : list R) :
  (λ e, e / sumR (exp <$> ((λ e, e - m)%R <$> row)))%R <$> (exp <$> ((λ e, e - m)%R <$> row))
  = softmax_of row.
Proof.
  rewrite sumR_exp_shift, <-!list_fmap_compose. unfold softmax_of. apply list_fmap_ext.
  intros i x Hx. simpl.
  assert (row ≠ []) as Hne by (by intros ->). pose proof (sumR_exp_pos row Hne) as Hs.
  pose proof (exp_pos m). unfold Rminus. rewrite exp_plus, exp_Ropp.
  field. lra.
Qed.

Lemma block_lookup {A} (l : list A) s r (j : nat) :
  0 ≤ s → 0 ≤ r → block l s r !! j = if decide (Z.of_nat j < s) then l !! (Z.to_nat (r * s) + j)%nat else None.
Proof.
  intros Hs Hr. assert (0 ≤ r * s) by nia. unfold block, py_slice.
  replace ((r + 1) * s) with (r * s + s) by lia. case_decide.
  - rewrite lookup_take_lt by lia. apply lookup_drop.
  - apply lookup_take_ge. lia.
Qed.

(** ** The forward pass *)

(** A reduction of tensors that are computed element by element from the same list. *)
Lemma all_reduce_rows {A} op w (f : Z → A → R) (X : list A) :
  0 < w →
  all_reduce op ((λ r, f r <$> X) <$> py_range 0 w)
  = (λ _, (λ x, foldl op (f 0 x) ((λ r, f r x) <$> py_range 1 w)) <$> X) <$> py_range 0 w.
Proof.
  intros Hw. rewrite (range_pos w Hw). unfold all_reduce.
  assert (∀ l (g : A → R), foldl (zip_with op) (g <$> X) ((λ r, f r <$> X) <$> l)
    = (λ x, foldl op (g x) ((λ r, f r x) <$> l)) <$> X) as Hgen.
  { induction l as [|r l IH]; intros g; csimpl; [done|].
    by rewrite zip_with_fmap_l, zip_with_fmap_r, zip_with_diag, IH. }
  csimpl. rewrite Hgen. f_equal. by rewrite <-list_fmap_compose.
Qed.

Lemma all_reduce_sum {A} w (f : Z → A → R) (X : list A) :
  0 < w →
  all_reduce Rplus ((λ r, f r <$> X) <$> py_range 0 w)
  = (λ _, (λ x, sumR ((λ r, f r x) <$> py_range 0 w)) <$> X) <$> py_range 0 w.
Proof.
  intros Hw. rewrite all_reduce_rows by done. apply list_fmap_ext. intros _ _ _.
  apply list_fmap_ext. intros i x _. rewrite foldl_Rplus, (range_pos w Hw). csimpl. done.
Qed.

Section shards.
Context (L : mat R) (target : list Z) (w s : Z).
Context (Hw : 0 < w) (Hs : 0 < s) (HL : mat_wf L) (HC : cols L = w * s)
  (Hlen : len target = nrows L) (Htarget : ∀ t, t ∈ target → 0 ≤ t < w * s).

(** The rows with their targets. *)
Definition examples : list (list R * Z) := zip (rows L) target.
Let X := examples.

Lemma rows_examples : rows L = fst <$> X.
Proof using Hlen. symmetry. apply fst_zip. unfold nrows, len in Hlen. lia. Qed.
Lemma target_examples : target = snd <$> X.
Proof using Hlen. symmetry. apply snd_zip. unfold nrows, len in Hlen. lia. Qed.
Lemma example_ok x : x ∈ X → len x.1 = w * s ∧ 0 ≤ x.2 < w * s.
Proof using HL HC Htarget.
  intros Hx. destruct x as [row t]. split.
  - rewrite <-HC. apply rows_len; [done|]. by apply elem_of_zip_l in Hx.
  - apply Htarget. by apply elem_of_zip_r in Hx.
Qed.

(** The largest logit of a row as the ranks compute it. *)
Definition block_max (row : list R) (r : Z) : R :=
  foldl Rmax (default 0%R (head (block row s r))) (tail (block row s r)).
Definition all_max (row : list R) : R :=
  foldl Rmax (block_max row 0) (block_max row <$> py_range 1 w).

Lemma all_max_ge row x : len row = w * s → x ∈ row → (x <= all_max row)%R.
Proof using Hw Hs.
  intros Hr Hx. rewrite <-(concat_blocks row s w) in Hx by lia.
  apply list_elem_of_In, in_concat in Hx as (b & Hb%list_elem_of_In & Hx%list_elem_of_In).
  apply list_elem_of_fmap in Hb as (r & -> & Hr'%elem_of_py_range).
  transitivity (block_max row r).
  - unfold block_max. destruct (block row s r) as [|y l]; [by apply elem_of_nil in Hx|]. simpl.
    destruct (foldl_Rmax_ge y l) as [H1 H2]. apply elem_of_cons in Hx as [->|Hx]; auto.
  - unfold all_max. destruct (foldl_Rmax_ge (block_max row 0) (block_max row <$> py_range 1 w)) as [H1 H2].
    destruct (decide (r = 0)) as [->|Hne]; [done|]. apply H2, list_elem_of_fmap.
    exists r. split; [done|]. apply elem_of_py_range. lia.
Qed.
Definition shifted (row : list R) : list R := (λ e, e - all_max row)%R <$> row.
Definition mask_of (r : Z) (x : list R * Z) : bool := (x.2 <? r * s) || (r * s + s <=? x.2).
Definition index_of (r : Z) (x : list R * Z) : Z := if mask_of r x then 0 else x.2 - r * s.

Lemma mask_own r x : mask_of r x = false ↔ r = x.2 / s.
Proof using Hs.
  rewrite <-(shard_unique s x.2 r Hs). unfold mask_of.
  destruct (Z.ltb_spec x.2 (r * s)), (Z.leb_spec (r * s + s) x.2); simpl;
    (split; [intros; try done; lia|intros; try done; lia]).
Qed.

Lemma index_ok r x : x ∈ X → 0 ≤ index_of r x < s.
Proof using All.
  intros Hx. unfold index_of. destruct (mask_of r x) eqn:E; [lia|].
  unfold mask_of in E. bool_prop. lia.
Qed.

(** The local index finds the target in a row cut like the logits. *)
Lemma own_entry {A} (row : list A) (t r : Z) :
  len row = w * s → 0 ≤ r < w → r * s ≤ t < r * s + s →
  block row s r !! Z.to_nat (t - r * s) = row !! Z.to_nat t.
Proof using All.
  intros Hr Hrw Ht. unfold block, py_slice. rewrite lookup_take_lt, lookup_drop by lia. f_equal. lia.
Qed.

Lemma block_entry {A} (row : list A) (r i : Z) :
  len row = w * s → 0 ≤ r < w → 0 ≤ i < s → ∃ e, block row s r !! Z.to_nat i = Some e.
Proof using All.
  intros Hr Hrw Hi. apply lookup_lt_is_Some_2.
  pose proof (len_block row s w r ltac:(lia) Hrw Hr). unfold len in *. lia.
Qed.

Lemma max_rank r :
  0 ≤ r < w → max_last (col_shard L s r) = Ok ((λ x, block_max x.1 r) <$> X).
Proof using All.
  intros Hr. unfold max_last. simpl. rewrite rows_examples, <-list_fmap_compose, mapM_res_fmap.
  apply mapM_res_total. intros x Hx. destruct (example_ok x Hx) as [Hl _].
  pose proof (len_block x.1 s w r ltac:(lia) Hr Hl) as Hb. unfold compose, block_max.
  destruct (block x.1 s r); [unfold len in Hb; simpl in Hb; lia|done].
Qed.

Lemma shift_rank r :
  with_column Rminus (col_shard L s r) ((λ x, all_max x.1) <$> X)
  = Mat s ((λ x, block (shifted x.1) s r) <$> X).
Proof using All.
  unfold with_column. simpl. rewrite rows_examples, <-list_fmap_compose, zip_with_fmap_l, zip_with_fmap_r,
    zip_with_diag. f_equal. apply list_fmap_ext. intros i x _. unfold compose, shifted.
  by rewrite block_fmap.
Qed.

Lemma local_target_rank r c :
  local_target c r s target = (mask_of r <$> X, index_of r <$> X).
Proof using All.
  unfold local_target. simpl. rewrite target_examples, <-list_fmap_compose. f_equal.
  by rewrite zip_with_fmap_l, zip_with_fmap_r, zip_with_diag.
Qed.

(** The share of a rank in the predicted logit. *)
Definition predicted (r : Z) (x : list R * Z) : R :=
  if decide (r = x.2 / s) then default 0%R (shifted x.1 !! Z.to_nat x.2) else 0%R.

Lemma len_shifted row : len (shifted row) = len row.
Proof using. apply len_fmap. Qed.

Lemma predicted_rank r :
  0 ≤ r < w →
  (p ← pick (Mat s ((λ x, block (shifted x.1) s r) <$> X)) (index_of r <$> X);
   Ok (masked_zero (mask_of r <$> X) p)) = Ok (predicted r <$> X).
Proof using All.
  intros Hr. unfold pick. simpl.
  rewrite zip_with_fmap_l, zip_with_fmap_r, zip_with_diag, mapM_res_fmap.
  rewrite (mapM_res_total _ (λ x, default 0%R (block (shifted x.1) s r !! Z.to_nat (index_of r x)))).
  - simpl. unfold masked_zero. rewrite zip_with_fmap_l, zip_with_fmap_r, zip_with_diag. f_equal.
    apply list_fmap_ext. intros i x Hx%list_elem_of_lookup_2. unfold predicted, index_of.
    destruct (mask_of r x) eqn:E.
    + rewrite decide_False; [done|]. intros Hq%mask_own. congruence.
    + rewrite decide_True by (by apply mask_own). unfold mask_of in E. bool_prop.
      rewrite own_entry; [done|rewrite len_shifted; by apply example_ok|done|lia].
  - intros x Hx. destruct (example_ok x Hx) as [Hl _]. pose proof (index_ok r x Hx).
    destruct (block_entry (shifted x.1) r (index_of r x)) as [e He]; [by rewrite len_shifted|done..|].
    rewrite He. simpl. apply py_get_Ok; [lia|done].
Qed.

Lemma predicted_sum x :
  x ∈ X → sumR ((λ r, predicted r x) <$> py_range 0 w) = default 0%R (shifted x.1 !! Z.to_nat x.2).
Proof using All.
  intros Hx. destruct (example_ok x Hx) as [_ Ht]. unfold predicted.
  rewrite sumR_one by apply NoDup_py_range. rewrite decide_True; [done|].
  apply elem_of_py_range. split; [apply Z.div_pos; lia|apply Z.div_lt_upper_bound; lia].
Qed.

Lemma exp_sum x :
  x ∈ X →
  sumR ((λ r, sumR (exp <$> block (shifted x.1) s r)) <$> py_range 0 w) = sumR (exp <$> shifted x.1).
Proof using All.
  intros Hx. destruct (example_ok x Hx) as [Hl _].
  transitivity (sumR (sumR <$> (block (exp <$> shifted x.1) s <$> py_range 0 w))).
  - f_equal. rewrite <-list_fmap_compose. apply list_fmap_ext. intros i r _. unfold compose.
    by rewrite block_fmap.
  - rewrite <-sumR_concat. f_equal. apply concat_blocks; [lia..|]. by rewrite len_fmap, len_shifted.
Qed.
Definition saved_by (r : Z) : saved := {|
  softmax := Mat s ((λ x, block (softmax_of x.1) s r) <$> X);
  target_mask := mask_of r <$> X; masked_target_1d := index_of r <$> X |}.
Definition left_logits (r : Z) : mat R := Mat s ((λ x, block (shifted x.1) s r) <$> X).

Lemma softmax_rank r :
  0 ≤ r < w →
  with_column Rdiv (mat_map exp (left_logits r)) ((λ x, sumR (exp <$> shifted x.1)) <$> X)
  = softmax (saved_by r).
Proof using All.
  intros Hr. unfold with_column, mat_map, map_rows. simpl.
  rewrite <-list_fmap_compose, zip_with_fmap_l, zip_with_fmap_r, zip_with_diag. f_equal.
  apply list_fmap_ext. intros i x _. unfold compose. rewrite <-!block_fmap. f_equal.
  unfold shifted. by rewrite shifted_softmax.
Qed.

Lemma loss_of_row x :
  x ∈ X →
  (ln (sumR (exp <$> shifted x.1)) - default 0 (shifted x.1 !! Z.to_nat x.2))%R
  = cross_entropy x.1 x.2.
Proof using All.
  intros Hx. destruct (example_ok x Hx) as [Hl Ht].
  destruct (lookup_lt_is_Some_2 x.1 (Z.to_nat x.2)) as [e He]; [unfold len in Hl; lia|].
  unfold shifted at 2. rewrite list_lookup_fmap, He. simpl. by apply shifted_loss.
Qed.

Lemma on_range {A B} (f : A → B) (g : Z → A) :
  f <$> (g <$> py_range 0 w) = (λ r, f (g r)) <$> py_range 0 w.
Proof using. by rewrite <-list_fmap_compose. Qed.

Lemma zip_on_range {A B C} (h : A → B → C) (f : Z → A) (g : Z → B) :
  zip_with h (f <$> py_range 0 w) (g <$> py_range 0 w) = (λ r, h (f r) (g r)) <$> py_range 0 w.
Proof using. by rewrite zip_with_fmap_l, zip_with_fmap_r, zip_with_diag. Qed.

Lemma forward_eq :
  forward (col_shard L s <$> py_range 0 w) target
  = Ok ((λ _, (λ x, cross_entropy x.1 x.2) <$> X) <$> py_range 0 w,
        saved_by <$> py_range 0 w, left_logits <$> py_range 0 w).
Proof using All.
  unfold forward. rewrite len_fmap, len_range, mapM_res_fmap by lia.
  rewrite (mapM_res_total _ (λ r, (λ x, block_max x.1 r) <$> X))
    by (intros; apply max_rank; by apply elem_of_py_range).
  rewrite Ok_bind, all_reduce_rows by done.
  rewrite zip_on_range.
  rewrite (list_fmap_ext (λ r, with_column Rminus (col_shard L s r) _) left_logits)
    by (intros; apply shift_rank).
  rewrite zip_with_fmap_r, zip_with_diag. cbn [left_logits cols].
  rewrite (list_fmap_ext (λ r, local_target _ _ _ _) (λ r, (mask_of r <$> X, index_of r <$> X)))
    by (intros; apply local_target_rank).
  rewrite (zip_on_range pair), mapM_res_fmap.
  rewrite (mapM_res_total _ (λ r, predicted r <$> X))
    by (intros; apply predicted_rank; by apply elem_of_py_range).
  rewrite Ok_bind, all_reduce_sum, !on_range by done.
  rewrite (list_fmap_ext (λ r, sumR <$> rows (mat_map exp (left_logits r)))
    (λ r, (λ x, sumR (exp <$> block (shifted x.1) s r)) <$> X))
    by (intros; simpl; by rewrite <-!list_fmap_compose).
  rewrite all_reduce_sum, !on_range by done.
  rewrite !zip_on_range. do 3 f_equal.
  - apply list_fmap_ext. intros _ _ _.
    rewrite zip_with_fmap_l, zip_with_fmap_r, zip_with_fmap_l, zip_with_diag.
    apply list_fmap_ext. intros i x Hx%list_elem_of_lookup_2.
    by rewrite exp_sum, predicted_sum, loss_of_row.
  - apply list_fmap_ext. intros i r Hr%list_elem_of_lookup_2%elem_of_py_range.
    unfold saved_by. f_equal. etransitivity; [|exact (softmax_rank r Hr)]. f_equal.
    apply list_fmap_ext. intros j x Hx%list_elem_of_lookup_2. by rewrite exp_sum.
Qed.

(** ** The backward pass *)

(** The gradient of the logits for the gradients of the losses. *)
Definition full_gradient (grad_output : list R) : mat R :=
  Mat (cols L) (zip_with (λ x g, (λ e, e * g)%R <$> gradient x.1 x.2) X grad_output).

Lemma gradient_row r x :
  0 ≤ r < w → x ∈ X →
  let b := block (softmax_of x.1) s r in
  (e ← py_get b (index_of r x);
   py_set b (index_of r x) (e - (1 - if mask_of r x then 1 else 0))%R)
  = Ok (block (gradient x.1 x.2) s r).
Proof using All.
  intros Hr Hx b. destruct (example_ok x Hx) as [Hl Ht]. pose proof (index_ok r x Hx) as Hi.
  assert (len (softmax_of x.1) = w * s) as Hls by (by unfold softmax_of; rewrite len_fmap).
  assert (len b = s) as Hb by (by apply (len_block _ s w); [lia|..]).
  destruct (block_entry (softmax_of x.1) r (index_of r x) Hls Hr Hi) as [e He].
  rewrite (proj2 (py_get_Ok b (index_of r x) e ltac:(lia)) He). simpl. rewrite py_set_in by lia. f_equal.
  apply list_eq. intros j. rewrite block_lookup by lia. unfold gradient. rewrite list_lookup_imap.
  destruct (decide (Z.of_nat j < s)) as [Hj|Hj].
  - assert (b !! j = softmax_of x.1 !! (Z.to_nat (r * s) + j)%nat) as Ebj.
    { unfold b. rewrite block_lookup by lia. by rewrite decide_True. }
    rewrite <-Ebj. unfold index_of in *. unfold mask_of in *.
    destruct (decide (Z.of_nat j = index_of r x)) as [E|E]; unfold index_of, mask_of in E.
    + rewrite <-E, Nat2Z.id. rewrite list_lookup_insert_eq by (unfold len in Hb; lia).
      rewrite <-E, Nat2Z.id in He. fold b in He. rewrite He. simpl. f_equal.
      destruct ((x.2 <? r * s) || (r * s + s <=? x.2)) eqn:Em; bool_prop;
        case_decide; try lra; exfalso; lia.
    + rewrite list_lookup_insert_ne by lia. destruct (b !! j) as [y|]; [|done]. simpl. f_equal.
      destruct ((x.2 <? r * s) || (r * s + s <=? x.2)) eqn:Em; bool_prop;
        case_decide; try lra; exfalso; lia.
  - apply lookup_ge_None_2. rewrite length_insert. unfold len in Hb. lia.
Qed.

Lemma backward_rank r grad_output :
  0 ≤ r < w → (backward grad_output (saved_by r)).1 = Ok (col_shard (full_gradient grad_output) s r).
Proof using All.
  intros Hr. unfold backward. simpl.
  rewrite !zip_with_fmap_l, !zip_with_fmap_r, zip_with_diag, zip_with_fmap_r, zip_with_diag,
    mapM_res_fmap.
  rewrite (mapM_res_total _ (λ x, block (gradient x.1 x.2) s r))
    by (intros; by apply gradient_row).
  simpl. unfold col_shard, map_rows, with_column. simpl. do 2 f_equal.
  rewrite zip_with_fmap_l, fmap_zip. apply zip_with_ext; [|done..].
  intros. by rewrite block_fmap.
Qed.
End shards.

(** The gradient is the derivative of the loss in each logit. *)
Lemma sumR_insert (l : list R) (j : nat) x y :
  l !! j = Some x → sumR (<[j := y]> l) = (sumR l - x + y)%R.
Proof.
  revert j. induction l as [|z l IH]; intros [|j] H; simpl in H; simplify_eq; unfold sumR in *; simpl.
  - lra.
  - rewrite (IH j) by done. lra.
Qed.

Lemma sumR_exp_nonneg (l : list R) : (0 <= sumR (exp <$> l))%R.
Proof.
  destruct l as [|x l]; [unfold sumR; simpl; lra|]. left. by apply sumR_exp_pos.
Qed.

Lemma sumR_exp_ge (l : list R) (j : nat) x : l !! j = Some x → (exp x <= sumR (exp <$> l))%R.
Proof.
  revert j. induction l as [|z l IH]; intros [|j] H; simpl in H; [done..| |];
    pose proof (exp_pos z); pose proof (sumR_exp_nonneg l); csimpl; unfold sumR in *; simpl.
  - injection H as ->. lra.
  - specialize (IH j H). lra.
Qed.

Lemma cross_entropy_derivative (row : list R) t (j : nat) x :
  0 ≤ t → row !! j = Some x →
  derivable_pt_lim (λ y, cross_entropy (<[j := y]> row) t) x
    (default 0%R (gradient row t !! j)).
Proof.
  intros Ht Hx. set (S := sumR (exp <$> row)). set (c := (S - exp x)%R).
  pose proof (exp_pos x). assert (exp x <= S)%R by (by apply (sumR_exp_ge _ j)).
  assert (gradient row t !! j
    = Some (exp x / S - if decide (Z.of_nat j = t) then 1 else 0)%R) as ->.
  { unfold gradient, softmax_of. by rewrite list_lookup_imap, list_lookup_fmap, Hx. }
  set (d := if decide (Z.of_nat j = t) then 1%R else 0%R).
  set (k := if decide (Z.of_nat j = t) then 0%R else default 0%R (row !! Z.to_nat t)).
  apply (derivable_pt_lim_ext
    ((comp ln (fct_cte c + exp)) - (mult_real_fct d id + fct_cte k))%F).
  - intros y. unfold minus_fct, plus_fct, comp, mult_real_fct, fct_cte, id, cross_entropy. f_equal.
    + f_equal. rewrite list_fmap_insert, (sumR_insert _ _ (exp x)); [done|].
      by rewrite list_lookup_fmap, Hx.
    + unfold d, k. case_decide as E.
      * subst t. rewrite Nat2Z.id, list_lookup_insert_eq by (by eapply lookup_lt_Some). simpl. lra.
      * rewrite list_lookup_insert_ne by lia. lra.
  - simpl. replace (exp x / S - d)%R with (/ (c + exp x) * (0 + exp x) - (d * 1 + 0))%R
      by (unfold c; field; lra).
    apply derivable_pt_lim_minus.
    + apply (derivable_pt_lim_comp (fct_cte c + exp)%F ln).
      * apply derivable_pt_lim_plus; [apply derivable_pt_lim_const|apply derivable_pt_lim_exp].
      * unfold plus_fct, fct_cte. apply derivable_pt_lim_ln. unfold c. lra.
    + apply derivable_pt_lim_plus; [|apply derivable_pt_lim_const].
      apply derivable_pt_lim_scal, derivable_pt_lim_id.
Qed.

(** ** Theorems *)

(** C37: the losses of the vocabulary-parallel cross entropy are those of the serial
    function, on every rank: for logits cut into column shards and classes of the
    whole vocabulary, each rank returns the log of the summed exponentials of the
    full row minus the logit of the class.  The logits left in the arguments are
    shifted so that none is positive, which keeps the exponentials at most 1. *)
Theorem vocab_parallel_cross_entropy_is_serial (L : mat R) (target : list Z) w s :
  0 < w → 0 < s → mat_wf L → cols L = w * s → len target = nrows L →
  (∀ t, t ∈ target → 0 ≤ t < w * s) →
  ∃ ctxs left,
    vocab_parallel_cross_entropy (col_shard L s <$> py_range 0 w) target
    = Ok (replicate (Z.to_nat w) (zip_with cross_entropy (rows L) target), ctxs, left) ∧
    (∀ m row x, m ∈ left → row ∈ rows m → x ∈ row → (x <= 0)%R).
Proof.
  intros Hw Hs HL HC Hlen Ht.
  exists (saved_by L target s <$> py_range 0 w), (left_logits L target w s <$> py_range 0 w).
  split.
  - unfold vocab_parallel_cross_entropy. rewrite forward_eq by done. do 3 f_equal.
    rewrite <-(const_ranks _ (λ r : Z, r)), <-list_fmap_compose. apply list_fmap_ext. intros i r _. unfold compose.
    unfold examples. by rewrite fmap_zip.
  - intros m row x (r & -> & Hr%elem_of_py_range)%list_elem_of_fmap Hrow Hx.
    apply list_elem_of_fmap in Hrow as (y & -> & Hy).
    destruct (example_ok L target w s HL HC Ht y Hy) as [Hl _].
    apply list_elem_of_lookup in Hx as [j Hj]. rewrite block_lookup in Hj by lia.
    case_decide; [|done]. unfold shifted in Hj. rewrite list_lookup_fmap in Hj.
    destruct (y.1 !! _) as [e|] eqn:He; [|done]. injection Hj as <-.
    pose proof (all_max_ge w s Hw Hs y.1 e Hl ltac:(by eapply list_elem_of_lookup_2)). lra.
Qed.

(** C38: the backward pass computes the derivative of the loss: what the ranks
    return are the column shards of one matrix, whose entry for a row and a logit is
    the gradient of the row's loss times the derivative of the serial loss in that
    logit. *)
Theorem cross_entropy_backward_is_derivative (L : mat R) (target : list Z) w s
    (grad_output : list R) losses ctxs left :
  0 < w → 0 < s → mat_wf L → cols L = w * s → len target = nrows L →
  (∀ t, t ∈ target → 0 ≤ t < w * s) → len grad_output = nrows L →
  forward (col_shard L s <$> py_range 0 w) target = Ok (losses, ctxs, left) →
  ∃ G, mapM (λ ctx, (backward grad_output ctx).1) ctxs = Ok (col_shard G s <$> py_range 0 w) ∧
    nrows G = nrows L ∧ cols G = cols L ∧
    ∀ i j row t g x grow, rows L !! i = Some row → target !! i = Some t →
      grad_output !! i = Some g → row !! j = Some x → rows G !! i = Some grow →
      ∃ d, grow !! j = Some (d * g)%R ∧
        derivable_pt_lim (λ y, cross_entropy (<[j := y]> row) t) x d.
Proof.
  intros Hw Hs HL HC Hlen Ht Hg E. rewrite forward_eq in E by done. injection E as <- <- <-.
  exists (full_gradient L target grad_output). split; [|split; [|split; [done|]]].
  - rewrite mapM_res_fmap. apply mapM_res_total. intros r Hr%elem_of_py_range.
    by apply (backward_rank L target w s).
  - unfold nrows, full_gradient, examples in *. simpl. unfold len in *.
    rewrite length_zip_with, length_zip_with. lia.
  - intros i j row t g x grow Hrow Hti Hgi Hx Hgrow.
    unfold full_gradient in Hgrow. cbn [rows] in Hgrow.
    assert (examples L target !! i = Some (row, t)) as Hex
      by (unfold examples; by rewrite lookup_zip_with, Hrow, Hti).
    rewrite lookup_zip_with, Hex in Hgrow. simpl in Hgrow. rewrite Hgi in Hgrow. simpl in Hgrow.
    injection Hgrow as <-. exists (default 0%R (gradient row t !! j)). split.
    + rewrite list_lookup_fmap. unfold gradient, softmax_of.
      by rewrite list_lookup_imap, list_lookup_fmap, Hx.
    + apply cross_entropy_derivative; [|done]. apply Ht. by eapply list_elem_of_lookup_2.
Qed.

(** ** Witnesses *)

(** Two ranks with two classes each, and four equal logits. *)
Definition L4 : mat R := Mat 4 [[0; 0; 0; 0]%R].
Lemma L4_wf : mat_wf L4.
Proof. split; [done|]. by constructor. Qed.
Lemma classes4 t : t ∈ [2] → 0 ≤ t < 2 * 2.
Proof. intros ->%list_elem_of_singleton. lia. Qed.
Lemma loss4 : cross_entropy [0; 0; 0; 0]%R 2 = ln 4.
Proof. unfold cross_entropy, sumR. simpl. rewrite exp_0, Rminus_0_r. f_equal. lra. Qed.

Example vocab_parallel_cross_entropy_is_serial_witness :
  ∃ ctxs left, vocab_parallel_cross_entropy (col_shard L4 2 <$> py_range 0 2) [2]
    = Ok ([[ln 4]; [ln 4]], ctxs, left).
Proof.
  destruct (vocab_parallel_cross_entropy_is_serial L4 [2] 2 2) as (ctxs & left & E & _);
    [done|done|exact L4_wf|done|done|exact classes4|].
  exists ctxs, left. rewrite E. simpl. by rewrite loss4.
Defined.

Example cross_entropy_backward_is_derivative_witness :
  ∃ losses ctxs left G,
    forward (col_shard L4 2 <$> py_range 0 2) [2] = Ok (losses, ctxs, left) ∧
    mapM (λ ctx, (backward [3%R] ctx).1) ctxs = Ok (col_shard G 2 <$> py_range 0 2) ∧
    ∀ grow, rows G !! 0%nat = Some grow →
      ∃ d, grow !! 2%nat = Some (d * 3)%R ∧
        derivable_pt_lim (λ y, cross_entropy [0; 0; y; 0]%R 2) 0 d.
Proof.
  eexists _, _, _.
  destruct (cross_entropy_backward_is_derivative L4 [2] 2 2 [3%R] _ _ _ eq_refl eq_refl L4_wf
    eq_refl eq_refl classes4 eq_refl
    (forward_eq L4 [2] 2 2 eq_refl eq_refl L4_wf eq_refl eq_refl classes4))
    as (G & EG & _ & _ & Hd).
  exists G. split; [exact (forward_eq L4 [2] 2 2 eq_refl eq_refl L4_wf eq_refl eq_refl classes4)|].
  split; [exact EG|]. intros grow Hgrow.
  exact (Hd 0%nat 2%nat [0; 0; 0; 0]%R 2 3%R 0%R grow eq_refl eq_refl eq_refl eq_refl Hgrow).
Defined.
