(* ===== verification/Heads.v ===== *)
(** * Attention over heads

    The module [Attention] of [models/layers/attention.py] around the kernels:
    the rows of the projections are viewed as heads, and the result is viewed
    back as rows.  With tensor parallelism a rank holds a block of the heads,
    and [shard_cache] is its part of the cache. *)
From S2P Require Import Prelude Tensor FlashInfer Batch PagedAttention Triton Rotary.

#[local] Opaque py_range.

Notation head_row V := (list (list V)).

(** The scale and the maximal position are stored and not read. *)
Record Attention := {
  num_heads : Z;
  num_kv_heads : Z;
  head_size : Z;
}.

Definition Attention_init (num_heads head_size : Z) (num_kv_heads : option Z) : Attention := {|
  num_heads := num_heads;
  num_kv_heads := default num_heads num_kv_heads;
  head_size := head_size |}.

(** The heads of a row. *)
Definition heads {V} (n hd : Z) (row : list V) : head_row V := block row hd <$> py_range 0 n.

Section attention.
Context {V : Type} `{FlashInfer (head_row V) (head_row V) (head_row V) (head_row V)}.

(** [t.view(-1, n, hd)] *)
Definition view_heads (n hd : Z) (t : mat V) : res (list (head_row V)) :=
  let w := n * hd in
  let numel := nrows t * cols t in
  _ ← py_require ((0 <? w) && (numel `mod` w =? 0)) RuntimeError;
  Ok (heads n hd <$> rows (unflatten w (numel / w) (concat (rows t)))).

(** [Attention.forward]; rows that are never assigned hold [uninit]. *)
Definition Attention_module_forward (uninit : head_row V) (self : Attention)
    (query key value : mat V) (input_params : InputParams)
    (kv_cache : option (paged_cache (head_row V) (head_row V)))
    : res (mat V * option (paged_cache (head_row V) (head_row V))) :=
  query ← view_heads (num_heads self) (head_size self) query;
  key ← view_heads (num_kv_heads self) (head_size self) key;
  value ← view_heads (num_kv_heads self) (head_size self) value;
  '(output, kv_cache) ← Attention_forward query key value input_params kv_cache;
  (* output.view(-1, self.num_heads * self.head_size) *)
  Ok (Mat (num_heads self * head_size self) ((λ o, concat (default uninit o)) <$> output), kv_cache).
End attention.

(** ** Views *)

Section views.
Context {V : Type}.
Implicit Types (row : list V) (m : mat V).

Lemma view_heads_Ok m n hd :
  mat_wf m → cols m = n * hd → 0 < n → 0 < hd → view_heads n hd m = Ok (heads n hd <$> rows m).
Proof.
  intros Hwf Hc Hn Hhd. assert (0 < n * hd) by nia. unfold view_heads. cbv zeta. rewrite <-Hc.
  destruct (Z.ltb_spec 0 (cols m)); [|lia].
  rewrite Z.mod_mul, Z.div_mul, unflatten_concat by (done || lia). done.
Qed.

Lemma length_heads n hd row : 0 ≤ n → len (heads n hd row) = n.
Proof. intros. unfold heads. rewrite len_fmap. unfold len. rewrite length_py_range. lia. Qed.

Lemma heads_len n hd row :
  0 ≤ hd → len row = n * hd → Forall (λ h, len h = hd) (heads n hd row).
Proof.
  intros Hhd Hl. apply Forall_fmap, Forall_forall. intros i Hi%elem_of_py_range. simpl.
  by apply (len_block _ _ n).
Qed.

Lemma concat_heads n hd row : 0 ≤ n → 0 ≤ hd → len row = n * hd → concat (heads n hd row) = row.
Proof. intros. by apply concat_blocks. Qed.

Lemma block_block {A} (l : list A) a b n r i :
  0 ≤ a → 0 ≤ i < b → 0 ≤ r < n → len l = n * (b * a) →
  block (block l (b * a) r) a i = block l a (r * b + i).
Proof.
  intros Ha Hi Hr Hl.
  assert (len (block l (b * a) r) = b * a) as Hl1 by (apply (len_block _ _ n); [nia|done|done]).
  assert (0 ≤ r * b + i < n * b) as Hri by nia.
  assert (len (block (block l (b * a) r) a i) = a) as Hl2 by (by apply (len_block _ _ b)).
  assert (len (block l a (r * b + i)) = a) as Hl3 by (apply (len_block _ _ (n * b)); [done|done|lia]).
  apply list_eq_same_length with (Z.to_nat a); [unfold len in *; lia..|].
  intros k x y Hk Hx Hy. unfold block in Hx, Hy.
  assert ((i + 1) * a ≤ b * a) by (apply Z.mul_le_mono_nonneg_r; lia).
  assert (0 ≤ i * a) by (apply Z.mul_nonneg_nonneg; lia).
  assert (0 ≤ r * (b * a)) by (apply Z.mul_nonneg_nonneg; nia).
  rewrite lookup_py_slice in Hy by nia. rewrite lookup_py_slice in Hx by lia.
  rewrite lookup_py_slice in Hx by lia.
  replace (Z.to_nat (r * (b * a)) + (Z.to_nat (i * a) + k))%nat
    with (Z.to_nat ((r * b + i) * a) + k)%nat in Hx by lia. congruence.
Qed.

(** The heads of a column block are a block of the heads. *)
Lemma heads_block row hd n' w r :
  0 ≤ n' → 0 ≤ hd → 0 ≤ r < w → len row = w * (n' * hd) →
  heads n' hd (block row (n' * hd) r) = block (heads (w * n') hd row) n' r.
Proof.
  intros Hn Hhd Hr Hl. unfold heads. rewrite block_fmap.
  replace (block (py_range 0 (w * n')) n' r) with ((λ i, i + r * n') <$> py_range 0 n').
  - rewrite <-list_fmap_compose. apply fmap_list_ext. intros i Hi%elem_of_py_range. simpl.
    rewrite block_block with (n := w) by done. f_equal. lia.
  - pose proof (py_range_shift 0 n' (r * n')) as E. rewrite <-E. unfold block.
    apply list_eq. intros k. destruct (decide (Z.of_nat k < n')) as [Hk|Hk].
    + rewrite lookup_py_range by lia. rewrite lookup_py_slice by nia.
      rewrite lookup_py_range by nia. f_equal. nia.
    + rewrite !lookup_ge_None_2; [done| |].
      * pose proof (len_py_slice (py_range 0 (w * n')) (r * n') ((r + 1) * n')) as E'.
        unfold len in E'. rewrite length_py_range in E'. nia.
      * rewrite length_py_range. lia.
Qed.

Lemma heads_concat (hs : head_row V) hd :
  Forall (λ h, len h = hd) hs → hs = heads (len hs) hd (concat hs).
Proof.
  intros Hh. rewrite Forall_forall in Hh. unfold heads. apply list_eq. intros i.
  destruct (decide (Z.of_nat i < len hs)) as [Hi|Hi].
  - rewrite list_lookup_fmap, lookup_py_range by lia. simpl.
    destruct (lookup_lt_is_Some_2 hs i) as [h Hih]; [unfold len in Hi; lia|].
    rewrite Hih, <-(concat_block hs i h Hih) at 1. unfold block.
    assert (∀ k, (k ≤ length hs)%nat → sumZ (len <$> take k hs) = Z.of_nat k * hd) as Hk.
    { intros k Hk. rewrite (sumZ_const len (take k hs) hd).
      - unfold len. rewrite length_take. f_equal. lia.
      - intros x (j & Hj & _)%elem_of_take. apply list_elem_of_lookup_2 in Hj. auto. }
    unfold len in Hi. rewrite !Hk by lia. do 2 f_equal; lia.
  - rewrite !lookup_ge_None_2; [done| |unfold len in Hi; lia].
    rewrite length_fmap, length_py_range. lia.
Qed.

(** The row of a block of the heads is a column block of the row. *)
Lemma concat_block_heads (hs : head_row V) hd n' w r :
  0 ≤ n' → 0 ≤ hd → 0 ≤ r < w → len hs = w * n' → Forall (λ h, len h = hd) hs →
  concat (block hs n' r) = block (concat hs) (n' * hd) r.
Proof.
  intros Hn Hhd Hr Hl Hh.
  assert (len (concat hs) = w * (n' * hd)) as Hlr.
  { rewrite <-sumZ_len_concat, (sumZ_const len hs hd); [nia|]. by apply Forall_forall. }
  rewrite (heads_concat hs hd) at 1 by done. rewrite Hl.
  rewrite <-heads_block by done. apply concat_heads; [done|done|].
  apply (len_block _ _ w); [nia|done|done].
Qed.
End views.

(** ** Attention head by head *)

(** Key and value head [j] of the cached rows. *)
Definition kv_head {V} (j : Z) (kv : option (head_row V * head_row V)) : option (list V * list V) :=
  (λ '(k, v), (default [] (k !! Z.to_nat j), default [] (v !! Z.to_nat j))) <$> kv.

(** A row of [n] query heads over rows of [nkv] key and value heads attends
    head by head; each key head serves a group of consecutive query heads. *)
Class Headwise {V} (attend : head_row V → list (option (head_row V * head_row V)) → head_row V)
    (attend1 : list V → list (option (list V * list V)) → list V) : Prop := {
  attend_heads q kvs nkv g :
    0 < g → 0 < nkv → len q = nkv * g →
    (∀ k v, Some (k, v) ∈ kvs → len k = nkv ∧ len v = nkv) →
    attend q kvs = imap (λ h qh, attend1 qh (kv_head (Z.of_nat h / g) <$> kvs)) q;
  attend1_len qh kvs : len (attend1 qh kvs) = len qh;
}.

(** Attention over rows made of attention over heads; the number of key heads
    is that of the cached rows. *)
Definition kv_heads_of {V} (kvs : list (option (head_row V * head_row V))) : Z :=
  match omap id kvs with (k, _) :: _ => len k | [] => 1 end.
Definition headwise {V} (attend1 : list V → list (option (list V * list V)) → list V)
    (q : head_row V) (kvs : list (option (head_row V * head_row V))) : head_row V :=
  imap (λ h qh, attend1 qh (kv_head (Z.of_nat h / (len q / kv_heads_of kvs)) <$> kvs)) q.

Lemma headwise_spec {V} (attend1 : list V → list (option (list V * list V)) → list V) :
  (∀ qh kvs, len (attend1 qh kvs) = len qh) → Headwise (headwise attend1) attend1.
Proof.
  intros Hlen. split; [|done]. intros q kvs nkv g Hg Hn Hq Hkvs. unfold headwise.
  apply imap_ext. intros h qh _. f_equal.
  destruct (omap id kvs) as [|[k v] l] eqn:E.
  - apply fmap_list_ext. intros [kv|] Hin; [|done].
    assert (kv ∈ omap id kvs) as Hkv by (apply list_elem_of_omap; by exists (Some kv)).
    rewrite E in Hkv. by apply not_elem_of_nil in Hkv.
  - assert ((k, v) ∈ omap id kvs) as Hkv by (rewrite E; by left).
    apply list_elem_of_omap in Hkv as ([kv|] & Hin & [= ->]).
    destruct (Hkvs k v Hin) as [Hk _]. unfold kv_heads_of. rewrite E, Hk, Hq.
    by rewrite Z.mul_comm, Z.div_mul by lia.
Qed.

(** Rank [r]'s part of a key and value row, and of a cache. *)
Definition shard_kv {V} (n r : Z) (kv : head_row V * head_row V) : head_row V * head_row V :=
  (block kv.1 n r, block kv.2 n r).
Definition shard_cache {V} (n r : Z) (c : paged_cache (head_row V) (head_row V))
    : paged_cache (head_row V) (head_row V) :=
  PagedCache (pc_page_size c) (shard_kv n r <$> pc_slots c).

(** The rows of a cache have [n] heads. *)
Definition cache_heads {V} (n : Z) (c : paged_cache (head_row V) (head_row V)) : Prop :=
  ∀ s kv, pc_slots c !! s = Some kv → len kv.1 = n ∧ len kv.2 = n.

Lemma insert_all_fmap {K A B} `{Countable K} (f : A → B) (m : gmap K A) (l : list (K * A)) :
  insert_all (f <$> m) ((λ e, (e.1, f e.2)) <$> l) = f <$> insert_all m l.
Proof.
  unfold insert_all. revert m. induction l as [|[k a] l IH]; intros m; csimpl; [done|].
  by rewrite <-fmap_insert, IH.
Qed.

Lemma insert_all_cases {K A} `{Countable K} (m : gmap K A) (l : list (K * A)) k a :
  insert_all m l !! k = Some a → (k, a) ∈ l ∨ m !! k = Some a.
Proof.
  unfold insert_all. revert m. induction l as [|[k' a'] l IH]; intros m; csimpl; [by right|].
  intros [Hin|Hm]%IH; [left; by right|].
  apply lookup_insert_Some in Hm as [[-> ->]|[_ Hm]]; [left; by left|by right].
Qed.

Lemma lookup_head_block {A} (l : list A) n r (j : Z) :
  0 ≤ r → 0 ≤ j < n → block l n r !! Z.to_nat j = l !! Z.to_nat (r * n + j).
Proof.
  intros Hr Hj. assert (0 ≤ r * n) by nia. unfold block.
  rewrite lookup_py_slice by lia. f_equal. lia.
Qed.

Section shards.
Context {V : Type} `{!FlashInfer (head_row V) (head_row V) (head_row V) (head_row V)}.
Context {attend : head_row V → list (option (head_row V * head_row V)) → head_row V}.
Context {attend1 : list V → list (option (list V * list V)) → list V} `{!Headwise attend attend1}.
Context (w n g r : Z).
Hypothesis (Hr : 0 ≤ r < w) (Hn : 0 < n) (Hg : 0 < g).

Notation nq := (n * g).

Lemma shard_kv_head j (kv : option (head_row V * head_row V)) :
  0 ≤ j < n → kv_head j (shard_kv n r <$> kv) = kv_head (r * n + j) kv.
Proof using Hr.
  intros Hj. destruct kv as [[k v]|]; [|done]. unfold kv_head, shard_kv. simpl.
  by rewrite !lookup_head_block by lia.
Qed.

(** A rank's attention is its block of the heads of the whole attention. *)
Lemma attend_shard q kvs :
  len q = w * nq → (∀ k v, Some (k, v) ∈ kvs → len k = w * n ∧ len v = w * n) →
  attend (block q nq r) (fmap (M := option) (shard_kv n r) <$> kvs) = block (attend q kvs) nq r.
Proof using Hr Hn Hg Headwise0.
  intros Hq Hkvs.
  assert (len (block q nq r) = nq) as Hlb by (apply (len_block _ _ w); (done || nia)).
  rewrite (attend_heads q kvs (w * n) g) by (done || nia).
  rewrite (attend_heads (block q nq r) _ n g); [|done|done|done|].
  2:{ intros k v ([[k' v']|] & [= -> ->] & Hin)%list_elem_of_fmap.
      destruct (Hkvs k' v' Hin) as [? ?]. split; apply (len_block _ _ w); (done || lia). }
  apply list_eq. intros h. rewrite list_lookup_imap.
  destruct (decide (Z.of_nat h < nq)) as [Hh|Hh].
  - pose proof (lookup_head_block q nq r (Z.of_nat h) ltac:(lia) ltac:(lia)) as Eq.
    rewrite Nat2Z.id in Eq. rewrite Eq.
    pose proof (lookup_head_block (imap (λ h qh, attend1 qh (kv_head (Z.of_nat h / g) <$> kvs)) q)
      nq r (Z.of_nat h) ltac:(lia) ltac:(lia)) as Ei.
    rewrite Nat2Z.id in Ei. rewrite Ei, list_lookup_imap. apply option_fmap_ext. intros qh. f_equal.
    rewrite <-list_fmap_compose. apply fmap_list_ext. intros kv _. simpl.
    assert (0 ≤ Z.of_nat h / g < n) by (split; [apply Z.div_pos; lia|apply Z.div_lt_upper_bound; lia]).
    rewrite shard_kv_head by done. f_equal.
    assert (0 ≤ r * nq) by (apply Z.mul_nonneg_nonneg; nia).
    rewrite Z2Nat.id by lia. replace (r * nq + Z.of_nat h) with (Z.of_nat h + (r * n) * g) by lia.
    rewrite Z.div_add by lia. lia.
  - assert (length (block q nq r) = Z.to_nat nq) as Hlb' by (unfold len in Hlb; lia).
    rewrite (lookup_ge_None_2 (block q nq r)) by lia.
    symmetry. apply lookup_ge_None_2. unfold block, py_slice.
    rewrite length_take. nia.
Qed.

Lemma attend_len q kvs :
  len q = w * nq → (∀ k v, Some (k, v) ∈ kvs → len k = w * n ∧ len v = w * n) →
  len (attend q kvs) = len q.
Proof using Hr Hn Hg Headwise0.
  intros Hq Hkvs. rewrite (attend_heads q kvs (w * n) g) by (done || nia).
  unfold len. by rewrite length_imap.
Qed.

Lemma attend_head_len q kvs hd :
  len q = w * nq → (∀ k v, Some (k, v) ∈ kvs → len k = w * n ∧ len v = w * n) →
  Forall (λ h, len h = hd) q → Forall (λ h, len h = hd) (attend q kvs).
Proof using Hr Hn Hg Headwise0.
  intros Hq Hkvs Hh. rewrite (attend_heads q kvs (w * n) g) by (done || nia).
  apply Forall_lookup_2. intros i x Hx. rewrite list_lookup_imap in Hx.
  apply fmap_Some in Hx as (qh & Hqh & ->). rewrite attend1_len.
  by apply (Forall_lookup_1 _ _ _ _ Hh Hqh).
Qed.

(** The cache and the rows of a batch, cut. *)
Section batch.
Context (page : Z) (ins : list InferInput) (c : paged_cache (head_row V) (head_row V)).
Context (qs ks vs : InferInput → list (head_row V)).
Hypothesis (Hc : cache_heads (w * n) c).
Hypothesis (Hqs : ∀ d row, d ∈ ins → row ∈ qs d → len row = w * nq).
Hypothesis (Hks : ∀ d row, d ∈ ins → row ∈ ks d → len row = w * n).
Hypothesis (Hvs : ∀ d row, d ∈ ins → row ∈ vs d → len row = w * n).

Definition cut (m : Z) (f : InferInput → list (head_row V)) (d : InferInput) : list (head_row V) :=
  (λ row, block row m r) <$> f d.

Lemma zip_cut d :
  zip (cut n ks d) (cut n vs d) = shard_kv n r <$> zip (ks d) (vs d).
Proof using.
  unfold cut. rewrite zip_with_fmap_l, zip_with_fmap_r, fmap_zip. done.
Qed.

Lemma paged_kv_shard pages m :
  paged_kv (shard_cache n r c) pages m = fmap (M := option) (shard_kv n r) <$> paged_kv c pages m.
Proof using.
  unfold paged_kv, shard_cache. simpl. rewrite <-list_fmap_compose. apply list_fmap_ext.
  intros i p _. simpl. by rewrite lookup_fmap.
Qed.

Lemma visible_heads d j k v :
  d ∈ ins → Some (k, v) ∈ paged_kv c (block_ids d) (filled_token_len d)
                        ++ (Some <$> take (S j) (zip (ks d) (vs d))) →
  len k = w * n ∧ len v = w * n.
Proof using Hc Hks Hvs.
  intros Hd [Hin|Hin]%elem_of_app.
  - apply list_elem_of_fmap in Hin as (p & Hp & _). symmetry in Hp. apply (Hc _ _ Hp).
  - apply list_elem_of_fmap in Hin as (kv & [= <-] & (i & Hi & _)%elem_of_take).
    apply lookup_zip_with_Some in Hi as (k' & v' & [= -> ->] & Hk & Hv).
    split; [apply (Hks d)|apply (Hvs d)]; try done; by eapply list_elem_of_lookup_2.
Qed.

Lemma incremental_shard d :
  d ∈ ins →
  incremental_rows (attend := attend) (shard_cache n r c) (cut nq qs) (cut n ks) (cut n vs) d
  = (λ row, block row nq r) <$> incremental_rows (attend := attend) c qs ks vs d.
Proof using Hr Hn Hg Headwise0 Hc Hqs Hks Hvs.
  intros Hd. unfold incremental_rows. apply list_eq. intros j.
  rewrite list_lookup_fmap, !list_lookup_imap. unfold cut at 3. rewrite list_lookup_fmap.
  destruct (qs d !! j) as [q|] eqn:Eq; simpl; [|done]. f_equal.
  rewrite zip_cut, paged_kv_shard, <-attend_shard.
  - by rewrite fmap_app, <-list_fmap_compose, <-fmap_take, <-list_fmap_compose.
  - apply (Hqs d); [done|]. by eapply list_elem_of_lookup_2.
  - intros k v. by apply visible_heads.
Qed.

Lemma appended_shard :
  appended page ins (cut n ks) (cut n vs) (shard_cache n r c)
  = shard_cache n r (appended page ins ks vs c).
Proof using.
  unfold appended, shard_cache. simpl. f_equal. rewrite <-insert_all_fmap. f_equal.
  rewrite fmap_concat, <-list_fmap_compose. f_equal. apply list_fmap_ext. intros i d _.
  simpl. unfold new_entries. rewrite zip_cut, zip_with_fmap_r. symmetry.
  apply (fmap_zip (λ e : _ * _, (e.1, shard_kv n r e.2)) pair).
Qed.

Lemma appended_heads : cache_heads (w * n) (appended page ins ks vs c).
Proof using Hc Hks Hvs.
  intros s [k v] [Hin|Hin]%insert_all_cases; [|by apply (Hc _ _ Hin)].
  apply elem_of_concat_fmap in Hin as (d & Hd & Hin). unfold new_entries in Hin.
  apply elem_of_zip_r in Hin. apply list_elem_of_lookup in Hin as (i & Hi).
  apply lookup_zip_with_Some in Hi as (k' & v' & [= -> ->] & Hk & Hv).
  simpl. split; [apply (Hks d)|apply (Hvs d)]; try done; by eapply list_elem_of_lookup_2.
Qed.
End batch.
End shards.

(** ** The module on a rank *)

Section module.
Context {V : Type} `{!FlashInfer (head_row V) (head_row V) (head_row V) (head_row V)}.
Context {attend : head_row V → list (option (head_row V * head_row V)) → head_row V}.
Context `{!FlashInferLaws attend}.
Context {attend1 : list V → list (option (list V * list V)) → list V} `{!Headwise attend attend1}.
Context (config : ModelConfig) (page : Z) (Hpage : 0 < page < 2 ^ 31).
Context (w n g hd : Z) (Hw : 0 < w) (Hn : 0 < n) (Hg : 0 < g) (Hhd : 0 < hd).
Notation nq := (n * g).

(** The rows of a request as heads. *)
Definition as_heads (m : Z) (f : InferInput → list (list V)) (d : InferInput) : list (head_row V) :=
  heads m hd <$> f d.

(** The reference: attention of a request's rows over all heads. *)
Definition attention_rows (c : paged_cache (head_row V) (head_row V))
    (qs ks vs : InferInput → list (list V)) (d : InferInput) : list (list V) :=
  @concat V <$> incremental_rows (attend := attend) c
    (as_heads (w * nq) qs) (as_heads (w * n) ks) (as_heads (w * n) vs) d.

Context (s : list InferInput) (c : paged_cache (head_row V) (head_row V)).
Context (qs ks vs : InferInput → list (list V)).

Record module_inputs : Prop := {
  mi_sorted : StronglySorted (λ a b, - input_len a ≤ - input_len b) s;
  mi_page : pc_page_size c = page;
  mi_heads : cache_heads (w * n) c;
  mi_wf : ∀ d, d ∈ s → input_wf page d;
  mi_pages : writes_apart page s;
  mi_qs : ∀ d, d ∈ s → len (qs d) = input_len d ∧ Forall (λ r, len r = w * (nq * hd)) (qs d);
  mi_ks : ∀ d, d ∈ s → len (ks d) = input_len d ∧ Forall (λ r, len r = w * (n * hd)) (ks d);
  mi_vs : ∀ d, d ∈ s → len (vs d) = input_len d ∧ Forall (λ r, len r = w * (n * hd)) (vs d);
}.
Hypothesis (Hmi : module_inputs).

Definition new_cache : paged_cache (head_row V) (head_row V) :=
  appended page s (as_heads (w * n) ks) (as_heads (w * n) vs) c.

Lemma rows_wf m (f : InferInput → list (list V)) :
  0 ≤ m → (∀ d, d ∈ s → len (f d) = input_len d ∧ Forall (λ r, len r = m) (f d)) →
  mat_wf (Mat m (concat (f <$> s))).
Proof using.
  intros Hm Hf. split; [done|]. apply Forall_concat, Forall_fmap, Forall_forall.
  intros d Hd. by apply Hf.
Qed.

Lemma view_shard m (f : InferInput → list (list V)) r :
  0 < m → 0 ≤ r < w → (∀ d, d ∈ s → len (f d) = input_len d ∧ Forall (λ r, len r = w * (m * hd)) (f d)) →
  view_heads m hd (col_shard (Mat (w * (m * hd)) (concat (f <$> s))) (m * hd) r)
  = Ok (concat (cut r m (as_heads (w * m) f) <$> s)).
Proof using Hhd Hw.
  intros Hm Hr Hf. pose proof (rows_wf (w * (m * hd)) f ltac:(nia) Hf) as Hwf.
  rewrite view_heads_Ok; [|apply mat_wf_rows; [nia|]|done..].
  - f_equal. unfold col_shard, map_rows. cbn [rows].
    rewrite <-list_fmap_compose, fmap_concat, <-list_fmap_compose. f_equal.
    apply fmap_list_ext. intros d Hd. simpl. unfold cut, as_heads. rewrite <-list_fmap_compose.
    apply fmap_list_ext. intros row Hrow. simpl. destruct (Hf d Hd) as [_ Hrows].
    rewrite Forall_forall in Hrows. apply heads_block; [lia|lia|done|auto].
  - intros row Hrow. apply (len_block _ _ w); [nia|done|].
    by apply (rows_len (Mat (w * (m * hd)) (concat (f <$> s)))).
Qed.

Lemma as_heads_rows m (f : InferInput → list (list V)) d row :
  0 ≤ m → row ∈ as_heads m f d → len row = m.
Proof using. intros Hm (x & -> & _)%list_elem_of_fmap. by apply length_heads. Qed.

Lemma len_cut r m (f : InferInput → list (list V)) d k :
  len (cut r m (as_heads k f) d) = len (f d).
Proof using. unfold cut, as_heads. by rewrite !len_fmap. Qed.

Lemma module_attention_inputs r :
  attention_inputs page s (shard_cache n r c) (cut r nq (as_heads (w * nq) qs))
    (cut r n (as_heads (w * n) ks)) (cut r n (as_heads (w * n) vs)).
Proof using Hmi.
  destruct Hmi as [_ Hc _ Hwf Hp Hq Hk Hv]. split; try done; intros d Hd; rewrite len_cut.
  - by apply Hq. - by apply Hk. - by apply Hv.
Qed.

(** The rows of the result have all the heads. *)
Lemma incremental_heads d row :
  d ∈ s →
  row ∈ incremental_rows (attend := attend) c (as_heads (w * nq) qs) (as_heads (w * n) ks)
          (as_heads (w * n) vs) d →
  len row = w * nq ∧ Forall (λ h, len h = hd) row.
Proof using Hmi Hw Hn Hg Hhd Headwise0.
  intros Hd (j & Hrow)%list_elem_of_lookup. destruct Hmi as [_ Hc Hch Hwf Hp Hq Hk Hv].
  unfold incremental_rows in Hrow. rewrite list_lookup_imap in Hrow.
  apply fmap_Some in Hrow as (q & Hqj & ->). apply list_elem_of_lookup_2 in Hqj as Hin. simpl.
  assert (∀ k v, Some (k, v) ∈ paged_kv c (block_ids d) (filled_token_len d)
      ++ (Some <$> take (S j) (zip (as_heads (w * n) ks d) (as_heads (w * n) vs d))) →
      len k = w * n ∧ len v = w * n) as Hkv.
  { intros k v. apply (visible_heads w n s c (as_heads (w * n) ks) (as_heads (w * n) vs) Hch); [..|done];
      intros d' row _; apply as_heads_rows; nia. }
  assert (len q = w * nq) as Hlq by (apply (as_heads_rows (w * nq) qs d); [nia|done]).
  apply list_elem_of_fmap in Hin as (row & -> & Hrow).
  destruct (Hq d Hd) as [_ Hrows]. rewrite Forall_forall in Hrows.
  rewrite (attend_len w n g 0 ltac:(lia) Hn Hg _ _ Hlq Hkv). split; [done|].
  apply (attend_head_len w n g 0 ltac:(lia) Hn Hg _ _ hd Hlq Hkv).
  apply heads_len; [lia|]. rewrite (Hrows row Hrow). lia.
Qed.

Lemma attention_rows_wf d :
  d ∈ s → len (attention_rows c qs ks vs d) = input_len d ∧
          Forall (λ r, len r = w * (nq * hd)) (attention_rows c qs ks vs d).
Proof using Hmi Hw Hn Hg Hhd Headwise0.
  intros Hd. unfold attention_rows. rewrite len_fmap, len_incremental. unfold as_heads at 1.
  rewrite len_fmap. split; [by apply (mi_qs Hmi)|].
  apply Forall_fmap, Forall_forall. intros row Hrow. simpl.
  destruct (incremental_heads d row Hd Hrow) as [Hl Hh]. rewrite Forall_forall in Hh.
  rewrite <-sumZ_len_concat, (sumZ_const len _ hd Hh), Hl. lia.
Qed.

Lemma module_forward uninit r :
  0 ≤ r < w →
  Attention_module_forward uninit {| num_heads := nq; num_kv_heads := n; head_size := hd |}
    (col_shard (Mat (w * (nq * hd)) (concat (qs <$> s))) (nq * hd) r)
    (col_shard (Mat (w * (n * hd)) (concat (ks <$> s))) (n * hd) r)
    (col_shard (Mat (w * (n * hd)) (concat (vs <$> s))) (n * hd) r)
    (batch_params config page s (concat (positions_of <$> s))) (Some (shard_cache n r c))
  = Ok (col_shard (Mat (w * (nq * hd)) (concat (attention_rows c qs ks vs <$> s))) (nq * hd) r,
        Some (shard_cache n r new_cache)).
Proof using All.
  intros Hr. pose proof Hmi as [Hsort Hc Hch Hwf Hp Hq Hk Hv].
  unfold Attention_module_forward. cbn [num_heads num_kv_heads head_size].
  rewrite !view_shard by (done || nia). rewrite !Ok_bind.
  rewrite (attention_batch config page Hpage s _ _ _ _ (module_attention_inputs r) Hsort), Ok_bind.
  f_equal. f_equal.
  - unfold col_shard, map_rows. cbn [rows]. f_equal.
    rewrite <-list_fmap_compose, !fmap_concat, <-!list_fmap_compose. f_equal.
    apply fmap_list_ext. intros d Hd. simpl.
    rewrite (incremental_shard w n g r Hr Hn Hg s c (as_heads (w * nq) qs) (as_heads (w * n) ks)
      (as_heads (w * n) vs) Hch) by (done || (intros; eapply as_heads_rows; [|done]; nia)).
    unfold attention_rows. rewrite <-!list_fmap_compose. apply fmap_list_ext. intros row Hrow. simpl.
    destruct (incremental_heads d row Hd Hrow) as [Hl Hh].
    by apply (concat_block_heads row hd nq w r); [nia|lia|..].
  - f_equal. apply appended_shard.
Qed.
End module.
