(* ===== verification/Activations.v ===== *)
(** * Activation functions

    [models/layers/activations.py].  All of them act on the elements of a
    tensor one by one, so they are functions on scalars.  A decimal literal is
    the quotient of two integers, which is the same float. *)
From stdpp Require Import strings.
From S2P Require Import Prelude Tensor Rotary.

(** The functions of torch and [math] they are built from. *)
Class TorchFunctional (V : Type) := {
  torch_tanh : V → V;
  torch_erf : V → V;
  torch_sigmoid : V → V;
  torch_clip : V → V → V → V;
  math_sqrt : V → V;
  F_gelu : V → V;
  F_gelu_tanh : V → V;
  F_softplus : V → V;
  F_mish : V → V;
  F_relu : V → V;
  F_silu : V → V;
  nn_LeakyReLU : V → V;
  nn_ReLU6 : V → V;
}.

Declare Scope float_scope.
Delimit Scope float_scope with F.

Section activations.
Context `{Floats V} `{TorchFunctional V}.
(** The version of torch, as major and minor number. *)
Context (torch_version : Z * Z).

#[local] Notation "x + y" := (sadd x y) : float_scope.
#[local] Notation "x - y" := (ssub x y) : float_scope.
#[local] Notation "x * y" := (smul x y) : float_scope.
#[local] Notation "x / y" := (sdiv x y) : float_scope.
#[local] Notation "# n" := (of_Z n%Z) (at level 1, format "# n") : float_scope.

Definition version_lt (v : Z * Z) : bool :=
  (torch_version.1 <? v.1) || ((torch_version.1 =? v.1) && (torch_version.2 <? v.2)).

Definition dec (n d : Z) : V := (#n / #d)%F.
Notation half := (dec 5 10).
(** 0.044715 *)
Notation c_cubic := (dec 44715 1000000).

Definition PytorchGELUTanh_init : res (V → V) :=
  if version_lt (1, 12) then Raise ImportError else Ok F_gelu_tanh.

Definition NewGELUActivation_forward (input : V) : V :=
  (half * input * (#1 + torch_tanh (math_sqrt (#2 / spi) * (input + c_cubic * spow input #3))))%F.

Definition gelu_python_forward (input : V) : V :=
  (input * half * (#1 + torch_erf (input / math_sqrt #2)))%F.

Definition GELUActivation_init (use_gelu_python : bool) : V → V :=
  if use_gelu_python then gelu_python_forward else F_gelu.

Definition FastGELUActivation_forward (input : V) : V :=
  (half * input
   * (#1 + torch_tanh (input * dec 7978845608 10000000000 * (#1 + c_cubic * input * input))))%F.

Definition QuickGELUActivation_forward (input : V) : V :=
  (input * torch_sigmoid (dec 1702 1000 * input))%F.

(** [gelu] is the module's own activation of that name. *)
Definition ClippedGELUActivation_init (min max : V) : res (V → V) :=
  if slt max min then Raise ValueError
  else Ok (λ x, torch_clip (GELUActivation_init false x) min max).

Definition AccurateGELUActivation_forward (input : V) : V :=
  (let precomputed_constant := math_sqrt (#2 / spi) in
   half * input * (#1 + torch_tanh (precomputed_constant * (input + c_cubic * spow input #3))))%F.

Definition mish_python (input : V) : V := (input * torch_tanh (F_softplus input))%F.
Definition MishActivation_init : V → V := if version_lt (1, 9) then mish_python else F_mish.

Definition LinearActivation_forward (input : V) : V := input.

Definition LaplaceActivation_forward (input : V) : V :=
  (let mu := dec 707107 1000000 in
   let sigma := dec 282095 1000000 in
   let input := (input - mu) / (sigma * math_sqrt #2) in
   half * (#1 + torch_erf input))%F.

Definition ReLUSquaredActivation_forward (input : V) : V :=
  let relu_applied := F_relu input in (relu_applied * relu_applied)%F.

(** [ACT2FN[key]]: the class of the entry, instantiated. *)
Definition ACT2CLS : list (string * res (V → V)) := [
  ("gelu", Ok (GELUActivation_init false));
  ("gelu_10", ClippedGELUActivation_init (of_Z (-10)) (of_Z 10));
  ("gelu_fast", Ok FastGELUActivation_forward);
  ("gelu_new", Ok NewGELUActivation_forward);
  ("gelu_python", Ok (GELUActivation_init true));
  ("gelu_pytorch_tanh", PytorchGELUTanh_init);
  ("gelu_accurate", Ok AccurateGELUActivation_forward);
  ("laplace", Ok LaplaceActivation_forward);
  ("leaky_relu", Ok nn_LeakyReLU);
  ("linear", Ok LinearActivation_forward);
  ("mish", Ok MishActivation_init);
  ("quick_gelu", Ok QuickGELUActivation_forward);
  ("relu", Ok F_relu);
  ("relu2", Ok ReLUSquaredActivation_forward);
  ("relu6", Ok nn_ReLU6);
  ("sigmoid", Ok torch_sigmoid);
  ("silu", Ok F_silu);
  ("swish", Ok F_silu);
  ("tanh", Ok torch_tanh)
]%string.

Definition ACT2FN (key : string) : res (V → V) :=
  match list_find (λ e, e.1 = key) ACT2CLS with
  | Some (_, (_, fn)) => fn
  | None => Raise KeyError
  end.

Definition get_activation (activation_string : string) : res (V → V) :=
  if existsb (λ e, String.eqb e.1 activation_string) ACT2CLS
  then ACT2FN activation_string else Raise KeyError.
End activations.
