(* ===== verification/Llama.v ===== *)
(** * The Llama model

    [models/llama.py]; [models/qwen2.py] is the same code with biases on the
    query, key and value projections ([qkv_bias]).  As in [TensorParallel] the
    ranks run in step and a tensor is the list of the ranks' tensors.  The
    kernels update a rank's cache in place, so the forward functions return the
    caches. *)
From stdpp Require Import strings.
From S2P Require Import Prelude ParallelUtils Tensor TensorParallel.
From S2P Require Import FlashInfer Batch PagedAttention Triton Rotary Activations Heads.
Import TensorParallel.Mappings TensorParallel.Layers.

(** What the normalization uses. *)
Class NormFloats (V : Type) := {
  srsqrt : V → V;
  smean : list V → V;
  to_float : V → V;
}.

Record LlamaConfig (V : Type) := {
  hidden_size : Z;
  intermediate_size : Z;
  num_attention_heads : Z;
  num_key_value_heads : Z;
  max_position_embeddings : Z;
  num_hidden_layers : Z;
  vocab_size : Z;
  rms_norm_eps : V;
  hidden_act : string;
  rope : RopeConfig V;
}.
Arguments hidden_size {V} l.
Arguments intermediate_size {V} l.
Arguments num_attention_heads {V} l.
Arguments num_key_value_heads {V} l.
Arguments max_position_embeddings {V} l.
Arguments num_hidden_layers {V} l.
Arguments vocab_size {V} l.
Arguments rms_norm_eps {V} l.
Arguments hidden_act {V} l.
Arguments rope {V} l.

Section llama.
Context {V : Type} `{!Scalar V} `{!TorchMat V} `{!Floats V} `{!TorchFunctional V} `{!NormFloats V}.
Context `{!FlashInfer (head_row V) (head_row V) (head_row V) (head_row V)}.
Notation cache := (paged_cache (head_row V) (head_row V)).

(** Memory that is allocated and not written: of a weight, of a buffer, of a
    row of heads. *)
Context (torch_empty : Z → Z → mat V) (torch_empty_flat : Z → list V) (uninit : head_row V).

(** *** LlamaRMSNorm *)

Record LlamaRMSNorm := { rn_eps : V; rn_weight : list V }.

Definition LlamaRMSNorm_init (dim : Z) (eps : V) : LlamaRMSNorm := {|
  rn_eps := eps; rn_weight := (λ _, of_Z 1) <$> py_range 0 dim |}.

Definition LlamaRMSNorm_norm (self : LlamaRMSNorm) (x : list V) : list V :=
  let scale := srsqrt (sadd (smean ((λ a, spow a (of_Z 2)) <$> x)) (rn_eps self)) in
  (λ a, smul a scale) <$> x.

(** On one row. *)
Definition norm_row (self : LlamaRMSNorm) (x : list V) : list V :=
  let output := to_dtype <$> LlamaRMSNorm_norm self (to_float <$> x) in
  zip_with smul output (rn_weight self).

Definition LlamaRMSNorm_forward (self : LlamaRMSNorm) (x : mat V) : mat V :=
  map_rows (cols x) (norm_row self) x.

(** *** LlamaMLP *)

(** Parallel linear layers as the constructors leave them on the ranks. *)
Definition column_linear (tp_size in_features out_features : Z) (bias gather_output : bool)
    (init_method : mat V → mat V) : res ColumnParallelLinear :=
  ps ← mapM (λ r, fst <$> ColumnParallelLinear_init torch_empty tp_size r in_features out_features
                            bias init_method 1 false) (py_range 0 tp_size);
  Ok {| cpl_gather_output := gather_output; cpl_params := ps |}.
Definition row_linear (tp_size in_features out_features : Z) (bias input_is_parallel : bool)
    (init_method : mat V → mat V) : res RowParallelLinear :=
  ps ← mapM (λ r, fst <$> RowParallelLinear_init torch_empty tp_size r in_features out_features
                            bias init_method 1 false) (py_range 0 tp_size);
  Ok {| rpl_input_is_parallel := input_is_parallel; rpl_params := ps |}.

Record LlamaMLP := {
  gate_proj : ColumnParallelLinear (V := V);
  up_proj : ColumnParallelLinear (V := V);
  down_proj : RowParallelLinear (V := V);
  activation_fn : V → V;
}.

Definition LlamaMLP_init (torch_version : Z * Z) (init_method : mat V → mat V) (tp_size : Z)
    (config : LlamaConfig V) : res LlamaMLP :=
  gate_proj ← column_linear tp_size (hidden_size config) (intermediate_size config) false false
                init_method;
  up_proj ← column_linear tp_size (hidden_size config) (intermediate_size config) false false
              init_method;
  down_proj ← row_linear tp_size (intermediate_size config) (hidden_size config) false true
                init_method;
  activation_fn ← ACT2FN torch_version (hidden_act config);
  Ok {| gate_proj := gate_proj; up_proj := up_proj; down_proj := down_proj;
        activation_fn := activation_fn |}.

Definition LlamaMLP_forward (self : LlamaMLP) (hidden_states : list (mat V))
    : res (list (mat V)) :=
  RowParallelLinear_forward (down_proj self)
    (zip_with (mat_zip smul)
       (mat_map (activation_fn self) <$> ColumnParallelLinear_forward (gate_proj self) hidden_states)
       (ColumnParallelLinear_forward (up_proj self) hidden_states)).

(** *** LlamaAttention *)

Record LlamaAttention := {
  q_proj : ColumnParallelLinear (V := V);
  k_proj : ColumnParallelLinear (V := V);
  v_proj : ColumnParallelLinear (V := V);
  o_proj : RowParallelLinear (V := V);
  rotary_emb : RotaryEmbedding V;
  attn : Attention;
}.

(** [x % y == 0] *)
Definition divides (x y : Z) : res bool := r ← py_mod x y; Ok (r =? 0).

Definition LlamaAttention_init (qkv_bias : bool) (init_method : mat V → mat V) (tp_size : Z)
    (config : LlamaConfig V) : res LlamaAttention :=
  let hidden_size := hidden_size config in
  let num_heads := num_attention_heads config in
  let num_kv_heads := num_key_value_heads config in
  d ← divides hidden_size num_heads; _ ← py_assert d;
  d ← divides num_heads num_kv_heads; _ ← py_assert d;
  d ← divides num_heads tp_size; _ ← py_assert d;
  d ← divides num_kv_heads tp_size; _ ← py_assert d;
  let head_dim := hidden_size / num_heads in
  let q_size := num_heads * head_dim in
  let kv_size := num_kv_heads * head_dim in
  q_proj ← column_linear tp_size hidden_size q_size qkv_bias false init_method;
  k_proj ← column_linear tp_size hidden_size kv_size qkv_bias false init_method;
  v_proj ← column_linear tp_size hidden_size kv_size qkv_bias false init_method;
  o_proj ← row_linear tp_size hidden_size hidden_size false true init_method;
  rotary_emb ← RotaryEmbedding_init (rope config) (of_Z 10000);
  Ok {| q_proj := q_proj; k_proj := k_proj; v_proj := v_proj; o_proj := o_proj;
        rotary_emb := rotary_emb;
        attn := Attention_init (num_heads / tp_size) head_dim (Some (num_kv_heads / tp_size)) |}.

(** The caches of the ranks for one layer. *)
Definition LlamaAttention_forward (self : LlamaAttention) (hidden_states : list (mat V))
    (input_params : InputParams) (kv_cache : list (option cache))
    : res (list (mat V) * list (option cache)) :=
  let q := ColumnParallelLinear_forward (q_proj self) hidden_states in
  let k := ColumnParallelLinear_forward (k_proj self) hidden_states in
  let v := ColumnParallelLinear_forward (v_proj self) hidden_states in
  qk ← mapM (λ '(q, k), RotaryEmbedding_forward torch_empty_flat (rotary_emb self) q k
                          (ip_position_ids input_params)) (zip q k);
  outs ← mapM (λ '((q, k), (v, c)),
           Attention_module_forward uninit (attn self) q k v input_params c)
           (zip qk (zip v kv_cache));
  output ← RowParallelLinear_forward (o_proj self) outs.*1;
  Ok (output, outs.*2).

(** *** LlamaDecoderLayer *)

Record LlamaDecoderLayer := {
  self_attn : LlamaAttention;
  mlp : LlamaMLP;
  input_layernorm : LlamaRMSNorm;
  post_attention_layernorm : LlamaRMSNorm;
}.

Definition LlamaDecoderLayer_init (torch_version : Z * Z) (qkv_bias : bool)
    (init_method : mat V → mat V) (tp_size : Z) (config : LlamaConfig V)
    : res LlamaDecoderLayer :=
  self_attn ← LlamaAttention_init qkv_bias init_method tp_size config;
  mlp ← LlamaMLP_init torch_version init_method tp_size config;
  Ok {| self_attn := self_attn; mlp := mlp;
        input_layernorm := LlamaRMSNorm_init (hidden_size config) (rms_norm_eps config);
        post_attention_layernorm := LlamaRMSNorm_init (hidden_size config) (rms_norm_eps config) |}.

Definition LlamaDecoderLayer_forward (self : LlamaDecoderLayer) (hidden_states : list (mat V))
    (input_params : InputParams) (kv_cache : list (option cache))
    : res (list (mat V) * list (option cache)) :=
  let residual := hidden_states in
  let hidden_states := LlamaRMSNorm_forward (input_layernorm self) <$> hidden_states in
  '(hidden_states, kv_cache) ←
    LlamaAttention_forward (self_attn self) hidden_states input_params kv_cache;
  let hidden_states := zip_with mat_add residual hidden_states in
  let residual := hidden_states in
  let hidden_states := LlamaRMSNorm_forward (post_attention_layernorm self) <$> hidden_states in
  hidden_states ← LlamaMLP_forward (mlp self) hidden_states;
  let hidden_states := zip_with mat_add residual hidden_states in
  Ok (hidden_states, kv_cache).

(** *** LlamaModel *)

Record LlamaModel := {
  embed_tokens : list (VocabParallelEmbedding (V := V));
  layers : list LlamaDecoderLayer;
  norm : LlamaRMSNorm;
}.

Definition LlamaModel_init (torch_version : Z * Z) (qkv_bias : bool)
    (init_method : mat V → mat V) (tp_size : Z) (config : LlamaConfig V) : res LlamaModel :=
  embed_tokens ← mapM (λ r, VocabParallelEmbedding_init torch_empty tp_size r (vocab_size config)
                              (hidden_size config) init_method) (py_range 0 tp_size);
  layers ← mapM (λ _, LlamaDecoderLayer_init torch_version qkv_bias init_method tp_size config)
             (py_range 0 (num_hidden_layers config));
  Ok {| embed_tokens := embed_tokens; layers := layers;
        norm := LlamaRMSNorm_init (hidden_size config) (rms_norm_eps config) |}.

(** [kv_caches[i] if kv_caches is not None else None], [kv_caches] having the
    caches of the ranks for each layer. *)
Definition layer_cache (ranks : list (mat V)) (kv_caches : option (list (list cache))) (i : Z)
    : res (list (option cache)) :=
  match kv_caches with
  | Some kv_caches => fmap (M := res) (fmap (M := list) Some) (py_get kv_caches i)
  | None => Ok (fmap (M := list) (λ _, None) ranks)
  end.

(** One iteration of the loop over the layers; the caches of the layers done so
    far are collected. *)
Definition run_layer (input_params : InputParams) (kv_caches : option (list (list cache)))
    (st : list (mat V) * list (list (option cache))) (e : Z * LlamaDecoderLayer)
    : res (list (mat V) * list (list (option cache))) :=
  let '(hidden_states, new_caches) := st in
  let '(i, layer) := e in
  kv_cache ← layer_cache hidden_states kv_caches i;
  out ← LlamaDecoderLayer_forward layer hidden_states input_params kv_cache;
  Ok (out.1, new_caches ++ [out.2]).

Definition run_layers (input_params : InputParams) (kv_caches : option (list (list cache)))
    (hidden_states : list (mat V)) (ls : list (Z * LlamaDecoderLayer))
    : res (list (mat V) * list (list (option cache))) :=
  foldM (run_layer input_params kv_caches) (hidden_states, []) ls.

Definition LlamaModel_forward (self : LlamaModel) (input_ids : list Z)
    (input_params : InputParams) (kv_caches : option (list (list cache)))
    : res (list (mat V) * list (list (option cache))) :=
  hidden_states ← VocabParallelEmbedding_forward (embed_tokens self) input_ids;
  out ← run_layers input_params kv_caches hidden_states (py_enumerate (layers self));
  Ok (fmap (M := list) (LlamaRMSNorm_forward (norm self)) out.1, out.2).

(** *** LlamaForCausalLM *)

Record LlamaForCausalLM := {
  model : LlamaModel;
  lm_head : ColumnParallelLinear (V := V);
}.

Definition LlamaForCausalLM_init (torch_version : Z * Z) (qkv_bias : bool)
    (init_method : mat V → mat V) (tp_size : Z) (config : LlamaConfig V) : res LlamaForCausalLM :=
  model ← LlamaModel_init torch_version qkv_bias init_method tp_size config;
  lm_head ← column_linear tp_size (hidden_size config) (vocab_size config) false true init_method;
  Ok {| model := model; lm_head := lm_head |}.

(** [t[indices]]: a negative index counts from the end. *)
Definition mat_index (t : mat V) (indices : list Z) : res (mat V) :=
  Mat (cols t) <$> mapM (py_get (rows t)) indices.

Definition LlamaForCausalLM_forward (self : LlamaForCausalLM) (input_ids : list Z)
    (input_params : InputParams) (kv_caches : option (list (list cache)))
    : res (list (mat V) * list (list (option cache))) :=
  out ← LlamaModel_forward (model self) input_ids input_params kv_caches;
  let cu_output_lens := drop 1 (ip_cu_seqlens_q input_params) in
  let indices := (λ x, x - 1) <$> cu_output_lens in
  hidden_states ← mapM (λ t, mat_index t indices) out.1;
  Ok (ColumnParallelLinear_forward (lm_head self) hidden_states, out.2).

(** *** Qwen2 *)

Definition Qwen2RMSNorm_init := LlamaRMSNorm_init.
Definition Qwen2RMSNorm_forward := LlamaRMSNorm_forward.
Definition Qwen2MLP_init := LlamaMLP_init.
Definition Qwen2DecoderLayer_init (torch_version : Z * Z) :=
  LlamaDecoderLayer_init torch_version true.
Definition Qwen2Model_init (torch_version : Z * Z) := LlamaModel_init torch_version true.
Definition Qwen2Attention_init := LlamaAttention_init true.
Definition Qwen2Attention_forward := LlamaAttention_forward.
Definition Qwen2MLP_forward := LlamaMLP_forward.
Definition Qwen2DecoderLayer_forward := LlamaDecoderLayer_forward.
Definition Qwen2Model_forward := LlamaModel_forward.
Definition Qwen2ForCausalLM_init (torch_version : Z * Z) := LlamaForCausalLM_init torch_version true.
Definition Qwen2ForCausalLM_forward := LlamaForCausalLM_forward.
End llama.
