(* ===== verification/ModelSpec.v ===== *)
(** * Tensor-parallel decoders

    What the specifications of the models share: the sizes, the batch as one
    tensor, the parallel layers on it, attention on the ranks' heads with its
    caches, and a stack of layers. *)
From stdpp Require Import strings.
From S2P Require Import Prelude ParallelUtils Tensor TensorParallel.
From S2P Require Import FlashInfer Batch PagedAttention Triton Rotary Heads.
Import TensorParallel.Mappings TensorParallel.Layers.

#[local] Opaque py_range.

(** The sizes of the model: [kv] key heads per rank times ranks, and so on. *)
Record sizes := {
  sz_kv : Z;            (* key heads *)
  sz_group : Z;         (* query heads per key head *)
  sz_hd : Z;            (* dimensions of a head *)
  sz_inner : Z;         (* intermediate size *)
  sz_vocab : Z;
}.
Definition sz_hidden (z : sizes) : Z := sz_kv z * sz_group z * sz_hd z.


Notation requests V := (InferInput → list (list V)).

Section reference.
Context {V : Type} `{!Scalar V} `{!TorchMat V}.
Context (attend : head_row V → list (option (head_row V * head_row V)) → head_row V).
Notation cache := (paged_cache (head_row V) (head_row V)).
Context (z : sizes).

Definition lin (p : params (V := V)) (row : list V) : list V :=
  add_bias p.2 (dot row <$> rows p.1).

Definition add_rows (a b : list (list V)) : list (list V) := zip_with (zip_with sadd) a b.

(** The heads of the rows of a request. *)
Definition ref_heads (n : Z) (f : requests V) (d : InferInput) : list (head_row V) :=
  heads n (sz_hd z) <$> f d.

(** Attention of a request: its row [j] over what its pages hold and its first
    [j+1] new rows, head by head. *)
Definition ref_mix (c : cache) (qs ks vs : requests V) (d : InferInput) : list (list V) :=
  imap (λ j q, concat (attend q
    (paged_kv c (block_ids d) (filled_token_len d)
     ++ (Some <$> take (S j) (zip (ref_heads (sz_kv z) ks d) (ref_heads (sz_kv z) vs d))))))
    (ref_heads (sz_kv z * sz_group z) qs d).

(** What the pages of a request hold afterwards, and the cache after a batch. *)
Definition ref_kv (c : cache) (ks vs : requests V) (d : InferInput)
    : list (option (head_row V * head_row V)) :=
  paged_kv c (block_ids d) (filled_token_len d)
  ++ (Some <$> zip (ref_heads (sz_kv z) ks d) (ref_heads (sz_kv z) vs d)).
Definition extended (page : Z) (s : list InferInput) (c : cache) (ks vs : requests V) : cache :=
  appended page s (ref_heads (sz_kv z) ks) (ref_heads (sz_kv z) vs) c.

(** A stack of layers, each with its cache: [out] is what a layer computes from
    its cache and input, [ks] and [vs] the keys and values it stores. *)
Section stack.
Context {T : Type} (out : T → cache → requests V → requests V) (ks vs : T → requests V → requests V).

Fixpoint stack_out (Ls : list T) (cs : list cache) (X : requests V) : requests V :=
  match Ls, cs with
  | L :: Ls, c :: cs => stack_out Ls cs (out L c X)
  | _, _ => X
  end.
Fixpoint stack_caches (page : Z) (s : list InferInput) (Ls : list T) (cs : list cache)
    (X : requests V) : list cache :=
  match Ls, cs with
  | L :: Ls, c :: cs =>
      extended page s c (ks L X) (vs L X) :: stack_caches page s Ls cs (out L c X)
  | _, _ => []
  end.
Fixpoint stack_pages (Ls : list T) (cs : list cache) (X : requests V) (d : InferInput)
    : list (list (option (head_row V * head_row V))) :=
  match Ls, cs with
  | L :: Ls, c :: cs => ref_kv c (ks L X) (vs L X) d :: stack_pages Ls cs (out L c X) d
  | _, _ => []
  end.
End stack.
End reference.

(** ** The ranks' parts *)

Section shards.
Context {V : Type} `{!Scalar V}.
Context (z : sizes) (w : Z).

Definition column (gather : bool) (p : params (V := V)) : ColumnParallelLinear :=
  {| cpl_gather_output := gather; cpl_params := column_shards p.1 p.2 w (nrows p.1 / w) |}.
Definition row_bias (p : params (V := V)) : RowParallelLinear :=
  {| rpl_input_is_parallel := true; rpl_params := row_shards p.1 p.2 w (cols p.1 / w) |}.
Definition row (W : mat V) : RowParallelLinear := row_bias (W, None).

(** The ranks' parts of a cache. *)
Definition shard_caches (c : paged_cache (head_row V) (head_row V))
    : list (paged_cache (head_row V) (head_row V)) :=
  (λ r, shard_cache (sz_kv z / w) r c) <$> py_range 0 w.
End shards.

(** ** Shapes *)

Section shapes.
Context {V : Type}.
Context (z : sizes).

Record sizes_ok (w : Z) : Prop := {
  so_w : 0 < w;
  so_kv : 0 < sz_kv z; so_group : 0 < sz_group z; so_hd : 0 < sz_hd z;
  so_even : 2 * (sz_hd z / 2) = sz_hd z;
  so_inner : 0 ≤ sz_inner z; so_vocab : 0 < sz_vocab z;
  so_kv_w : sz_kv z = w * (sz_kv z / w);
  so_inner_w : sz_inner z = w * (sz_inner z / w);
  so_vocab_w : sz_vocab z = w * (sz_vocab z / w);
}.

(** A weight of [out] rows of [inp] columns, and its bias. *)
Definition linear_wf (p : params (V := V)) (inp out : Z) : Prop :=
  mat_wf p.1 ∧ cols p.1 = inp ∧ nrows p.1 = out ∧ ∀ b, p.2 = Some b → len b = out.

(** The rows of the requests: one per new token, [m] wide. *)
Definition requests_wf (s : list InferInput) (m : Z) (X : InferInput → list (list V)) : Prop :=
  ∀ d, d ∈ s → len (X d) = input_len d ∧ Forall (λ r, len r = m) (X d).

(** The batch as a tensor. *)
Definition hid (s : list InferInput) (m : Z) (X : InferInput → list (list V)) : mat V :=
  Mat m (concat (X <$> s)).

Lemma hid_ext s m X Y : (∀ d, d ∈ s → X d = Y d) → hid s m X = hid s m Y.
Proof. intros HXY. unfold hid. do 2 f_equal. by apply fmap_list_ext. Qed.

Lemma hid_map s m m' (f : list V → list V) X :
  map_rows m' f (hid s m X) = hid s m' (λ d, f <$> X d).
Proof. unfold map_rows, hid. simpl. by rewrite fmap_concat, <-list_fmap_compose. Qed.

Lemma hid_wf s m X : 0 ≤ m → requests_wf s m X → mat_wf (hid s m X).
Proof. intros Hm HX. by apply rows_wf. Qed.

(** Two tensors of one batch, row by row. *)
Lemma concat_zip_with {A B C} s (f : A → B → C) (X : InferInput → list A) (Y : InferInput → list B) :
  (∀ d, d ∈ s → len (X d) = len (Y d)) →
  zip_with f (concat (X <$> s)) (concat (Y <$> s)) = concat ((λ d, zip_with f (X d) (Y d)) <$> s).
Proof.
  intros HXY. induction s as [|d s IH]; csimpl; [done|].
  rewrite zip_with_app, IH; [done|set_solver|].
  specialize (HXY d (list_elem_of_here _ _)). unfold len in HXY. lia.
Qed.

Lemma hid_zip s m (f : list V → list V → list V) X Y :
  (∀ d, d ∈ s → len (X d) = len (Y d)) →
  zip_with f (rows (hid s m X)) (rows (hid s m Y)) = concat ((λ d, zip_with f (X d) (Y d)) <$> s).
Proof. apply concat_zip_with. Qed.

Lemma requests_map s m m' (f : list V → list V) X :
  (∀ r, len r = m → len (f r) = m') → requests_wf s m X → requests_wf s m' (λ d, f <$> X d).
Proof.
  intros Hf HX d Hd. destruct (HX d Hd) as [Hl Hr]. rewrite len_fmap. split; [done|].
  apply Forall_fmap. eapply Forall_impl; [exact Hr|]. exact Hf.
Qed.

Lemma requests_zip s m m' (f : list V → list V → list V) X Y :
  (∀ a b, len a = m → len b = m → len (f a b) = m') →
  requests_wf s m X → requests_wf s m Y → requests_wf s m' (λ d, zip_with f (X d) (Y d)).
Proof.
  intros Hf HX HY d Hd. destruct (HX d Hd) as [Hl Hr]. destruct (HY d Hd) as [Hl' Hr'].
  split; [unfold len in *; rewrite length_zip_with; lia|].
  apply Forall_lookup_2. intros i r Hi. apply lookup_zip_with_Some in Hi as (a & b & -> & Ha & Hb).
  rewrite Forall_lookup in Hr, Hr'. eauto.
Qed.

Lemma len_zip_with {A B C} (f : A → B → C) (a : list A) (b : list B) :
  len a = len b → len (zip_with f a b) = len a.
Proof. intros. unfold len in *. rewrite length_zip_with. lia. Qed.
End shapes.

(** The rows the running sums of the lengths end at are the last rows. *)
Lemma last_rows {A} (x : A) s (Y : InferInput → list A) pre :
  (∀ d, d ∈ s → len (Y d) = input_len d ∧ 1 ≤ input_len d) →
  mapM (py_get (pre ++ concat (Y <$> s)))
    ((λ x, x - 1) <$> drop 1 (cumsum_from (len pre) (input_len <$> s)))
  = Ok ((λ d, default x (last (Y d))) <$> s).
Proof.
  revert pre. induction s as [|d s IH]; intros pre HY; [done|].
  destruct (HY d) as [Hl Hpos]; [set_solver|]. csimpl. rewrite drop_0.
  assert (∀ a l, cumsum_from a l = a :: drop 1 (cumsum_from a l)) as -> by (by intros a []).
  assert (py_get (pre ++ Y d ++ concat (Y <$> s)) (len pre + input_len d - 1)
    = Ok (default x (last (Y d)))) as E.
  { pose proof (len_nonneg pre). apply py_get_Ok; [lia|]. unfold len in *.
    rewrite lookup_app_r, lookup_app_l by lia. rewrite last_lookup.
    replace (Z.to_nat _ - length pre)%nat with (pred (length (Y d))) by lia.
    destruct (lookup_lt_is_Some_2 (Y d) (pred (length (Y d)))) as [y ->]; [lia|done]. }
  csimpl. rewrite E. simpl. rewrite app_assoc, <-Hl, <-len_app, IH by set_solver. done.
Qed.

(** ** Layers on the ranks *)

Section layers.
Context {V : Type} `{!Scalar V} `{!TorchMat V} `{!TorchMatLaws V} `{!ScalarZero V} `{!DotSplit V}.
Context (z : sizes) (w : Z) (Hz : sizes_ok z w).
Context (s : list InferInput).
Notation hidden := (sz_hidden z).

Lemma lin_len (p : params (V := V)) inp out row : linear_wf p inp out → len (lin p row) = out.
Proof.
  intros (_ & _ & Hn & Hb). unfold lin. rewrite len_add_bias; [by rewrite len_fmap|].
  intros b Hpb. rewrite len_fmap. rewrite (Hb b Hpb). done.
Qed.

Lemma lin_mat (p : params (V := V)) m X :
  F_linear (hid s m X) p.1 p.2 = hid s (nrows p.1) (λ d, lin p <$> X d).
Proof. rewrite F_linear_spec. apply hid_map. Qed.

Lemma col_shard_zip (f : V → V → V) (a b : mat V) k r :
  mat_zip f (col_shard a k r) (col_shard b k r) = col_shard (mat_zip f a b) k r.
Proof.
  unfold mat_zip, col_shard, map_rows. simpl. f_equal.
  rewrite zip_with_fmap_l, zip_with_fmap_r, fmap_zip. apply zip_with_ext; [|done..].
  intros x y. by rewrite block_zip_with.
Qed.

Lemma col_shard_map (f : V → V) (a : mat V) k r :
  mat_map f (col_shard a k r) = col_shard (mat_map f a) k r.
Proof.
  unfold mat_map, col_shard, map_rows. simpl. f_equal. rewrite <-!list_fmap_compose.
  apply list_fmap_ext. intros i x _. simpl. by rewrite block_fmap.
Qed.

Lemma hid_mat_map m (f : V → V) X : mat_map f (hid s m X) = hid s m (λ d, fmap (M := list) (fmap (M := list) f) (X d)).
Proof. unfold mat_map, hid. simpl. by rewrite fmap_concat, <-list_fmap_compose. Qed.

Lemma hid_mat_zip m (f : V → V → V) X Y :
  (∀ d, d ∈ s → len (X d) = len (Y d)) →
  mat_zip f (hid s m X) (hid s m Y) = hid s m (λ d, zip_with (zip_with f) (X d) (Y d)).
Proof. intros HXY. unfold mat_zip. by rewrite hid_zip. Qed.

(** A column-parallel layer leaves every rank with its columns of the result. *)
Lemma column_shards_forward (p : params (V := V)) inp out m X :
  linear_wf p inp out → out = w * (out / w) →
  ColumnParallelLinear_forward (column w false p) (replicate (Z.to_nat w) (hid s m X))
  = (λ r, col_shard (hid s out (λ d, lin p <$> X d)) (out / w) r) <$> py_range 0 w.
Proof using Hz TorchMatLaws0.
  intros (_ & _ & Hn & _) Hout. pose proof (so_w _ _ Hz). unfold column. rewrite Hn.
  assert (0 ≤ out) by (rewrite <-Hn; apply len_nonneg).
  rewrite column_forward_parallel; [|apply Z.div_pos; lia|lia]. rewrite lin_mat, Hn. done.
Qed.

Lemma column_gather_forward (p : params (V := V)) inp out (x : mat V) :
  linear_wf p inp out → out = w * (out / w) →
  ColumnParallelLinear_forward (column w true p) (replicate (Z.to_nat w) x)
  = replicate (Z.to_nat w) (F_linear x p.1 p.2).
Proof using Hz TorchMatLaws0.
  intros (_ & _ & Hn & Hb) Hout. pose proof (so_w _ _ Hz). unfold column. rewrite Hn.
  assert (0 ≤ out) by (rewrite <-Hn; apply len_nonneg).
  apply column_forward_gather; [lia|apply Z.div_pos; lia|lia|].
  intros b' Hb'. by rewrite Hn, (Hb b' Hb').
Qed.

(** A row-parallel layer adds the ranks' contributions up. *)
Lemma row_bias_forward (p : params (V := V)) inp out X :
  linear_wf p inp out → inp = w * (inp / w) → 0 ≤ inp → requests_wf s inp X →
  RowParallelLinear_forward (row_bias w p) ((λ r, col_shard (hid s inp X) (inp / w) r) <$> py_range 0 w)
  = Ok (replicate (Z.to_nat w) (hid s out (λ d, lin p <$> X d))).
Proof using Hz TorchMatLaws0 DotSplit0.
  intros (Hwf & Hc & Hn & _) Hinp Hpos HX. pose proof (so_w _ _ Hz). unfold row_bias. rewrite Hc.
  rewrite row_forward_parallel; try done; try lia.
  - by rewrite lin_mat, Hn.
  - by apply hid_wf.
Qed.
Lemma row_shards_forward (W : mat V) inp out X :
  linear_wf (W, None) inp out → inp = w * (inp / w) → 0 ≤ inp → requests_wf s inp X →
  RowParallelLinear_forward (row w W) ((λ r, col_shard (hid s inp X) (inp / w) r) <$> py_range 0 w)
  = Ok (replicate (Z.to_nat w) (hid s out (λ d, lin (W, None) <$> X d))).
Proof using Hz TorchMatLaws0 DotSplit0.
  apply (row_bias_forward (W, None)).
Qed.

Lemma add_ranks m X Y :
  (∀ d, d ∈ s → len (X d) = len (Y d)) →
  zip_with mat_add (replicate (Z.to_nat w) (hid s m X)) (replicate (Z.to_nat w) (hid s m Y))
  = replicate (Z.to_nat w) (hid s m (λ d, add_rows (X d) (Y d))).
Proof.
  intros HXY. rewrite zip_with_replicate. f_equal. by apply hid_mat_zip.
Qed.


Lemma requests_same_len m (A B : requests V) d :
  requests_wf s m A → requests_wf s m B → d ∈ s → len (A d) = len (B d).
Proof using. intros HA HB Hd. destruct (HA d Hd) as [-> _]. by destruct (HB d Hd) as [-> _]. Qed.

Lemma add_rows_wf m (A B : requests V) :
  requests_wf s m A → requests_wf s m B → requests_wf s m (λ d, add_rows (A d) (B d)).
Proof using.
  intros HA HB. apply (requests_zip s m m (zip_with sadd)); [|done..].
  intros a b Ha Hb. rewrite len_zip_with; congruence.
Qed.

Lemma lin_wf (p : params (V := V)) inp m X :
  linear_wf p inp m → requests_wf s inp X → requests_wf s m (λ d, lin p <$> X d).
Proof using. intros Hp HX. apply (requests_map s inp); [|done]. intros r _. by eapply lin_len. Qed.

Lemma map_ranks m m' (f : list V → list V) X :
  map_rows m' f <$> replicate (Z.to_nat w) (hid s m X)
  = replicate (Z.to_nat w) (hid s m' (λ d, f <$> X d)).
Proof using. rewrite fmap_replicate. f_equal. apply hid_map. Qed.
End layers.

(** ** Attention and caches *)

Section attention.
Context {V : Type} `{!Scalar V} `{!TorchMat V} `{!TorchMatLaws V} `{!ScalarZero V}.
Context `{!FlashInfer (head_row V) (head_row V) (head_row V) (head_row V)}.
Context (attend : head_row V → list (option (head_row V * head_row V)) → head_row V).
Context (attend1 : list V → list (option (list V * list V)) → list V).
Context `{!FlashInferLaws attend} `{!Headwise attend attend1}.
Context (uninit : head_row V).
Context (z : sizes) (w : Z) (Hz : sizes_ok z w).
Context (config : ModelConfig) (page : Z) (Hpage : 0 < page < 2 ^ 31).
Context (s : list InferInput).
Notation hidden := (sz_hidden z).
Notation n := (sz_kv z / w).
Notation cache := (paged_cache (head_row V) (head_row V)).

Record batch_ok : Prop := {
  bo_sorted : StronglySorted (λ a b, - input_len a ≤ - input_len b) s;
  bo_wf : ∀ d, d ∈ s → input_wf page d;
  bo_pages : writes_apart page s;
}.
Hypothesis (Hbatch : batch_ok).

Definition cache_ok (c : cache) : Prop := pc_page_size c = page ∧ cache_heads (sz_kv z) c.

Notation positions := (concat (positions_of <$> s)).

Lemma kv_pos : 0 < n.
Proof using Hz. pose proof (so_kv_w _ _ Hz). pose proof (so_kv _ _ Hz). pose proof (so_w _ _ Hz). nia. Qed.

Lemma hidden_w : hidden = w * (n * sz_group z * sz_hd z) ∧ hidden / w = n * sz_group z * sz_hd z.
Proof using Hz.
  pose proof (so_w _ _ Hz). assert (hidden = w * (n * sz_group z * sz_hd z)) as E.
  { unfold sz_hidden. rewrite (so_kv_w _ _ Hz) at 1. lia. }
  split; [done|]. rewrite E, Z.mul_comm. apply Z.div_mul. lia.
Qed.

Lemma kv_hd_w : sz_kv z * sz_hd z = w * (n * sz_hd z) ∧ sz_kv z * sz_hd z / w = n * sz_hd z.
Proof using Hz.
  pose proof (so_w _ _ Hz). assert (sz_kv z * sz_hd z = w * (n * sz_hd z)) as E.
  { rewrite (so_kv_w _ _ Hz) at 1. lia. }
  split; [done|]. rewrite E, Z.mul_comm. apply Z.div_mul. lia.
Qed.

Lemma len_positions_of d : d ∈ s → len (positions_of d) = input_len d.
Proof using Hbatch.
  intros Hd. pose proof (bo_wf Hbatch d Hd) as [Hl Hf Hc _]. unfold positions_of, len.
  rewrite length_py_range. pose proof (len_nonneg (input_ids d)). lia.
Qed.

Lemma nrows_hid {A} m (X : InferInput → list (list A)) :
  requests_wf s m X → nrows (hid s m X) = len positions.
Proof using Hbatch.
  intros HX. unfold nrows, hid. simpl. rewrite <-!sumZ_len_fmap. f_equal.
  apply fmap_list_ext. intros d Hd. rewrite len_positions_of by done. by apply HX.
Qed.


Lemma total_heads : w * n = sz_kv z ∧ w * (n * sz_group z) = sz_kv z * sz_group z.
Proof using Hz. pose proof (so_kv_w _ _ Hz). split; [lia|]. rewrite Z.mul_assoc. f_equal. lia. Qed.

Lemma hidden_nonneg : 0 ≤ hidden.
Proof using Hz.
  pose proof (so_kv _ _ Hz). pose proof (so_group _ _ Hz). pose proof (so_hd _ _ Hz).
  unfold sz_hidden. apply Z.mul_nonneg_nonneg; nia.
Qed.


Notation rep := (replicate (Z.to_nat w)).

Section mix.
Context (c : cache) (qs ks vs : requests V).
Hypothesis (Hc : cache_ok c) (Hq : requests_wf s hidden qs).
Hypothesis (Hk : requests_wf s (sz_kv z * sz_hd z) ks) (Hv : requests_wf s (sz_kv z * sz_hd z) vs).

Lemma mix_inputs : module_inputs page w n (sz_group z) (sz_hd z) s c qs ks vs.
Proof using Hz Hbatch Hc Hq Hk Hv.
  destruct hidden_w as [EH _]. destruct kv_hd_w as [EK _]. destruct total_heads as [En _].
  destruct Hc as [Hp Hh]. split; try done; rewrite <-?EH, <-?EK; try done.
  - apply (bo_sorted Hbatch).
  - by rewrite En.
  - apply (bo_wf Hbatch).
  - apply (bo_pages Hbatch).
Qed.

Lemma mix_rows d :
  attention_rows (attend := attend) w n (sz_group z) (sz_hd z) c qs ks vs d
  = ref_mix attend z c qs ks vs d.
Proof using Hz.
  destruct total_heads as [En Enq]. unfold attention_rows, incremental_rows, ref_mix, ref_heads, as_heads.
  by rewrite En, Enq, fmap_imap.
Qed.

Lemma mix_wf : requests_wf s hidden (ref_mix attend z c qs ks vs).
Proof using Hz Hbatch Hc Hq Hk Hv Headwise0.
  intros d Hd. rewrite <-mix_rows. destruct hidden_w as [EH _]. rewrite EH.
  by apply (attention_rows_wf page w n (sz_group z) (sz_hd z) (so_w _ _ Hz) kv_pos
    (so_group _ _ Hz) (so_hd _ _ Hz) s c qs ks vs mix_inputs).
Qed.

(** The attention modules of the ranks compute the columns of the reference and
    leave them with their parts of the new cache. *)
Lemma mix_rank r :
  0 ≤ r < w →
  Attention_module_forward uninit {| num_heads := n * sz_group z; num_kv_heads := n; head_size := sz_hd z |}
    (col_shard (hid s hidden qs) (hidden / w) r)
    (col_shard (hid s (sz_kv z * sz_hd z) ks) (sz_kv z * sz_hd z / w) r)
    (col_shard (hid s (sz_kv z * sz_hd z) vs) (sz_kv z * sz_hd z / w) r)
    (batch_params config page s positions) (Some (shard_cache n r c))
  = Ok (col_shard (hid s hidden (ref_mix attend z c qs ks vs)) (hidden / w) r,
        Some (shard_cache n r (extended z page s c ks vs))).
Proof using All.
  intros Hr. destruct hidden_w as [EH EHw]. destruct kv_hd_w as [EK EKw]. destruct total_heads as [En _].
  pose proof (module_forward config page Hpage w n (sz_group z) (sz_hd z) (so_w _ _ Hz) kv_pos
    (so_group _ _ Hz) (so_hd _ _ Hz) s c qs ks vs mix_inputs uninit r Hr) as E.
  rewrite <-EH, <-EK in E. rewrite EHw, EKw. unfold hid. etransitivity; [exact E|].
  rewrite (fmap_list_ext _ (ref_mix attend z c qs ks vs)) by (intros; apply mix_rows).
  unfold new_cache, extended, as_heads, ref_heads. by rewrite En.
Qed.

Lemma extended_ok : cache_ok (extended z page s c ks vs).
Proof using Hz Hc.
  destruct total_heads as [En _]. destruct Hc as [_ Hh]. split; [done|].
  rewrite <-En in Hh |- *. pose proof kv_pos. pose proof (so_kv _ _ Hz).
  apply appended_heads; [done|..]; intros d row _ (x & -> & _)%list_elem_of_fmap;
    rewrite length_heads; lia.
Qed.

Lemma extended_pages d :
  d ∈ s →
  paged_kv (extended z page s c ks vs) (block_ids d) (context_len d) = ref_kv z c ks vs d.
Proof using Hz Hpage Hbatch Hc Hq Hk Hv.
  intros Hd. pose proof mix_inputs as [_ _ _ Hwf Hp _ Hks Hvs].
  assert (∀ d, d ∈ s → 0 ≤ input_len d) as Hpos.
  { intros d' Hd'. rewrite (wf_len _ _ (Hwf d' Hd')). apply len_nonneg. }
  assert (∀ (f : InferInput → list (list V)) m,
    (∀ d, d ∈ s → len (f d) = input_len d ∧ Forall (λ r, len r = m) (f d)) →
    ∀ d, d ∈ s → len (ref_heads z (sz_kv z) f d) = input_len d) as Hlen.
  { intros f m Hf d' Hd'. unfold ref_heads. rewrite len_fmap. by apply Hf. }
  pose proof (appended_paged_kv page s _ _ c (proj1 Hc) Hwf (Hlen _ _ Hks) (Hlen _ _ Hvs)
    Hp d (Z.to_nat (input_len d)) Hd) as E.
  pose proof (wf_context _ _ (Hwf d Hd)). specialize (Hpos d Hd).
  rewrite Z2Nat.id, (Z.add_comm _ (input_len d)), <-H in E by done.
  unfold extended, ref_kv. rewrite E by lia. do 2 f_equal. apply take_ge.
  pose proof (Hlen _ _ Hks d Hd). unfold len in *. rewrite length_zip_with. lia.
Qed.

Lemma extended_frame x :
  x ∉ batch_slots page s → pc_slots (extended z page s c ks vs) !! x = pc_slots c !! x.
Proof using Hz Hbatch Hc Hq Hk Hv.
  intros Hx. pose proof mix_inputs as [_ _ _ Hwf Hp _ Hks Hvs].
  apply (appended_frame page); try done; intros d Hd.
  - unfold ref_heads. rewrite len_fmap. by apply Hks.
  - unfold ref_heads. rewrite len_fmap. by apply Hvs.
Qed.
End mix.

(** ** A stack of layers *)

Section stack.
Context {T T' : Type} (wf : T → Prop) (shard : T → T').
Context (out : T → cache → requests V → requests V) (ks vs : T → requests V → requests V).
Context (qs : T → requests V → requests V).

(** What a layer owes the stack. *)
Record layer_laws : Prop := {
  ll_out L c X : wf L → cache_ok c → requests_wf s hidden X → requests_wf s hidden (out L c X);
  ll_qs L X : wf L → requests_wf s hidden X → requests_wf s hidden (qs L X);
  ll_ks L X : wf L → requests_wf s hidden X → requests_wf s (sz_kv z * sz_hd z) (ks L X);
  ll_vs L X : wf L → requests_wf s hidden X → requests_wf s (sz_kv z * sz_hd z) (vs L X);
}.
Hypothesis (Hlaws : layer_laws).

Lemma stack_wf Ls cs X :
  Forall wf Ls → Forall cache_ok cs → requests_wf s hidden X →
  requests_wf s hidden (stack_out out Ls cs X).
Proof using Hlaws.
  revert cs X. induction Ls as [|L Ls IH]; intros [|c cs] X HL Hc HX; try done. simpl.
  apply Forall_cons in HL as [HL HLs], Hc as [Hc Hcs]. apply IH; [done..|]. by apply Hlaws.
Qed.

Lemma stack_caches_ok Ls cs X :
  Forall wf Ls → Forall cache_ok cs → requests_wf s hidden X →
  Forall cache_ok (stack_caches z out ks vs page s Ls cs X).
Proof using Hz Hlaws.
  revert cs X. induction Ls as [|L Ls IH]; intros [|c cs] X HL Hc HX; try by constructor.
  apply Forall_cons in HL as [HL HLs], Hc as [Hc Hcs]. constructor; [by apply extended_ok|].
  apply IH; [done..|]. by apply Hlaws.
Qed.

Lemma stack_caches_length Ls cs X :
  length Ls = length cs → length (stack_caches z out ks vs page s Ls cs X) = length cs.
Proof using.
  revert cs X. induction Ls as [|L Ls IH]; intros [|c cs] X Hlen; simplify_eq/=; [done|].
  by rewrite IH.
Qed.

Lemma stack_caches_pages Ls cs X d :
  Forall wf Ls → Forall cache_ok cs → requests_wf s hidden X → d ∈ s →
  (λ c, paged_kv c (block_ids d) (context_len d)) <$> stack_caches z out ks vs page s Ls cs X
  = stack_pages z out ks vs Ls cs X d.
Proof using Hz Hpage Hbatch Hlaws.
  intros HL Hc HX Hd. revert cs X HL Hc HX.
  induction Ls as [|L Ls IH]; intros [|c cs] X HL Hc HX; try done. csimpl.
  apply Forall_cons in HL as [HL HLs], Hc as [Hc Hcs]. f_equal.
  - by apply (extended_pages c (qs L X)); [|apply Hlaws..|].
  - apply IH; [done..|]. by apply Hlaws.
Qed.

Lemma stack_caches_frame Ls cs X :
  len Ls = len cs → Forall wf Ls → Forall cache_ok cs → requests_wf s hidden X →
  Forall2 (λ c c', ∀ x, x ∉ batch_slots page s → pc_slots c' !! x = pc_slots c !! x)
    cs (stack_caches z out ks vs page s Ls cs X).
Proof using Hz Hbatch Hlaws.
  revert cs X. induction Ls as [|L Ls IH]; intros [|c cs] X Hlen HL Hc HX; try by constructor.
  - unfold len in Hlen. simpl in Hlen. lia.
  - apply Forall_cons in HL as [HL HLs], Hc as [Hc Hcs]. rewrite !len_cons in Hlen.
    constructor.
    + intros x. by apply (extended_frame c (qs L X)); [|apply Hlaws..].
    + apply IH; [lia|done..|]. by apply Hlaws.
Qed.

(** The loop over the layers of a model, whose iterations compute the layers. *)
Notation state := (list (mat V) * list (list (option cache)))%type.
Context (run : option (list (list cache)) → state → Z * T' → res state).
Hypothesis (Hrun : ∀ L c X i acc caches,
  wf L → cache_ok c → requests_wf s hidden X → py_get caches i = Ok (shard_caches z w c) →
  run (Some caches) (rep (hid s hidden X), acc) (i, shard L)
  = Ok (rep (hid s hidden (out L c X)),
        acc ++ [Some <$> shard_caches z w (extended z page s c (ks L X) (vs L X))])).

Lemma stack_ranks pre Ls cs X acc :
  len Ls = len cs → Forall wf Ls → Forall cache_ok cs → requests_wf s hidden X →
  foldM (run (Some (shard_caches z w <$> pre ++ cs))) (rep (hid s hidden X), acc)
    (zip (py_range (len pre) (len pre + len Ls)) (shard <$> Ls))
  = Ok (rep (hid s hidden (stack_out out Ls cs X)),
        acc ++ ((λ c, Some <$> shard_caches z w c) <$> stack_caches z out ks vs page s Ls cs X)).
Proof using Hlaws Hrun.
  revert pre cs X acc. induction Ls as [|L Ls IH]; intros pre [|c cs] X acc Hlen HL Hc HX;
    rewrite ?len_cons in Hlen; try (unfold len in Hlen; simpl in Hlen; lia).
  - rewrite py_range_empty by (unfold len; simpl; lia). csimpl. by rewrite app_nil_r.
  - apply Forall_cons in HL as [HL HLs], Hc as [Hc Hcs].
    rewrite py_range_cons by (rewrite len_cons; pose proof (len_nonneg Ls); lia). csimpl.
    rewrite (Hrun L c X); [|done..|].
    2:{ apply py_get_Ok; [apply len_nonneg|].
        unfold len. rewrite Nat2Z.id, fmap_app, lookup_app_r; rewrite length_fmap; [|done].
        by rewrite Nat.sub_diag. }
    rewrite Ok_bind.
    replace (len pre + 1) with (len (pre ++ [c])) by (rewrite len_app; done).
    replace (len pre + len (L :: Ls)) with (len (pre ++ [c]) + len Ls)
      by (rewrite len_app, !len_cons; change (len (@nil cache)) with 0; lia).
    replace (pre ++ c :: cs) with ((pre ++ [c]) ++ cs) by (by rewrite <-app_assoc).
    rewrite IH; [|lia|done|done|by apply Hlaws]. by rewrite <-app_assoc.
Qed.
End stack.

(** *** Embedding and selection *)

Lemma embed_rows_wf (W : mat V) :
  mat_wf W → nrows W = sz_vocab z →
  requests_wf s (cols W) (λ d, row_if W 0 (sz_vocab z) <$> input_ids d).
Proof using Hz Hbatch TorchMatLaws0 ScalarZero0.
  intros Hwf Hn. pose proof (so_w _ _ Hz).
  pose proof (so_vocab_w _ _ Hz) as Hv. pose proof (so_vocab _ _ Hz).
  intros d Hd. rewrite len_fmap. split; [symmetry; apply (wf_len _ _ (bo_wf Hbatch d Hd))|].
  apply Forall_fmap, Forall_forall. intros i _. simpl.
  apply (len_row_if _ w (sz_vocab z / w)); (done || lia || nia).
Qed.

Lemma embedding_ranks (W : mat V) :
  mat_wf W → nrows W = sz_vocab z →
  VocabParallelEmbedding_forward (vocab_shards W w (sz_vocab z / w)) (concat (input_ids <$> s))
  = Ok (rep (hid s (cols W) (λ d, row_if W 0 (sz_vocab z) <$> input_ids d))).
Proof using Hz TorchMatLaws0 ScalarZero0.
  intros Hwf Hn. pose proof (so_w _ _ Hz).
  pose proof (so_vocab_w _ _ Hz) as Hv. pose proof (so_vocab _ _ Hz).
  rewrite (vocab_forward _ w (sz_vocab z / w)) by (done || lia || nia).
  rewrite <-Hv. unfold hid. by rewrite fmap_concat, <-list_fmap_compose.
Qed.

(** The rows [cu_seqlens_q[1:] - 1] are the last rows of the requests. *)
Lemma selected_rows m (Y : requests V) :
  requests_wf s m Y → (∀ d, d ∈ s → 1 ≤ input_len d) →
  mapM (py_get (rows (hid s m Y))) ((λ x, x - 1) <$> drop 1 (cumsum0 (input_len <$> s)))
  = Ok ((λ d, default [] (last (Y d))) <$> s).
Proof using.
  intros HY Hne. pose proof (last_rows [] s Y []) as E. unfold cumsum0, hid.
  change (len (@nil (list V))) with 0 in E. simpl in E |- *. rewrite E; [done|].
  intros d Hd. split; [by apply HY|auto].
Qed.
End attention.
