(* ===== verification/Causal.v ===== *)
(** * Causal models

    A text through the layers all at once, without batching, chunks, pages or
    caches, and what makes the layers of a model compute it piece by piece: their
    rows depend on earlier rows only, through the keys and values the pages hold. *)
From S2P Require Import Prelude Tensor.
From S2P Require Import FlashInfer Batch PagedAttention Heads ModelSpec.

#[local] Opaque py_range.

(** ** The dense computation *)

Section dense.
Context {V : Type} `{!Scalar V} `{!TorchMat V}.
Context (attend : head_row V → list (option (head_row V * head_row V)) → head_row V).
Notation cache := (paged_cache (head_row V) (head_row V)).
Notation kv := (head_row V * head_row V)%type.
Notation text_rows := (list (list V)).
Context (z : sizes).

(** The keys and values of a text, head by head. *)
Definition dense_kv (ks vs : text_rows) : list kv :=
  zip (heads (sz_kv z) (sz_hd z) <$> ks) (heads (sz_kv z) (sz_hd z) <$> vs).

(** Causal attention: row [j] over the first [j+1] keys and values. *)
Definition dense_mix (qs : text_rows) (kvs : list kv) : text_rows :=
  imap (λ j q, concat (attend q (Some <$> take (S j) kvs)))
    (heads (sz_kv z * sz_group z) (sz_hd z) <$> qs).

Section stack.
Context {T : Type} (dout dk dv : T → text_rows → text_rows).
Fixpoint dense_out (Ls : list T) (Y : text_rows) : text_rows :=
  match Ls with
  | [] => Y
  | L :: Ls => dense_out Ls (dout L Y)
  end.
Fixpoint dense_pages (Ls : list T) (Y : text_rows) : list (list kv) :=
  match Ls with
  | [] => []
  | L :: Ls => dense_kv (dk L Y) (dv L Y) :: dense_pages Ls (dout L Y)
  end.
End stack.

(** A request holds the tokens of a text from [filled_token_len] on. *)
Record continues (d : InferInput) (T : list Z) : Prop := {
  ct_filled : 0 ≤ filled_token_len d;
  ct_len : 0 ≤ input_len d;
  ct_context : context_len d = filled_token_len d + input_len d;
  ct_within : context_len d ≤ len T;
  ct_ids : input_ids d = py_slice T (filled_token_len d) (context_len d);
}.
Notation filled d := (Z.to_nat (filled_token_len d)).

(** The caches hold the first [n] keys and values of a text, layer by layer. *)
Definition holds (cs : list cache) (blocks : list Z) (n : Z) (pages : list (list kv)) : Prop :=
  (λ c, paged_kv c blocks n) <$> cs = (λ kvs, Some <$> take (Z.to_nat n) kvs) <$> pages.

Lemma dense_pages_length {T} (dout dk dv : T → text_rows → text_rows) Ls Y :
  length (dense_pages dout dk dv Ls Y) = length Ls.
Proof using. revert Y. induction Ls; intros Y; simpl; [done|]. by rewrite IHLs. Qed.

(** *** Prefixes *)

Lemma len_take_range {A} n (rs : list A) : py_range 0 (len (take n rs)) = take n (py_range 0 (len rs)).
Proof using.
  apply list_eq. intros j. unfold len. destruct (decide (j < n)%nat) as [Hj|Hj].
  - rewrite lookup_take_lt by done. destruct (decide (j < length rs)%nat).
    + by rewrite !lookup_py_range by (rewrite ?length_take; lia).
    + rewrite !lookup_ge_None_2; [done|..]; rewrite length_py_range, ?length_take; lia.
  - rewrite lookup_take_ge by lia. apply lookup_ge_None_2. rewrite length_py_range, length_take. lia.
Qed.

Lemma drop_range (n : nat) m : py_range (Z.of_nat n) m = drop n (py_range 0 m).
Proof using.
  apply list_eq. intros j. rewrite lookup_drop. destruct (decide (Z.of_nat (n + j) < m)).
  - rewrite !lookup_py_range by lia. f_equal. lia.
  - rewrite !lookup_ge_None_2; [done|..]; rewrite length_py_range; lia.
Qed.

Lemma add_rows_take n (a b : text_rows) : add_rows (take n a) (take n b) = take n (add_rows a b).
Proof. unfold add_rows. by rewrite zip_with_take. Qed.
Lemma add_rows_drop n (a b : text_rows) : add_rows (drop n a) (drop n b) = drop n (add_rows a b).
Proof. unfold add_rows. by rewrite zip_with_drop. Qed.
Lemma add_rows_length (a b : text_rows) : length a = length b → length (add_rows a b) = length a.
Proof. intros. unfold add_rows. rewrite length_zip_with. lia. Qed.




Lemma dense_kv_take n ks vs : dense_kv (take n ks) (take n vs) = take n (dense_kv ks vs).
Proof using. unfold dense_kv. by rewrite zip_with_take, !fmap_take. Qed.

Lemma dense_kv_length ks vs : length ks = length vs → length (dense_kv ks vs) = length ks.
Proof using. intros. unfold dense_kv. rewrite length_zip_with, !length_fmap. lia. Qed.

Lemma dense_mix_length qs kvs : length (dense_mix qs kvs) = length qs.
Proof using. unfold dense_mix. by rewrite length_imap, length_fmap. Qed.

Lemma dense_mix_lookup qs kvs j :
  dense_mix qs kvs !! j
  = (λ q, concat (attend (heads (sz_kv z * sz_group z) (sz_hd z) q) (Some <$> take (S j) kvs)))
      <$> qs !! j.
Proof using.
  unfold dense_mix. rewrite list_lookup_imap, list_lookup_fmap. by destruct (qs !! j).
Qed.

Lemma dense_mix_take n qs kvs : dense_mix (take n qs) (take n kvs) = take n (dense_mix qs kvs).
Proof using.
  apply list_eq. intros j. rewrite dense_mix_lookup. destruct (decide (j < n)%nat) as [Hj|Hj].
  - rewrite !lookup_take_lt by done. rewrite dense_mix_lookup, take_take.
    by rewrite Nat.min_l by lia.
  - by rewrite !lookup_take_ge by lia.
Qed.

(** The new keys and values of a request. *)
Lemma new_kv_dense ks vs d f K W :
  ks d = drop f K → vs d = drop f W →
  zip (ref_heads z (sz_kv z) ks d) (ref_heads z (sz_kv z) vs d) = drop f (dense_kv K W).
Proof using.
  intros EK EW. unfold ref_heads, dense_kv. by rewrite EK, EW, zip_with_drop, !fmap_drop.
Qed.

(** Attention of a request over its pages and its new rows. *)
Lemma ref_mix_dense c qs ks vs d Q K W :
  qs d = drop (filled d) Q → ks d = drop (filled d) K → vs d = drop (filled d) W →
  paged_kv c (block_ids d) (filled_token_len d) = Some <$> take (filled d) (dense_kv K W) →
  ref_mix attend z c qs ks vs d = drop (filled d) (dense_mix Q (dense_kv K W)).
Proof using.
  intros EQ EK EW Hc. apply list_eq. intros j.
  rewrite lookup_drop, dense_mix_lookup. unfold ref_mix.
  rewrite Hc, (new_kv_dense _ _ _ _ _ _ EK EW). unfold ref_heads.
  rewrite list_lookup_imap, list_lookup_fmap, EQ, lookup_drop.
  destruct (Q !! _) as [q|]; [|done]. simpl. do 3 f_equal.
  rewrite <-fmap_app, take_take_drop. by rewrite Nat.add_succ_r.
Qed.

Lemma ref_kv_dense c ks vs d K W :
  ks d = drop (filled d) K → vs d = drop (filled d) W →
  paged_kv c (block_ids d) (filled_token_len d) = Some <$> take (filled d) (dense_kv K W) →
  ref_kv z c ks vs d = Some <$> dense_kv K W.
Proof using.
  intros EK EW Hc. unfold ref_kv.
  rewrite Hc, (new_kv_dense _ _ _ _ _ _ EK EW), <-fmap_app. by rewrite take_drop.
Qed.

(** ** A stack of causal layers *)

Section laws.
Context {T : Type}.
Context (out : T → cache → requests V → requests V) (ks vs : T → requests V → requests V).
Context (dout dk dv : T → text_rows → text_rows).

(** What a layer owes: row by row it looks back only, and on a request it computes
    the rows of the text the request holds. *)
Record causal_laws : Prop := {
  cl_len L Y : length (dout L Y) = length Y;
  cl_len_k L Y : length (dk L Y) = length Y;
  cl_len_v L Y : length (dv L Y) = length Y;
  cl_take L n Y : dout L (take n Y) = take n (dout L Y);
  cl_take_k L n Y : dk L (take n Y) = take n (dk L Y);
  cl_take_v L n Y : dv L (take n Y) = take n (dv L Y);
  cl_ks L (X : requests V) d Y :
    0 ≤ filled_token_len d ≤ context_len d → context_len d = len Y → X d = drop (filled d) Y →
    ks L X d = drop (filled d) (dk L Y);
  cl_vs L (X : requests V) d Y :
    0 ≤ filled_token_len d ≤ context_len d → context_len d = len Y → X d = drop (filled d) Y →
    vs L X d = drop (filled d) (dv L Y);
  cl_out L c (X : requests V) d Y :
    0 ≤ filled_token_len d ≤ context_len d → context_len d = len Y → X d = drop (filled d) Y →
    paged_kv c (block_ids d) (filled_token_len d)
      = Some <$> take (filled d) (dense_kv (dk L Y) (dv L Y)) →
    out L c X d = drop (filled d) (dout L Y);
}.
Hypothesis (Hlaws : causal_laws).

Lemma dense_out_take n Ls Y : dense_out dout Ls (take n Y) = take n (dense_out dout Ls Y).
Proof using Hlaws. revert Y. induction Ls as [|L Ls IH]; intros Y; simpl; [done|].
  by rewrite (cl_take Hlaws), IH. Qed.

Lemma dense_out_length Ls Y : length (dense_out dout Ls Y) = length Y.
Proof using Hlaws. revert Y. induction Ls as [|L Ls IH]; intros Y; simpl; [done|].
  by rewrite IH, (cl_len Hlaws). Qed.

Lemma dense_pages_take n Ls Y :
  dense_pages dout dk dv Ls (take n Y) = take n <$> dense_pages dout dk dv Ls Y.
Proof using Hlaws.
  revert Y. induction Ls as [|L Ls IH]; intros Y; csimpl; [done|].
  rewrite (cl_take Hlaws), IH. f_equal.
  by rewrite (cl_take_k Hlaws), (cl_take_v Hlaws), dense_kv_take.
Qed.

Lemma dense_pages_lengths Ls Y :
  Forall (λ kvs, length kvs = length Y) (dense_pages dout dk dv Ls Y).
Proof using Hlaws.
  revert Y. induction Ls as [|L Ls IH]; intros Y; simpl; constructor.
  - rewrite dense_kv_length; rewrite (cl_len_k Hlaws); [done|]. by rewrite (cl_len_v Hlaws).
  - rewrite <-(cl_len Hlaws L Y). apply IH.
Qed.

(** On a request whose pages hold the earlier keys and values the stack computes
    the rows of the text, and leaves the keys and values of the whole text. *)
Lemma stack_dense Ls cs (X : requests V) d Y :
  0 ≤ filled_token_len d ≤ context_len d → context_len d = len Y → X d = drop (filled d) Y →
  holds cs (block_ids d) (filled_token_len d) (dense_pages dout dk dv Ls Y) →
  stack_out out Ls cs X d = drop (filled d) (dense_out dout Ls Y) ∧
  stack_pages z out ks vs Ls cs X d
  = (λ kvs : list kv, Some <$> kvs) <$> dense_pages dout dk dv Ls Y.
Proof using Hlaws.
  intros Hf. revert cs X Y. induction Ls as [|L Ls IH]; intros [|c cs] X Y Hctx HX Hc; try done.
  unfold holds in Hc. simpl in Hc. injection Hc as Hc Hcs.
  pose proof (cl_out Hlaws L c X d Y Hf Hctx HX Hc) as Hout.
  destruct (IH cs (out L c X) (dout L Y)) as [E1 E2]; [|done|done|].
  { unfold len. by rewrite (cl_len Hlaws). }
  simpl. rewrite E1, E2. split; [done|]. f_equal.
  apply ref_kv_dense; [by apply (cl_ks Hlaws)|by apply (cl_vs Hlaws)|done].
Qed.

(** *** Texts *)

Context (embed : list Z → text_rows).
Hypothesis (Htake : ∀ n t, embed (take n t) = take n (embed t)).
Hypothesis (Hembed : ∀ t, length (embed t) = length t).

(** The same for a request that holds a piece of a text, with earlier keys and
    values of the whole text in its pages. *)
Lemma stack_text Ls cs (X : requests V) d t :
  continues d t →
  X d = drop (filled d) (embed (py_slice t 0 (context_len d))) →
  holds cs (block_ids d) (filled_token_len d) (dense_pages dout dk dv Ls (embed t)) →
  stack_out out Ls cs X d
  = drop (filled d) (dense_out dout Ls (embed (py_slice t 0 (context_len d)))) ∧
  stack_pages z out ks vs Ls cs X d
  = (λ kvs : list kv, Some <$> take (Z.to_nat (context_len d)) kvs)
      <$> dense_pages dout dk dv Ls (embed t).
Proof using Hlaws Htake Hembed.
  intros [Hf Hl Hctx Hin _] HX Hc. rewrite py_slice_0 in HX |- *. rewrite Htake in HX |- *.
  destruct (stack_dense Ls cs X d (take (Z.to_nat (context_len d)) (embed t))) as [E1 E2].
  - lia.
  - unfold len in *. rewrite length_take, Hembed. lia.
  - done.
  - rewrite dense_pages_take. unfold holds in *. rewrite Hc, <-list_fmap_compose.
    apply list_fmap_ext. intros i kvs _. simpl. rewrite take_take. do 2 f_equal. lia.
  - split; [done|]. rewrite E2, dense_pages_take, <-list_fmap_compose. done.
Qed.
End laws.

(** The ids of a request end the part of the text it brings. *)
Lemma continues_ids d T :
  continues d T → input_ids d = drop (filled d) (py_slice T 0 (context_len d)).
Proof using.
  intros [Hf Hl Hctx Hin ->]. rewrite py_slice_0. unfold py_slice.
  by rewrite skipn_firstn_comm.
Qed.

Lemma continues_len d T : continues d T → context_len d = len (py_slice T 0 (context_len d)).
Proof using. intros [Hf Hl Hctx Hin _]. rewrite len_py_slice; lia. Qed.
End dense.
