(* ===== verification/Decoder.v ===== *)
(** * What the workers are promised by a model

    [Decoder] is a causal language model: its call on all ranks, and what it means
    for a text.  [DecoderLaws] is the contract between a model and the workers that
    serve it; [DenseModels] proves it for Llama and OPT, [Serving] uses it. *)
From S2P Require Import Prelude Tensor.
From S2P Require Import FlashInfer Batch PagedAttention Heads ModelSpec Causal.

#[local] Opaque py_range.

Record Decoder (V : Type) := {
  (* the call on all ranks *)
  dc_forward : list Z → InputParams →
    option (list (list (paged_cache (head_row V) (head_row V)))) →
    res (list (mat V) * list (list (option (paged_cache (head_row V) (head_row V)))));
  (* the logits after a text, and its keys and values, layer by layer *)
  dc_logits : list Z → list V;
  dc_pages : list Z → list (list (head_row V * head_row V));
  (* the longest context *)
  dc_max_len : Z;
}.
Arguments dc_forward {V} d.
Arguments dc_logits {V} d.
Arguments dc_pages {V} d.
Arguments dc_max_len {V} d.

(** Requests a batch may have: what its tensors can hold, at least one new token
    each, and slots of their own for them. *)
Record batchable (page max_len : Z) (ins : list InferInput) : Prop := {
  ba_fits : batch_fits ins;
  ba_wf : ∀ d, d ∈ ins → input_wf page d;
  ba_tokens : ∀ d, d ∈ ins → 1 ≤ input_len d;
  ba_pages : writes_apart page ins;
  ba_len : ∀ d, d ∈ ins → context_len d ≤ max_len;
}.

(** On [w] ranks, with caches of pages of [page] tokens for [layers] layers. *)
Class DecoderLaws {V : Type} `{!FlashInfer (head_row V) (head_row V) (head_row V) (head_row V)}
    (D : Decoder V) (z : sizes) (w page : Z) (config : ModelConfig) (layers : nat) : Prop := {
  dl_page : 0 < page < 2 ^ 31;
  dl_ranks : 0 < w;
  dl_heads : sz_kv z = w * (sz_kv z / w);
  dl_prefix T (n : nat) : dc_pages D (take n T) = take n <$> dc_pages D T;
  dl_layers T : length (dc_pages D T) = layers;
  dl_lengths T : Forall (λ kvs, length kvs = length T) (dc_pages D T);
  dl_empty (c : paged_cache (head_row V) (head_row V)) :
    pc_page_size c = page → pc_slots c = ∅ → cache_ok z page c;
  (* a batch of requests whose pages hold the beginnings of their texts *)
  dl_forward cs ins (texts : InferInput → list Z) :
    length cs = layers → Forall (cache_ok z page) cs → batchable page (dc_max_len D) ins →
    (∀ d, d ∈ ins → continues d (texts d) ∧
       holds cs (block_ids d) (filled_token_len d) (dc_pages D (texts d))) →
    ∃ ids params new,
      make_inputs config page true ins = Ok (sort_inputs ins, (ids, params)) ∧
      dc_forward D ids params (Some (shard_caches z w <$> cs))
      = Ok (replicate (Z.to_nat w) (Mat (sz_vocab z)
              ((λ d, dc_logits D (py_slice (texts d) 0 (context_len d))) <$> sort_inputs ins)),
            (λ c, Some <$> shard_caches z w c) <$> new) ∧
      length new = layers ∧ Forall (cache_ok z page) new ∧
      (∀ d, d ∈ ins → holds new (block_ids d) (context_len d) (dc_pages D (texts d))) ∧
      Forall2 (λ c c', ∀ x, x ∉ batch_slots page ins → pc_slots c' !! x = pc_slots c !! x)
        cs new;
}.
