(* ===== verification/LlamaSpec.v ===== *)
(** * The Llama model computes the reference transformer

    [llama_forward]: whatever the number of ranks, the sharded model on the
    batch [_make_inputs] builds computes, for each request on its own, the
    logits of a serial transformer without batching or paging, and leaves the
    ranks with the parts of the serial caches. *)
From stdpp Require Import strings.
From S2P Require Import Prelude ParallelUtils Tensor TensorParallel.
From S2P Require Import FlashInfer Batch PagedAttention Triton Rotary Activations Heads Llama ModelSpec.
Import TensorParallel.Mappings TensorParallel.Layers.

#[local] Opaque py_range.

(** ** Weights and the reference *)

Section weights.
Context {V : Type}.

(** The whole weight and bias of a linear layer. *)
Record layer_weights := {
  lw_q : params (V := V); lw_k : params (V := V); lw_v : params (V := V); lw_o : mat V;
  lw_gate : mat V; lw_up : mat V; lw_down : mat V; lw_act : V → V;
  lw_input_norm : LlamaRMSNorm (V := V); lw_post_norm : LlamaRMSNorm (V := V);
}.
Record model_weights := {
  mw_embed : mat V;
  mw_layers : list layer_weights;
  mw_norm : LlamaRMSNorm (V := V);
  mw_head : mat V;
}.
End weights.
Arguments layer_weights : clear implicits.
Arguments model_weights : clear implicits.

Section reference.
Context {V : Type} `{!Scalar V} `{!TorchMat V} `{!Floats V} `{!NormFloats V}.
Context (attend : head_row V → list (option (head_row V * head_row V)) → head_row V).
Notation cache := (paged_cache (head_row V) (head_row V)).
Notation requests := (requests V).
Context (z : sizes) (rope : mat V).

Definition mlp_row (L : layer_weights V) (row : list V) : list V :=
  lin (lw_down L, None)
    (zip_with smul (lw_act L <$> lin (lw_gate L, None) row) (lin (lw_up L, None) row)).

(** The projections of a request, rotated at its positions. *)
Definition normed (L : layer_weights V) (X : requests) (d : InferInput) : list (list V) :=
  norm_row (lw_input_norm L) <$> X d.
Definition rotate_request (d : InferInput) (rs : list (list V)) : list (list V) :=
  zip_with (rotate_row rope (sz_hd z) (sz_hd z / 2)) (positions_of d) rs.
Definition ref_q (L : layer_weights V) (X : requests) (d : InferInput) : list (list V) :=
  rotate_request d (lin (lw_q L) <$> normed L X d).
Definition ref_k (L : layer_weights V) (X : requests) (d : InferInput) : list (list V) :=
  rotate_request d (lin (lw_k L) <$> normed L X d).
Definition ref_v (L : layer_weights V) (X : requests) (d : InferInput) : list (list V) :=
  lin (lw_v L) <$> normed L X d.

Definition ref_attention (L : layer_weights V) (c : cache) (X : requests) (d : InferInput)
    : list (list V) :=
  lin (lw_o L, None) <$> ref_mix attend z c (ref_q L X) (ref_k L X) (ref_v L X) d.

Definition ref_layer (L : layer_weights V) (c : cache) (X : requests) (d : InferInput)
    : list (list V) :=
  let h := add_rows (X d) (ref_attention L c X d) in
  add_rows h (mlp_row L ∘ norm_row (lw_post_norm L) <$> h).

(** All layers, each with its cache. *)
Definition ref_layers := stack_out ref_layer.
Definition ref_caches := stack_caches z ref_layer ref_k ref_v.
Definition ref_pages := stack_pages z ref_layer ref_k ref_v.

(** The embedding; an id outside the vocabulary is embedded as zeros. *)
Definition embed (M : model_weights V) : requests := λ d,
  row_if (mw_embed M) 0 (sz_vocab z) <$> input_ids d.

(** The logits of a request: those of its last row. *)
Definition ref_logits (M : model_weights V) (cs : list cache) (d : InferInput) : list V :=
  lin (mw_head M, None)
    (default [] (last (norm_row (mw_norm M) <$> ref_layers (mw_layers M) cs (embed M) d))).

End reference.

(** ** The model on [w] ranks *)

Section shards.
Context {V : Type} `{!Scalar V}.
Context (z : sizes) (w : Z).

Definition shard_layer (rope : RotaryEmbedding V) (L : layer_weights V) : LlamaDecoderLayer := {|
  self_attn := {| q_proj := column w false (lw_q L); k_proj := column w false (lw_k L);
                  v_proj := column w false (lw_v L); o_proj := row w (lw_o L);
                  rotary_emb := rope;
                  attn := {| num_heads := sz_kv z / w * sz_group z; num_kv_heads := sz_kv z / w;
                             head_size := sz_hd z |} |};
  mlp := {| gate_proj := column w false (lw_gate L, None); up_proj := column w false (lw_up L, None);
            down_proj := row w (lw_down L); activation_fn := lw_act L |};
  input_layernorm := lw_input_norm L;
  post_attention_layernorm := lw_post_norm L |}.

Definition shard_model (rope : RotaryEmbedding V) (M : model_weights V) : LlamaForCausalLM := {|
  model := {| embed_tokens := vocab_shards (mw_embed M) w (sz_vocab z / w);
              layers := shard_layer rope <$> mw_layers M;
              norm := mw_norm M |};
  lm_head := column w true (mw_head M, None) |}.
End shards.

Section shapes.
Context {V : Type} (z : sizes).

Record layer_wf (L : layer_weights V) : Prop := {
  lwf_q : linear_wf (lw_q L) (sz_hidden z) (sz_hidden z);
  lwf_k : linear_wf (lw_k L) (sz_hidden z) (sz_kv z * sz_hd z);
  lwf_v : linear_wf (lw_v L) (sz_hidden z) (sz_kv z * sz_hd z);
  lwf_o : linear_wf (lw_o L, None) (sz_hidden z) (sz_hidden z);
  lwf_gate : linear_wf (lw_gate L, None) (sz_hidden z) (sz_inner z);
  lwf_up : linear_wf (lw_up L, None) (sz_hidden z) (sz_inner z);
  lwf_down : linear_wf (lw_down L, None) (sz_inner z) (sz_hidden z);
  lwf_input_norm : len (rn_weight (lw_input_norm L)) = sz_hidden z;
  lwf_post_norm : len (rn_weight (lw_post_norm L)) = sz_hidden z;
}.

Record model_wf (M : model_weights V) : Prop := {
  mwf_embed : mat_wf (mw_embed M) ∧ cols (mw_embed M) = sz_hidden z ∧ nrows (mw_embed M) = sz_vocab z;
  mwf_layers : Forall layer_wf (mw_layers M);
  mwf_norm : len (rn_weight (mw_norm M)) = sz_hidden z;
  mwf_head : linear_wf (mw_head M, None) (sz_hidden z) (sz_vocab z);
}.
End shapes.

(** ** Layers on the ranks *)

Section layers.
Context {V : Type} `{!Scalar V} `{!TorchMat V} `{!TorchMatLaws V} `{!ScalarZero V} `{!DotSplit V}.
Context `{!Floats V} `{!NormFloats V}.
Context (z : sizes) (w : Z) (Hz : sizes_ok z w).
Context (s : list InferInput).
Notation hidden := (sz_hidden z).

Lemma norm_row_len n row : len (rn_weight n) = len row → len (norm_row n row) = len row.
Proof.
  intros Hn. unfold norm_row, LlamaRMSNorm_norm. rewrite len_zip_with; rewrite !len_fmap; done.
Qed.

Lemma norm_ranks n m X :
  LlamaRMSNorm_forward n <$> replicate (Z.to_nat w) (hid s m X)
  = replicate (Z.to_nat w) (hid s m (λ d, norm_row n <$> X d)).
Proof.
  rewrite fmap_replicate. f_equal. apply hid_map.
Qed.
(** The multilayer perceptron. *)
Lemma mlp_ranks rope L X :
  layer_wf z L → requests_wf s hidden X →
  LlamaMLP_forward (mlp (shard_layer z w rope L)) (replicate (Z.to_nat w) (hid s hidden X))
  = Ok (replicate (Z.to_nat w) (hid s hidden (λ d, mlp_row L <$> X d))).
Proof using Hz TorchMatLaws0 DotSplit0.
  intros HL HX. unfold LlamaMLP_forward. cbn [mlp gate_proj up_proj down_proj activation_fn shard_layer].
  pose proof (lwf_gate _ _ HL) as Hg. pose proof (lwf_up _ _ HL) as Hu.
  rewrite (column_shards_forward z w Hz s _ _ _ hidden X Hg (so_inner_w _ _ Hz)).
  rewrite (column_shards_forward z w Hz s _ _ _ hidden X Hu (so_inner_w _ _ Hz)).
  rewrite <-list_fmap_compose, zip_ranges.
  pose (Y := λ d, (λ r, zip_with smul (lw_act L <$> lin (lw_gate L, None) r)
                                       (lin (lw_up L, None) r)) <$> X d).
  assert (requests_wf s (sz_inner z) Y) as HY.
  { apply (requests_map s hidden); [|done]. intros r _.
    rewrite len_zip_with; rewrite len_fmap, (lin_len _ _ _ _ Hg); [done|].
    by rewrite (lin_len _ _ _ _ Hu). }
  rewrite (fmap_range_ext _ (λ r, col_shard (hid s (sz_inner z) Y) (sz_inner z / w) r)).
  - rewrite (row_shards_forward z w Hz s _ _ _ Y (lwf_down _ _ HL) (so_inner_w _ _ Hz) (so_inner _ _ Hz) HY).
    do 2 f_equal. apply hid_ext. intros d _. unfold Y. by rewrite <-list_fmap_compose.
  - intros r _. simpl. rewrite col_shard_map, col_shard_zip. f_equal.
    rewrite hid_mat_map, hid_mat_zip by (intros; by rewrite !len_fmap).
    apply hid_ext. intros d _. unfold Y.
    by rewrite <-!list_fmap_compose, zip_with_fmap_l, zip_with_fmap_r, zip_with_diag.
Qed.
End layers.

(** ** Attention on the ranks *)

Section attention.
Context {V : Type} `{!Scalar V} `{!TorchMat V} `{!TorchMatLaws V} `{!ScalarZero V} `{!DotSplit V}.
Context `{!Floats V} `{!NormFloats V}.
Context `{!FlashInfer (head_row V) (head_row V) (head_row V) (head_row V)}.
Context (attend : head_row V → list (option (head_row V * head_row V)) → head_row V).
Context (attend1 : list V → list (option (list V * list V)) → list V).
Context `{!FlashInferLaws attend} `{!Headwise attend attend1}.
Context (torch_empty_flat : Z → list V) (uninit : head_row V).
Hypothesis (Hempty : ∀ k, 0 ≤ k → len (torch_empty_flat k) = k).
Context (z : sizes) (w : Z) (Hz : sizes_ok z w).
Context (config : ModelConfig) (page : Z) (Hpage : 0 < page < 2 ^ 31).
Context (rope : RotaryEmbedding V).
Context (s : list InferInput).
Notation hidden := (sz_hidden z).
Notation n := (sz_kv z / w).
Notation cache := (paged_cache (head_row V) (head_row V)).

Notation positions := (concat (positions_of <$> s)).
Notation table := (re_cos_sin_cached rope).
Notation batch_ok := (batch_ok page s).
Notation cache_ok := (cache_ok z page).

(** The table covers the positions of the batch. *)
Record rope_ok : Prop := {
  rp_head_dim : re_head_dim rope = sz_hd z;
  rp_wf : mat_wf (re_cos_sin_cached rope);
  rp_cols : cols (re_cos_sin_cached rope) = 2 * sz_hd z;
  rp_rows : ∀ d, d ∈ s → context_len d ≤ nrows (re_cos_sin_cached rope);
}.
Hypothesis (Hrope : rope_ok).

Hypothesis (Hbatch : batch_ok).

(** Rotating a rank's heads. *)
Lemma rotated_shard k m r Y :
  0 < k → 0 ≤ r < w → m = w * (k * sz_hd z) → requests_wf s m Y →
  rotated table positions (sz_hd z) (sz_hd z / 2) (col_shard (hid s m Y) (k * sz_hd z) r)
  = col_shard (hid s m (λ d, rotate_request z table d (Y d))) (k * sz_hd z) r.
Proof using Hz Hbatch.
  intros Hk Hr Hm HY. pose proof (so_hd _ _ Hz). pose proof (so_even _ _ Hz).
  unfold rotated, col_shard, map_rows, hid. cbn [cols rows]. f_equal.
  unfold rotate_request. rewrite <-(concat_zip_with s (rotate_row table (sz_hd z) (sz_hd z / 2))).
  2:{ intros d Hd. rewrite (len_positions_of page s Hbatch) by done. symmetry. by apply HY. }
  assert (Forall (λ row, len row = m) (concat (Y <$> s))) as Hrows.
  { apply Forall_concat, Forall_fmap, Forall_forall. intros d Hd. by apply HY. }
  generalize positions. intros ps. revert ps.
  induction (concat (Y <$> s)) as [|row rs IH]; intros [|p ps]; try done; csimpl.
  apply Forall_cons in Hrows as [Hrow Hrows]. rewrite IH by done. f_equal.
  apply rotate_row_block with w; lia.
Qed.

Lemma rotate_request_wf m Y :
  requests_wf s m Y → requests_wf s m (λ d, rotate_request z table d (Y d)).
Proof using Hbatch.
  intros HY d Hd. destruct (HY d Hd) as [Hl Hr]. unfold rotate_request.
  rewrite len_zip_with by (rewrite (len_positions_of page s Hbatch), Hl by done; done).
  rewrite (len_positions_of page s Hbatch) by done. split; [done|].
  apply Forall_lookup_2. intros i row Hi.
  apply lookup_zip_with_Some in Hi as (p & row' & -> & _ & Hrow). rewrite len_rotate_row.
  by apply (Forall_lookup_1 _ _ _ _ Hr Hrow).
Qed.

Lemma rotary_rank r Yq Yk :
  0 ≤ r < w → requests_wf s hidden Yq → requests_wf s (sz_kv z * sz_hd z) Yk →
  RotaryEmbedding_forward torch_empty_flat rope
    (col_shard (hid s hidden Yq) (hidden / w) r) (col_shard (hid s (sz_kv z * sz_hd z) Yk) (sz_kv z * sz_hd z / w) r)
    positions
  = Ok (col_shard (hid s hidden (λ d, rotate_request z table d (Yq d))) (hidden / w) r,
        col_shard (hid s (sz_kv z * sz_hd z) (λ d, rotate_request z table d (Yk d)))
          (sz_kv z * sz_hd z / w) r).
Proof using Hempty Hz Hrope Hbatch Hpage.
  intros Hr HYq HYk. destruct (hidden_w z w Hz) as [EH EHw]. destruct (kv_hd_w z w Hz) as [EK EKw].
  pose proof (kv_pos z w Hz). pose proof (so_group _ _ Hz). pose proof (so_hd _ _ Hz).
  pose proof (so_even _ _ Hz) as Heven. pose proof (so_kv _ _ Hz).
  unfold RotaryEmbedding_forward. rewrite (rp_head_dim Hrope), EHw, EKw.
  assert (∀ m k (Y : InferInput → list (list V)), 0 ≤ k → m = w * k → requests_wf s m Y →
    mat_wf (col_shard (hid s m Y) k r) ∧ nrows (col_shard (hid s m Y) k r) = len positions) as Hshard.
  { intros m k Y Hk Hm HY. split.
    - apply mat_wf_rows; [done|]. intros row Hrow. apply (len_block _ _ w); [done|done|].
      rewrite <-Hm. by apply (rows_len (hid s m Y)); [apply hid_wf; [nia|]|].
    - rewrite <-(nrows_hid page s Hbatch m Y) by done. unfold nrows, col_shard, map_rows. simpl. by rewrite len_fmap. }
  rewrite (rotary_rows _ _ _ _ _ (sz_hd z) (n * sz_group z) n (sz_hd z / 2)); [|split|done|nia].
  - rewrite !rotated_shard by (done || lia || nia). done.
  - by apply (Hshard hidden); [nia|..].
  - by apply (Hshard (sz_kv z * sz_hd z)); [nia|..].
  - apply Hrope.
  - done.
  - done.
  - rewrite (rp_cols Hrope). lia.
  - by apply (Hshard hidden); [nia|..].
  - by apply (Hshard (sz_kv z * sz_hd z)); [nia|..].
  - intros p (d & Hd & Hp)%elem_of_concat_fmap. unfold positions_of in Hp.
    apply elem_of_py_range in Hp. pose proof (rp_rows Hrope d Hd).
    pose proof (wf_filled _ _ (bo_wf _ _ Hbatch d Hd)). lia.
  - lia.
  - lia.
  - nia.
  - lia.
  - done.
Qed.

Section layer.
Context (L : layer_weights V) (X : requests V).
Hypothesis (HL : layer_wf z L) (HX : requests_wf s hidden X).

Notation qs := (ref_q z table L X).
Notation ks := (ref_k z table L X).
Notation vs := (ref_v L X).

Lemma normed_wf : requests_wf s hidden (normed L X).
Proof using HL HX.
  apply (requests_map s hidden); [|done]. intros r Hr. rewrite norm_row_len; [done|].
  rewrite Hr. apply (lwf_input_norm _ _ HL).
Qed.

Lemma projected_wf p m : linear_wf p hidden m → requests_wf s m (λ d, lin p <$> normed L X d).
Proof using HL HX.
  intros Hp. apply (requests_map s hidden); [|apply normed_wf]. intros r _. by eapply lin_len.
Qed.

Lemma q_wf : requests_wf s hidden qs.
Proof using Hbatch HL HX. apply rotate_request_wf, projected_wf, (lwf_q _ _ HL). Qed.
Lemma k_wf : requests_wf s (sz_kv z * sz_hd z) ks.
Proof using Hbatch HL HX. apply rotate_request_wf, projected_wf, (lwf_k _ _ HL). Qed.
Lemma v_wf : requests_wf s (sz_kv z * sz_hd z) vs.
Proof using HL HX. apply projected_wf, (lwf_v _ _ HL). Qed.

Context (c : cache) (Hc : cache_ok c).
Notation mixed := (mix_wf attend attend1 z w Hz page s Hbatch c qs ks vs Hc q_wf k_wf v_wf).

Lemma ref_attention_wf : requests_wf s hidden (ref_attention attend z table L c X).
Proof using Hz Hbatch HL Hc HX Headwise0. apply (lin_wf s _ hidden), mixed. apply (lwf_o _ _ HL). Qed.

Lemma attention_ranks :
  LlamaAttention_forward torch_empty_flat uninit (self_attn (shard_layer z w rope L))
    (replicate (Z.to_nat w) (hid s hidden (normed L X)))
    (batch_params config page s positions) (Some <$> shard_caches z w c)
  = Ok (replicate (Z.to_nat w) (hid s hidden (ref_attention attend z table L c X)),
        Some <$> shard_caches z w (extended z page s c ks vs)).
Proof using All.
  destruct (hidden_w z w Hz) as [EH EHw]. destruct (kv_hd_w z w Hz) as [EK EKw].
  unfold LlamaAttention_forward. cbn [self_attn q_proj k_proj v_proj o_proj rotary_emb attn shard_layer].
  rewrite (column_shards_forward z w Hz s _ _ _ hidden _ (lwf_q _ _ HL)) by lia.
  rewrite (column_shards_forward z w Hz s _ _ _ hidden _ (lwf_k _ _ HL)) by lia.
  rewrite (column_shards_forward z w Hz s _ _ _ hidden _ (lwf_v _ _ HL)) by lia.
  rewrite zip_ranges, mapM_res_fmap.
  rewrite (mapM_res_total _ (λ r, (col_shard (hid s hidden qs) (hidden / w) r,
    col_shard (hid s (sz_kv z * sz_hd z) ks) (sz_kv z * sz_hd z / w) r))).
  2:{ intros r Hr%elem_of_py_range. apply rotary_rank; [done|apply projected_wf, (lwf_q _ _ HL)|apply projected_wf, (lwf_k _ _ HL)]. }
  rewrite Ok_bind. unfold shard_caches. rewrite <-list_fmap_compose, !zip_ranges, mapM_res_fmap.
  rewrite (mapM_res_total _ (λ r, (col_shard (hid s hidden (ref_mix attend z c qs ks vs)) (hidden / w) r,
      Some (shard_cache n r (extended z page s c ks vs))))).
  2:{ intros r Hr%elem_of_py_range.
      apply (mix_rank attend attend1); [done..|apply q_wf|apply k_wf|apply v_wf|done]. }
  rewrite Ok_bind, <-!list_fmap_compose. unfold compose. cbn [fst snd].
  rewrite (row_shards_forward z w Hz s _ _ _ _ (lwf_o _ _ HL)); [done|lia|by apply (hidden_nonneg z w)|apply mixed].
Qed.

Notation after_attention := (λ d, add_rows (X d) (ref_attention attend z table L c X d)).

Lemma after_attention_wf : requests_wf s hidden after_attention.
Proof using Hz Hbatch HL Hc HX Headwise0. apply add_rows_wf; [done|apply ref_attention_wf]. Qed.

Lemma post_normed_wf :
  requests_wf s hidden (λ d, norm_row (lw_post_norm L) <$> after_attention d).
Proof using Hz Hbatch HL Hc HX Headwise0.
  apply (requests_map s hidden); [|apply after_attention_wf]. intros r Hr.
  rewrite norm_row_len; [done|]. rewrite Hr. apply (lwf_post_norm _ _ HL).
Qed.

Lemma mlp_out_wf :
  requests_wf s hidden (λ d, mlp_row L <$> (norm_row (lw_post_norm L) <$> after_attention d)).
Proof using Hz Hbatch HL Hc HX Headwise0.
  apply (requests_map s hidden); [|apply post_normed_wf]. intros r _.
  by apply (lin_len _ (sz_inner z)), (lwf_down _ _ HL).
Qed.

Lemma ref_layer_rows d :
  ref_layer attend z table L c X d
  = add_rows (after_attention d) (mlp_row L <$> (norm_row (lw_post_norm L) <$> after_attention d)).
Proof using. unfold ref_layer. by rewrite <-list_fmap_compose. Qed.

Lemma ref_layer_wf : requests_wf s hidden (ref_layer attend z table L c X).
Proof using Hz Hbatch HL Hc HX Headwise0.
  intros d Hd. rewrite ref_layer_rows.
  exact (add_rows_wf s hidden _ _ after_attention_wf mlp_out_wf d Hd).
Qed.

(** A layer of the model is the reference layer, and leaves the ranks with
    their parts of the new cache. *)
Lemma layer_ranks :
  LlamaDecoderLayer_forward torch_empty_flat uninit (shard_layer z w rope L)
    (replicate (Z.to_nat w) (hid s hidden X)) (batch_params config page s positions)
    (Some <$> shard_caches z w c)
  = Ok (replicate (Z.to_nat w) (hid s hidden (ref_layer attend z table L c X)),
        Some <$> shard_caches z w (extended z page s c ks vs)).
Proof using All.
  unfold LlamaDecoderLayer_forward.
  change (input_layernorm (shard_layer z w rope L)) with (lw_input_norm L).
  change (post_attention_layernorm (shard_layer z w rope L)) with (lw_post_norm L).
  rewrite norm_ranks. change (hid s hidden (λ d, _ <$> X d)) with (hid s hidden (normed L X)).
  rewrite attention_ranks, Ok_bind, add_ranks.
  2:{ intros d Hd. exact (requests_same_len s _ _ _ d HX ref_attention_wf Hd). }
  rewrite norm_ranks, (mlp_ranks z w Hz s rope L _ HL post_normed_wf), Ok_bind, add_ranks.
  2:{ intros d Hd. exact (requests_same_len s _ _ _ d after_attention_wf mlp_out_wf Hd). }
  do 3 f_equal. apply hid_ext. intros d _. by rewrite ref_layer_rows.
Qed.
End layer.

Lemma llama_laws : layer_laws z page s (layer_wf z) (ref_layer attend z table) (ref_k z table) (ref_v (V := V)) (ref_q z table).
Proof using Hz Hbatch Headwise0.
  split; intros.
  - by apply ref_layer_wf.
  - by apply q_wf.
  - by apply k_wf.
  - by apply v_wf.
Qed.

(** *** The layers *)

Notation rep := (replicate (Z.to_nat w)).

Lemma ref_caches_ok Ls cs X :
  Forall (layer_wf z) Ls → Forall cache_ok cs → requests_wf s hidden X →
  Forall cache_ok (ref_caches attend z table page s Ls cs X).
Proof using Hz Hbatch Headwise0. apply (stack_caches_ok z w Hz page s _ _ _ _ _ llama_laws). Qed.

Lemma ref_caches_pages Ls cs X d :
  Forall (layer_wf z) Ls → Forall cache_ok cs → requests_wf s hidden X → d ∈ s →
  (λ c, paged_kv c (block_ids d) (context_len d)) <$> ref_caches attend z table page s Ls cs X
  = ref_pages attend z table Ls cs X d.
Proof using Hz Hpage Hbatch Headwise0.
  apply (stack_caches_pages z w Hz page Hpage s Hbatch _ _ _ _ _ llama_laws).
Qed.

Lemma ref_caches_frame Ls cs X :
  len Ls = len cs → Forall (layer_wf z) Ls → Forall cache_ok cs → requests_wf s hidden X →
  Forall2 (λ c c', ∀ x, x ∉ batch_slots page s → pc_slots c' !! x = pc_slots c !! x)
    cs (ref_caches attend z table page s Ls cs X).
Proof using Hz Hpage Hbatch Headwise0.
  apply (stack_caches_frame z w Hz page s Hbatch _ _ _ _ _ llama_laws).
Qed.

Lemma run_layers_ranks Ls cs X :
  len Ls = len cs → Forall (layer_wf z) Ls → Forall cache_ok cs → requests_wf s hidden X →
  run_layers torch_empty_flat uninit (batch_params config page s positions)
    (Some (shard_caches z w <$> cs)) (rep (hid s hidden X)) (py_enumerate (shard_layer z w rope <$> Ls))
  = Ok (rep (hid s hidden (ref_layers attend z table Ls cs X)),
        (λ c, Some <$> shard_caches z w c) <$> ref_caches attend z table page s Ls cs X).
Proof using All.
  intros Hlen HL Hcs HX. unfold run_layers, py_enumerate. rewrite len_fmap.
  refine (stack_ranks z w page s (layer_wf z) (shard_layer z w rope) _ _ _ _ llama_laws _ _
    [] Ls cs X [] Hlen HL Hcs HX).
  intros L c X' i acc caches HL' Hc HX' Hi. unfold run_layer, layer_cache. rewrite Hi. simpl.
  by rewrite layer_ranks.
Qed.

(** *** The whole model *)

Section model.
Context (M : model_weights V) (cs : list cache).
Hypothesis (HM : model_wf z M) (Hlen : len (mw_layers M) = len cs) (Hcs : Forall cache_ok cs).
Hypothesis (Hne : ∀ d, d ∈ s → 1 ≤ input_len d).

Notation normed_out := (λ d, norm_row (mw_norm M) <$> ref_layers attend z table (mw_layers M) cs (embed z M) d).

Lemma embed_wf : requests_wf s hidden (embed z M).
Proof using Hz Hbatch HM TorchMatLaws0 ScalarZero0.
  destruct (mwf_embed _ _ HM) as (Hwf & <- & Hn). by apply (embed_rows_wf z w Hz page).
Qed.

Lemma embed_ranks :
  VocabParallelEmbedding_forward (embed_tokens (model (shard_model z w rope M)))
    (concat (input_ids <$> s))
  = Ok (rep (hid s hidden (embed z M))).
Proof using Hz HM TorchMatLaws0 ScalarZero0.
  destruct (mwf_embed _ _ HM) as (Hwf & <- & Hn). by apply (embedding_ranks z w Hz).
Qed.

Lemma out_wf : requests_wf s hidden normed_out.
Proof using Hz Hbatch Headwise0 HM Hcs TorchMatLaws0 ScalarZero0.
  apply (requests_map s hidden); [|apply (stack_wf z page s _ _ _ _ _ llama_laws);
    [apply (mwf_layers _ _ HM)|done|apply embed_wf]].
  intros r Hr. rewrite norm_row_len; [done|]. rewrite Hr. apply (mwf_norm _ _ HM).
Qed.

Lemma select_ranks :
  mapM (λ t, mat_index t ((λ x, x - 1) <$> drop 1 (cumsum0 (input_len <$> s)))) (rep (hid s hidden normed_out))
  = Ok (rep (Mat hidden ((λ d, default [] (last (normed_out d))) <$> s))).
Proof using Hz Hbatch Headwise0 HM Hcs Hne TorchMatLaws0 ScalarZero0.
  rewrite (mapM_res_total _ (λ _, Mat hidden ((λ d, default [] (last (normed_out d))) <$> s))).
  - by rewrite fmap_replicate.
  - intros t [-> _]%elem_of_replicate. unfold mat_index.
    by rewrite (selected_rows s hidden _ out_wf Hne).
Qed.

Lemma model_ranks :
  LlamaForCausalLM_forward torch_empty_flat uninit (shard_model z w rope M)
    (concat (input_ids <$> s)) (batch_params config page s positions)
    (Some (shard_caches z w <$> cs))
  = Ok (rep (Mat (sz_vocab z) (ref_logits attend z table M cs <$> s)),
        (λ c, Some <$> shard_caches z w c)
          <$> ref_caches attend z table page s (mw_layers M) cs (embed z M)).
Proof using All.
  unfold LlamaForCausalLM_forward, LlamaModel_forward. rewrite embed_ranks, Ok_bind.
  change (layers (model (shard_model z w rope M))) with (shard_layer z w rope <$> mw_layers M).
  rewrite (run_layers_ranks _ _ _ Hlen (mwf_layers _ _ HM) Hcs embed_wf), !Ok_bind.
  cbn [fst snd ip_cu_seqlens_q batch_params].
  change (norm (model (shard_model z w rope M))) with (mw_norm M).
  rewrite norm_ranks, select_ranks, Ok_bind.
  change (lm_head (shard_model z w rope M)) with (column w true (mw_head M, None)).
  rewrite (column_gather_forward z w Hz _ _ _ _ (mwf_head _ _ HM) (so_vocab_w _ _ Hz)).
  f_equal. f_equal. f_equal. rewrite F_linear_spec. unfold map_rows. cbn [rows].
  destruct (mwf_head _ _ HM) as (_ & _ & Hn & _). rewrite Hn. f_equal.
  by rewrite <-list_fmap_compose.
Qed.
End model.
End attention.
