(* ===== verification/ModelInit.v ===== *)
(** * What the constructors of the Llama model build

    [LlamaForCausalLM.__init__] on all ranks, [ModelLoading]'s starting point: the
    shards of one model of initial weights, of the sizes of the configuration. *)
From stdpp Require Import strings.
From S2P Require Import Prelude ParallelUtils Tensor TensorParallel.
From S2P Require Import FlashInfer Batch PagedAttention Triton Rotary Activations Heads Llama ModelSpec LlamaSpec.
Import TensorParallel.Mappings TensorParallel.Layers.

#[local] Opaque py_range.

(** The sizes of a configuration. *)
Definition llama_sizes {V} (c : LlamaConfig V) : sizes := {|
  sz_kv := num_key_value_heads c;
  sz_group := num_attention_heads c / num_key_value_heads c;
  sz_hd := hidden_size c / num_attention_heads c;
  sz_inner := intermediate_size c; sz_vocab := vocab_size c |}.

(** What the constructor asserts, with sizes that are positive and that [w] ranks
    can divide. *)
Record llama_config_ok {V} (w : Z) (c : LlamaConfig V) : Prop := {
  lc_sizes : sizes_ok (llama_sizes c) w;
  lc_group : num_attention_heads c `mod` num_key_value_heads c = 0;
  lc_heads : hidden_size c `mod` num_attention_heads c = 0;
  lc_inner : 0 < intermediate_size c;
  lc_layers : 0 ≤ num_hidden_layers c;
}.

Section init.
Context {V : Type} `{!Scalar V} `{!TorchMat V} `{!TorchMatLaws V} `{!Floats V} `{!TorchFunctional V}.
Context `{!NormFloats V}.
Context (torch_empty : Z → Z → mat V) (init_method : mat V → mat V) (version : Z * Z).
Context (w : Z).

(** [torch.empty] and the initializers give matrices of the shapes asked for. *)
Record init_laws : Prop := {
  il_empty r c : 0 ≤ r → 0 ≤ c →
    mat_wf (torch_empty r c) ∧ nrows (torch_empty r c) = r ∧ cols (torch_empty r c) = c;
  il_init m : mat_wf m →
    mat_wf (init_method m) ∧ nrows (init_method m) = nrows m ∧ cols (init_method m) = cols m;
}.
Hypothesis (Hinit : init_laws).

Definition initial (out inp : Z) : mat V := init_method (torch_empty out inp).
Notation zeros k := ((λ _, szero) <$> py_range 0 k).
Definition initial_params (bias : bool) (inp out : Z) : params (V := V) :=
  (initial out inp, if bias then Some (zeros out) else None).

Lemma initial_wf bias inp out : 0 ≤ inp → 0 ≤ out → linear_wf (initial_params bias inp out) inp out.
Proof using Hinit.
  intros Hi Ho. destruct (il_empty Hinit out inp Ho Hi) as (Hwf & Hn & Hc).
  destruct (il_init Hinit _ Hwf) as (Hwf' & Hn' & Hc').
  split_and!; simpl; [done|unfold initial; congruence|unfold initial; congruence|].
  intros b. destruct bias; [|done]. intros [= <-]. rewrite len_fmap. by apply len_range.
Qed.

Lemma block_zeros (s r : Z) : 0 ≤ r < w → 0 ≤ s → block (zeros (w * s)) s r = zeros s.
Proof using.
  intros Hr Hs. unfold block. apply list_eq. intros i.
  destruct (decide (Z.of_nat i < s)).
  - rewrite lookup_py_slice by lia. rewrite !list_lookup_fmap, !lookup_py_range by nia. done.
  - assert (len (block (zeros (w * s)) s r) = s) as Hl.
    { apply (len_block _ _ w); [done|done|]. rewrite len_fmap. apply len_range. nia. }
    unfold len, block in Hl. rewrite !lookup_ge_None_2; [done|..]; rewrite ?length_fmap, ?length_py_range; lia.
Qed.

Lemma column_linear_Ok bias gather inp out :
  0 < w → 0 ≤ inp → 0 < out → out = w * (out / w) →
  column_linear torch_empty w inp out bias gather init_method
  = Ok (column w gather (initial_params bias inp out)).
Proof using Hinit TorchMatLaws0.
  intros Hw Hi Ho Hout. destruct (initial_wf bias inp out Hi ltac:(lia)) as (_ & _ & Hn & _). simpl in Hn.
  unfold column_linear, column. simpl. rewrite Hn.
  rewrite (mapM_res_total _ (λ r, (row_shard (initial out inp) (out / w) r,
    (λ b, block b (out / w) r) <$> (initial_params bias inp out).2))); [done|].
  intros r Hr%elem_of_py_range. assert (0 < out / w) by nia.
  rewrite Hout at 1. rewrite (column_init_Ok torch_empty init_method (initial out inp) w (out / w) inp r);
    [|done|done|by rewrite <-Hout|by rewrite <-Hout].
  do 2 f_equal. destruct bias; [|done]. simpl. f_equal. rewrite Hout at 2. symmetry.
  by apply block_zeros; [|lia].
Qed.

Lemma row_linear_Ok bias inp out :
  0 < w → 0 < inp → 0 ≤ out → inp = w * (inp / w) →
  row_linear torch_empty w inp out bias true init_method
  = Ok (row_bias w (initial_params bias inp out)).
Proof using Hinit TorchMatLaws0.
  intros Hw Hi Ho Hinp. destruct (initial_wf bias inp out ltac:(lia) Ho) as (Hwf & Hc & _ & _). simpl in Hc.
  unfold row_linear, row_bias. simpl. rewrite Hc.
  rewrite (mapM_res_total _ (λ r, (col_shard (initial out inp) (inp / w) r, (initial_params bias inp out).2)));
    [done|].
  intros r Hr%elem_of_py_range. assert (0 < inp / w) by nia.
  rewrite Hinp at 1. rewrite (row_init_Ok torch_empty init_method (initial out inp) w (inp / w) out r);
    [done|done|done|by rewrite <-Hinp|done|by rewrite <-Hinp].
Qed.

(** *** The Llama model *)

Section llama.
Context (c : LlamaConfig V) (Hc : llama_config_ok w c).
Context (qkv_bias : bool) (act : V → V) (R : RotaryEmbedding V).
Hypothesis (Hact : ACT2FN version (hidden_act c) = Ok act).
Hypothesis (HR : RotaryEmbedding_init (rope c) (of_Z 10000) = Ok R).
Notation z := (llama_sizes c).

Definition initial_layer : layer_weights V := {|
  lw_q := initial_params qkv_bias (sz_hidden z) (sz_hidden z);
  lw_k := initial_params qkv_bias (sz_hidden z) (sz_kv z * sz_hd z);
  lw_v := initial_params qkv_bias (sz_hidden z) (sz_kv z * sz_hd z);
  lw_o := initial (sz_hidden z) (sz_hidden z);
  lw_gate := initial (sz_inner z) (sz_hidden z); lw_up := initial (sz_inner z) (sz_hidden z);
  lw_down := initial (sz_hidden z) (sz_inner z); lw_act := act;
  lw_input_norm := LlamaRMSNorm_init (hidden_size c) (rms_norm_eps c);
  lw_post_norm := LlamaRMSNorm_init (hidden_size c) (rms_norm_eps c) |}.
Definition initial_model : model_weights V := {|
  mw_embed := initial (sz_vocab z) (sz_hidden z);
  mw_layers := (λ _, initial_layer) <$> py_range 0 (num_hidden_layers c);
  mw_norm := LlamaRMSNorm_init (hidden_size c) (rms_norm_eps c);
  mw_head := initial (sz_vocab z) (sz_hidden z) |}.

Lemma config_heads :
  0 < num_key_value_heads c ∧ 0 < num_attention_heads c ∧
  num_attention_heads c = sz_kv z * sz_group z ∧ hidden_size c = sz_hidden z.
Proof using Hc.
  pose proof (so_kv _ _ (lc_sizes _ _ Hc)) as Hkv. pose proof (so_group _ _ (lc_sizes _ _ Hc)) as Hg.
  pose proof (lc_group _ _ Hc). pose proof (lc_heads _ _ Hc) as Hh. simpl in Hkv, Hg.
  assert (num_attention_heads c = sz_kv z * sz_group z) as E.
  { simpl. rewrite <-Z_div_exact_2; lia. }
  assert (0 < num_attention_heads c) as Hpos by (rewrite E; simpl; lia).
  split_and!; [done..|]. unfold sz_hidden. rewrite <-E. simpl. apply Z_div_exact_2; lia.
Qed.

Lemma hidden_parts : 0 < sz_hidden z ∧ sz_hidden z = w * (sz_hidden z / w).
Proof using Hc.
  destruct (hidden_w z w (lc_sizes _ _ Hc)) as [E Ew].
  pose proof (kv_pos z w (lc_sizes _ _ Hc)). pose proof (so_group _ _ (lc_sizes _ _ Hc)).
  pose proof (so_hd _ _ (lc_sizes _ _ Hc)). pose proof (so_w _ _ (lc_sizes _ _ Hc)).
  rewrite Ew. split; [|done]. rewrite E. repeat apply Z.mul_pos_pos; lia.
Qed.

Lemma kv_parts : 0 < sz_kv z * sz_hd z ∧ sz_kv z * sz_hd z = w * (sz_kv z * sz_hd z / w).
Proof using Hc.
  destruct (kv_hd_w z w (lc_sizes _ _ Hc)) as [E Ew]. pose proof (so_kv _ _ (lc_sizes _ _ Hc)).
  pose proof (so_hd _ _ (lc_sizes _ _ Hc)). rewrite Ew. split; [nia|done].
Qed.

Lemma initial_layer_wf : layer_wf z initial_layer.
Proof using Hinit Hc.
  destruct hidden_parts as [Hh _]. destruct kv_parts as [Hk _]. destruct config_heads as (_ & _ & _ & EH).
  pose proof (so_inner _ _ (lc_sizes _ _ Hc)).
  assert (∀ e, len (rn_weight (LlamaRMSNorm_init (hidden_size c) e)) = sz_hidden z) as Hn.
  { intros e. simpl. rewrite len_fmap, EH. apply len_range. lia. }
  split; try apply Hn; first [apply (initial_wf qkv_bias); lia | apply (initial_wf false); lia].
Qed.

Lemma initial_model_wf : model_wf z initial_model.
Proof using Hinit Hc.
  destruct hidden_parts as [Hh _]. destruct config_heads as (_ & _ & _ & EH).
  pose proof (so_vocab _ _ (lc_sizes _ _ Hc)).
  destruct (initial_wf false (sz_hidden z) (sz_vocab z)) as (Hwf & Hcols & Hn & _); [lia..|].
  split; simpl in *.
  - done.
  - apply Forall_fmap, Forall_forall. intros i _. apply initial_layer_wf.
  - rewrite len_fmap, EH. apply len_range. lia.
  - apply (initial_wf false); lia.
Qed.

Lemma attention_init :
  LlamaAttention_init torch_empty qkv_bias init_method w c
  = Ok (self_attn (shard_layer z w R initial_layer)).
Proof using Hinit Hc HR TorchMatLaws0.
  destruct config_heads as (Hkv & Hheads & EQ & EH). destruct hidden_parts as [Hh Hhw].
  destruct kv_parts as [Hk Hkw]. pose proof (so_w _ _ (lc_sizes _ _ Hc)) as Hw.
  pose proof (so_kv_w _ _ (lc_sizes _ _ Hc)) as Ekv. simpl in Ekv.
  destruct (total_heads z w (lc_sizes _ _ Hc)) as [_ Enq].
  assert (∀ x y, 0 < y → x `mod` y = 0 → divides x y = Ok true) as Hdiv.
  { intros x y Hy Hm. unfold divides. by rewrite py_mod_pos, Hm by done. }
  unfold LlamaAttention_init.
  rewrite (Hdiv (hidden_size c) (num_attention_heads c)) by (done || apply (lc_heads _ _ Hc)).
  rewrite (Hdiv (num_attention_heads c) (num_key_value_heads c)) by (done || apply (lc_group _ _ Hc)).
  rewrite (Hdiv (num_attention_heads c) w); [|done|].
  2:{ rewrite EQ, <-Enq. rewrite Z.mul_comm. apply Z.mod_mul. lia. }
  rewrite (Hdiv (num_key_value_heads c) w); [|done|rewrite Ekv, Z.mul_comm; apply Z.mod_mul; lia].
  cbn [py_assert]. rewrite !Ok_bind.
  assert (num_attention_heads c * (hidden_size c / num_attention_heads c) = sz_hidden z) as ->.
  { rewrite EQ at 1. unfold sz_hidden. simpl. lia. }
  change (num_key_value_heads c * (hidden_size c / num_attention_heads c)) with (sz_kv z * sz_hd z).
  rewrite EH, !column_linear_Ok, (row_linear_Ok false), HR by (done || lia). rewrite !Ok_bind.
  unfold shard_layer. cbn [self_attn lw_q lw_k lw_v lw_o initial_layer].
  assert (num_attention_heads c / w = sz_kv z / w * sz_group z) as ->.
  { rewrite EQ, <-Enq, Z.mul_comm. apply Z.div_mul. lia. }
  rewrite <-EH. done.
Qed.

Lemma mlp_init :
  LlamaMLP_init torch_empty version init_method w c = Ok (mlp (shard_layer z w R initial_layer)).
Proof using Hinit Hc Hact TorchMatLaws0.
  destruct config_heads as (_ & _ & _ & EH). destruct hidden_parts as [Hh Hhw].
  pose proof (so_w _ _ (lc_sizes _ _ Hc)) as Hw. pose proof (so_inner_w _ _ (lc_sizes _ _ Hc)).
  pose proof (lc_inner _ _ Hc). unfold LlamaMLP_init.
  change (intermediate_size c) with (sz_inner z) in *.
  rewrite EH, !column_linear_Ok, (row_linear_Ok false), Hact by (done || lia). done.
Qed.

(** The constructor, on [w] ranks. *)
Lemma llama_init :
  LlamaForCausalLM_init torch_empty version qkv_bias init_method w c
  = Ok (shard_model z w R initial_model).
Proof using Hinit Hc Hact HR TorchMatLaws0.
  destruct config_heads as (_ & _ & _ & EH). destruct hidden_parts as [Hh Hhw].
  pose proof (so_w _ _ (lc_sizes _ _ Hc)) as Hw. pose proof (so_vocab _ _ (lc_sizes _ _ Hc)).
  pose proof (so_vocab_w _ _ (lc_sizes _ _ Hc)) as Hv.
  destruct (initial_wf false (sz_hidden z) (sz_vocab z)) as (_ & _ & Hn & _); [lia..|]. simpl in Hn.
  unfold LlamaForCausalLM_init, LlamaModel_init.
  change (vocab_size c) with (sz_vocab z).
  rewrite (mapM_res_total _ (λ r, {| vpe_vocab_start_index := r * (sz_vocab z / w);
    vpe_vocab_end_index := (r + 1) * (sz_vocab z / w);
    vpe_weight := row_shard (initial (sz_vocab z) (sz_hidden z)) (sz_vocab z / w) r |})).
  2:{ intros r Hr%elem_of_py_range. assert (0 < sz_vocab z / w) by nia.
      rewrite Hv at 1. rewrite EH. apply vocab_init_Ok; try done; by rewrite <-Hv. }
  rewrite Ok_bind.
  rewrite (mapM_res_total _ (λ _, shard_layer z w R initial_layer)).
  2:{ intros i _. unfold LlamaDecoderLayer_init. by rewrite attention_init, mlp_init. }
  rewrite !Ok_bind, EH, column_linear_Ok by (done || lia). rewrite Ok_bind.
  unfold shard_model, initial_model. cbn [mw_embed mw_layers mw_norm mw_head].
  rewrite <-list_fmap_compose, EH. done.
Qed.
End llama.
End init.
