(* ===== verification/LlamaTheorems.v ===== *)
(** * What the Llama model guarantees

    The theorems on [LlamaForCausalLM_forward] of [Llama]: it computes the
    reference of [LlamaSpec] on every number of ranks, a request does not see
    the others of its batch, and the witnesses on a model over the integers. *)
From stdpp Require Import strings.
From S2P Require Import Prelude ParallelUtils Tensor TensorParallel.
From S2P Require Import FlashInfer Batch PagedAttention Triton Rotary Activations Heads Llama ModelSpec LlamaSpec.
Import TensorParallel.Mappings TensorParallel.Layers.

#[local] Opaque py_range.

Section theorems.
Context {V : Type} `{!Scalar V} `{!TorchMat V} `{!TorchMatLaws V} `{!ScalarZero V} `{!DotSplit V}.
Context `{!Floats V} `{!NormFloats V}.
Context `{!FlashInfer (head_row V) (head_row V) (head_row V) (head_row V)}.
Context (attend : head_row V → list (option (head_row V * head_row V)) → head_row V).
Context (attend1 : list V → list (option (list V * list V)) → list V).
Context `{!FlashInferLaws attend} `{!Headwise attend attend1}.
Context (torch_empty_flat : Z → list V) (uninit : head_row V).
Context (z : sizes) (config : ModelConfig) (page : Z) (rope : RotaryEmbedding V).
Context (M : model_weights V) (cs : list (paged_cache (head_row V) (head_row V))).
Notation table := (re_cos_sin_cached rope).

(** A model with a cache per layer, on [w] ranks. *)
Record deployment (w : Z) : Prop := {
  dp_empty : ∀ k, 0 ≤ k → len (torch_empty_flat k) = k;
  dp_sizes : sizes_ok z w;
  dp_page : 0 < page < 2 ^ 31;
  dp_model : model_wf z M;
  dp_layers : len (mw_layers M) = len cs;
  dp_caches : Forall (cache_ok z page) cs;
}.

(** Requests with at least one new token, slots of their own, and positions the
    table covers. *)
Record servable (ins : list InferInput) : Prop := {
  sv_fits : batch_fits ins;
  sv_wf : ∀ d, d ∈ ins → input_wf page d;
  sv_tokens : ∀ d, d ∈ ins → 1 ≤ input_len d;
  sv_pages : writes_apart page ins;
  sv_rope : rope_ok z rope ins;
}.

Lemma sorted_servable ins : servable ins → servable (sort_inputs ins).
Proof using.
  intros [Hf Hwf Ht Hp [? ? ? Hr]]. pose proof (sort_key_perm (λ x, - input_len x) ins) as Hperm.
  fold (sort_inputs ins) in Hperm. split.
  - by rewrite Hperm.
  - intros d. rewrite Hperm. apply Hwf.
  - intros d. rewrite Hperm. apply Ht.
  - by eapply writes_apart_perm.
  - split; try done. intros d. rewrite Hperm. apply Hr.
Qed.

Lemma one_servable ins d : servable ins → d ∈ ins → servable [d].
Proof using.
  intros Hs Hd. pose proof Hs as [Hf Hwf Ht Hp [? ? ? Hr]].
  split; try (intros d' ->%list_elem_of_singleton; auto); [by eapply batch_fits_one| |].
  - by eapply writes_apart_one.
  - split; try done. intros d' ->%list_elem_of_singleton. auto.
Qed.

Lemma batch_of ins : servable ins → batch_ok page (sort_inputs ins).
Proof using.
  intros [_ Hwf _ Hp _]%sorted_servable. split; [apply sort_key_sorted|done|done].
Qed.
Notation forward w M caches := (λ ids params,
  LlamaForCausalLM_forward torch_empty_flat uninit (shard_model z w rope M) ids params
    (Some caches)).
Notation new_caches s := (ref_caches attend z table page s (mw_layers M) cs (embed z M)).
Notation logits_of s := (Mat (sz_vocab z) (ref_logits attend z table M cs <$> s)).

(** The batch of [_make_inputs], and the model on it. *)
Lemma batch_forward w ins :
  deployment w → servable ins →
  let s := sort_inputs ins in
  let ids := concat (input_ids <$> s) in
  let params := batch_params config page s (concat (positions_of <$> s)) in
  make_inputs config page true ins = Ok (s, (ids, params)) ∧
  forward w M (shard_caches z w <$> cs) ids params
  = Ok (replicate (Z.to_nat w) (logits_of s), (λ c, Some <$> shard_caches z w c) <$> new_caches s).
Proof using FlashInferLaws0 Headwise0 TorchMatLaws0 ScalarZero0 DotSplit0.
  intros [He Hz Hp HM Hl Hc] Hins s ids params. pose proof (sorted_servable ins Hins) as Hs.
  pose proof (batch_of ins Hins) as Hb. fold s in Hs, Hb. split.
  - rewrite (make_inputs_Ok config page Hp) by apply Hins. fold s.
    rewrite append_plan_positions; [done|done|]. apply Forall_forall, Hs.
  - apply (model_ranks attend attend1); try done; apply Hs.
Qed.

Lemma embed_shape w ins :
  deployment w → servable ins → requests_wf (sort_inputs ins) (sz_hidden z) (embed z M).
Proof using TorchMatLaws0 ScalarZero0.
  intros [He Hz Hp HM Hl Hc] Hins. by apply (embed_wf z w Hz page _ (batch_of ins Hins)).
Qed.

(** What the batch leaves. *)
Lemma llama_batch_forward w ins :
  deployment w → servable ins →
  let s := sort_inputs ins in
  ∃ ids params new,
    make_inputs config page true ins = Ok (s, (ids, params)) ∧
    forward w M (shard_caches z w <$> cs) ids params
    = Ok (replicate (Z.to_nat w) (logits_of s), (λ c, Some <$> shard_caches z w c) <$> new) ∧
    length new = length cs ∧ Forall (cache_ok z page) new ∧
    (∀ d, d ∈ ins → (λ c, paged_kv c (block_ids d) (context_len d)) <$> new
                    = ref_pages attend z table (mw_layers M) cs (embed z M) d) ∧
    Forall2 (λ c c', ∀ x, x ∉ batch_slots page ins → pc_slots c' !! x = pc_slots c !! x)
      cs new.
Proof using FlashInferLaws0 Headwise0 TorchMatLaws0 ScalarZero0 DotSplit0.
  intros Hd Hins s. destruct (batch_forward w ins Hd Hins) as [E Ef].
  pose proof (embed_shape w ins Hd Hins) as HX. pose proof (batch_of ins Hins) as Hb.
  destruct Hd as [He Hz Hp HM Hl Hc]. pose proof (mwf_layers _ _ HM) as HL.
  assert (s ≡ₚ ins) as Hperm by apply sort_key_perm.
  eexists _, _, _. split; [exact E|]. split; [exact Ef|]. split_and!.
  - apply stack_caches_length. unfold len in Hl. lia.
  - by apply (ref_caches_ok attend attend1 z w Hz page rope s Hb).
  - intros d Hd. rewrite <-Hperm in Hd.
    by apply (ref_caches_pages attend attend1 z w Hz page Hp rope s Hb).
  - pose proof (ref_caches_frame attend attend1 z w Hz page Hp rope s Hb _ _ _ Hl HL Hc HX) as Hf.
    eapply Forall2_impl; [exact Hf|]. intros c c' Hcc x Hx. apply Hcc.
    unfold batch_slots in *. by rewrite Hperm.
Qed.

(** C5: the sharded Llama model on the batch [_make_inputs] builds is a serial
    transformer on each request alone.  On every number of ranks the call
    succeeds, every rank has the logits of the requests' last tokens in the order
    of the sorted batch, and the ranks' caches are the parts of new caches in
    which the pages of a request hold, layer by layer, its old keys and values
    followed by those of its new tokens, and everything else is unchanged.
    Requests may share the pages of a common prefix. *)
Theorem llama_forward_is_reference w ins :
  deployment w → servable ins →
  let s := sort_inputs ins in
  ∃ ids params new,
    make_inputs config page true ins = Ok (s, (ids, params)) ∧
    forward w M (shard_caches z w <$> cs) ids params
    = Ok (replicate (Z.to_nat w) (logits_of s), (λ c, Some <$> shard_caches z w c) <$> new) ∧
    Forall (cache_ok z page) new ∧
    (∀ d, d ∈ ins → (λ c, paged_kv c (block_ids d) (context_len d)) <$> new
                    = ref_pages attend z table (mw_layers M) cs (embed z M) d) ∧
    Forall2 (λ c c', ∀ x, x ∉ batch_slots page ins → pc_slots c' !! x = pc_slots c !! x)
      cs new.
Proof using FlashInferLaws0 Headwise0 TorchMatLaws0 ScalarZero0 DotSplit0.
  intros Hd Hs s. destruct (llama_batch_forward w ins Hd Hs) as (ids & params & new & E & Ef & _ & H).
  by exists ids, params, new.
Qed.

(** One rank holds the whole cache. *)
Lemma whole_cache (c : paged_cache (head_row V) (head_row V)) : cache_ok z page c → shard_caches z 1 c = [c].
Proof using.
  intros [_ Hh]. unfold shard_caches. rewrite (py_range_cons 0 1), py_range_empty by lia.
  csimpl. f_equal. destruct c as [p m]. unfold shard_cache.
  simpl in *. f_equal. apply map_eq. intros k. rewrite lookup_fmap.
  destruct (m !! k) as [[a b]|] eqn:E; [|done]. simpl. f_equal.
  destruct (Hh _ _ E) as [Ha Hb]. unfold shard_kv. simpl in *. rewrite Z.div_1_r.
  by rewrite !block_all.
Qed.

Lemma one_rank w : deployment w → deployment 1.
Proof using.
  intros [He [? ? ? ? ? ? ? ? ? ?] Hp HM Hl Hc]. split; try done.
  split; rewrite ?Z.div_1_r; (done || lia).
Qed.


(** C7: a request does not see the others of its batch.  The row of logits it
    gets in a batch and what its pages hold afterwards are those of the call
    with the request alone on the same caches. *)
Theorem llama_batch_isolation w ins (i : nat) d :
  deployment w → servable ins → sort_inputs ins !! i = Some d →
  ∃ ids params ids1 params1 y row new new1,
    make_inputs config page true ins = Ok (sort_inputs ins, (ids, params)) ∧
    make_inputs config page true [d] = Ok ([d], (ids1, params1)) ∧
    forward w M (shard_caches z w <$> cs) ids params
    = Ok (replicate (Z.to_nat w) y, (λ c, Some <$> shard_caches z w c) <$> new) ∧
    forward w M (shard_caches z w <$> cs) ids1 params1
    = Ok (replicate (Z.to_nat w) (Mat (sz_vocab z) [row]),
          (λ c, Some <$> shard_caches z w c) <$> new1) ∧
    rows y !! i = Some row ∧
    (λ c, paged_kv c (block_ids d) (context_len d)) <$> new
    = (λ c, paged_kv c (block_ids d) (context_len d)) <$> new1.
Proof using FlashInferLaws0 Headwise0 TorchMatLaws0 ScalarZero0 DotSplit0.
  intros Hd Hins Hi. pose proof (list_elem_of_lookup_2 _ _ _ Hi) as Hin.
  assert (d ∈ ins) as Hdin by (revert Hin; unfold sort_inputs; by rewrite sort_key_perm).
  pose proof (one_servable ins d Hins Hdin) as Hins1.
  destruct (batch_forward w ins Hd Hins) as [E Ef].
  destruct (batch_forward w [d] Hd Hins1) as [E1 Ef1].
  pose proof (embed_shape w ins Hd Hins) as HX. pose proof (embed_shape w [d] Hd Hins1) as HX1.
  pose proof (batch_of ins Hins) as Hb. pose proof (batch_of [d] Hins1) as Hb1.
  destruct Hd as [He Hz Hp HM Hl Hc]. pose proof (mwf_layers _ _ HM) as HL.
  change (sort_inputs [d]) with [d] in *.
  eexists _, _, _, _, _, _, _, _. split; [exact E|]. split; [exact E1|]. split; [exact Ef|].
  split; [exact Ef1|]. split; [cbn [rows]; by rewrite list_lookup_fmap, Hi|].
  rewrite (ref_caches_pages attend attend1 z w Hz page Hp rope _ Hb _ _ _ d HL Hc HX Hin).
  rewrite (ref_caches_pages attend attend1 z w Hz page Hp rope [d] Hb1 _ _ _ d HL Hc HX1);
    [done|by left].
Qed.
End theorems.

(** ** A model over the integers

    Two key heads of two dimensions on two ranks, one layer, a vocabulary of
    four, and a batch of a decoding request and one in its prefill. *)

#[local] Existing Instance floats_Z.
#[local] Instance norm_Z : NormFloats Z := {|
  srsqrt := λ _, 1; smean := λ _, 0; to_float := λ x, x |}.

(** Each head: the values weighted by the inner products. *)
Definition attend1_Z (q : list Z) (kvs : list (option (list Z * list Z))) : list Z :=
  (λ i, sumZ ((λ kv, match kv with
                     | Some (k, v) => sumZ (zip_with Z.mul q k) * default 0 (v !! Z.to_nat i)
                     | None => 0 end) <$> kvs)) <$> py_range 0 (len q).
#[local] Instance heads_Z : FlashInfer (head_row Z) (head_row Z) (head_row Z) (head_row Z) :=
  reference_flashinfer (headwise attend1_Z).
#[local] Instance heads_Z_laws : FlashInferLaws (headwise attend1_Z) :=
  reference_flashinfer_laws (headwise attend1_Z).
#[local] Instance heads_Z_headwise : Headwise (headwise attend1_Z) attend1_Z.
Proof.
  apply headwise_spec. intros q kvs. unfold attend1_Z. rewrite len_fmap.
  apply len_range, len_nonneg.
Qed.

Definition sizes_Z : sizes := {| sz_kv := 2; sz_group := 1; sz_hd := 2; sz_inner := 2; sz_vocab := 4 |}.
Definition eye : mat Z := Mat 4 [[1; 0; 0; 0]; [0; 1; 0; 0]; [0; 0; 1; 0]; [0; 0; 0; 1]].
Definition ones : LlamaRMSNorm (V := Z) := {| rn_eps := 0; rn_weight := [1; 1; 1; 1] |}.
Definition layer_Z : layer_weights Z := {|
  lw_q := (eye, Some [1; 0; 0; 0]); lw_k := (eye, None); lw_v := (eye, None); lw_o := eye;
  lw_gate := Mat 4 [[1; 1; 0; 0]; [0; 0; 1; 1]]; lw_up := Mat 4 [[1; 0; 0; 0]; [0; 0; 0; 1]];
  lw_down := Mat 2 [[1; 0]; [0; 1]; [1; 1]; [0; 2]]; lw_act := λ x, Z.max 0 x;
  lw_input_norm := ones; lw_post_norm := ones |}.
Definition model_Z : model_weights Z := {|
  mw_embed := Mat 4 [[1; 0; 2; 0]; [0; 1; 0; 1]; [1; 1; 0; 0]; [2; 0; 0; 1]];
  mw_layers := [layer_Z]; mw_norm := ones; mw_head := eye |}.
Definition rope_Z : RotaryEmbedding Z := {| re_rotary_dim := 2; re_head_dim := 2;
  re_cos_sin_cached := Mat 4 [[1; 1; 0; 0]; [0; 0; 1; 1]; [-1; -1; 0; 0]] |}.
Definition decoding : InferInput := {| seq_id := 7; input_ids := [1]; input_len := 1;
  filled_token_len := 2; context_len := 3; block_ids := [4; 1] |}.
Definition starting : InferInput := {| seq_id := 8; input_ids := [3; 0; 2]; input_len := 3;
  filled_token_len := 0; context_len := 3; block_ids := [0; 3] |}.
Definition caches_Z : list (paged_cache (head_row Z) (head_row Z)) :=
  [PagedCache 2 {[ (4, 0) := ([[1; 0]; [2; 1]], [[1; 1]; [0; 3]]);
                   (4, 1) := ([[0; 1]; [1; 1]], [[2; 0]; [1; 1]]) ]}].

Lemma linear_Z (W : mat Z) b inp out :
  bool_decide (mat_wf W ∧ cols W = inp ∧ nrows W = out) = true →
  default out (len <$> b) = out → linear_wf (W, b) inp out.
Proof.
  intros (Hwf & Hc & Hn)%bool_decide_eq_true Hb. split_and!; [done..|].
  intros b' E. simpl in E. by subst b.
Qed.

Lemma deployment_Z : deployment empty_Z sizes_Z 2 model_Z caches_Z 2.
Proof.
  split; try done.
  - intros k Hk. unfold empty_Z. rewrite len_fmap. by apply len_range.
  - split; [by split_and!; apply (bool_decide_unpack _)| |done|by apply linear_Z].
    constructor; [|constructor]. split; try done; by apply linear_Z.
  - constructor; [|constructor]. split; [done|]. intros k kv Hk. cbn [pc_slots] in Hk.
    apply lookup_insert_Some in Hk as [[_ <-]|[_ Hk]]; [done|].
    by apply lookup_singleton_Some in Hk as [_ <-].
Qed.

Lemma servable_Z : servable sizes_Z 2 rope_Z [decoding; starting].
Proof.
  assert (∀ d, d ∈ [decoding; starting] → d = decoding ∨ d = starting) as Hin by set_solver.
  split.
  - by split; apply (bool_decide_unpack _); vm_compute.
  - by intros d [->| ->]%Hin.
  - intros d [->| ->]%Hin; simpl; lia.
  - by apply (bool_decide_unpack _); vm_compute.
  - split; [done|by apply (bool_decide_unpack _)|done|]. by intros d [->| ->]%Hin.
Qed.

Definition config_Z : ModelConfig := {| mc_num_layers := 1; mc_num_heads := 1;
  mc_num_kv_heads := 1; mc_head_dim := 2; mc_dtype := float32 |}.
Definition run_Z (w : Z) (ids : list Z) (params : InputParams) :=
  LlamaForCausalLM_forward empty_Z [] (shard_model sizes_Z w rope_Z model_Z) ids params
    (Some (shard_caches sizes_Z w <$> caches_Z)).
Definition logits_Z : mat Z := Mat 4 [[-5; 4; 0; 0]; [-3; 1; -1; -2]].

Example llama_forward_is_reference_witness :
  ∃ ids params new,
    make_inputs config_Z 2 true [decoding; starting] = Ok ([starting; decoding], (ids, params)) ∧
    run_Z 2 ids params
    = Ok ([logits_Z; logits_Z], (λ c, Some <$> shard_caches sizes_Z 2 c) <$> new).
Proof.
  destruct (llama_forward_is_reference (headwise attend1_Z) attend1_Z empty_Z [] sizes_Z config_Z 2
    rope_Z model_Z caches_Z 2 [decoding; starting] deployment_Z servable_Z)
    as (ids & params & new & E1 & E2 & _).
  exists ids, params, new. split; [exact E1|]. exact E2.
Defined.


Example llama_batch_isolation_witness :
  ∃ ids1 params1 row new1,
    make_inputs config_Z 2 true [decoding] = Ok ([decoding], (ids1, params1)) ∧
    run_Z 2 ids1 params1
    = Ok ([Mat 4 [row]; Mat 4 [row]], (λ c, Some <$> shard_caches sizes_Z 2 c) <$> new1).
Proof.
  destruct (llama_batch_isolation (headwise attend1_Z) attend1_Z empty_Z [] sizes_Z
    config_Z 2 rope_Z model_Z caches_Z 2 [decoding; starting] 1 decoding deployment_Z servable_Z
    eq_refl) as (ids & params & ids1 & params1 & y & row & new & new1 & _ & E1 & _ & E2 & _).
  exists ids1, params1, row, new1. split; [exact E1|exact E2].
Defined.
