(* ===== verification/DenseLlama.v ===== *)
(** * Llama, densely

    The Llama transformer on a whole text, without batching, pages or caches, and
    that the serial reference of [LlamaSpec] computes it on the requests that hold
    the text piece by piece: [llama_decoder] keeps the contract of [Decoder]. *)
From S2P Require Import Prelude ParallelUtils Tensor TensorParallel.
From S2P Require Import FlashInfer Batch PagedAttention Triton Rotary Activations Heads Llama ModelSpec.
From S2P Require Import LlamaSpec LlamaTheorems Causal Decoder.

#[local] Opaque py_range.

Section dense.
Context {V : Type} `{!Scalar V} `{!TorchMat V} `{!Floats V} `{!NormFloats V}.
Context (attend : head_row V → list (option (head_row V * head_row V)) → head_row V).
Notation rows := (list (list V)).
Context (z : sizes) (rope : mat V).

Definition dense_normed (L : layer_weights V) (Y : rows) : rows := norm_row (lw_input_norm L) <$> Y.
(** Row [p] is rotated at position [p]. *)
Definition dense_rotate (rs : rows) : rows :=
  zip_with (rotate_row rope (sz_hd z) (sz_hd z / 2)) (py_range 0 (len rs)) rs.
Definition dense_q (L : layer_weights V) (Y : rows) : rows := dense_rotate (lin (lw_q L) <$> dense_normed L Y).
Definition dense_k (L : layer_weights V) (Y : rows) : rows := dense_rotate (lin (lw_k L) <$> dense_normed L Y).
Definition dense_v (L : layer_weights V) (Y : rows) : rows := lin (lw_v L) <$> dense_normed L Y.

Definition dense_layer (L : layer_weights V) (Y : rows) : rows :=
  let mixed := dense_mix attend z (dense_q L Y) (dense_kv z (dense_k L Y) (dense_v L Y)) in
  let h := add_rows Y (lin (lw_o L, None) <$> mixed) in
  add_rows h (mlp_row L ∘ norm_row (lw_post_norm L) <$> h).

(** The rows of a text, and the logits after its last token. *)
Definition text_rows (M : model_weights V) (T : list Z) : rows :=
  row_if (mw_embed M) 0 (sz_vocab z) <$> T.
Definition llama_logits (M : model_weights V) (T : list Z) : list V :=
  lin (mw_head M, None)
    (default [] (last (norm_row (mw_norm M) <$> dense_out dense_layer (mw_layers M) (text_rows M T)))).
Definition llama_pages (M : model_weights V) (T : list Z) : list (list (head_row V * head_row V)) :=
  dense_pages z dense_layer dense_k dense_v (mw_layers M) (text_rows M T).

Lemma dense_rotate_take n rs : dense_rotate (take n rs) = take n (dense_rotate rs).
Proof using. unfold dense_rotate. by rewrite zip_with_take, len_take_range. Qed.

Lemma dense_rotate_length rs : length (dense_rotate rs) = length rs.
Proof using. unfold dense_rotate, len. rewrite length_zip_with, length_py_range. lia. Qed.

Lemma rotate_request_drop d rs :
  0 ≤ filled_token_len d → context_len d = len rs →
  rotate_request z rope d (drop (Z.to_nat (filled_token_len d)) rs)
  = drop (Z.to_nat (filled_token_len d)) (dense_rotate rs).
Proof using.
  intros Hf Hc. unfold rotate_request, dense_rotate, positions_of.
  rewrite zip_with_drop, <-drop_range, Z2Nat.id, Hc by done. done.
Qed.

Lemma dense_q_length L Y : length (dense_q L Y) = length Y.
Proof using. unfold dense_q, dense_normed. by rewrite dense_rotate_length, !length_fmap. Qed.
Lemma dense_k_length L Y : length (dense_k L Y) = length Y.
Proof using. unfold dense_k, dense_normed. by rewrite dense_rotate_length, !length_fmap. Qed.
Lemma dense_v_length L Y : length (dense_v L Y) = length Y.
Proof using. unfold dense_v, dense_normed. by rewrite !length_fmap. Qed.

(** The layers of Llama are causal. *)
Lemma llama_causal :
  causal_laws z (ref_layer attend z rope) (ref_k z rope) (ref_v (V := V)) dense_layer dense_k dense_v.
Proof using.
  assert (∀ L d (X : requests V) Y, X d = drop (Z.to_nat (filled_token_len d)) Y →
    normed L X d = drop (Z.to_nat (filled_token_len d)) (dense_normed L Y)) as Hn.
  { intros L d X Y E. unfold normed, dense_normed. by rewrite E, fmap_drop. }
  assert (∀ L n Y, dense_normed L (take n Y) = take n (dense_normed L Y)) as Ht
    by (intros; apply fmap_take).
  split; intros.
  - unfold dense_layer. rewrite add_rows_length; rewrite ?length_fmap;
      (rewrite add_rows_length; rewrite ?length_fmap, ?dense_mix_length, ?dense_q_length; done).
  - apply dense_k_length.
  - apply dense_v_length.
  - unfold dense_layer, dense_q, dense_k, dense_v.
    rewrite !Ht, !fmap_take, !dense_rotate_take, dense_kv_take, dense_mix_take.
    by rewrite fmap_take, add_rows_take, fmap_take, add_rows_take.
  - unfold dense_k. by rewrite Ht, fmap_take, dense_rotate_take.
  - unfold dense_v. by rewrite Ht, fmap_take.
  - unfold ref_k, dense_k. rewrite (Hn _ _ _ _ H1), fmap_drop.
    apply rotate_request_drop; [lia|]. unfold dense_normed. by rewrite !len_fmap.
  - unfold ref_v, dense_v. by rewrite (Hn _ _ _ _ H1), fmap_drop.
  - unfold ref_layer, ref_attention.
    rewrite (ref_mix_dense attend z c _ _ _ d (dense_q L Y) (dense_k L Y) (dense_v L Y)); [..|done].
    + by rewrite H1, fmap_drop, add_rows_drop, fmap_drop, add_rows_drop.
    + unfold ref_q, dense_q. rewrite (Hn _ _ _ _ H1), fmap_drop.
      apply rotate_request_drop; [lia|]. unfold dense_normed. by rewrite !len_fmap.
    + unfold ref_k, dense_k. rewrite (Hn _ _ _ _ H1), fmap_drop.
      apply rotate_request_drop; [lia|]. unfold dense_normed. by rewrite !len_fmap.
    + unfold ref_v, dense_v. by rewrite (Hn _ _ _ _ H1), fmap_drop.
Qed.
End dense.

(** ** The contract *)

Section decoder.
Context {V : Type} `{!Scalar V} `{!TorchMat V} `{!TorchMatLaws V} `{!ScalarZero V} `{!DotSplit V}.
Context `{!Floats V} `{!NormFloats V}.
Context `{!FlashInfer (head_row V) (head_row V) (head_row V) (head_row V)}.
Context (attend : head_row V → list (option (head_row V * head_row V)) → head_row V).
Context (attend1 : list V → list (option (list V * list V)) → list V).
Context `{!FlashInferLaws attend} `{!Headwise attend attend1}.
Context (torch_empty_flat : Z → list V) (uninit : head_row V).
Context (z : sizes) (config : ModelConfig) (page : Z) (rope : RotaryEmbedding V).
Context (M : model_weights V).
Notation table := (re_cos_sin_cached rope).

Definition llama_decoder (w : Z) : Decoder V := {|
  dc_forward := LlamaForCausalLM_forward torch_empty_flat uninit (shard_model z w rope M);
  dc_logits := llama_logits attend z table M;
  dc_pages := llama_pages attend z table M;
  dc_max_len := nrows table |}.

(** A model and a table of rotations that fit. *)
Record llama_ok (w : Z) : Prop := {
  lo_empty : ∀ k, 0 ≤ k → len (torch_empty_flat k) = k;
  lo_sizes : sizes_ok z w;
  lo_page : 0 < page < 2 ^ 31;
  lo_model : model_wf z M;
  lo_head_dim : re_head_dim rope = sz_hd z;
  lo_wf : mat_wf table;
  lo_cols : cols table = 2 * sz_hd z;
}.

Lemma text_rows_take n T : text_rows z M (take n T) = take n (text_rows z M T).
Proof using. apply fmap_take. Qed.
Lemma text_rows_length T : length (text_rows z M T) = length T.
Proof using. apply length_fmap. Qed.

(** The reference on a request that continues a text. *)
Lemma ref_text cs d T :
  continues d T → 1 ≤ input_len d →
  holds cs (block_ids d) (filled_token_len d) (llama_pages attend z table M T) →
  ref_logits attend z table M cs d = llama_logits attend z table M (py_slice T 0 (context_len d)) ∧
  ref_pages attend z table (mw_layers M) cs (embed z M) d
  = (λ kvs : list (head_row V * head_row V), Some <$> take (Z.to_nat (context_len d)) kvs)
      <$> llama_pages attend z table M T.
Proof using.
  intros Hct Hpos Hc.
  destruct (stack_text z _ _ _ _ _ _ (llama_causal attend z table) (text_rows z M)
    text_rows_take text_rows_length (mw_layers M) cs (embed z M) d T Hct) as [E1 E2]; [|exact Hc|].
  { unfold embed, text_rows. by rewrite (continues_ids _ _ Hct), fmap_drop. }
  split; [|exact E2]. unfold ref_logits, llama_logits, ref_layers. rewrite E1, fmap_drop.
  f_equal. f_equal. apply last_drop.
  rewrite length_fmap, (dense_out_length z _ _ _ _ _ _ (llama_causal attend z table)), text_rows_length.
  pose proof (continues_len _ _ Hct) as Hlen. destruct Hct. unfold len in Hlen. lia.
Qed.

Lemma batchable_servable w ins :
  llama_ok w → batchable page (nrows table) ins → servable z page rope ins.
Proof using. intros [] []. by split. Qed.

(** Llama keeps the contract. *)
Lemma llama_serves w :
  llama_ok w → DecoderLaws (llama_decoder w) z w page config (length (mw_layers M)).
Proof using FlashInferLaws0 Headwise0 TorchMatLaws0 ScalarZero0 DotSplit0.
  intros Hok. pose proof Hok as [He Hz Hp HM Hhd Hwf Hcols].
  pose proof (llama_causal attend z table) as Hlaws. split.
  - done.
  - apply Hz.
  - apply Hz.
  - intros T n. simpl. unfold llama_pages.
    by rewrite text_rows_take, (dense_pages_take z _ _ _ _ _ _ Hlaws).
  - intros T. apply dense_pages_length.
  - intros T. rewrite <-(text_rows_length T). apply (dense_pages_lengths z _ _ _ _ _ _ Hlaws).
  - intros c Hc Hs. split; [done|]. intros k kv. by rewrite Hs, lookup_empty.
  - intros cs ins texts Hl Hcs Hins Htexts.
    pose proof (batchable_servable w ins Hok Hins) as Hsv.
    assert (deployment torch_empty_flat z page M cs w) as Hd.
    { split; try done. unfold len. by rewrite Hl. }
    destruct (llama_batch_forward attend attend1 torch_empty_flat uninit z config page rope M cs w ins
      Hd Hsv) as (ids & params & new & E & Ef & Hlen & Hok' & Hpages & Hframe).
    assert (∀ d, d ∈ ins →
      ref_logits attend z table M cs d
        = llama_logits attend z table M (py_slice (texts d) 0 (context_len d)) ∧
      ref_pages attend z table (mw_layers M) cs (embed z M) d
        = (λ kvs : list (head_row V * head_row V), Some <$> take (Z.to_nat (context_len d)) kvs)
            <$> llama_pages attend z table M (texts d)) as Href.
    { intros d Hin. destruct (Htexts d Hin). apply ref_text; [done| |done].
      by apply Hins. }
    exists ids, params, new. split; [exact E|]. split_and!; [|congruence|done| |done].
    + etransitivity; [exact Ef|]. do 4 f_equal. apply fmap_list_ext. intros d Hin. apply Href.
      revert Hin. unfold sort_inputs. by rewrite sort_key_perm.
    + intros d Hin. unfold holds. etransitivity; [exact (Hpages d Hin)|]. by apply Href.
Qed.
End decoder.
