(* ===== verification/Opt.v ===== *)
(** * The OPT model

    [models/opt.py], with the conventions of [Llama].  [torch.nn.LayerNorm] is a
    parameter on rows; [nn.Embedding] and [nn.Linear] are [F_embedding] and
    [F_linear] on weights every rank holds whole. *)
From stdpp Require Import strings.
From S2P Require Import Prelude ParallelUtils Tensor TensorParallel.
From S2P Require Import FlashInfer Batch PagedAttention Triton Rotary Activations Heads Llama.
Import TensorParallel.Mappings TensorParallel.Layers.

(** Normalization of a row, with the weight and bias of [elementwise_affine]. *)
Class LayerNormOps (V : Type) := {
  F_layer_norm : option (list V * list V) → list V → list V;
}.
Class LayerNormLaws (V : Type) `{LayerNormOps V} : Prop := {
  len_layer_norm p row :
    (∀ w b, p = Some (w, b) → len w = len row ∧ len b = len row) → len (F_layer_norm p row) = len row;
}.

Module OPT.

Record OPTConfig := {
  hidden_size : Z;
  ffn_dim : Z;
  num_attention_heads : Z;
  max_position_embeddings : Z;
  num_hidden_layers : Z;
  vocab_size : Z;
  word_embed_proj_dim : Z;
  enable_bias : bool;
  do_layer_norm_before : bool;
  layer_norm_elementwise_affine : bool;
  _remove_final_layer_norm : bool;
  activation_function : string;
}.

Section opt.
Context {V : Type} `{!Scalar V} `{!TorchMat V} `{!Floats V} `{!TorchFunctional V} `{!LayerNormOps V}.
Context `{!FlashInfer (head_row V) (head_row V) (head_row V) (head_row V)}.
Notation cache := (paged_cache (head_row V) (head_row V)).

(** Memory that is allocated and not written; the initial weight of an
    [nn.Embedding] or [nn.Linear]. *)
Context (torch_empty nn_weight : Z → Z → mat V) (uninit : head_row V).

(** *** OPTPositionalEmbedding *)

Record OPTPositionalEmbedding := { offset : Z; pe_weight : mat V }.
Definition OPTPositionalEmbedding_init (num_embeddings embedding_dim : Z) : OPTPositionalEmbedding :=
  {| offset := 2; pe_weight := nn_weight (num_embeddings + 2) embedding_dim |}.
Definition OPTPositionalEmbedding_forward (self : OPTPositionalEmbedding) (positions : list Z)
    : res (mat V) :=
  F_embedding ((λ p, p + offset self) <$> positions) (pe_weight self).

(** [nn.LayerNorm] *)
Notation LayerNorm := (option (list V * list V)).
Definition LayerNorm_init (normalized_shape : Z) (elementwise_affine : bool) : LayerNorm :=
  if elementwise_affine
  then Some ((λ _, of_Z 1) <$> py_range 0 normalized_shape, (λ _, szero) <$> py_range 0 normalized_shape)
  else None.
Definition LayerNorm_forward (self : LayerNorm) (x : mat V) : mat V :=
  map_rows (cols x) (F_layer_norm self) x.

(** *** OPTAttention *)

Record OPTAttention := {
  q_proj : ColumnParallelLinear (V := V);
  k_proj : ColumnParallelLinear (V := V);
  v_proj : ColumnParallelLinear (V := V);
  out_proj : RowParallelLinear (V := V);
  attn : Attention;
}.

Definition OPTAttention_init (init_method : mat V → mat V) (tp_size : Z) (config : OPTConfig)
    : res OPTAttention :=
  let hidden_size := hidden_size config in
  let num_heads := num_attention_heads config in
  d ← divides hidden_size num_heads; _ ← py_assert d;
  d ← divides num_heads tp_size; _ ← py_assert d;
  let head_dim := hidden_size / num_heads in
  _ ← py_require (head_dim * num_heads =? hidden_size) ValueError;
  q_proj ← column_linear torch_empty tp_size hidden_size hidden_size (enable_bias config) false init_method;
  k_proj ← column_linear torch_empty tp_size hidden_size hidden_size (enable_bias config) false init_method;
  v_proj ← column_linear torch_empty tp_size hidden_size hidden_size (enable_bias config) false init_method;
  out_proj ← row_linear torch_empty tp_size hidden_size hidden_size (enable_bias config) true init_method;
  Ok {| q_proj := q_proj; k_proj := k_proj; v_proj := v_proj; out_proj := out_proj;
        attn := Attention_init (num_heads / tp_size) head_dim None |}.

Definition OPTAttention_forward (self : OPTAttention) (hidden_states : list (mat V))
    (input_params : InputParams) (kv_cache : list (option cache))
    : res (list (mat V) * list (option cache)) :=
  let q := ColumnParallelLinear_forward (q_proj self) hidden_states in
  let k := ColumnParallelLinear_forward (k_proj self) hidden_states in
  let v := ColumnParallelLinear_forward (v_proj self) hidden_states in
  outs ← mapM (λ '((q, k), (v, c)),
           Attention_module_forward uninit (attn self) q k v input_params c)
           (zip (zip q k) (zip v kv_cache));
  attn_output ← RowParallelLinear_forward (out_proj self) outs.*1;
  Ok (attn_output, outs.*2).

(** *** OPTDecoderLayer *)

Record OPTDecoderLayer := {
  self_attn : OPTAttention;
  norm_before : bool;
  activation_fn : V → V;
  self_attn_layer_norm : LayerNorm;
  fc1 : ColumnParallelLinear (V := V);
  fc2 : RowParallelLinear (V := V);
  layer_final_norm : LayerNorm;
}.

Definition OPTDecoderLayer_init (torch_version : Z * Z) (init_method : mat V → mat V) (tp_size : Z)
    (config : OPTConfig) : res OPTDecoderLayer :=
  self_attn ← OPTAttention_init init_method tp_size config;
  activation_fn ← ACT2FN torch_version (activation_function config);
  fc1 ← column_linear torch_empty tp_size (hidden_size config) (ffn_dim config) (enable_bias config) false
          init_method;
  fc2 ← row_linear torch_empty tp_size (ffn_dim config) (hidden_size config) (enable_bias config) true
          init_method;
  Ok {| self_attn := self_attn; norm_before := do_layer_norm_before config;
        activation_fn := activation_fn;
        self_attn_layer_norm := LayerNorm_init (hidden_size config) (layer_norm_elementwise_affine config);
        fc1 := fc1; fc2 := fc2;
        layer_final_norm := LayerNorm_init (hidden_size config) (layer_norm_elementwise_affine config) |}.

Definition OPTDecoderLayer_forward (self : OPTDecoderLayer) (hidden_states : list (mat V))
    (input_params : InputParams) (kv_cache : list (option cache))
    : res (list (mat V) * list (option cache)) :=
  let residual := hidden_states in
  let hidden_states := if norm_before self
                       then LayerNorm_forward (self_attn_layer_norm self) <$> hidden_states
                       else hidden_states in
  '(hidden_states, kv_cache) ← OPTAttention_forward (self_attn self) hidden_states input_params kv_cache;
  let hidden_states := zip_with mat_add residual hidden_states in
  let hidden_states := if norm_before self then hidden_states
                       else LayerNorm_forward (self_attn_layer_norm self) <$> hidden_states in
  let residual := hidden_states in
  let hidden_states := if norm_before self
                       then LayerNorm_forward (layer_final_norm self) <$> hidden_states
                       else hidden_states in
  let hidden_states := ColumnParallelLinear_forward (fc1 self) hidden_states in
  let hidden_states := mat_map (activation_fn self) <$> hidden_states in
  hidden_states ← RowParallelLinear_forward (fc2 self) hidden_states;
  let hidden_states := zip_with mat_add residual hidden_states in
  let hidden_states := if norm_before self then hidden_states
                       else LayerNorm_forward (layer_final_norm self) <$> hidden_states in
  Ok (hidden_states, kv_cache).

(** *** OPTDecoder *)

Record OPTDecoder := {
  embed_tokens : list (VocabParallelEmbedding (V := V));
  embed_positions : OPTPositionalEmbedding;
  project_out : option (mat V);
  project_in : option (mat V);
  final_layer_norm : option LayerNorm;
  layers : list OPTDecoderLayer;
}.

Definition OPTDecoder_init (torch_version : Z * Z) (init_method : mat V → mat V) (tp_size : Z)
    (config : OPTConfig) : res OPTDecoder :=
  embed_tokens ← mapM (λ r, VocabParallelEmbedding_init torch_empty tp_size r (vocab_size config)
                              (word_embed_proj_dim config) init_method) (py_range 0 tp_size);
  layers ← mapM (λ _, OPTDecoderLayer_init torch_version init_method tp_size config)
             (py_range 0 (num_hidden_layers config));
  let projects := negb (word_embed_proj_dim config =? hidden_size config) in
  Ok {| embed_tokens := embed_tokens;
        embed_positions := OPTPositionalEmbedding_init (max_position_embeddings config) (hidden_size config);
        project_out := if projects then Some (nn_weight (word_embed_proj_dim config) (hidden_size config))
                       else None;
        project_in := if projects then Some (nn_weight (hidden_size config) (word_embed_proj_dim config))
                      else None;
        final_layer_norm :=
          if do_layer_norm_before config && negb (_remove_final_layer_norm config)
          then Some (LayerNorm_init (hidden_size config) (layer_norm_elementwise_affine config)) else None;
        layers := layers |}.

(** [m(x) if m is not None else x] on every rank. *)
Definition if_some {A} (f : A → mat V → mat V) (m : option A) (xs : list (mat V)) : list (mat V) :=
  match m with Some m => f m <$> xs | None => xs end.
Definition nn_linear (weight x : mat V) : mat V := F_linear x weight None.

(** One iteration of the loop over the layers, as in [Llama]. *)
Definition run_layer (input_params : InputParams) (kv_caches : option (list (list cache)))
    (st : list (mat V) * list (list (option cache))) (e : Z * OPTDecoderLayer)
    : res (list (mat V) * list (list (option cache))) :=
  let '(hidden_states, new_caches) := st in
  let '(i, layer) := e in
  kv_cache ← layer_cache hidden_states kv_caches i;
  out ← OPTDecoderLayer_forward layer hidden_states input_params kv_cache;
  Ok (out.1, new_caches ++ [out.2]).

Definition OPTDecoder_forward (self : OPTDecoder) (input_ids : list Z) (input_params : InputParams)
    (kv_caches : option (list (list cache))) : res (list (mat V) * list (list (option cache))) :=
  input_embeds ← VocabParallelEmbedding_forward (embed_tokens self) input_ids;
  pos_embeds ← OPTPositionalEmbedding_forward (embed_positions self) (ip_position_ids input_params);
  let input_embeds := if_some nn_linear (project_in self) input_embeds in
  let hidden_states := (λ e, mat_add e pos_embeds) <$> input_embeds in
  out ← foldM (run_layer input_params kv_caches) (hidden_states, []) (py_enumerate (layers self));
  let hidden_states := if_some LayerNorm_forward (final_layer_norm self) out.1 in
  let hidden_states := if_some nn_linear (project_out self) hidden_states in
  Ok (hidden_states, out.2).

(** *** OPTModel and OPTForCausalLM *)

Record OPTModel := { decoder : OPTDecoder }.
Definition OPTModel_init (torch_version : Z * Z) (init_method : mat V → mat V) (tp_size : Z)
    (config : OPTConfig) : res OPTModel :=
  Build_OPTModel <$> OPTDecoder_init torch_version init_method tp_size config.
Definition OPTModel_forward (self : OPTModel) := OPTDecoder_forward (decoder self).

Record OPTForCausalLM := {
  model : OPTModel;
  lm_head : ColumnParallelLinear (V := V);
}.

Definition OPTForCausalLM_init (torch_version : Z * Z) (init_method : mat V → mat V) (tp_size : Z)
    (config : OPTConfig) : res OPTForCausalLM :=
  model ← OPTModel_init torch_version init_method tp_size config;
  lm_head ← column_linear torch_empty tp_size (word_embed_proj_dim config) (vocab_size config) false true
              init_method;
  Ok {| model := model; lm_head := lm_head |}.

Definition OPTForCausalLM_forward (self : OPTForCausalLM) (input_ids : list Z)
    (input_params : InputParams) (kv_caches : option (list (list cache)))
    : res (list (mat V) * list (list (option cache))) :=
  out ← OPTDecoder_forward (decoder (model self)) input_ids input_params kv_caches;
  let cu_output_lens := drop 1 (ip_cu_seqlens_q input_params) in
  let indices := (λ x, x - 1) <$> cu_output_lens in
  hidden_states ← mapM (λ t, mat_index t indices) out.1;
  Ok (ColumnParallelLinear_forward (lm_head self) hidden_states, out.2).
End opt.
End OPT.
