(* ===== verification/OptSpec.v ===== *)
(** * The OPT model computes the reference transformer

    As [LlamaSpec] and [LlamaTheorems] for [Opt]: learned positions, layer
    normalization before or after each block, biases, optional projections into
    and out of the hidden size. *)
From stdpp Require Import strings.
From S2P Require Import Prelude ParallelUtils Tensor TensorParallel.
From S2P Require Import FlashInfer Batch PagedAttention Triton Rotary Activations Heads Llama ModelSpec Opt.
Import TensorParallel.Mappings TensorParallel.Layers OPT.

#[local] Opaque py_range.

(** ** Weights and the reference *)

Notation LayerNorm V := (option (list V * list V)).

Section weights.
Context {V : Type}.

(** The whole weights and biases of the layers. *)
Record opt_layer := {
  ol_q : params (V := V); ol_k : params (V := V); ol_v : params (V := V); ol_out : params (V := V);
  ol_fc1 : params (V := V); ol_fc2 : params (V := V); ol_act : V → V; ol_before : bool;
  ol_norm1 : LayerNorm V; ol_norm2 : LayerNorm V;
}.
Record opt_model := {
  om_embed : mat V; om_positions : mat V;
  om_project_in : option (mat V); om_project_out : option (mat V);
  om_layers : list opt_layer;
  om_norm : option (LayerNorm V);
  om_head : mat V;
}.
End weights.
Arguments opt_layer : clear implicits.
Arguments opt_model : clear implicits.

Section reference.
Context {V : Type} `{!Scalar V} `{!TorchMat V} `{!LayerNormOps V}.
Context (attend : head_row V → list (option (head_row V * head_row V)) → head_row V).
Notation cache := (paged_cache (head_row V) (head_row V)).
Notation requests := (requests V).
Context (z : sizes).

Definition norm_if (b : bool) (n : LayerNorm V) (rs : list (list V)) : list (list V) :=
  if b then F_layer_norm n <$> rs else rs.

Definition opt_in (L : opt_layer V) (X : requests) (d : InferInput) : list (list V) :=
  norm_if (ol_before L) (ol_norm1 L) (X d).
Definition opt_q (L : opt_layer V) (X : requests) (d : InferInput) := lin (ol_q L) <$> opt_in L X d.
Definition opt_k (L : opt_layer V) (X : requests) (d : InferInput) := lin (ol_k L) <$> opt_in L X d.
Definition opt_v (L : opt_layer V) (X : requests) (d : InferInput) := lin (ol_v L) <$> opt_in L X d.

Definition opt_attention (L : opt_layer V) (c : cache) (X : requests) (d : InferInput)
    : list (list V) :=
  lin (ol_out L) <$> ref_mix attend z c (opt_q L X) (opt_k L X) (opt_v L X) d.

Definition opt_mlp_row (L : opt_layer V) (row : list V) : list V :=
  lin (ol_fc2 L) (ol_act L <$> lin (ol_fc1 L) row).

(** The rows after attention, and after the whole layer. *)
Definition opt_mid (L : opt_layer V) (c : cache) (X : requests) (d : InferInput) : list (list V) :=
  norm_if (negb (ol_before L)) (ol_norm1 L) (add_rows (X d) (opt_attention L c X d)).
Definition ref_opt_layer (L : opt_layer V) (c : cache) (X : requests) (d : InferInput)
    : list (list V) :=
  norm_if (negb (ol_before L)) (ol_norm2 L)
    (add_rows (opt_mid L c X d)
              (opt_mlp_row L <$> norm_if (ol_before L) (ol_norm2 L) (opt_mid L c X d))).

Definition opt_layers := stack_out ref_opt_layer.
Definition opt_caches := stack_caches z ref_opt_layer opt_k opt_v.
Definition opt_pages := stack_pages z ref_opt_layer opt_k opt_v.

(** [f(m, row)] where there is an [m]. *)
Definition row_if_some {A} (f : A → list V → list V) (m : option A) (r : list V) : list V :=
  match m with Some m => f m r | None => r end.
Definition project (W : mat V) : list V → list V := lin (W, None).

(** The embedded ids, projected, plus the embedded positions; an id outside the
    vocabulary is embedded as zeros. *)
Definition opt_embed (M : opt_model V) : requests := λ d,
  add_rows
    ((λ i, row_if_some project (om_project_in M) (row_if (om_embed M) 0 (sz_vocab z) i)) <$> input_ids d)
    ((λ p, default [] (rows (om_positions M) !! Z.to_nat (p + 2))) <$> positions_of d).

Definition opt_final (M : opt_model V) (row : list V) : list V :=
  row_if_some project (om_project_out M) (row_if_some F_layer_norm (om_norm M) row).
Definition opt_logits (M : opt_model V) (cs : list cache) (d : InferInput) : list V :=
  lin (om_head M, None)
    (default [] (last (opt_final M <$> opt_layers (om_layers M) cs (opt_embed M) d))).
End reference.

(** ** The model on [w] ranks *)

Section shards.
Context {V : Type} `{!Scalar V}.
Context (z : sizes) (w : Z).

Definition shard_opt_layer (L : opt_layer V) : OPTDecoderLayer := {|
  self_attn := {| q_proj := column w false (ol_q L); k_proj := column w false (ol_k L);
                  v_proj := column w false (ol_v L); out_proj := row_bias w (ol_out L);
                  attn := {| num_heads := sz_kv z / w; num_kv_heads := sz_kv z / w;
                             head_size := sz_hd z |} |};
  norm_before := ol_before L; activation_fn := ol_act L;
  self_attn_layer_norm := ol_norm1 L;
  fc1 := column w false (ol_fc1 L); fc2 := row_bias w (ol_fc2 L);
  layer_final_norm := ol_norm2 L |}.

Definition shard_opt (M : opt_model V) : OPTForCausalLM := {|
  model := {| decoder := {|
    embed_tokens := vocab_shards (om_embed M) w (sz_vocab z / w);
    embed_positions := {| offset := 2; pe_weight := om_positions M |};
    project_out := om_project_out M; project_in := om_project_in M;
    final_layer_norm := om_norm M; layers := shard_opt_layer <$> om_layers M |} |};
  lm_head := column w true (om_head M, None) |}.
End shards.

(** ** Shapes *)

Section shapes.
Context {V : Type} (z : sizes).
Notation hidden := (sz_hidden z).

Definition norm_wf (n : LayerNorm V) : Prop :=
  ∀ g b, n = Some (g, b) → len g = hidden ∧ len b = hidden.

Record opt_layer_wf (L : opt_layer V) : Prop := {
  olwf_q : linear_wf (ol_q L) hidden hidden;
  olwf_k : linear_wf (ol_k L) hidden hidden;
  olwf_v : linear_wf (ol_v L) hidden hidden;
  olwf_out : linear_wf (ol_out L) hidden hidden;
  olwf_fc1 : linear_wf (ol_fc1 L) hidden (sz_inner z);
  olwf_fc2 : linear_wf (ol_fc2 L) (sz_inner z) hidden;
  olwf_norm1 : norm_wf (ol_norm1 L);
  olwf_norm2 : norm_wf (ol_norm2 L);
}.

(** [p] is the size of the embeddings, [word_embed_proj_dim]. *)
Record opt_model_wf (p : Z) (M : opt_model V) : Prop := {
  omwf_embed : mat_wf (om_embed M) ∧ cols (om_embed M) = p ∧ nrows (om_embed M) = sz_vocab z;
  omwf_positions : mat_wf (om_positions M) ∧ cols (om_positions M) = hidden;
  omwf_in : match om_project_in M with Some W => linear_wf (W, None) p hidden | None => p = hidden end;
  omwf_out : match om_project_out M with Some W => linear_wf (W, None) hidden p | None => p = hidden end;
  omwf_layers : Forall opt_layer_wf (om_layers M);
  omwf_norm : ∀ n, om_norm M = Some n → norm_wf n;
  omwf_head : linear_wf (om_head M, None) p (sz_vocab z);
}.
End shapes.

(** ** Layers on the ranks *)

Section opt.
Context {V : Type} `{!Scalar V} `{!TorchMat V} `{!TorchMatLaws V} `{!ScalarZero V} `{!DotSplit V}.
Context `{!LayerNormOps V} `{!LayerNormLaws V}.
Context `{!FlashInfer (head_row V) (head_row V) (head_row V) (head_row V)}.
Context (attend : head_row V → list (option (head_row V * head_row V)) → head_row V).
Context (attend1 : list V → list (option (list V * list V)) → list V).
Context `{!FlashInferLaws attend} `{!Headwise attend attend1}.
Context (uninit : head_row V).
Context (z : sizes) (w : Z) (Hz : sizes_ok z w) (Hgroup : sz_group z = 1).
Context (config : ModelConfig) (page : Z) (Hpage : 0 < page < 2 ^ 31).
Context (s : list InferInput) (Hbatch : batch_ok page s).
Notation hidden := (sz_hidden z).
Notation n := (sz_kv z / w).
Notation cache := (paged_cache (head_row V) (head_row V)).
Notation cache_ok := (cache_ok z page).
Notation positions := (concat (positions_of <$> s)).
Notation rep := (replicate (Z.to_nat w)).

Lemma norm_if_wf b ln (X : requests V) :
  norm_wf z ln → requests_wf s hidden X → requests_wf s hidden (λ d, norm_if b ln (X d)).
Proof using LayerNormLaws0.
  intros Hln HX. destruct b; [|done]. apply (requests_map s hidden); [|done].
  intros r Hr. rewrite len_layer_norm; [done|]. rewrite Hr. apply Hln.
Qed.

Lemma norm_if_ranks (b : bool) ln (X : requests V) :
  (if b then LayerNorm_forward ln <$> rep (hid s hidden X) else rep (hid s hidden X))
  = rep (hid s hidden (λ d, norm_if b ln (X d))).
Proof using. destruct b; [|done]. rewrite fmap_replicate. f_equal. apply hid_map. Qed.
Lemma norm_unless_ranks (b : bool) ln (X : requests V) :
  (if b then rep (hid s hidden X) else LayerNorm_forward ln <$> rep (hid s hidden X))
  = rep (hid s hidden (λ d, norm_if (negb b) ln (X d))).
Proof using. destruct b; [done|]. rewrite fmap_replicate. f_equal. apply hid_map. Qed.

Lemma kv_hidden : sz_kv z * sz_hd z = hidden.
Proof using Hgroup. unfold sz_hidden. rewrite Hgroup. lia. Qed.

Section layer.
Context (L : opt_layer V) (X : requests V).
Hypothesis (HL : opt_layer_wf z L) (HX : requests_wf s hidden X).

Notation qs := (opt_q L X).
Notation ks := (opt_k L X).
Notation vs := (opt_v L X).

Lemma opt_in_wf : requests_wf s hidden (opt_in L X).
Proof using HL HX LayerNormLaws0. apply norm_if_wf; [apply HL|done]. Qed.

Lemma opt_q_wf : requests_wf s hidden qs.
Proof using HL HX LayerNormLaws0. apply (lin_wf s _ hidden), opt_in_wf. apply (olwf_q _ _ HL). Qed.
Lemma opt_k_wf : requests_wf s (sz_kv z * sz_hd z) ks.
Proof using HL HX LayerNormLaws0 Hgroup.
  rewrite kv_hidden. apply (lin_wf s _ hidden), opt_in_wf. apply (olwf_k _ _ HL).
Qed.
Lemma opt_v_wf : requests_wf s (sz_kv z * sz_hd z) vs.
Proof using HL HX LayerNormLaws0 Hgroup.
  rewrite kv_hidden. apply (lin_wf s _ hidden), opt_in_wf. apply (olwf_v _ _ HL).
Qed.

Context (c : cache) (Hc : cache_ok c).
Notation mixed := (mix_wf attend attend1 z w Hz page s Hbatch c qs ks vs Hc opt_q_wf opt_k_wf opt_v_wf).

Lemma opt_attention_wf : requests_wf s hidden (opt_attention attend z L c X).
Proof using All. apply (lin_wf s _ hidden), mixed. apply (olwf_out _ _ HL). Qed.

Lemma opt_attention_ranks :
  OPTAttention_forward uninit (self_attn (shard_opt_layer z w L)) (rep (hid s hidden (opt_in L X)))
    (batch_params config page s positions) (Some <$> shard_caches z w c)
  = Ok (rep (hid s hidden (opt_attention attend z L c X)),
        Some <$> shard_caches z w (extended z page s c ks vs)).
Proof using All.
  destruct (hidden_w z w Hz) as [EH EHw].
  unfold OPTAttention_forward. cbn [self_attn q_proj k_proj v_proj out_proj attn shard_opt_layer].
  rewrite (column_shards_forward z w Hz s _ _ _ hidden _ (olwf_q _ _ HL)) by lia.
  rewrite (column_shards_forward z w Hz s _ _ _ hidden _ (olwf_k _ _ HL)) by lia.
  rewrite (column_shards_forward z w Hz s _ _ _ hidden _ (olwf_v _ _ HL)) by lia.
  unfold shard_caches. rewrite <-list_fmap_compose, !zip_ranges, mapM_res_fmap.
  rewrite (mapM_res_total _ (λ r, (col_shard (hid s hidden (ref_mix attend z c qs ks vs)) (hidden / w) r,
      Some (shard_cache n r (extended z page s c ks vs))))).
  2:{ intros r Hr%elem_of_py_range.
      pose proof (mix_rank attend attend1 uninit z w Hz config page Hpage s Hbatch c qs ks vs Hc
        opt_q_wf opt_k_wf opt_v_wf r Hr) as E.
      rewrite kv_hidden, Hgroup, Z.mul_1_r in E. exact E. }
  rewrite Ok_bind, <-!list_fmap_compose. unfold compose. cbn [fst snd].
  rewrite (row_bias_forward z w Hz s _ _ _ _ (olwf_out _ _ HL));
    [done|lia|by apply (hidden_nonneg z w)|apply mixed].
Qed.

Lemma opt_mlp_ranks Y :
  requests_wf s hidden Y →
  RowParallelLinear_forward (fc2 (shard_opt_layer z w L))
    (mat_map (ol_act L) <$> ColumnParallelLinear_forward (fc1 (shard_opt_layer z w L)) (rep (hid s hidden Y)))
  = Ok (rep (hid s hidden (λ d, opt_mlp_row L <$> Y d))).
Proof using Hz HL TorchMatLaws0 DotSplit0.
  intros HY. cbn [fc1 fc2 shard_opt_layer]. pose proof (olwf_fc1 _ _ HL) as H1.
  rewrite (column_shards_forward z w Hz s _ _ _ hidden Y H1 (so_inner_w _ _ Hz)).
  rewrite <-list_fmap_compose.
  rewrite (fmap_range_ext _ (λ r, col_shard (hid s (sz_inner z)
    (λ d, fmap (M := list) (ol_act L) <$> (lin (ol_fc1 L) <$> Y d))) (sz_inner z / w) r)).
  - rewrite (row_bias_forward z w Hz s _ _ _ _ (olwf_fc2 _ _ HL) (so_inner_w _ _ Hz) (so_inner _ _ Hz)).
    + do 2 f_equal. apply hid_ext. intros d _. by rewrite <-!list_fmap_compose.
    + apply (requests_map s (sz_inner z)); [intros r Hr; by rewrite len_fmap|].
      by apply (lin_wf s _ hidden).
  - intros r _. simpl. by rewrite col_shard_map, hid_mat_map.
Qed.

Lemma opt_mid_wf : requests_wf s hidden (opt_mid attend z L c X).
Proof using All. apply norm_if_wf, add_rows_wf; [apply HL|done|apply opt_attention_wf]. Qed.

Lemma opt_out_wf :
  requests_wf s hidden
    (λ d, opt_mlp_row L <$> norm_if (ol_before L) (ol_norm2 L) (opt_mid attend z L c X d)).
Proof using All.
  apply (requests_map s hidden); [|apply norm_if_wf, opt_mid_wf; apply HL].
  intros r _. by apply (lin_len _ (sz_inner z)), (olwf_fc2 _ _ HL).
Qed.

Lemma ref_opt_layer_wf : requests_wf s hidden (ref_opt_layer attend z L c X).
Proof using All.
  apply norm_if_wf, add_rows_wf; [apply HL|apply opt_mid_wf|apply opt_out_wf].
Qed.

Lemma opt_layer_ranks :
  OPTDecoderLayer_forward uninit (shard_opt_layer z w L) (rep (hid s hidden X))
    (batch_params config page s positions) (Some <$> shard_caches z w c)
  = Ok (rep (hid s hidden (ref_opt_layer attend z L c X)),
        Some <$> shard_caches z w (extended z page s c ks vs)).
Proof using All.
  unfold OPTDecoderLayer_forward.
  change (norm_before (shard_opt_layer z w L)) with (ol_before L).
  change (self_attn_layer_norm (shard_opt_layer z w L)) with (ol_norm1 L).
  change (layer_final_norm (shard_opt_layer z w L)) with (ol_norm2 L).
  change (activation_fn (shard_opt_layer z w L)) with (ol_act L).
  rewrite (norm_if_ranks _ (ol_norm1 L) X). change (hid s hidden (λ d, norm_if _ _ (X d))) with (hid s hidden (opt_in L X)).
  rewrite opt_attention_ranks, Ok_bind, add_ranks.
  2:{ intros d Hd. exact (requests_same_len s _ _ _ d HX opt_attention_wf Hd). }
  rewrite norm_unless_ranks. change (hid s hidden (λ d, norm_if _ _ _)) with (hid s hidden (opt_mid attend z L c X)).
  rewrite norm_if_ranks, opt_mlp_ranks by (apply norm_if_wf, opt_mid_wf; apply HL).
  rewrite Ok_bind, add_ranks.
  2:{ intros d Hd. exact (requests_same_len s _ _ _ d opt_mid_wf opt_out_wf Hd). }
  by rewrite norm_unless_ranks.
Qed.
End layer.

Lemma opt_laws :
  layer_laws z page s (opt_layer_wf z) (ref_opt_layer attend z) (opt_k (V := V)) (opt_v (V := V)) (opt_q (V := V)).
Proof using All.
  split; intros.
  - by apply ref_opt_layer_wf.
  - by apply opt_q_wf.
  - by apply opt_k_wf.
  - by apply opt_v_wf.
Qed.

Lemma opt_layers_ranks Ls cs X :
  len Ls = len cs → Forall (opt_layer_wf z) Ls → Forall cache_ok cs → requests_wf s hidden X →
  foldM (OPT.run_layer uninit (batch_params config page s positions) (Some (shard_caches z w <$> cs)))
    (rep (hid s hidden X), []) (py_enumerate (shard_opt_layer z w <$> Ls))
  = Ok (rep (hid s hidden (opt_layers attend z Ls cs X)),
        (λ c, Some <$> shard_caches z w c) <$> opt_caches attend z page s Ls cs X).
Proof using All.
  intros Hlen HL Hcs HX. unfold py_enumerate. rewrite len_fmap.
  refine (stack_ranks z w page s (opt_layer_wf z) (shard_opt_layer z w) _ _ _ _ opt_laws _ _
    [] Ls cs X [] Hlen HL Hcs HX).
  intros L c X' i acc caches HL' Hc HX' Hi. unfold OPT.run_layer, layer_cache. rewrite Hi. simpl.
  by rewrite opt_layer_ranks.
Qed.

(** *** The whole model *)

Lemma project_wf (m : option (mat V)) a b (X : requests V) :
  match m with Some W => linear_wf (W, None) a b | None => a = b end →
  requests_wf s a X → requests_wf s b (λ d, row_if_some project m <$> X d).
Proof using.
  intros Hm HX. destruct m as [W|]; simpl; [by apply (lin_wf s _ a)|]. subst b.
  by apply (requests_map s a).
Qed.

Lemma project_ranks (m : option (mat V)) a b (X : requests V) :
  match m with Some W => linear_wf (W, None) a b | None => a = b end →
  if_some nn_linear m (rep (hid s a X)) = rep (hid s b (λ d, row_if_some project m <$> X d)).
Proof using TorchMatLaws0.
  intros Hm. destruct m as [W|]; simpl.
  - destruct Hm as (_ & _ & <- & _). rewrite fmap_replicate. f_equal.
    exact (lin_mat s (W, None) a X).
  - subst b. f_equal. apply hid_ext. intros d _. by rewrite list_fmap_id.
Qed.

Section model.
Context (M : opt_model V) (p : Z) (cs : list cache).
Hypothesis (HM : opt_model_wf z p M) (Hlen : len (om_layers M) = len cs) (Hcs : Forall cache_ok cs).
Hypothesis (Hne : ∀ d, d ∈ s → 1 ≤ input_len d).
Hypothesis (Hpos : ∀ d, d ∈ s → context_len d + 2 ≤ nrows (om_positions M)).

Notation pos_rows := (λ d, (λ p, default [] (rows (om_positions M) !! Z.to_nat (p + 2))) <$> positions_of d).
Notation final := (λ d, opt_final M <$> opt_layers attend z (om_layers M) cs (opt_embed z M) d).

Lemma position_rows :
  OPTPositionalEmbedding_forward {| offset := 2; pe_weight := om_positions M |} positions
  = Ok (hid s hidden pos_rows) ∧ requests_wf s hidden pos_rows.
Proof using Hbatch HM Hpos TorchMatLaws0.
  destruct (omwf_positions _ _ _ HM) as (Hwf & Hc).
  assert (∀ d q, d ∈ s → q ∈ positions_of d → 0 ≤ q + 2 < nrows (om_positions M)) as Hq.
  { intros d q Hd Hq%elem_of_py_range. specialize (Hpos d Hd).
    pose proof (wf_filled _ _ (bo_wf _ _ Hbatch d Hd)). lia. }
  split.
  - unfold OPTPositionalEmbedding_forward. rewrite F_embedding_spec, mapM_res_fmap. cbn [offset pe_weight].
    rewrite (mapM_res_total _ (λ q, default [] (rows (om_positions M) !! Z.to_nat (q + 2)))).
    + simpl. unfold hid. by rewrite Hc, fmap_concat, <-list_fmap_compose.
    + intros q (d & Hd & Hin)%elem_of_concat_fmap. specialize (Hq d q Hd Hin).
      replace ((q + 2 <? 0) || (nrows (om_positions M) <=? q + 2)) with false by lia.
      rewrite py_get_nonneg by lia.
      by destruct (lookup_lt_is_Some_2 (rows (om_positions M)) (Z.to_nat (q + 2))) as [r ->];
        [unfold nrows, len in Hq; lia|].
  - intros d Hd. rewrite len_fmap, (len_positions_of page s Hbatch) by done. split; [done|].
    apply Forall_fmap, Forall_forall. intros q Hin. simpl. specialize (Hq d q Hd Hin).
    destruct (lookup_lt_is_Some_2 (rows (om_positions M)) (Z.to_nat (q + 2))) as [r Hr];
      [unfold nrows, len in Hq; lia|].
    rewrite Hr. simpl. rewrite <-Hc. by eapply rows_len, list_elem_of_lookup_2.
Qed.

Notation embedded := (λ d, (λ i, row_if_some project (om_project_in M)
  (row_if (om_embed M) 0 (sz_vocab z) i)) <$> input_ids d).

Lemma embedded_ranks :
  requests_wf s hidden embedded ∧
  ∃ xs, VocabParallelEmbedding_forward (vocab_shards (om_embed M) w (sz_vocab z / w))
          (concat (input_ids <$> s)) = Ok xs ∧
        if_some nn_linear (om_project_in M) xs = rep (hid s hidden embedded).
Proof using Hz Hbatch HM TorchMatLaws0 ScalarZero0.
  destruct (omwf_embed _ _ _ HM) as (Hwf & Hc & Hn).
  pose proof (embed_rows_wf z w Hz page s Hbatch _ Hwf Hn) as HX.
  rewrite Hc in HX.
  assert (∀ d, row_if_some project (om_project_in M)
    <$> (row_if (om_embed M) 0 (sz_vocab z) <$> input_ids d) = embedded d) as E.
  { intros d. by rewrite <-list_fmap_compose. }
  split.
  - intros d Hd. rewrite <-E. exact (project_wf _ _ _ _ (omwf_in _ _ _ HM) HX d Hd).
  - eexists. split; [by apply (embedding_ranks z w Hz s)|].
    rewrite Hc, (project_ranks _ _ _ _ (omwf_in _ _ _ HM)). f_equal. apply hid_ext. intros d _. apply E.
Qed.

Lemma opt_embed_wf : requests_wf s hidden (opt_embed z M).
Proof using Hz Hbatch HM Hpos TorchMatLaws0 ScalarZero0.
  apply add_rows_wf; [apply embedded_ranks|apply position_rows].
Qed.

Lemma final_wf : requests_wf s p final.
Proof using All.
  apply (requests_map s hidden); [|apply (stack_wf z page s _ _ _ _ _ opt_laws);
    [apply (omwf_layers _ _ _ HM)|done|apply opt_embed_wf]].
  intros r Hr. unfold opt_final. pose proof (omwf_out _ _ _ HM) as Ho.
  assert (len (row_if_some F_layer_norm (om_norm M) r) = hidden) as Hn.
  { destruct (om_norm M) as [ln|] eqn:E; [|done]. simpl. rewrite len_layer_norm; [done|].
    rewrite Hr. by apply (omwf_norm _ _ _ HM). }
  destruct (om_project_out M) as [W|]; simpl; [by eapply lin_len|congruence].
Qed.

Lemma final_ranks X :
  requests_wf s hidden X →
  if_some nn_linear (om_project_out M) (if_some LayerNorm_forward (om_norm M) (rep (hid s hidden X)))
  = rep (hid s p (λ d, opt_final M <$> X d)).
Proof using HM TorchMatLaws0.
  intros HX.
  assert (if_some LayerNorm_forward (om_norm M) (rep (hid s hidden X))
    = rep (hid s hidden (λ d, row_if_some F_layer_norm (om_norm M) <$> X d))) as ->.
  { destruct (om_norm M) as [ln|]; simpl; [exact (norm_if_ranks true ln X)|].
    f_equal. apply hid_ext. intros d _. by rewrite list_fmap_id. }
  pose proof (omwf_out _ _ _ HM) as Ho.
  rewrite (project_ranks (om_project_out M) hidden p); [|by destruct (om_project_out M)].
  f_equal. apply hid_ext. intros d _. by rewrite <-list_fmap_compose.
Qed.

Lemma opt_model_ranks :
  OPTForCausalLM_forward uninit (shard_opt z w M)
    (concat (input_ids <$> s)) (batch_params config page s positions)
    (Some (shard_caches z w <$> cs))
  = Ok (rep (Mat (sz_vocab z) (opt_logits attend z M cs <$> s)),
        (λ c, Some <$> shard_caches z w c)
          <$> opt_caches attend z page s (om_layers M) cs (opt_embed z M)).
Proof using All.
  unfold OPTForCausalLM_forward, OPTDecoder_forward.
  cbn [decoder OPT.model embed_tokens embed_positions project_in project_out final_layer_norm layers shard_opt].
  destruct embedded_ranks as (He & xs & E1 & E2). destruct position_rows as [E3 Hp].
  rewrite E1, Ok_bind. cbn [ip_position_ids batch_params]. rewrite E3, Ok_bind, E2, fmap_replicate.
  unfold mat_add. rewrite hid_mat_zip by (intros d Hd; exact (requests_same_len s _ _ _ d He Hp Hd)).
  change (hid s hidden (λ d, zip_with _ _ _)) with (hid s hidden (opt_embed z M)).
  rewrite (opt_layers_ranks _ _ _ Hlen (omwf_layers _ _ _ HM) Hcs opt_embed_wf), !Ok_bind.
  cbn [fst snd ip_cu_seqlens_q batch_params]. rewrite final_ranks.
  2:{ apply (stack_wf z page s _ _ _ _ _ opt_laws); [apply (omwf_layers _ _ _ HM)|done|apply opt_embed_wf]. }
  rewrite (mapM_res_total _ (λ _, Mat p ((λ d, default [] (last (final d))) <$> s))).
  2:{ intros t [-> _]%elem_of_replicate. unfold mat_index.
      by rewrite (selected_rows s p _ final_wf Hne). }
  rewrite Ok_bind, fmap_replicate. cbn [OPT.lm_head shard_opt].
  rewrite (column_gather_forward z w Hz _ _ _ _ (omwf_head _ _ _ HM) (so_vocab_w _ _ Hz)).
  do 3 f_equal. rewrite F_linear_spec. unfold map_rows. cbn [rows].
  destruct (omwf_head _ _ _ HM) as (_ & _ & Hn & _). rewrite Hn. f_equal.
  by rewrite <-list_fmap_compose.
Qed.
End model.
End opt.
