(* ===== verification/OptInit.v ===== *)
(** * What the constructors of the OPT model build

    As [ModelInit] for [OPTForCausalLM.__init__]. *)
From stdpp Require Import strings.
From S2P Require Import Prelude ParallelUtils Tensor TensorParallel.
From S2P Require Import FlashInfer Batch PagedAttention Triton Rotary Activations Heads Llama ModelSpec LlamaSpec.
From S2P Require Import ModelInit Opt OptSpec.
Import TensorParallel.Mappings TensorParallel.Layers OPT.

#[local] Opaque py_range.

(** The sizes of a configuration: every query head has a key head. *)
Definition opt_sizes (c : OPTConfig) : sizes := {|
  sz_kv := num_attention_heads c; sz_group := 1;
  sz_hd := hidden_size c / num_attention_heads c;
  sz_inner := ffn_dim c; sz_vocab := vocab_size c |}.

Record opt_config_ok (w : Z) (c : OPTConfig) : Prop := {
  oc_sizes : sizes_ok (opt_sizes c) w;
  oc_heads : hidden_size c `mod` num_attention_heads c = 0;
  oc_inner : 0 < ffn_dim c;
  oc_proj : 0 < word_embed_proj_dim c;
  oc_positions : 0 ≤ max_position_embeddings c;
  oc_layers : 0 ≤ num_hidden_layers c;
}.

Section init.
Context {V : Type} `{!Scalar V} `{!TorchMat V} `{!TorchMatLaws V} `{!Floats V} `{!TorchFunctional V}.
Context (torch_empty nn_weight : Z → Z → mat V) (init_method : mat V → mat V) (version : Z * Z).
Context (w : Z) (c : OPTConfig).
Hypothesis (Hinit : init_laws torch_empty init_method).
(** The weights [nn.Embedding] and [nn.Linear] start with. *)
Hypothesis (Hnn : ∀ r k, 0 ≤ r → 0 ≤ k → mat_wf (nn_weight r k) ∧ nrows (nn_weight r k) = r ∧ cols (nn_weight r k) = k).
Hypothesis (Hc : opt_config_ok w c).
Context (act : V → V).
Hypothesis (Hact : ACT2FN version (activation_function c) = Ok act).
Notation z := (opt_sizes c).
Notation params_of := (initial_params torch_empty init_method).
Notation bias := (enable_bias c).

Definition initial_norm : LayerNorm V := LayerNorm_init (hidden_size c) (layer_norm_elementwise_affine c).
Definition initial_opt_layer : opt_layer V := {|
  ol_q := params_of bias (sz_hidden z) (sz_hidden z);
  ol_k := params_of bias (sz_hidden z) (sz_hidden z);
  ol_v := params_of bias (sz_hidden z) (sz_hidden z);
  ol_out := params_of bias (sz_hidden z) (sz_hidden z);
  ol_fc1 := params_of bias (sz_hidden z) (sz_inner z);
  ol_fc2 := params_of bias (sz_inner z) (sz_hidden z);
  ol_act := act; ol_before := do_layer_norm_before c;
  ol_norm1 := initial_norm; ol_norm2 := initial_norm |}.
Definition projects : bool := negb (word_embed_proj_dim c =? hidden_size c).
Definition initial_opt : opt_model V := {|
  om_embed := initial torch_empty init_method (sz_vocab z) (word_embed_proj_dim c);
  om_positions := nn_weight (max_position_embeddings c + 2) (hidden_size c);
  om_project_in := if projects then Some (nn_weight (hidden_size c) (word_embed_proj_dim c)) else None;
  om_project_out := if projects then Some (nn_weight (word_embed_proj_dim c) (hidden_size c)) else None;
  om_layers := (λ _, initial_opt_layer) <$> py_range 0 (num_hidden_layers c);
  om_norm := if do_layer_norm_before c && negb (_remove_final_layer_norm c) then Some initial_norm else None;
  om_head := initial torch_empty init_method (sz_vocab z) (word_embed_proj_dim c) |}.

Lemma opt_hidden : 0 < num_attention_heads c ∧ hidden_size c = sz_hidden z ∧ 0 < sz_hidden z ∧
  sz_hidden z = w * (sz_hidden z / w).
Proof using Hc.
  pose proof (so_kv _ _ (oc_sizes _ _ Hc)) as Hkv. pose proof (so_hd _ _ (oc_sizes _ _ Hc)) as Hhd.
  pose proof (oc_heads _ _ Hc) as Hh. destruct (hidden_w z w (oc_sizes _ _ Hc)) as [E Ew].
  simpl in Hkv, Hhd. split; [done|]. split.
  - unfold sz_hidden. simpl. rewrite Z.mul_1_r. apply Z_div_exact_2; lia.
  - split; [unfold sz_hidden; simpl; nia|]. by rewrite Ew.
Qed.

Lemma initial_norm_wf : norm_wf z initial_norm.
Proof using Hc.
  destruct opt_hidden as (_ & EH & Hh & _). intros g b. unfold initial_norm, LayerNorm_init.
  destruct (layer_norm_elementwise_affine c); [|done]. intros [= <- <-].
  rewrite !len_fmap, EH. split; apply len_range; lia.
Qed.

Lemma initial_opt_layer_wf : opt_layer_wf z initial_opt_layer.
Proof using Hinit Hc.
  destruct opt_hidden as (_ & _ & Hh & _). pose proof (oc_inner _ _ Hc).
  split; try apply initial_norm_wf; apply (initial_wf torch_empty init_method Hinit bias); simpl in *; lia.
Qed.

Lemma initial_opt_wf : opt_model_wf z (word_embed_proj_dim c) initial_opt.
Proof using Hinit Hc Hnn.
  destruct opt_hidden as (_ & EH & Hh & _). pose proof (so_vocab _ _ (oc_sizes _ _ Hc)).
  pose proof (oc_proj _ _ Hc). pose proof (oc_positions _ _ Hc).
  destruct (initial_wf torch_empty init_method Hinit false (word_embed_proj_dim c) (sz_vocab z))
    as (Hwf & Hcols & Hn & _); [lia..|].
  assert (∀ r k, 0 ≤ r → 0 ≤ k → linear_wf (nn_weight r k, None) k r) as Hnn'.
  { intros r k Hr Hk. destruct (Hnn r k Hr Hk) as (? & ? & ?). by split_and!. }
  split; simpl in *.
  - done.
  - destruct (Hnn (max_position_embeddings c + 2) (hidden_size c)) as (? & _ & ?); [lia..|].
    split; [done|congruence].
  - unfold projects. destruct (Z.eqb_spec (word_embed_proj_dim c) (hidden_size c)); simpl; [congruence|].
    rewrite <-EH. apply Hnn'; lia.
  - unfold projects. destruct (Z.eqb_spec (word_embed_proj_dim c) (hidden_size c)); simpl; [congruence|].
    rewrite <-EH. apply Hnn'; lia.
  - apply Forall_fmap, Forall_forall. intros i _. apply initial_opt_layer_wf.
  - intros n. destruct (_ && _); [|done]. intros [= <-]. apply initial_norm_wf.
  - apply (initial_wf torch_empty init_method Hinit false); lia.
Qed.

Lemma opt_attention_init :
  OPTAttention_init torch_empty init_method w c = Ok (self_attn (shard_opt_layer z w initial_opt_layer)).
Proof using Hinit Hc TorchMatLaws0.
  destruct opt_hidden as (Hheads & EH & Hh & Hhw). pose proof (so_w _ _ (oc_sizes _ _ Hc)) as Hw.
  pose proof (so_kv_w _ _ (oc_sizes _ _ Hc)) as Ekv. simpl in Ekv.
  assert (∀ x y, 0 < y → x `mod` y = 0 → divides x y = Ok true) as Hdiv.
  { intros x y Hy Hm. unfold divides. by rewrite py_mod_pos, Hm by done. }
  unfold OPTAttention_init.
  rewrite (Hdiv (hidden_size c) (num_attention_heads c)) by (done || apply (oc_heads _ _ Hc)).
  rewrite (Hdiv (num_attention_heads c) w); [|done|rewrite Ekv, Z.mul_comm; apply Z.mod_mul; lia].
  cbn [py_assert]. rewrite !Ok_bind.
  assert (hidden_size c / num_attention_heads c * num_attention_heads c =? hidden_size c = true) as ->.
  { apply Z.eqb_eq. rewrite EH at 2. unfold sz_hidden. simpl. lia. }
  cbn [py_require]. rewrite Ok_bind, EH, !(column_linear_Ok torch_empty init_method w Hinit),
    (row_linear_Ok torch_empty init_method w Hinit) by (done || lia).
  rewrite !Ok_bind. unfold shard_opt_layer. cbn [self_attn ol_q ol_k ol_v ol_out initial_opt_layer].
  rewrite <-EH. done.
Qed.

Lemma opt_layer_init :
  OPTDecoderLayer_init torch_empty version init_method w c = Ok (shard_opt_layer z w initial_opt_layer).
Proof using Hinit Hc Hact TorchMatLaws0.
  destruct opt_hidden as (_ & EH & Hh & Hhw). pose proof (so_w _ _ (oc_sizes _ _ Hc)) as Hw.
  pose proof (so_inner_w _ _ (oc_sizes _ _ Hc)). pose proof (oc_inner _ _ Hc).
  unfold OPTDecoderLayer_init. rewrite opt_attention_init, Hact, !Ok_bind.
  change (ffn_dim c) with (sz_inner z) in *.
  rewrite EH, (column_linear_Ok torch_empty init_method w Hinit),
    (row_linear_Ok torch_empty init_method w Hinit) by (done || lia).
  rewrite !Ok_bind. unfold shard_opt_layer at 2, initial_opt_layer, initial_norm. by rewrite EH.
Qed.

(** The constructor, on [w] ranks. *)
Lemma opt_init :
  OPTForCausalLM_init torch_empty nn_weight version init_method w c = Ok (shard_opt z w initial_opt).
Proof using Hinit Hc Hact TorchMatLaws0.
  pose proof (so_w _ _ (oc_sizes _ _ Hc)) as Hw. pose proof (so_vocab _ _ (oc_sizes _ _ Hc)).
  pose proof (so_vocab_w _ _ (oc_sizes _ _ Hc)) as Hv. pose proof (oc_proj _ _ Hc) as Hp.
  destruct (initial_wf torch_empty init_method Hinit false (word_embed_proj_dim c) (sz_vocab z))
    as (_ & _ & Hn & _); [lia..|]. simpl in Hn.
  unfold OPTForCausalLM_init, OPTModel_init, OPTDecoder_init.
  change (vocab_size c) with (sz_vocab z).
  rewrite (mapM_res_total _ (λ r, {| vpe_vocab_start_index := r * (sz_vocab z / w);
    vpe_vocab_end_index := (r + 1) * (sz_vocab z / w);
    vpe_weight := row_shard (initial torch_empty init_method (sz_vocab z) (word_embed_proj_dim c))
                    (sz_vocab z / w) r |})).
  2:{ intros r Hr%elem_of_py_range. assert (0 < sz_vocab z / w) by nia.
      rewrite Hv at 1. apply vocab_init_Ok; try done; by rewrite <-Hv. }
  rewrite Ok_bind.
  rewrite (mapM_res_total _ (λ _, shard_opt_layer z w initial_opt_layer)) by (intros i _; apply opt_layer_init).
  rewrite Ok_bind. cbn [fmap res_fmap]. rewrite Ok_bind.
  rewrite (column_linear_Ok torch_empty init_method w Hinit) by (done || lia). rewrite Ok_bind.
  unfold shard_opt, initial_opt, projects.
  cbn [om_embed om_layers om_norm om_head om_project_in om_project_out om_positions].
  by rewrite <-list_fmap_compose.
Qed.
End init.
