(* ===== verification/OptTheorems.v ===== *)
(** * What the OPT model guarantees

    The theorem on [OPTForCausalLM_forward] of [Opt], and its witness on a model
    over the integers. *)
From stdpp Require Import strings.
From S2P Require Import Prelude ParallelUtils Tensor TensorParallel.
From S2P Require Import FlashInfer Batch PagedAttention Triton Rotary Activations Heads Llama.
From S2P Require Import ModelSpec LlamaSpec LlamaTheorems Opt OptSpec.
Import TensorParallel.Mappings TensorParallel.Layers OPT.

#[local] Opaque py_range.

Section theorems.
Context {V : Type} `{!Scalar V} `{!TorchMat V} `{!TorchMatLaws V} `{!ScalarZero V} `{!DotSplit V}.
Context `{!LayerNormOps V} `{!LayerNormLaws V}.
Context `{!FlashInfer (head_row V) (head_row V) (head_row V) (head_row V)}.
Context (attend : head_row V → list (option (head_row V * head_row V)) → head_row V).
Context (attend1 : list V → list (option (list V * list V)) → list V).
Context `{!FlashInferLaws attend} `{!Headwise attend attend1}.
Context (uninit : head_row V).
Context (z : sizes) (config : ModelConfig) (page p : Z).
Context (M : opt_model V) (cs : list (paged_cache (head_row V) (head_row V))).

(** A model with a cache per layer, on [w] ranks; OPT has as many key heads as
    query heads. *)
Record opt_deployment (w : Z) : Prop := {
  od_sizes : sizes_ok z w;
  od_group : sz_group z = 1;
  od_page : 0 < page < 2 ^ 31;
  od_model : opt_model_wf z p M;
  od_layers : len (om_layers M) = len cs;
  od_caches : Forall (cache_ok z page) cs;
}.

(** Requests with at least one new token, slots of their own, and positions the
    table covers. *)
Record opt_servable (ins : list InferInput) : Prop := {
  os_fits : batch_fits ins;
  os_wf : ∀ d, d ∈ ins → input_wf page d;
  os_tokens : ∀ d, d ∈ ins → 1 ≤ input_len d;
  os_pages : writes_apart page ins;
  os_positions : ∀ d, d ∈ ins → context_len d + 2 ≤ nrows (om_positions M);
}.

(** The batch of [_make_inputs], and the model on it. *)
Lemma opt_batch_forward w ins :
  opt_deployment w → opt_servable ins →
  let s := sort_inputs ins in
  ∃ ids params new,
    make_inputs config page true ins = Ok (s, (ids, params)) ∧
    OPTForCausalLM_forward uninit (shard_opt z w M) ids params (Some (shard_caches z w <$> cs))
    = Ok (replicate (Z.to_nat w) (Mat (sz_vocab z) (opt_logits attend z M cs <$> s)),
          (λ c, Some <$> shard_caches z w c) <$> new) ∧
    length new = length cs ∧ Forall (cache_ok z page) new ∧
    (∀ d, d ∈ ins → (λ c, paged_kv c (block_ids d) (context_len d)) <$> new
                    = opt_pages attend z (om_layers M) cs (opt_embed z M) d) ∧
    Forall2 (λ c c', ∀ x, x ∉ batch_slots page ins → pc_slots c' !! x = pc_slots c !! x)
      cs new.
Proof using FlashInferLaws0 Headwise0 TorchMatLaws0 ScalarZero0 DotSplit0 LayerNormLaws0.
  intros [Hz Hg Hpage HM Hl Hc] [Hfits Hwf Htok Hpages Hpos] s.
  assert (s ≡ₚ ins) as Hperm by apply sort_key_perm.
  assert (∀ d, d ∈ s → d ∈ ins) as Hin by (intros d; by rewrite Hperm).
  assert (batch_ok page s) as Hb.
  { split; [apply sort_key_sorted|auto|]. by eapply writes_apart_perm. }
  assert (∀ d, d ∈ s → context_len d + 2 ≤ nrows (om_positions M)) as Hpos' by auto.
  assert (∀ d, d ∈ s → 1 ≤ input_len d) as Htok' by auto.
  pose proof (omwf_layers _ _ _ HM) as HL.
  pose proof (opt_embed_wf z w Hz page s Hb M p HM Hpos') as HX.
  pose proof (opt_laws attend attend1 uninit z w Hz Hg config page Hpage s Hb) as Hlaws.
  eexists _, _, _. split.
  { rewrite (make_inputs_Ok config page Hpage) by done. fold s.
    rewrite append_plan_positions; [done|done|]. apply Forall_forall. auto. }
  split; [by apply (opt_model_ranks attend attend1 uninit z w Hz Hg config page Hpage s Hb M p)|].
  split_and!.
  - apply stack_caches_length. unfold len in Hl. lia.
  - by apply (stack_caches_ok z w Hz page s _ _ _ _ _ Hlaws).
  - intros d Hd. rewrite <-Hperm in Hd.
    by apply (stack_caches_pages z w Hz page Hpage s Hb _ _ _ _ _ Hlaws).
  - pose proof (stack_caches_frame z w Hz page s Hb _ _ _ _ _ Hlaws _ _ _ Hl HL Hc HX) as Hf.
    eapply Forall2_impl; [exact Hf|]. intros c c' Hcc x Hx. apply Hcc.
    unfold batch_slots in *. by rewrite Hperm.
Qed.

(** C8: the sharded OPT model on the batch [_make_inputs] builds is a serial
    transformer on each request alone, as for Llama: with layer normalization
    before or after the blocks, biases counted once, with or without projections
    around the layers, on every number of ranks.  The logits do not depend on the
    number of ranks, and the pages of a request hold, layer by layer, its old keys
    and values followed by those of its new tokens. *)
Theorem opt_forward_is_reference w ins :
  opt_deployment w → opt_servable ins →
  let s := sort_inputs ins in
  ∃ ids params new,
    make_inputs config page true ins = Ok (s, (ids, params)) ∧
    OPTForCausalLM_forward uninit (shard_opt z w M) ids params (Some (shard_caches z w <$> cs))
    = Ok (replicate (Z.to_nat w) (Mat (sz_vocab z) (opt_logits attend z M cs <$> s)),
          (λ c, Some <$> shard_caches z w c) <$> new) ∧
    Forall (cache_ok z page) new ∧
    (∀ d, d ∈ ins → (λ c, paged_kv c (block_ids d) (context_len d)) <$> new
                    = opt_pages attend z (om_layers M) cs (opt_embed z M) d) ∧
    Forall2 (λ c c', ∀ x, x ∉ batch_slots page ins → pc_slots c' !! x = pc_slots c !! x)
      cs new.
Proof using FlashInferLaws0 Headwise0 TorchMatLaws0 ScalarZero0 DotSplit0 LayerNormLaws0.
  intros Hd Hs s. destruct (opt_batch_forward w ins Hd Hs) as (ids & params & new & E & Ef & _ & H).
  by exists ids, params, new.
Qed.
End theorems.

(** ** A model over the integers

    The sizes, caches and requests of [LlamaTheorems]; embeddings of two
    dimensions, projected into four; normalization after the blocks. *)

#[local] Existing Instance heads_Z.
#[local] Existing Instance heads_Z_laws.
#[local] Existing Instance heads_Z_headwise.
#[local] Instance layer_norm_Z : LayerNormOps Z := {|
  F_layer_norm p row :=
    match p with Some (g, b) => zip_with Z.add (zip_with Z.mul row g) b | None => row end |}.
#[local] Instance layer_norm_Z_laws : LayerNormLaws Z.
Proof.
  split. intros [[g b]|] row Hp; [|done]. destruct (Hp g b eq_refl) as [Hg Hb]. simpl.
  by rewrite !len_zip_with; rewrite ?len_zip_with; congruence.
Qed.

Definition opt_layer_Z : opt_layer Z := {|
  ol_q := (eye, Some [1; 0; 0; 0]); ol_k := (eye, None); ol_v := (eye, Some [0; 0; 0; 1]);
  ol_out := (eye, Some [0; 1; 0; 0]);
  ol_fc1 := (Mat 4 [[1; 1; 0; 0]; [0; 0; 1; 1]], Some [1; -1]);
  ol_fc2 := (Mat 2 [[1; 0]; [0; 1]; [1; 1]; [0; 2]], Some [0; 0; 0; 7]);
  ol_act := λ x, Z.max 0 x; ol_before := false;
  ol_norm1 := Some ([1; 1; 1; 1], [0; 0; 0; 1]); ol_norm2 := None |}.
Definition opt_model_Z : opt_model Z := {|
  om_embed := Mat 2 [[1; 0]; [0; 1]; [1; 1]; [2; 0]];
  om_positions := Mat 4 [[9; 9; 9; 9]; [9; 9; 9; 9]; [1; 0; 0; 0]; [0; 1; 0; 0]; [0; 0; 1; 0]];
  om_project_in := Some (Mat 2 [[1; 0]; [0; 1]; [1; 1]; [0; 0]]);
  om_project_out := Some (Mat 4 [[1; 0; 0; 0]; [0; 0; 0; 1]]);
  om_layers := [opt_layer_Z]; om_norm := Some None;
  om_head := Mat 2 [[1; 0]; [0; 1]; [1; 1]; [2; 0]] |}.

Lemma opt_deployment_Z : opt_deployment sizes_Z 2 2 opt_model_Z caches_Z 2.
Proof.
  split; try done; try apply (deployment_Z).
  - split; try by apply linear_Z.
    + by split_and!; apply (bool_decide_unpack _).
    + by split; apply (bool_decide_unpack _).
    + constructor; [|constructor]. split; try by apply linear_Z.
      * by intros g b [= <- <-].
      * done.
    + by intros n [= <-].
Qed.

Lemma opt_servable_Z : opt_servable 2 opt_model_Z [decoding; starting].
Proof.
  pose proof servable_Z as [? ? ? ? _]. split; try done.
  assert (∀ d, d ∈ [decoding; starting] → d = decoding ∨ d = starting) as Hin by set_solver.
  by intros d [-> | ->]%Hin.
Qed.

Example opt_forward_is_reference_witness :
  ∃ ids params new,
    make_inputs config_Z 2 true [decoding; starting] = Ok ([starting; decoding], (ids, params)) ∧
    OPTForCausalLM_forward [] (shard_opt sizes_Z 2 opt_model_Z) ids params
      (Some (shard_caches sizes_Z 2 <$> caches_Z))
    = Ok (replicate 2 (Mat 4 [[59; 152; 211; 118]; [11; 86; 97; 22]]), new).
Proof.
  destruct (opt_forward_is_reference (headwise attend1_Z) attend1_Z [] sizes_Z config_Z 2 2
    opt_model_Z caches_Z 2 [decoding; starting] opt_deployment_Z opt_servable_Z)
    as (ids & params & new & E1 & E2 & _).
  eexists ids, params, _. split; [exact E1|].
  exact E2.
Defined.
