(* ===== verification/DenseOpt.v ===== *)
(** * OPT, densely

    As [DenseLlama] for OPT: [opt_decoder] keeps the contract of [Decoder]. *)
From S2P Require Import Prelude ParallelUtils Tensor TensorParallel.
From S2P Require Import FlashInfer Batch PagedAttention Triton Rotary Activations Heads Llama ModelSpec.
From S2P Require Import Opt OptSpec OptTheorems Causal Decoder.

Import OPT.

#[local] Opaque py_range.

Section dense.
Context {V : Type} `{!Scalar V} `{!TorchMat V} `{!LayerNormOps V}.
Context (attend : head_row V → list (option (head_row V * head_row V)) → head_row V).
Notation rows := (list (list V)).
Context (z : sizes).

Definition dense_in (L : opt_layer V) (Y : rows) : rows := norm_if (ol_before L) (ol_norm1 L) Y.
Definition dense_opt_q (L : opt_layer V) (Y : rows) : rows := lin (ol_q L) <$> dense_in L Y.
Definition dense_opt_k (L : opt_layer V) (Y : rows) : rows := lin (ol_k L) <$> dense_in L Y.
Definition dense_opt_v (L : opt_layer V) (Y : rows) : rows := lin (ol_v L) <$> dense_in L Y.

Definition dense_mid (L : opt_layer V) (Y : rows) : rows :=
  let mixed := dense_mix attend z (dense_opt_q L Y) (dense_kv z (dense_opt_k L Y) (dense_opt_v L Y)) in
  norm_if (negb (ol_before L)) (ol_norm1 L) (add_rows Y (lin (ol_out L) <$> mixed)).
Definition dense_opt_layer (L : opt_layer V) (Y : rows) : rows :=
  norm_if (negb (ol_before L)) (ol_norm2 L)
    (add_rows (dense_mid L Y)
              (opt_mlp_row L <$> norm_if (ol_before L) (ol_norm2 L) (dense_mid L Y))).

(** The rows of a text with its positions, and the logits after its last token. *)
Definition opt_rows (M : opt_model V) (T : list Z) : rows :=
  add_rows
    ((λ i, row_if_some project (om_project_in M) (row_if (om_embed M) 0 (sz_vocab z) i)) <$> T)
    ((λ p, default [] (Tensor.rows (om_positions M) !! Z.to_nat (p + 2))) <$> py_range 0 (len T)).
Definition opt_text_logits (M : opt_model V) (T : list Z) : list V :=
  lin (om_head M, None)
    (default [] (last (opt_final M <$> dense_out dense_opt_layer (om_layers M) (opt_rows M T)))).
Definition opt_text_pages (M : opt_model V) (T : list Z) : list (list (head_row V * head_row V)) :=
  dense_pages z dense_opt_layer dense_opt_k dense_opt_v (om_layers M) (opt_rows M T).

Lemma norm_if_take b n k (Y : rows) : norm_if b n (take k Y) = take k (norm_if b n Y).
Proof using. destruct b; [apply fmap_take|done]. Qed.
Lemma norm_if_drop b n k (Y : rows) : norm_if b n (drop k Y) = drop k (norm_if b n Y).
Proof using. destruct b; [apply fmap_drop|done]. Qed.
Lemma norm_if_length b n (Y : rows) : length (norm_if b n Y) = length Y.
Proof using. destruct b; [apply length_fmap|done]. Qed.

Lemma dense_mid_length L Y : length (dense_mid L Y) = length Y.
Proof using.
  assert (length (dense_opt_q L Y) = length Y) as Hq.
  { unfold dense_opt_q, dense_in. by rewrite length_fmap, norm_if_length. }
  unfold dense_mid. rewrite norm_if_length. apply add_rows_length.
  by rewrite length_fmap, dense_mix_length, Hq.
Qed.

(** The layers of OPT are causal. *)
Lemma opt_causal :
  causal_laws z (ref_opt_layer attend z) opt_k opt_v dense_opt_layer dense_opt_k dense_opt_v.
Proof using.
  assert (∀ L d (X : requests V) Y, X d = drop (Z.to_nat (filled_token_len d)) Y →
    opt_in L X d = drop (Z.to_nat (filled_token_len d)) (dense_in L Y)) as Hn.
  { intros L d X Y E. unfold opt_in, dense_in. by rewrite E, norm_if_drop. }
  assert (∀ L n Y, dense_in L (take n Y) = take n (dense_in L Y)) as Ht
    by (intros; apply norm_if_take).
  split.
  - intros L Y. unfold dense_opt_layer. rewrite norm_if_length, add_rows_length; [apply dense_mid_length|].
    by rewrite length_fmap, norm_if_length.
  - intros L Y. unfold dense_opt_k, dense_in. by rewrite length_fmap, norm_if_length.
  - intros L Y. unfold dense_opt_v, dense_in. by rewrite length_fmap, norm_if_length.
  - intros L n Y. unfold dense_opt_layer, dense_mid, dense_opt_q, dense_opt_k, dense_opt_v.
    rewrite !Ht, !fmap_take, dense_kv_take, dense_mix_take, !fmap_take.
    by rewrite add_rows_take, !norm_if_take, fmap_take, add_rows_take, norm_if_take.
  - intros L n Y. unfold dense_opt_k. by rewrite Ht, fmap_take.
  - intros L n Y. unfold dense_opt_v. by rewrite Ht, fmap_take.
  - intros L X d Y _ _ E. unfold opt_k, dense_opt_k. by rewrite (Hn _ _ _ _ E), fmap_drop.
  - intros L X d Y _ _ E. unfold opt_v, dense_opt_v. by rewrite (Hn _ _ _ _ E), fmap_drop.
  - intros L c X d Y _ _ E Hc. unfold ref_opt_layer.
    assert (opt_mid attend z L c X d = drop (Z.to_nat (filled_token_len d)) (dense_mid L Y)) as ->.
    { unfold opt_mid, opt_attention.
      rewrite (ref_mix_dense attend z c _ _ _ d (dense_opt_q L Y) (dense_opt_k L Y) (dense_opt_v L Y));
        [by rewrite E, fmap_drop, add_rows_drop, norm_if_drop|..|done].
      - unfold opt_q, dense_opt_q. by rewrite (Hn _ _ _ _ E), fmap_drop.
      - unfold opt_k, dense_opt_k. by rewrite (Hn _ _ _ _ E), fmap_drop.
      - unfold opt_v, dense_opt_v. by rewrite (Hn _ _ _ _ E), fmap_drop. }
    by rewrite norm_if_drop, fmap_drop, add_rows_drop, norm_if_drop.
Qed.

Lemma opt_rows_take M n T : opt_rows M (take n T) = take n (opt_rows M T).
Proof using.
  unfold opt_rows. by rewrite fmap_take, len_take_range, fmap_take, add_rows_take.
Qed.
Lemma opt_rows_length M T : length (opt_rows M T) = length T.
Proof using.
  unfold opt_rows. rewrite add_rows_length; rewrite ?length_fmap; [done|].
  rewrite length_py_range. unfold len. lia.
Qed.
End dense.

(** ** The contract *)

Section decoder.
Context {V : Type} `{!Scalar V} `{!TorchMat V} `{!TorchMatLaws V} `{!ScalarZero V} `{!DotSplit V}.
Context `{!LayerNormOps V} `{!LayerNormLaws V}.
Context `{!FlashInfer (head_row V) (head_row V) (head_row V) (head_row V)}.
Context (attend : head_row V → list (option (head_row V * head_row V)) → head_row V).
Context (attend1 : list V → list (option (list V * list V)) → list V).
Context `{!FlashInferLaws attend} `{!Headwise attend attend1}.
Context (uninit : head_row V).
Context (z : sizes) (config : ModelConfig) (page p : Z) (M : opt_model V).

Definition opt_decoder (w : Z) : Decoder V := {|
  dc_forward := OPTForCausalLM_forward uninit (shard_opt z w M);
  dc_logits := opt_text_logits attend z M;
  dc_pages := opt_text_pages attend z M;
  dc_max_len := nrows (om_positions M) - 2 |}.

(** A model that fits; OPT has as many key heads as query heads. *)
Record opt_ok (w : Z) : Prop := {
  oo_sizes : sizes_ok z w;
  oo_group : sz_group z = 1;
  oo_page : 0 < page < 2 ^ 31;
  oo_model : opt_model_wf z p M;
}.

(** The reference on a request that continues a text. *)
Lemma opt_ref_text cs d T :
  continues d T → 1 ≤ input_len d →
  holds cs (block_ids d) (filled_token_len d) (opt_text_pages attend z M T) →
  opt_logits attend z M cs d = opt_text_logits attend z M (py_slice T 0 (context_len d)) ∧
  opt_pages attend z (om_layers M) cs (opt_embed z M) d
  = (λ kvs : list (head_row V * head_row V), Some <$> take (Z.to_nat (context_len d)) kvs)
      <$> opt_text_pages attend z M T.
Proof using.
  intros Hct Hpos Hc. pose proof (continues_len _ _ Hct) as Hlen.
  destruct (stack_text z _ _ _ _ _ _ (opt_causal attend z) (opt_rows z M)
    (opt_rows_take z M) (opt_rows_length z M) (om_layers M) cs (opt_embed z M) d T Hct)
    as [E1 E2]; [|exact Hc|].
  { unfold opt_embed, opt_rows, positions_of.
    rewrite (continues_ids _ _ Hct), fmap_drop, <-Hlen, <-add_rows_drop.
    f_equal. rewrite <-fmap_drop, <-drop_range, Z2Nat.id by apply Hct. done. }
  split; [|exact E2]. unfold opt_logits, opt_text_logits, opt_layers. rewrite E1, fmap_drop.
  f_equal. f_equal. apply last_drop.
  rewrite length_fmap, (dense_out_length z _ _ _ _ _ _ (opt_causal attend z)), opt_rows_length.
  destruct Hct. unfold len in Hlen. lia.
Qed.

(** OPT keeps the contract. *)
Lemma opt_serves w :
  opt_ok w → DecoderLaws (opt_decoder w) z w page config (length (om_layers M)).
Proof using FlashInferLaws0 Headwise0 TorchMatLaws0 ScalarZero0 DotSplit0 LayerNormLaws0.
  intros [Hz Hg Hp HM]. pose proof (opt_causal attend z) as Hlaws. split.
  - done.
  - apply Hz.
  - apply Hz.
  - intros T n. simpl. unfold opt_text_pages.
    by rewrite opt_rows_take, (dense_pages_take z _ _ _ _ _ _ Hlaws).
  - intros T. apply dense_pages_length.
  - intros T. rewrite <-(opt_rows_length z M T). apply (dense_pages_lengths z _ _ _ _ _ _ Hlaws).
  - intros c Hc Hs. split; [done|]. intros k kv. by rewrite Hs, lookup_empty.
  - intros cs ins texts Hl Hcs [Hf Hwf Ht Hpg Hmax] Htexts.
    assert (opt_servable page M ins) as Hsv.
    { split; try done. intros d Hin. specialize (Hmax d Hin). simpl in Hmax. lia. }
    assert (opt_deployment z page p M cs w) as Hd.
    { split; try done. unfold len. by rewrite Hl. }
    destruct (opt_batch_forward attend attend1 uninit z config page p M cs w ins Hd Hsv)
      as (ids & params & new & E & Ef & Hlen & Hok' & Hpages & Hframe).
    assert (∀ d, d ∈ ins →
      opt_logits attend z M cs d
        = opt_text_logits attend z M (py_slice (texts d) 0 (context_len d)) ∧
      opt_pages attend z (om_layers M) cs (opt_embed z M) d
        = (λ kvs : list (head_row V * head_row V), Some <$> take (Z.to_nat (context_len d)) kvs)
            <$> opt_text_pages attend z M (texts d)) as Href.
    { intros d Hin. destruct (Htexts d Hin). apply opt_ref_text; [done|auto|done]. }
    exists ids, params, new. split; [exact E|]. split_and!; [|congruence|done| |done].
    + etransitivity; [exact Ef|]. do 4 f_equal. apply fmap_list_ext. intros d Hin. apply Href.
      revert Hin. unfold sort_inputs. by rewrite sort_key_perm.
    + intros d Hin. unfold holds. etransitivity; [exact (Hpages d Hin)|]. by apply Href.
Qed.
End decoder.
