(* ===== verification/Serving.v ===== *)
(** * Serving

    The model workers of all ranks together, and what a client of them can rely
    on: rounds of [Infer] calls that feed texts in chunks, batched with each other,
    over pages of the caches that sequences may share, generate what greedy decoding
    generates from each prompt alone. *)
From stdpp Require Import strings gmap pretty.
From S2P Require Import Prelude Tensor FlashInfer Batch PagedAttention Triton Rotary Activations.
From S2P Require Import Llama ModelWorker Heads ModelSpec.
From S2P Require Import Causal Decoder KVStore WorkerService LlamaSpec LlamaTheorems DenseLlama.

#[local] Opaque py_range.

Section serving.
Context {V : Type} `{!Sampling V}.
Context `{!FlashInfer (head_row V) (head_row V) (head_row V) (head_row V)}.
Context (D : Decoder V) (z : sizes) (w page : Z) (config : ModelConfig) (layers : nat).
Context `{!DecoderLaws D z w page config layers}.
Context (tokenizer_decode : Z → string) (eos : list Z).
Notation cache := (paged_cache (head_row V) (head_row V)).
Notation node := (WorkerService.node (K := head_row V) (V := head_row V) (F := V)).
Context (copy_blocks : list cache → list (Z * list Z) → list cache).
(** The blocks every worker has room for on its device. *)
Context (num_blocks : Z).

(** ** The ranks together *)

(** The model as rank [r] calls it.  The call is collective: the other ranks bring
    their caches, [r] gets its copy of the logits and its part of the new caches. *)
Definition rank_model (peers : list (list cache)) (r : nat) (ids : list Z) (ip : InputParams)
    (kv : option (list cache)) : res (list (list V) * option (list cache)) :=
  let joined := (λ own : list cache, zip_with (λ c row, <[r := c]> row) own peers) <$> kv in
  match dc_forward D ids ip joined with
  | Raise e => Raise e
  | Ok (logits, caches) =>
      mine ← py_get logits (Z.of_nat r);
      Ok (Tensor.rows mine, (λ _, omap (λ l : list (option cache), mjoin (l !! r)) caches) <$> kv)
  end.

Definition node_worker (n : node) := worker (nd_service n).

(** The caches of the ranks, layer by layer. *)
Definition group_caches (ns : list node) : list (list cache) :=
  (λ l : nat, omap (λ n, default [] (kv_caches (node_worker n)) !! l) ns) <$> seq 0 layers.

(** Every rank gets the request. *)
Definition infer_group (request : InferRequest) (ns : list node)
    : list (res (gmap Z (InferOutput V)) * node) :=
  imap (λ r n, Infer (rank_model (group_caches ns) r) tokenizer_decode copy_blocks request n) ns.

(** ** A client *)

(** A sequence: its prompt, its tokens, how many of them have their keys and
    values in the caches, and its pages. *)
Record sequence := {
  sq_prompt : list Z; sq_tokens : list Z; sq_cached : Z; sq_blocks : list Z;
}.
Record system := { sy_nodes : list node; sy_seqs : gmap Z sequence }.

Definition infer_request (ins : list InferInput) (wait record : bool) : InferRequest := {|
  inputs := ins; use_cache := true; wait_before_execute := wait; record_after_execute := record |}.

(** After a round: the tokens that were fed are cached, and the output is the next
    token where none were left. *)
Definition advance (outputs : gmap Z (InferOutput V)) (d : InferInput) (q : sequence) : sequence := {|
  sq_prompt := sq_prompt q;
  sq_tokens := match outputs !! seq_id d with
               | Some o => if context_len d =? len (sq_tokens q)
                           then sq_tokens q ++ [output_id o] else sq_tokens q
               | None => sq_tokens q
               end;
  sq_cached := context_len d;
  sq_blocks := block_ids d |}.
Definition advance_all (outputs : gmap Z (InferOutput V)) (ins : list InferInput)
    (seqs : gmap Z sequence) : gmap Z sequence :=
  foldr (λ d, alter (advance outputs d) (seq_id d)) seqs ins.

Definition cached_slots (q : sequence) : list (Z * Z) :=
  slot page (sq_blocks q) <$> py_range 0 (sq_cached q).

(** What the client has to see to: requests continue their sequences where tokens
    are cached, keep the pages they have, write nothing another sequence has
    cached, and name blocks there are. *)
Record admissible (s : system) (ins : list InferInput) : Prop := {
  ad_batch : batchable page (dc_max_len D) ins;
  ad_ids : NoDup (seq_id <$> ins);
  ad_seq d : d ∈ ins → ∃ q, sy_seqs s !! seq_id d = Some q ∧ continues d (sq_tokens q) ∧
    filled_token_len d ≤ sq_cached q ∧ sq_blocks q `prefix_of` block_ids d;
  ad_writes d id q x : d ∈ ins → sy_seqs s !! id = Some q → id ≠ seq_id d →
    x ∈ new_slots page d → x ∉ cached_slots q;
  ad_blocks d b : d ∈ ins → b ∈ block_ids d → 0 ≤ b < num_blocks;
}.

Inductive serve_step : system → system → Prop :=
| serve_arrive s id prompt :
    sy_seqs s !! id = None →
    serve_step s {| sy_nodes := sy_nodes s;
                    sy_seqs := <[id := {| sq_prompt := prompt; sq_tokens := prompt;
                                          sq_cached := 0; sq_blocks := [] |}]> (sy_seqs s) |}
| serve_share s id prompt id0 q0 n blocks :
    (* a prefix of the prompt is cached for another sequence: its pages are shared *)
    sy_seqs s !! id = None → sy_seqs s !! id0 = Some q0 →
    0 ≤ n ≤ sq_cached q0 → n ≤ len prompt → py_slice prompt 0 n = py_slice (sq_tokens q0) 0 n →
    blocks `prefix_of` sq_blocks q0 → n ≤ page * len blocks →
    serve_step s {| sy_nodes := sy_nodes s;
                    sy_seqs := <[id := {| sq_prompt := prompt; sq_tokens := prompt;
                                          sq_cached := n; sq_blocks := blocks |}]> (sy_seqs s) |}
| serve_leave s id :
    serve_step s {| sy_nodes := sy_nodes s; sy_seqs := delete id (sy_seqs s) |}
| serve_round s ins wait record outputs ns :
    admissible s ins →
    infer_group (infer_request ins wait record) (sy_nodes s) = (λ n, (Ok outputs, n)) <$> ns →
    serve_step s {| sy_nodes := ns; sy_seqs := advance_all outputs ins (sy_seqs s) |}.

(** The start: the workers as [__init__] and [init_cache] leave them. *)
Record serve_start (s : system) : Prop := {
  st_layers : mc_num_layers config = Z.of_nat layers;
  st_ranks : len (sy_nodes s) = w;
  st_workers r n : sy_nodes s !! r = Some n → ∃ gpu host disk path params,
    init_cache gpu host disk path (ModelWorker_init (Z.of_nat r) config eos page)
    = (Ok params, node_worker n) ∧ num_blocks ≤ kvp_num_gpu_blocks params;
  st_seqs : sy_seqs s = ∅;
}.

(** ** What is generated from a prompt alone *)

Definition greedy (tokens : list Z) : Z := (torch_max (softmax (dc_logits D tokens))).2.
Fixpoint generate (n : nat) (prompt : list Z) : list Z :=
  match n with
  | O => prompt
  | S n => let tokens := generate n prompt in tokens ++ [greedy tokens]
  end.

(** ** A round on the ranks *)

(** The worker of rank [r], with its part of the caches. *)
Record rank_ok (cs : list cache) (r : nat) (n : node) : Prop := {
  rk_config : model_config (node_worker n) = config;
  rk_page : block_size (node_worker n) = page;
  rk_caches : kv_caches (node_worker n) = Some (shard_cache (sz_kv z / w) (Z.of_nat r) <$> cs);
  rk_vocab : vocab_cache_ok tokenizer_decode (vocab_cache (node_worker n));
  rk_eos : eos_token_ids (node_worker n) = eos;
  rk_greedy : top_k (node_worker n) = 1;
}.
Definition ranks_ok (cs : list cache) (ns : list node) : Prop :=
  len ns = w ∧ ∀ r n, ns !! r = Some n → rank_ok cs r n.

Lemma shard_caches_seq (c : cache) :
  shard_caches z w c = (λ r : nat, shard_cache (sz_kv z / w) (Z.of_nat r) c) <$> seq 0 (Z.to_nat w).
Proof using DecoderLaws0.
  pose proof (dl_ranks (D := D) (z := z) (w := w) (page := page)). unfold shard_caches.
  replace (py_range 0 w) with (py_range 0 (Z.of_nat (Z.to_nat w))) by (f_equal; lia).
  by rewrite py_range_seq, <-list_fmap_compose.
Qed.

Lemma lookup_shard_caches (c : cache) (r : nat) :
  Z.of_nat r < w → shard_caches z w c !! r = Some (shard_cache (sz_kv z / w) (Z.of_nat r) c).
Proof using DecoderLaws0.
  intros Hr. rewrite shard_caches_seq, list_lookup_fmap, lookup_seq_lt by lia. done.
Qed.

Lemma group_caches_ok (cs : list cache) ns :
  length cs = layers → ranks_ok cs ns → group_caches ns = shard_caches z w <$> cs.
Proof using DecoderLaws0.
  intros Hl [Hlen Hok]. unfold group_caches. apply list_eq. intros l. rewrite !list_lookup_fmap.
  destruct (decide (l < layers)%nat) as [Hll|Hll].
  2:{ by rewrite lookup_seq_ge, (lookup_ge_None_2 cs) by lia. }
  rewrite lookup_seq_lt by done. destruct (lookup_lt_is_Some_2 cs l) as [c Hc]; [lia|].
  rewrite Hc. simpl. f_equal.
  rewrite (omap_imap _ (λ r : nat, shard_cache (sz_kv z / w) (Z.of_nat r) c)).
  - rewrite shard_caches_seq. f_equal. f_equal. unfold len in Hlen. lia.
  - intros r n Hn. rewrite (rk_caches _ _ _ (Hok r n Hn)). simpl. by rewrite list_lookup_fmap, Hc.
Qed.

Lemma rank_model_Ok (cs new : list cache) ids ip rs (r : nat) :
  dc_forward D ids ip (Some (shard_caches z w <$> cs))
  = Ok (replicate (Z.to_nat w) (Mat (sz_vocab z) rs), (λ c, Some <$> shard_caches z w c) <$> new) →
  Z.of_nat r < w →
  rank_model (shard_caches z w <$> cs) r ids ip (Some (shard_cache (sz_kv z / w) (Z.of_nat r) <$> cs))
  = Ok (rs, Some (shard_cache (sz_kv z / w) (Z.of_nat r) <$> new)).
Proof using DecoderLaws0.
  intros Hf Hr. unfold rank_model. csimpl.
  assert (zip_with (λ c row, <[r := c]> row) (shard_cache (sz_kv z / w) (Z.of_nat r) <$> cs)
    (shard_caches z w <$> cs) = shard_caches z w <$> cs) as ->.
  { rewrite zip_with_fmap_l, zip_with_fmap_r, zip_with_diag. apply fmap_list_ext. intros c _.
    apply list_insert_id. by apply lookup_shard_caches. }
  rewrite Hf.
  assert (py_get (replicate (Z.to_nat w) (Mat (sz_vocab z) rs)) (Z.of_nat r) = Ok (Mat (sz_vocab z) rs)) as ->.
  { apply py_get_Ok; [lia|]. rewrite Nat2Z.id. apply lookup_replicate. split; [done|lia]. }
  simpl. do 3 f_equal.
  assert (∀ l : list cache, omap (λ l : list (option cache), mjoin (l !! r))
    ((λ c, Some <$> shard_caches z w c) <$> l) = shard_cache (sz_kv z / w) (Z.of_nat r) <$> l) as E.
  { induction l as [|c l IH]; [done|]. csimpl. rewrite list_lookup_fmap, lookup_shard_caches by done.
    simpl. by rewrite IH. }
  apply E.
Qed.

(** The answer of every rank to a batch, and the rank afterwards. *)
Lemma Infer_Ok (cs new : list cache) ins wait record ids ip rs (r : nat) (n : node) :
  rank_ok cs r n → Z.of_nat r < w → NoDup (seq_id <$> ins) → len rs = len ins →
  make_inputs config page true ins = Ok (sort_inputs ins, (ids, ip)) →
  dc_forward D ids ip (Some (shard_caches z w <$> cs))
  = Ok (replicate (Z.to_nat w) (Mat (sz_vocab z) rs), (λ c, Some <$> shard_caches z w c) <$> new) →
  ∃ n', Infer (rank_model (shard_caches z w <$> cs) r) tokenizer_decode copy_blocks
          (infer_request ins wait record) n
        = (Ok (greedy_outputs tokenizer_decode eos (sort_inputs ins) rs), n') ∧ rank_ok new r n'.
Proof using DecoderLaws0.
  intros [Hcfg Hpg Hkv Hvc Heos Hgr] Hr Hnd Hlen Hmake Hf.
  destruct (execute_Ok (rank_model (shard_caches z w <$> cs) r) tokenizer_decode copy_blocks
    (node_worker n) (shard_cache (sz_kv z / w) (Z.of_nat r) <$> cs) ins wait record [] ids ip rs
    (Some (shard_cache (sz_kv z / w) (Z.of_nat r) <$> new))) as (c & Hex & Hc);
    [by rewrite Hcfg, Hpg|exact Hkv|done|done|by left|by apply rank_model_Ok|done|].
  unfold Infer. cbn [inputs use_cache wait_before_execute record_after_execute infer_request].
  unfold node_worker in *. rewrite Hex, Heos. eexists. split; [done|]. by split.
Qed.

(** The texts of the sequences. *)
Definition text_of (s : system) (d : InferInput) : list Z :=
  default [] (sq_tokens <$> sy_seqs s !! seq_id d).
(** The answer to a batch. *)
Definition answer (s : system) (ins : list InferInput) : gmap Z (InferOutput V) :=
  greedy_outputs tokenizer_decode eos (sort_inputs ins)
    ((λ d, dc_logits D (py_slice (text_of s d) 0 (context_len d))) <$> sort_inputs ins).

(** What a sequence has in the caches. *)
Record seq_ok (cs : list cache) (q : sequence) : Prop := {
  sk_cached : 0 ≤ sq_cached q ≤ len (sq_tokens q);
  sk_room : sq_cached q ≤ page * len (sq_blocks q);
  sk_holds : holds cs (sq_blocks q) (sq_cached q) (dc_pages D (sq_tokens q));
}.
Record caches_ok (cs : list cache) (s : system) : Prop := {
  co_layers : length cs = layers;
  co_caches : Forall (cache_ok z page) cs;
  co_ranks : ranks_ok cs (sy_nodes s);
  co_seqs id q : sy_seqs s !! id = Some q → seq_ok cs q;
}.

Lemma holds_take (cs : list cache) pages m n (kvs : list (list (head_row V * head_row V))) :
  m ≤ n → holds cs pages n kvs → holds cs pages m kvs.
Proof using.
  intros Hmn Hh. unfold holds in *.
  assert ((λ c : cache, take (Z.to_nat m) (paged_kv c pages n)) <$> cs
    = (λ kv, Some <$> take (Z.to_nat m) kv) <$> kvs) as E.
  { rewrite (list_fmap_compose (λ c : cache, paged_kv c pages n) (take (Z.to_nat m))), Hh.
    rewrite <-list_fmap_compose. apply list_fmap_ext. intros i kv _. simpl.
    rewrite <-fmap_take, take_take. do 2 f_equal. lia. }
  rewrite <-E. apply list_fmap_ext. intros i c _. by apply paged_kv_take.
Qed.

(** More text after what is cached. *)
Lemma holds_more (cs : list cache) pages n T more :
  n ≤ len T → holds cs pages n (dc_pages D T) ↔ holds cs pages n (dc_pages D (T ++ more)).
Proof using DecoderLaws0.
  intros Hn. unfold holds.
  assert (dc_pages D T = take (length T) <$> dc_pages D (T ++ more)) as ->.
  { rewrite <-(dl_prefix (D := D) (z := z) (w := w) (page := page)). by rewrite take_app_length. }
  rewrite <-list_fmap_compose. split; intros ->; apply list_fmap_ext; intros i kv _; simpl;
    rewrite take_take; do 2 f_equal; unfold len in Hn; lia.
Qed.

Lemma holds_same (cs cs' : list cache) pages pages' n kvs :
  Forall (cache_ok z page) cs → Forall (cache_ok z page) cs' → 0 < page →
  n ≤ page * len pages → pages `prefix_of` pages' →
  Forall2 (λ c c', ∀ x, x ∈ slot page pages <$> py_range 0 n →
    pc_slots c' !! x = pc_slots c !! x) cs cs' →
  holds cs' pages' n kvs ↔ holds cs pages n kvs.
Proof using.
  intros Hcs Hcs' Hp Hn Hpre Hsame. unfold holds.
  assert ((λ c : cache, paged_kv c pages' n) <$> cs' = (λ c : cache, paged_kv c pages n) <$> cs) as ->;
    [|done].
  induction Hsame as [|c c' cs cs' Hc _ IH]; [done|]. csimpl.
  apply Forall_cons in Hcs as [[Hpc _] Hcs], Hcs' as [[Hpc' _] Hcs'].
  rewrite IH by done. f_equal. apply paged_kv_same; rewrite ?Hpc; done.
Qed.

(** The same caches, with more pages. *)
Lemma holds_pages (cs : list cache) pages pages' n kvs :
  Forall (cache_ok z page) cs → 0 < page → n ≤ page * len pages → pages `prefix_of` pages' →
  holds cs pages' n kvs ↔ holds cs pages n kvs.
Proof using.
  intros Hcs Hp Hn Hpre. apply holds_same; try done.
  apply Forall2_same_length_lookup_2; [done|]. intros i c c' Hc1 Hc2. by simplify_eq.
Qed.

(** A batch the client may send: all ranks give the same answer. *)
Lemma round_Ok cs s ins wait record :
  caches_ok cs s → admissible s ins →
  ∃ new ns,
    infer_group (infer_request ins wait record) (sy_nodes s) = (λ n, (Ok (answer s ins), n)) <$> ns ∧
    ranks_ok new ns ∧ length new = layers ∧ Forall (cache_ok z page) new ∧
    (∀ d, d ∈ ins → holds new (block_ids d) (context_len d) (dc_pages D (text_of s d))) ∧
    Forall2 (λ c c', ∀ x, x ∉ batch_slots page ins → pc_slots c' !! x = pc_slots c !! x) cs new.
Proof using DecoderLaws0.
  intros [Hl Hcs Hns Hseqs] [Hba Hnd Hseq Hpg _].
  pose proof (dl_page (D := D) (z := z) (w := w) (page := page)) as Hpage.
  destruct (dl_forward (D := D) (z := z) (w := w) (page := page) (config := config) (layers := layers)
    cs ins (text_of s)) as (ids & ip & new & Hmake & Hf & Hln & Hnew & Hholds & Hframe); [done..| |].
  { intros d Hd. destruct (Hseq d Hd) as (q & Hq & Hct & Hfill & Hpre).
    unfold text_of. rewrite Hq. simpl. split; [done|].
    destruct (Hseqs _ _ Hq) as [Hc Hroom Hh]. apply (holds_take _ _ _ (sq_cached q)); [done|].
    by apply (holds_pages cs (sq_blocks q)); [|lia|..]. }
  pose proof Hns as [Hlen Hok].
  set (rs := (λ d, dc_logits D (py_slice (text_of s d) 0 (context_len d))) <$> sort_inputs ins) in *.
  assert (len rs = len ins) as Hrs.
  { unfold rs. rewrite len_fmap. unfold len, sort_inputs. by rewrite sort_key_perm. }
  unfold infer_group. rewrite (group_caches_ok cs) by done.
  assert (∀ ns (k : nat), (∀ r n, ns !! r = Some n → rank_ok cs (k + r) n) → Z.of_nat k + len ns ≤ w →
    ∃ ns', imap (λ r, Infer (rank_model (shard_caches z w <$> cs) (k + r)) tokenizer_decode copy_blocks
                   (infer_request ins wait record)) ns
           = (λ n, (Ok (answer s ins), n)) <$> ns' ∧ length ns' = length ns ∧
           ∀ r n, ns' !! r = Some n → rank_ok new (k + r) n) as Hall.
  { clear Hlen Hok Hns. intros ns. induction ns as [|n ns IH]; intros k Hok Hk; [by exists []|].
    rewrite len_cons in Hk. pose proof (len_nonneg ns).
    destruct (Infer_Ok cs new ins wait record ids ip rs (k + 0)%nat n) as (n' & E & Hn');
      [by apply Hok|lia|done|done|done|done|].
    destruct (IH (S k)) as (ns' & Ens & Hlen' & Hns'); [|lia|].
    { intros r m Hr. replace (S k + r)%nat with (k + S r)%nat by lia. by apply Hok. }
    exists (n' :: ns'). csimpl. rewrite E, <-Ens. split_and!; [|by rewrite Hlen'|].
    - f_equal. apply imap_ext. intros r m _. simpl. by rewrite Nat.add_succ_r.
    - intros [|r] m Hr; simpl in Hr; [by simplify_eq|].
      replace (k + S r)%nat with (S k + r)%nat by lia. by apply Hns'. }
  destruct (Hall (sy_nodes s) 0%nat Hok) as (ns' & E & Hlen' & Hns'); [lia|].
  exists new, ns'. split; [exact E|]. split; [|done]. split; [unfold len in *; lia|exact Hns'].
Qed.

Lemma answer_at s ins d :
  NoDup (seq_id <$> ins) → d ∈ ins →
  answer s ins !! seq_id d
  = Some (greedy_output tokenizer_decode eos (dc_logits D (py_slice (text_of s d) 0 (context_len d)))).
Proof using.
  intros Hnd Hd. assert (sort_inputs ins ≡ₚ ins) as Hperm by apply sort_key_perm.
  rewrite <-Hperm in Hd. apply list_elem_of_lookup in Hd as [i Hi].
  apply (greedy_outputs_at _ _ _ _ i); [by rewrite Hperm|by rewrite len_fmap|done|].
  by rewrite list_lookup_fmap, Hi.
Qed.

Lemma output_greedy tokens :
  output_id (greedy_output tokenizer_decode eos (dc_logits D tokens)) = greedy tokens.
Proof using. unfold greedy_output, greedy. by destruct (torch_max _). Qed.

Lemma advance_all_in outputs ins seqs d :
  NoDup (seq_id <$> ins) → d ∈ ins →
  advance_all outputs ins seqs !! seq_id d = advance outputs d <$> seqs !! seq_id d.
Proof using.
  unfold advance_all. induction ins as [|d' ins IH]; intros Hnd Hd; [by apply not_elem_of_nil in Hd|].
  apply NoDup_cons in Hnd as [Hd' Hnd]. simpl. apply elem_of_cons in Hd as [->|Hd].
  - rewrite lookup_alter_eq. f_equal. clear IH. induction ins as [|e ins IH]; [done|]. simpl.
    apply not_elem_of_cons in Hd' as [Hne Hd']. apply NoDup_cons in Hnd as [_ Hnd].
    rewrite lookup_alter_ne by done. by apply IH.
  - rewrite lookup_alter_ne; [by apply IH|]. intros E. apply Hd'. rewrite E.
    by apply list_elem_of_fmap_2.
Qed.

Lemma advance_all_out outputs ins seqs id :
  id ∉ seq_id <$> ins → advance_all outputs ins seqs !! id = seqs !! id.
Proof using.
  unfold advance_all. induction ins as [|d ins IH]; intros Hid; [done|]. simpl.
  apply not_elem_of_cons in Hid as [Hne Hid]. rewrite lookup_alter_ne by done. by apply IH.
Qed.

(** Each sequence after a round, in the batch or not. *)
Lemma advance_all_inv outputs ins seqs id q :
  NoDup (seq_id <$> ins) → advance_all outputs ins seqs !! id = Some q →
  (∃ d q0, d ∈ ins ∧ id = seq_id d ∧ seqs !! id = Some q0 ∧ q = advance outputs d q0) ∨
  (id ∉ seq_id <$> ins ∧ seqs !! id = Some q).
Proof using.
  intros Hnd Hq. destruct (decide (id ∈ seq_id <$> ins)) as [Hid|Hid].
  - left. apply list_elem_of_fmap in Hid as (d & -> & Hd). rewrite advance_all_in in Hq by done.
    apply fmap_Some in Hq as (q0 & Hq0 & ->). by exists d, q0.
  - right. by rewrite advance_all_out in Hq.
Qed.

(** ** The invariant of serving *)

Definition generated (seqs : gmap Z sequence) : Prop :=
  ∀ id q, seqs !! id = Some q → ∃ n, sq_tokens q = generate n (sq_prompt q).
Record serving_ok (s : system) : Prop := {
  so_caches : ∃ cs, caches_ok cs s;
  so_generated : generated (sy_seqs s);
}.

Lemma paged_kv_0 (c : cache) pages : paged_kv c pages 0 = [].
Proof using. unfold paged_kv. by rewrite py_range_empty. Qed.

Lemma start_ok s : serve_start s → serving_ok s.
Proof using DecoderLaws0.
  intros [HL Hlen Hw Hs]. split.
  - exists (replicate layers (PagedCache page ∅)). split.
    + apply length_replicate.
    + apply Forall_replicate. by apply (dl_empty (D := D) (w := w) (config := config) (layers := layers)).
    + split; [done|]. intros r n Hn.
      destruct (Hw r n Hn) as (gpu & host & disk & path & params & E & _).
      apply init_cache_state in E. cbn in E. rewrite HL in E.
      split; rewrite E; try done. simpl. f_equal. apply list_eq. intros l.
      rewrite !list_lookup_fmap. destruct (decide (l < layers)%nat).
      * by rewrite lookup_py_range, lookup_replicate_2 by lia.
      * rewrite !lookup_ge_None_2; [done|..]; rewrite ?length_replicate, ?length_py_range; lia.
    + intros id q. by rewrite Hs, lookup_empty.
  - intros id q. by rewrite Hs, lookup_empty.
Qed.

Lemma arrive_ok s id prompt :
  sy_seqs s !! id = None → serving_ok s →
  serving_ok {| sy_nodes := sy_nodes s;
                sy_seqs := <[id := {| sq_prompt := prompt; sq_tokens := prompt;
                                      sq_cached := 0; sq_blocks := [] |}]> (sy_seqs s) |}.
Proof using DecoderLaws0.
  intros Hid [[cs [Hl Hcs Hr Hseqs]] Hgen]. split; cbn [sy_seqs sy_nodes].
  - exists cs. split; cbn [sy_seqs sy_nodes]; try done. intros id' q [[-> <-]|[_ Hq]]%lookup_insert_Some; [|by eapply Hseqs].
    split; simpl; [pose proof (len_nonneg prompt); lia|unfold len; simpl; lia|]. unfold holds.
    rewrite (list_fmap_ext _ (λ _, []) cs) by (intros; apply paged_kv_0).
    apply list_eq. intros l. rewrite !list_lookup_fmap.
    pose proof (dl_layers (D := D) (z := z) (w := w) (page := page) prompt) as Hd.
    destruct (decide (l < layers)%nat).
    + destruct (lookup_lt_is_Some_2 cs l) as [c ->]; [lia|].
      destruct (lookup_lt_is_Some_2 (dc_pages D prompt) l) as [kv ->]; [lia|done].
    + by rewrite !lookup_ge_None_2 by lia.
  - intros i q [[-> <-]|[_ Hq]]%lookup_insert_Some; [by exists 0%nat|by eapply Hgen].
Qed.

(** Texts with a common prefix have the keys and values of the prefix in common. *)
Lemma pages_prefix T T' n :
  n ≤ len T → n ≤ len T' → py_slice T 0 n = py_slice T' 0 n →
  (λ kvs, Some <$> take (Z.to_nat n) kvs) <$> dc_pages D T
  = (λ kvs, Some <$> take (Z.to_nat n) kvs) <$> dc_pages D T'.
Proof using DecoderLaws0.
  intros Hn Hn' E. rewrite !py_slice_0 in E.
  assert (∀ T, (λ kvs : list (head_row V * head_row V), Some <$> take (Z.to_nat n) kvs) <$> dc_pages D T
    = (fmap (M := list) Some) <$> dc_pages D (take (Z.to_nat n) T)) as Hp.
  { intros U. by rewrite (dl_prefix (D := D) (z := z) (w := w) (page := page)), <-list_fmap_compose. }
  by rewrite !Hp, E.
Qed.

Lemma share_ok s id prompt id0 q0 n blocks :
  sy_seqs s !! id0 = Some q0 → 0 ≤ n ≤ sq_cached q0 → n ≤ len prompt →
  py_slice prompt 0 n = py_slice (sq_tokens q0) 0 n →
  blocks `prefix_of` sq_blocks q0 → n ≤ page * len blocks → serving_ok s →
  serving_ok {| sy_nodes := sy_nodes s;
                sy_seqs := <[id := {| sq_prompt := prompt; sq_tokens := prompt;
                                      sq_cached := n; sq_blocks := blocks |}]> (sy_seqs s) |}.
Proof using DecoderLaws0.
  intros Hq0 Hn Hlen Hpre Hbl Hroom [[cs [Hl Hcs Hr Hseqs]] Hgen]. split; cbn [sy_seqs sy_nodes].
  - exists cs. split; cbn [sy_seqs sy_nodes]; try done.
    intros id' q [[-> <-]|[_ Hq]]%lookup_insert_Some; [|by eapply Hseqs].
    destruct (Hseqs _ _ Hq0) as [Hc _ Hh]. split; cbn [sq_cached sq_tokens sq_blocks]; [lia|done|].
    pose proof (dl_page (D := D) (z := z) (w := w) (page := page)).
    apply (holds_pages cs blocks (sq_blocks q0)); [done|lia|done|done|].
    apply (holds_take _ _ n) in Hh; [|lia]. unfold holds in *. rewrite Hh.
    apply pages_prefix; [lia|lia|done].
  - intros i q [[-> <-]|[_ Hq]]%lookup_insert_Some; [by exists 0%nat|by eapply Hgen].
Qed.

Lemma leave_ok s id :
  serving_ok s → serving_ok {| sy_nodes := sy_nodes s; sy_seqs := delete id (sy_seqs s) |}.
Proof using.
  intros [[cs [Hl Hcs Hr Hseqs]] Hgen]. split; cbn [sy_seqs sy_nodes].
  - exists cs. split; cbn [sy_seqs sy_nodes]; try done. intros i q [_ Hq]%lookup_delete_Some. by eapply Hseqs.
  - intros i q [_ Hq]%lookup_delete_Some. by eapply Hgen.
Qed.

(** A sequence of the batch afterwards. *)
Lemma advance_ok s ins new d q :
  NoDup (seq_id <$> ins) → d ∈ ins → sy_seqs s !! seq_id d = Some q → input_wf page d → 0 < page →
  continues d (sq_tokens q) →
  holds new (block_ids d) (context_len d) (dc_pages D (text_of s d)) →
  seq_ok new (advance (answer s ins) d q) ∧
  ∀ n, sq_tokens q = generate n (sq_prompt q) →
    ∃ n', sq_tokens (advance (answer s ins) d q) = generate n' (sq_prompt q).
Proof using DecoderLaws0.
  intros Hnd Hd Hq Hwf Hp Hct Hh. unfold advance. rewrite (answer_at s ins d Hnd Hd), output_greedy.
  assert (text_of s d = sq_tokens q) as Ht by (unfold text_of; by rewrite Hq). rewrite Ht in *.
  pose proof Hct as [Hf Hl Hctx Hin _].
  assert (context_len d ≤ page * len (block_ids d)) as Hroom.
  { rewrite (wf_blocks _ _ Hwf).
    pose proof (Z.div_mod (context_len d + page - 1) page). pose proof (Z.mod_pos_bound (context_len d + page - 1) page). lia. }
  destruct (Z.eqb_spec (context_len d) (len (sq_tokens q))) as [E|E]; cbn [sq_tokens]; split.
  - split; cbn [sq_tokens sq_cached sq_blocks]; [rewrite len_app; unfold len at 2; simpl; lia|done|].
    by apply holds_more.
  - intros n Hn. exists (S n). simpl. rewrite E, py_slice_all, Hn. done.
  - split; cbn [sq_tokens sq_cached sq_blocks]; [lia|done|done].
  - intros n Hn. by exists n.
Qed.

Lemma round_keeps s ins wait record outputs ns :
  serving_ok s → admissible s ins →
  infer_group (infer_request ins wait record) (sy_nodes s) = (λ n, (Ok outputs, n)) <$> ns →
  serving_ok {| sy_nodes := ns; sy_seqs := advance_all outputs ins (sy_seqs s) |}.
Proof using DecoderLaws0.
  intros [[cs Hco] Hgen] Had Hinf.
  destruct (round_Ok cs s ins wait record Hco Had)
    as (new & ns' & E & Hr & Hl & Hnew & Hholds & Hframe).
  pose proof (dl_page (D := D) (z := z) (w := w) (page := page)) as Hpage.
  pose proof (dl_ranks (D := D) (z := z) (w := w) (page := page)) as Hw.
  rewrite Hinf in E. assert (outputs = answer s ins ∧ ns = ns') as [-> ->].
  { assert (ns = ns') as ->.
    { apply (f_equal (fmap snd)) in E. rewrite <-!list_fmap_compose in E.
      unfold compose in E. simpl in E. by rewrite !list_fmap_id in E. }
    split; [|done]. destruct Hr as [Hlen _]. destruct ns' as [|n ns']; [unfold len in Hlen; simpl in Hlen; lia|].
    by injection E. }
  destruct Hco as [_ Hcs _ Hseqs]. pose proof Had as [Hba Hnd Hseq Hpg _].
  assert (∀ d q, d ∈ ins → sy_seqs s !! seq_id d = Some q →
    seq_ok new (advance (answer s ins) d q) ∧
    ∀ n, sq_tokens q = generate n (sq_prompt q) →
      ∃ n', sq_tokens (advance (answer s ins) d q) = generate n' (sq_prompt q)) as Hadv.
  { intros d q Hd Hq. destruct (Hseq d Hd) as (q' & Hq' & Hct & _). simplify_eq.
    apply advance_ok; try done; [by apply Hba|lia|by apply Hholds]. }
  split; cbn [sy_seqs sy_nodes].
  - exists new. split; cbn [sy_seqs sy_nodes]; try done.
    intros id q [(d & q0 & Hd & -> & Hq & ->)|[Hid Hq]]%advance_all_inv; [by apply Hadv| |done].
    destruct (Hseqs _ _ Hq) as [Hc Hroom Hh]. split; [done..|].
    eapply (holds_same cs new); [exact Hcs|exact Hnew|lia|exact Hroom|done| |exact Hh].
    eapply Forall2_impl; [exact Hframe|]. intros c c' Hcc x Hx. apply Hcc.
    intros (d & Hd & Hxd)%elem_of_batch_slots.
    eapply (Hpg d id q x); try done. intros ->. apply Hid. by apply list_elem_of_fmap_2.
  - intros id q [(d & q0 & Hd & -> & Hq & ->)|[Hid Hq]]%advance_all_inv; [|by eapply Hgen|done].
    destruct (Hgen _ _ Hq) as [n Hn]. exact (proj2 (Hadv d q0 Hd Hq) n Hn).
Qed.

Lemma step_keeps s s' : serve_step s s' → serving_ok s → serving_ok s'.
Proof using DecoderLaws0.
  destruct 1; intros Hs; [by apply arrive_ok|by eapply share_ok|by apply leave_ok|by eapply round_keeps].
Qed.

Lemma reachable_ok s s' : serve_start s → rtc serve_step s s' → serving_ok s'.
Proof using DecoderLaws0.
  intros Hs Hr. apply start_ok in Hs. induction Hr; [done|]. eauto using step_keeps.
Qed.

Lemma round_step s ins :
  serving_ok s → admissible s ins →
  ∃ ns, serve_step s {| sy_nodes := ns; sy_seqs := advance_all (answer s ins) ins (sy_seqs s) |}.
Proof using DecoderLaws0.
  intros [[cs Hco] _] Had. destruct (round_Ok cs s ins false false Hco Had) as (new & ns & E & _).
  exists ns. by eapply serve_round.
Qed.

Lemma generate_length n prompt : length (generate n prompt) = (length prompt + n)%nat.
Proof using. induction n; simpl; [lia|]. rewrite length_app. simpl. lia. Qed.

Lemma generated_tokens tokens prompt :
  (∃ n, tokens = generate n prompt) → tokens = generate (length tokens - length prompt) prompt.
Proof using. intros [n ->]. f_equal. rewrite generate_length. lia. Qed.

Lemma rounds_answered s ins wait record :
  serving_ok s → admissible s ins →
  ∃ outputs ns,
    infer_group (infer_request ins wait record) (sy_nodes s) = (λ n, (Ok outputs, n)) <$> ns ∧
    len ns = w ∧
    ∀ d q, d ∈ ins → sy_seqs s !! seq_id d = Some q →
      ∃ o, outputs !! seq_id d = Some o ∧
        output_id o = greedy (py_slice (sq_tokens q) 0 (context_len d)) ∧
        output_word o = tokenizer_decode (output_id o) ∧
        is_eos o = bool_decide (output_id o ∈ eos).
Proof using DecoderLaws0.
  intros [[cs Hco] _] Had.
  destruct (round_Ok cs s ins wait record Hco Had) as (new & ns & E & [Hlen _] & _).
  exists (answer s ins), ns. split; [exact E|]. split; [done|]. intros d q Hd Hq.
  eexists. split; [by apply answer_at; [apply Had|]|].
  unfold text_of. rewrite Hq. simpl. unfold greedy, greedy_output.
  by destruct (torch_max _).
Qed.

(** C2: serving generates greedily.  Whatever the batches, the chunks, the pages
    and the number of ranks, the tokens of every sequence, at every moment of
    serving, are its prompt extended by the tokens the dense model scores highest
    after the tokens before them. *)
Theorem generation_is_greedy s0 s id q :
  serve_start s0 → rtc serve_step s0 s → sy_seqs s !! id = Some q →
  sq_tokens q = generate (length (sq_tokens q) - length (sq_prompt q)) (sq_prompt q).
Proof using DecoderLaws0.
  intros H0 Hr Hq. apply generated_tokens. by eapply (so_generated _ (reachable_ok _ _ H0 Hr)).
Qed.

End serving.

(** ** Serving the Llama model over the integers *)

#[local] Existing Instances floats_Z norm_Z heads_Z heads_Z_laws heads_Z_headwise sampling_Z.

Lemma llama_ok_Z : llama_ok empty_Z sizes_Z 2 rope_Z model_Z 2.
Proof.
  destruct deployment_Z as [He Hz Hp HM _ _]. split; try done. by apply (bool_decide_unpack _).
Qed.

Notation decoder_Z := (llama_decoder (headwise attend1_Z) empty_Z [] sizes_Z rope_Z model_Z 2).
#[local] Instance decoder_Z_laws : DecoderLaws decoder_Z sizes_Z 2 2 config_Z 1 :=
  llama_serves (headwise attend1_Z) attend1_Z empty_Z [] sizes_Z config_Z 2 rope_Z model_Z 2 llama_ok_Z.

Notation node_Z := (WorkerService.node (K := head_row Z) (V := head_row Z) (F := Z)).
Definition worker_of (r : nat) : ModelWorker (K := head_row Z) (V := head_row Z) (F := Z) :=
  (init_cache 256 0 0 "/tmp" (ModelWorker_init (Z.of_nat r) config_Z [1] 2)).2.
Definition node_of (r : nat) : node_Z := {|
  nd_service := WorkerService_init (worker_of r) "/run/worker";
  nd_files := ∅; nd_socket := false; nd_kv := None |}.
Definition start_Z : system := {| sy_nodes := [node_of 0; node_of 1]; sy_seqs := ∅ |}.

Lemma start_Z_ok : serve_start 2 2 config_Z 1 [1] 6 start_Z.
Proof.
  assert (∀ r : nat, (r < 2)%nat → ∃ params,
    init_cache 256 0 0 "/tmp" (ModelWorker_init (Z.of_nat r) config_Z [1] 2) = (Ok params, worker_of r)
    ∧ 6 ≤ kvp_num_gpu_blocks params) as Hinit.
  { intros r _. eexists. unfold worker_of. rewrite (surjective_pairing (init_cache _ _ _ _ _)).
    split; [f_equal; reflexivity|]. by vm_compute. }
  split; try done. intros r n Hn. exists 256, 0, 0, "/tmp".
  destruct r as [|[|r]]; simplify_eq/=; apply Hinit; lia.
Qed.

(** Two sequences with a common prefix: its two tokens are fed first and their page
    is shared. *)
Definition prompt_8 : list Z := [3; 0; 2].
Definition prompt_9 : list Z := [3; 0; 1].
Definition prefix_8 : InferInput := {| seq_id := 8; input_ids := [3; 0]; input_len := 2;
  filled_token_len := 0; context_len := 2; block_ids := [0] |}.
Definition rest_8 : InferInput := {| seq_id := 8; input_ids := [2]; input_len := 1;
  filled_token_len := 2; context_len := 3; block_ids := [0; 3] |}.
Definition rest_9 : InferInput := {| seq_id := 9; input_ids := [1]; input_len := 1;
  filled_token_len := 2; context_len := 3; block_ids := [0; 5] |}.
Definition seq_Z (prompt tokens : list Z) (cached : Z) (blocks : list Z) : sequence :=
  {| sq_prompt := prompt; sq_tokens := tokens; sq_cached := cached; sq_blocks := blocks |}.
Definition seqs_1 : gmap Z sequence := {[8 := seq_Z prompt_8 prompt_8 0 []]}.
Definition seqs_2 : gmap Z sequence := {[8 := seq_Z prompt_8 prompt_8 2 [0]]}.
Definition seqs_3 : gmap Z sequence := <[9 := seq_Z prompt_9 prompt_9 2 [0]]> seqs_2.
Notation answer_Z := (answer decoder_Z (λ i, pretty i) [1]).

Lemma first_round ns :
  advance_all (answer_Z {| sy_nodes := ns; sy_seqs := seqs_1 |} [prefix_8]) [prefix_8] seqs_1 = seqs_2.
Proof. vm_compute. reflexivity. Qed.
Definition seqs_4 : gmap Z sequence :=
  <[9 := seq_Z prompt_9 [3; 0; 1; 1] 3 [0; 5]]> {[8 := seq_Z prompt_8 [3; 0; 2; 1] 3 [0; 3]]}.
Lemma second_round ns :
  advance_all (answer_Z {| sy_nodes := ns; sy_seqs := seqs_3 |} [rest_8; rest_9]) [rest_8; rest_9] seqs_3
  = seqs_4.
Proof. vm_compute. reflexivity. Qed.

Notation admissible_Z ns seqs := (admissible decoder_Z 2 6 {| sy_nodes := ns; sy_seqs := seqs |}).
Lemma first_admissible (ns : list node_Z) : admissible_Z ns seqs_1 [prefix_8].
Proof.
  assert (∀ d, d ∈ [prefix_8] → d = prefix_8) as Hin by (intros d; apply list_elem_of_singleton).
  split; cbn [sy_seqs].
  - split; try (by intros d ->%Hin); try (by apply (bool_decide_unpack _); vm_compute).
    by split; apply (bool_decide_unpack _); vm_compute.
  - by apply (bool_decide_unpack _).
  - intros d ->%Hin. exists (seq_Z prompt_8 prompt_8 0 []). split; [reflexivity|].
    split; [by split|]. split; [done|]. by apply prefix_nil.
  - intros d id q x ->%Hin Hq. unfold seqs_1 in Hq.
    apply lookup_singleton_Some in Hq as [<- <-]. by intros [].
  - intros d b ->%Hin Hb. cbn in Hb. rewrite elem_of_cons, elem_of_nil in Hb. lia.
Qed.

Lemma second_admissible (ns : list node_Z) : admissible_Z ns seqs_3 [rest_8; rest_9].
Proof.
  assert (∀ d, d ∈ [rest_8; rest_9] → d = rest_8 ∨ d = rest_9) as Hin by set_solver.
  split; cbn [sy_seqs].
  - split; try (by intros d [->| ->]%Hin); try (by apply (bool_decide_unpack _); vm_compute).
    by split; apply (bool_decide_unpack _); vm_compute.
  - by apply (bool_decide_unpack _).
  - intros d [->| ->]%Hin; eexists; (split; [reflexivity|]); (split; [by split|]); (split; [done|]);
      by apply (bool_decide_unpack _).
  - intros d id q x Hd Hq Hne. unfold seqs_3, seqs_2 in Hq.
    apply lookup_insert_Some in Hq as [[<- <-]|[_ Hq]];
      [|apply lookup_singleton_Some in Hq as [<- <-]]; destruct (Hin d Hd) as [->| ->]; try done;
      intros ->%list_elem_of_singleton; by apply (bool_decide_unpack _).
  - intros d b Hd Hb. destruct (Hin d Hd) as [->| ->]; cbn in Hb;
      rewrite !elem_of_cons, elem_of_nil in Hb; lia.
Qed.

Notation steps_Z := (rtc (serve_step decoder_Z 2 1 (λ i, pretty i) (λ kv _, kv) 6)).
Lemma reachable_Z s :
  steps_Z start_Z s → serving_ok decoder_Z sizes_Z 2 2 config_Z 1 (λ i, pretty i) [1] s.
Proof.
  intros Hr. by eapply (reachable_ok decoder_Z sizes_Z 2 2 config_Z 1 _ [1] _ 6 start_Z _ start_Z_ok).
Qed.

Lemma shared_state : ∃ ns : list node_Z, steps_Z start_Z {| sy_nodes := ns; sy_seqs := seqs_3 |}.
Proof.
  pose proof (serve_arrive decoder_Z 2 1 (λ i, pretty i) (λ kv _, kv) 6 start_Z 8 prompt_8 eq_refl) as S1.
  assert (steps_Z start_Z {| sy_nodes := sy_nodes start_Z; sy_seqs := seqs_1 |}) as R1
    by (eapply rtc_l; [exact S1|apply rtc_refl]).
  destruct (round_step decoder_Z sizes_Z 2 2 config_Z 1 (λ i, pretty i) [1] (λ kv _, kv) 6
    {| sy_nodes := sy_nodes start_Z; sy_seqs := seqs_1 |} [prefix_8]) as [ns S2];
    [by apply reachable_Z|apply first_admissible|].
  cbn [sy_seqs] in S2. rewrite first_round in S2. exists ns.
  eapply rtc_r; [eapply rtc_r; [exact R1|exact S2]|].
  by apply (serve_share decoder_Z 2 1 (λ i, pretty i) (λ kv _, kv) 6
    {| sy_nodes := ns; sy_seqs := seqs_2 |} 9 prompt_9 8 (seq_Z prompt_8 prompt_8 2 [0]) 2 [0]).
Qed.


Example generation_is_greedy_witness :
  ∃ s : system, steps_Z start_Z s ∧
    sq_tokens <$> sy_seqs s !! 9 = Some (generate decoder_Z 1 [3; 0; 1]) ∧
    generate decoder_Z 1 [3; 0; 1] = [3; 0; 1; 1].
Proof.
  destruct shared_state as [ns Hr].
  destruct (round_step decoder_Z sizes_Z 2 2 config_Z 1 (λ i, pretty i) [1] (λ kv _, kv) 6
    {| sy_nodes := ns; sy_seqs := seqs_3 |} [rest_8; rest_9]) as [ns' S4];
    [by apply reachable_Z|apply second_admissible|].
  cbn [sy_seqs] in S4. rewrite second_round in S4.
  exists {| sy_nodes := ns'; sy_seqs := seqs_4 |}.
  assert (steps_Z start_Z {| sy_nodes := ns'; sy_seqs := seqs_4 |}) as R4
    by (eapply rtc_r; [exact Hr|exact S4]).
  split; [exact R4|]. split; [|vm_compute; reflexivity].
  pose proof (generation_is_greedy decoder_Z sizes_Z 2 2 config_Z 1 (λ i, pretty i) [1] (λ kv _, kv) 6
    start_Z _ 9 (seq_Z prompt_9 [3; 0; 1; 1] 3 [0; 5]) start_Z_ok R4 eq_refl) as E.
  etransitivity; [|exact (f_equal Some E)]. reflexivity.
Defined.
