(* ===== verification/KVOverlap.v ===== *)
(** * Copies that overlap the model

    [KVPipeline] orders the operations of a pass; here they act on the memory.  Loads,
    kernels and saves of different layers do not touch the same rows, so whatever the
    interleaving, a pass leaves what loading, then running the model, then saving
    leaves: [CopyKV] requests that run while the model runs may be taken for requests
    before and after it, as [Offload] does. *)
From stdpp Require Import relations.
From S2P Require Import KVPipeline.
From S2P Require Import Prelude Tensor FlashInfer ModelWorker Heads Concurrency KVStore KVCopies.

#[local] Opaque py_range.
#[local] Open Scope Z_scope.
Notation layers_of := KVPipeline.num_layers.

(** ** Where an operation belongs *)

Definition layer_of (op : stream_op) : nat :=
  match op with
  | LoadCopy l _ | KVPipeline.RecordPre l | WaitPre l _ | Kernel l
  | RecordPost l | KVPipeline.WaitPost l _ | SaveCopy l _ => l
  end.

Definition is_compute (op : stream_op) : bool :=
  match op with WaitPre _ _ | Kernel _ | RecordPost _ => true | _ => false end.

Section positions.
Context (p : pass).
Notation in_pass op := (layer_of op < layers_of p)%nat.

(** Where an operation of a stream belongs. *)
Lemma upto_op (f : nat → list stream_op) z n k i op :
  (∀ l, length (f l) = z) → (k ≤ z)%nat → (n ≤ layers_of p)%nat → (n = layers_of p → k = 0%nat) →
  upto f n k !! i = Some op →
  ∃ l r, (r < z)%nat ∧ i = (z * l + r)%nat ∧ f l !! r = Some op ∧ (l < layers_of p)%nat.
Proof.
  intros Hz Hk Hn Hnk Hi. pose proof (lookup_lt_Some _ _ _ Hi) as Hlt.
  rewrite (length_upto f z Hz) in Hlt by done.
  assert (z ≠ 0)%nat as Hz0 by (intros ->; lia).
  exists (i / z)%nat, (i mod z)%nat. pose proof (Nat.div_mod_eq i z) as E.
  pose proof (Nat.mod_upper_bound i z Hz0).
  split; [done|]. split; [done|]. split.
  - apply (lookup_upto f z Hz n k); [done|]. by rewrite <-E.
  - destruct (decide (n = layers_of p)) as [En|]; [rewrite (Hnk En) in Hlt|]; nia.
Qed.

Lemma htod_op st i op :
  inv p st → htod st !! i = Some op →
  ∃ r, (r < Datatypes.S (loads p))%nat ∧ i = (Datatypes.S (loads p) * layer_of op + r)%nat ∧
    in_pass op ∧ is_compute op = false.
Proof.
  intros Hinv Hi. rewrite (inv_htod _ _ Hinv) in Hi.
  pose proof (inv_l _ _ Hinv) as [Hl Hs]. pose proof (inv_l0 _ _ Hinv) as H0.
  apply (upto_op (h_layer p) (Datatypes.S (loads p))) in Hi as (l & r & Hr & -> & Hop & Hlt);
    [|apply length_h_layer|done|unfold loaded; case_decide; lia|unfold loaded; case_decide; auto].
  apply list_elem_of_lookup_2 in Hop. unfold h_layer in Hop.
  assert (layer_of op = l ∧ is_compute op = false) as [-> ->].
  { apply elem_of_app in Hop as [(m & -> & _)%list_elem_of_fmap| ->%list_elem_of_singleton]; done. }
  by exists r.
Qed.

Lemma compute_op st i op :
  inv p st → compute st !! i = Some op →
  ∃ r, (r < c_size p)%nat ∧ i = (c_size p * layer_of op + r)%nat ∧ in_pass op.
Proof.
  intros Hinv Hi. rewrite (inv_compute _ _ Hinv) in Hi.
  pose proof (inv_m _ _ Hinv) as [Hl Hs]. pose proof (inv_m0 _ _ Hinv) as H0.
  apply (upto_op (c_layer p) (c_size p)) in Hi as (l & r & Hr & -> & Hop & Hlt);
    [|apply length_c_layer|by apply launched_bounds|done|by intros E; rewrite (H0 E)].
  apply list_elem_of_lookup_2 in Hop. unfold c_layer in Hop.
  assert (layer_of op = l) as -> by (destruct (wait p), (record p); set_solver).
  by exists r.
Qed.

Lemma dtoh_op st i op :
  inv p st → dtoh st !! i = Some op →
  ∃ r, (r < Datatypes.S (saves p))%nat ∧ i = (Datatypes.S (saves p) * layer_of op + r)%nat ∧
    in_pass op ∧ is_compute op = false.
Proof.
  intros Hinv Hi. rewrite (inv_dtoh _ _ Hinv) in Hi.
  pose proof (inv_s _ _ Hinv) as [Hl Hs]. pose proof (inv_s0 _ _ Hinv) as H0.
  apply (upto_op (d_layer p) (Datatypes.S (saves p))) in Hi as (l & r & Hr & -> & Hop & Hlt);
    [|apply length_d_layer|lia|unfold saved; case_decide; lia|].
  2:{ unfold saved. case_decide; intros E; rewrite H0; auto. }
  apply list_elem_of_lookup_2 in Hop. unfold d_layer in Hop.
  assert (layer_of op = l ∧ is_compute op = false) as [-> ->].
  { apply elem_of_cons in Hop as [->|(m & -> & _)%list_elem_of_fmap]; done. }
  by exists r.
Qed.
End positions.

(** ** Passes with effects *)

Section effects.
Context {S : Type} (run : S → stream_op → S) (p : pass).

(** The operations that a step of the pass runs on the streams. *)
Definition ran (st st' : state) : list stream_op :=
  take (htod_done st' - htod_done st) (drop (htod_done st) (htod st))
  ++ take (compute_done st' - compute_done st) (drop (compute_done st) (compute st))
  ++ take (dtoh_done st' - dtoh_done st) (drop (dtoh_done st) (dtoh st)).

Inductive pass_step : state * S → state * S → Prop :=
  | pass_step_intro st st' s : step p st st' → pass_step (st, s) (st', foldl run s (ran st st')).

(** Everything run so far, stream by stream. *)
Definition done_ops (st : state) : list stream_op :=
  take (htod_done st) (htod st) ++ take (compute_done st) (compute st) ++ take (dtoh_done st) (dtoh st).

(** States in which operations of different layers commute, unless both belong to the
    model. *)
Context (ok : S → Prop).
Context (run_ok : ∀ s op, ok s → (layer_of op < layers_of p)%nat → ok (run s op)).
Context (run_commute : ∀ s x y, ok s → (layer_of x < layers_of p)%nat → (layer_of y < layers_of p)%nat →
  layer_of x ≠ layer_of y → is_compute x && is_compute y = false →
  run (run s x) y = run (run s y) x).

Notation in_pass op := (layer_of op < layers_of p)%nat.

Lemma foldl_ok ops s : Forall (λ op, in_pass op) ops → ok s → ok (foldl run s ops).
Proof using run_ok.
  intros Hops. revert s. induction Hops as [|op ops Hop _ IH]; intros s Hs; [done|]. simpl. auto.
Qed.

(** An operation may move before those it commutes with. *)
Lemma move_before s ops x :
  ok s → in_pass x →
  Forall (λ y, in_pass y ∧ layer_of x ≠ layer_of y ∧ is_compute x && is_compute y = false) ops →
  foldl run s (ops ++ [x]) = foldl run s (x :: ops).
Proof using run_ok run_commute.
  intros Hs Hx Hops. revert s Hs. induction Hops as [|y ops (Hy & Hne & Hc) _ IH]; intros s Hs; [done|].
  simpl. rewrite IH by auto. simpl. f_equal. symmetry. by apply run_commute.
Qed.


(** A step runs nothing, or the next operation of a stream. *)
Lemma step_runs st st' :
  inv p st → step p st st' →
  (ran st st' = [] ∧ done_ops st' = done_ops st) ∨
  ∃ op, ran st st' = [op] ∧
    ((htod st !! htod_done st = Some op ∧
      done_ops st' = take (htod_done st) (htod st) ++ op
        :: take (compute_done st) (compute st) ++ take (dtoh_done st) (dtoh st)) ∨
     (compute st !! compute_done st = Some op ∧
      done_ops st' = take (htod_done st) (htod st) ++ take (compute_done st) (compute st)
        ++ op :: take (dtoh_done st) (dtoh st)) ∨
     (dtoh st !! dtoh_done st = Some op ∧ done_ops st' = done_ops st ++ [op])).
Proof using.
  intros Hinv Hst. pose proof (inv_htod_done _ _ Hinv). pose proof (inv_compute_done _ _ Hinv).
  pose proof (inv_dtoh_done _ _ Hinv).
  assert (∀ {A} (l : list A) k op, l !! k = Some op → take (Datatypes.S k - k) (drop k l) = [op]) as Hone.
  { intros A l k op Hop. replace (Datatypes.S k - k)%nat with 1%nat by lia.
    by rewrite (drop_S _ _ _ Hop). }
  assert (∀ {A} (l : list A) k, take (k - k) (drop k l) = []) as Hnone
    by (intros; by rewrite Nat.sub_diag).
  destruct Hst as [| | | | | | | | | | |op Hop|op Hop _|op Hop _];
    try (left; unfold ran, done_ops; cbn [htod htod_done compute compute_done dtoh dtoh_done
           with_loader with_model with_saver];
         rewrite !Hnone; split; [done|]; by rewrite ?take_app_le by done);
    right; exists op; unfold ran, done_ops;
    cbn [htod htod_done compute compute_done dtoh dtoh_done with_done];
    rewrite !Hnone, (Hone _ _ _ _ Hop), ?app_nil_r; split; try done.
  - left. split; [done|]. by rewrite (take_S_r _ _ _ Hop), <-app_assoc.
  - right; left. split; [done|]. by rewrite (take_S_r _ _ _ Hop), <-app_assoc.
  - right; right. split; [done|]. by rewrite (take_S_r _ _ _ Hop), !app_assoc.
Qed.

Lemma done_in_pass st : inv p st → Forall (λ op, in_pass op) (done_ops st).
Proof using.
  intros Hinv. apply Forall_forall. intros op [(i & Hi & _)%elem_of_take|[(i & Hi & _)%elem_of_take
    |(i & Hi & _)%elem_of_take]%elem_of_app]%elem_of_app.
  - by destruct (htod_op _ _ _ _ Hinv Hi) as (? & ? & ? & ? & ?).
  - by destruct (compute_op _ _ _ _ Hinv Hi) as (? & ? & ? & ?).
  - by destruct (dtoh_op _ _ _ _ Hinv Hi) as (? & ? & ? & ? & ?).
Qed.

(** The operations that run out of order belong to earlier layers. *)
Lemma saved_before st op i :
  inv p st → compute_done st = (c_size p * layer_of op + i)%nat → (i < c_size p)%nat →
  Forall (λ y, in_pass y ∧ layer_of op ≠ layer_of y ∧ is_compute op && is_compute y = false)
    (take (dtoh_done st) (dtoh st)).
Proof using.
  intros Hinv Hc Hi. apply Forall_forall. intros y (k & Hk & Hlt)%elem_of_take.
  destruct (dtoh_op _ _ _ _ Hinv Hk) as (r & Hr & -> & Hy & Hcy).
  pose proof (inv_waited_post _ _ Hinv (layer_of y) ltac:(lia)).
  split; [done|]. split; [nia|]. by rewrite Hcy, andb_false_r.
Qed.

Lemma computed_before st op i :
  inv p st → wait p = true → htod_done st = (Datatypes.S (loads p) * layer_of op + i)%nat →
  (i < Datatypes.S (loads p))%nat → is_compute op = false →
  Forall (λ y, in_pass y ∧ layer_of op ≠ layer_of y ∧ is_compute op && is_compute y = false)
    (take (compute_done st) (compute st) ++ take (dtoh_done st) (dtoh st)).
Proof using.
  intros Hinv Hw Hh Hi Hco. apply Forall_app. split; apply Forall_forall; intros y (k & Hk & Hlt)%elem_of_take.
  - destruct (compute_op _ _ _ _ Hinv Hk) as (r & Hr & -> & Hy).
    pose proof (inv_waited_pre _ _ Hinv Hw (layer_of y) ltac:(lia)).
    split; [done|]. split; [nia|]. by rewrite Hco.
  - destruct (dtoh_op _ _ _ _ Hinv Hk) as (r & Hr & -> & Hy & _).
    pose proof (inv_waited_post _ _ Hinv (layer_of y) ltac:(lia)).
    assert (c_size p * layer_of y < compute_done st)%nat by (pose proof (c_size_pos p); lia).
    pose proof (inv_waited_pre _ _ Hinv Hw (layer_of y) ltac:(lia)).
    split; [done|]. split; [nia|]. by rewrite Hco.
Qed.

Lemma htod_waits st i op : flags_agree p → inv p st → htod st !! i = Some op → wait p = true.
Proof using.
  intros [Hw _] Hinv Hi. apply Hw. intros E. rewrite (inv_htod _ _ Hinv) in Hi.
  unfold loaded in Hi. rewrite decide_True, (inv_l0 _ _ Hinv) in Hi by auto. done.
Qed.

(** The memory is as if the streams had run one after the other. *)
Lemma effects_done s0 st s :
  flags_agree p → ok s0 → rtc pass_step (init p, s0) (st, s) →
  inv p st ∧ s = foldl run s0 (done_ops st).
Proof using run_ok run_commute.
  intros Hf H0. change (rtc pass_step (init p, s0) (st, s)
    → inv p (st, s).1 ∧ (st, s).2 = foldl run s0 (done_ops (st, s).1)).
  generalize (st, s). apply rtc_ind_r; [by split; [apply inv_init|]|].
  intros c c' _ [st0 st1 s1 Hst]. cbn [fst snd]. intros [Hinv ->].
  split; [by eapply inv_step|].
  pose proof (done_in_pass _ Hinv) as Hin. unfold done_ops in Hin.
  rewrite !Forall_app in Hin. destruct Hin as (HinH & HinC & HinD).
  destruct (step_runs _ _ Hinv Hst) as [[-> ->]|(op & -> & [[Hop ->]|[[Hop ->]|[Hop ->]]])].
  - done.
  - destruct (htod_op _ _ _ _ Hinv Hop) as (r & Hr & E & Hlt & Hc).
    rewrite <-foldl_app. unfold done_ops. rewrite <-app_assoc.
    rewrite !(foldl_app _ (take (htod_done st0) (htod st0))).
    apply move_before; [by apply foldl_ok|done|].
    eapply computed_before; [done|by eapply htod_waits|exact E|done|done].
  - destruct (compute_op _ _ _ _ Hinv Hop) as (r & Hr & E & Hlt).
    rewrite <-foldl_app. unfold done_ops. rewrite <-!app_assoc, !app_assoc.
    rewrite <-app_assoc, !(foldl_app _ (take (htod_done st0) (htod st0) ++ take (compute_done st0) (compute st0))).
    apply move_before; [apply foldl_ok; [by apply Forall_app|done]|done|].
    by eapply saved_before.
  - by rewrite foldl_app.
Qed.
End effects.

(** ** Stores with the same blocks are equal *)

Lemma blocks_ext (l k : list Z) s n :
  0 ≤ s → 0 ≤ n → len l = n * s → len k = n * s →
  (∀ i, 0 ≤ i < n → block l s i = block k s i) → l = k.
Proof.
  intros Hs Hn Hl Hk Hb. rewrite <-(concat_blocks l s n), <-(concat_blocks k s n) by done.
  f_equal. by apply fmap_range_ext.
Qed.

Lemma rows_ext L s h h' :
  caches_wf L s h → caches_wf L s h' → len h = len h' →
  (∀ b l, 0 ≤ b < len h → 0 ≤ l < L → row_at h b l = row_at h' b l) → h = h'.
Proof.
  intros Hh Hh' Hlen Hrow. apply list_eq. intros i.
  destruct (h !! i) as [blk|] eqn:Hi, (h' !! i) as [blk'|] eqn:Hi'.
  - f_equal. destruct (caches_block _ _ _ Hh _ _ Hi) as [E _], (caches_block _ _ _ Hh' _ _ Hi') as [E' _].
    apply list_eq. intros j. destruct (decide (Z.of_nat j < L)) as [Hj|Hj].
    + pose proof (lookup_lt_Some _ _ _ Hi). unfold len in Hlen.
      specialize (Hrow (Z.of_nat i) (Z.of_nat j) ltac:(unfold len; lia) ltac:(lia)). unfold row_at in Hrow.
      destruct (Z.leb_spec 0 (Z.of_nat i)), (Z.leb_spec 0 (Z.of_nat j)); simpl in Hrow; try lia.
      by rewrite !Nat2Z.id, Hi, Hi' in Hrow.
    + unfold len in E, E'. by rewrite !lookup_ge_None_2 by lia.
  - apply lookup_lt_Some in Hi. apply lookup_ge_None in Hi'. unfold len in Hlen. lia.
  - apply lookup_lt_Some in Hi'. apply lookup_ge_None in Hi. unfold len in Hlen. lia.
  - done.
Qed.

(** The blocks of layer [l] on the device and in host memory. *)
Definition same_layer (w0 : KVWorker) (l : Z) (w w' : KVWorker) : Prop :=
  ∀ d b, d ≠ Disk → 0 ≤ b < num_blocks w0 d → read_block w d b l = read_block w' d b l.

(** Stores that passes on [w0] can reach. *)
Record passed (w0 w : KVWorker) : Prop := {
  pa_like : like w0 w;
  pa_actions : actions w = actions w0;
  pa_disk : disk_kv_caches w = disk_kv_caches w0;
}.

Lemma store_ext w0 w w' :
  passed w0 w → passed w0 w' →
  (∀ l, 0 ≤ l < num_layers w0 → same_layer w0 l w w') → w = w'.
Proof.
  intros [[[Hs HL HN Hp Hg Hh _] (EL & ES & EB)] Ha Hd]
    [[[Hs' HL' HN' Hp' Hg' Hh' _] (EL' & ES' & EB')] Ha' Hd'] Hsame.
  pose proof (EB GPU) as EG. pose proof (EB' GPU) as EG'.
  pose proof (EB Host) as EH. pose proof (EB' Host) as EH'. cbn [num_blocks] in *.
  assert (gpu_kv_caches w = gpu_kv_caches w') as Egpu.
  { apply (blocks_ext _ _ (block_stride w0) (num_layers w0 * gpu_num_blocks w0)); [lia|nia|congruence..|].
    intros i Hi. assert (0 < gpu_num_blocks w0) as Hpos by nia.
    pose proof (Z.div_mod i (gpu_num_blocks w0) ltac:(lia)) as Ei.
    pose proof (Z.mod_pos_bound i (gpu_num_blocks w0) Hpos).
    assert (0 ≤ i / gpu_num_blocks w0 < num_layers w0) as Hl
      by (split; [apply Z.div_pos; lia|apply Z.div_lt_upper_bound; lia]).
    specialize (Hsame _ Hl GPU (i `mod` gpu_num_blocks w0) ltac:(done) ltac:(done)).
    rewrite !read_gpu_block, EG, EG', ES, ES' in Hsame by lia. injection Hsame as Hsame.
    by replace (i / gpu_num_blocks w0 * gpu_num_blocks w0 + i `mod` gpu_num_blocks w0) with i in Hsame by lia. }
  assert (host_kv_caches w = host_kv_caches w') as Ehost.
  { rewrite EL, ES in Hh. rewrite EL', ES' in Hh'.
    apply (rows_ext (num_layers w0) (block_stride w0)); [done|done|congruence|]. intros b l Hb Hl.
    apply (Hsame l Hl Host b); [done|]. cbn [num_blocks]. lia. }
  assert (gpu_kv_cache_ptrs w = gpu_kv_cache_ptrs w') as Eptr
    by (by rewrite Hp, Hp', EG, EG', ES, ES', EL, EL').
  clear -EL EL' ES ES' EG EG' Ha Ha' Hd Hd' Egpu Ehost Eptr. destruct w, w'; cbn in *. congruence.
Qed.

(** ** Operations of a layer *)

Section local.
Context {A : Type} (w0 : KVWorker).
Notation memory := (A * KVWorker)%type.
Notation in_layers l := (0 ≤ l < num_layers w0).

(** [f] reads and writes layer [l] only. *)
Record local (l : Z) (f : memory → memory) : Prop := {
  lc_passed s : passed w0 s.2 → passed w0 (f s).2;
  lc_frame s l' : passed w0 s.2 → in_layers l' → l' ≠ l → same_layer w0 l' (f s).2 s.2;
  lc_only s s' : passed w0 s.2 → passed w0 s'.2 → s.1 = s'.1 → same_layer w0 l s.2 s'.2 →
    same_layer w0 l (f s).2 (f s').2 ∧ (f s).1 = (f s').1;
}.

Lemma same_layer_trans l w w' w'' : same_layer w0 l w w' → same_layer w0 l w' w'' → same_layer w0 l w w''.
Proof using. intros H1 H2 d b Hd Hb. by rewrite H1, H2. Qed.
Lemma same_layer_sym l w w' : same_layer w0 l w w' → same_layer w0 l w' w.
Proof using. intros H1 d b Hd Hb. by rewrite H1. Qed.

(** Operations of different layers commute, unless both change the activations. *)
Lemma local_commute l1 l2 g h s :
  local l1 (λ s, (s.1, g s.2)) → local l2 h → l1 ≠ l2 → in_layers l1 → in_layers l2 → passed w0 s.2 →
  ((h s).1, g (h s).2) = h (s.1, g s.2).
Proof using.
  intros Hg Hh Hne Hl1 Hl2 Hs.
  pose proof (lc_passed _ _ Hg s Hs) as Hgs. cbn [snd] in Hgs.
  pose proof (lc_passed _ _ Hh s Hs) as Hhs.
  destruct (lc_only _ _ Hh s (s.1, g s.2) Hs Hgs eq_refl) as [H2 H1].
  { apply same_layer_sym. apply (lc_frame _ _ Hg s l2 Hs Hl2). lia. }
  rewrite (surjective_pairing (h (s.1, g s.2))). f_equal; [exact H1|].
  apply (store_ext w0).
  - apply (lc_passed _ _ Hg (s.1, (h s).2) Hhs).
  - by apply (lc_passed _ _ Hh).
  - intros l Hl. destruct (decide (l = l1)) as [->|Hn1].
    + destruct (lc_only _ _ Hg (s.1, (h s).2) s Hhs Hs eq_refl) as [H3 _].
      { by apply (lc_frame _ _ Hh). }
      eapply same_layer_trans; [exact H3|]. apply same_layer_sym.
      by apply (lc_frame _ _ Hh (s.1, g s.2)).
    + eapply same_layer_trans; [by apply (lc_frame _ _ Hg (s.1, (h s).2))|]. cbn [snd].
      destruct (decide (l = l2)) as [->|Hn2]; [done|].
      eapply same_layer_trans; [by apply (lc_frame _ _ Hh)|]. apply same_layer_sym.
      eapply same_layer_trans; [by apply (lc_frame _ _ Hh (s.1, g s.2))|].
      by apply (lc_frame _ _ Hg s).
Qed.

Lemma local_id l : local l (λ s, s).
Proof using. by split. Qed.

(** The copies of a layer, of a valid request. *)
Lemma copies_disk src dst w ops :
  dst ≠ Disk → disk_kv_caches (copies src dst w ops) = disk_kv_caches w.
Proof using.
  intros Hd. unfold copies. revert w. induction ops as [|[l e] ops IH]; intros w; [done|]. simpl.
  rewrite IH. unfold copy_entry. destruct (read_block _ _ _ _); [by destruct dst|done].
Qed.

Lemma last_writer_in es b a : last_writer es b = Some a → ∃ e, e ∈ es ∧ src_block_id e = a.
Proof using.
  unfold last_writer. induction es as [|e es IH] using rev_ind; [done|]. rewrite foldl_app. simpl.
  case_decide; [intros [= <-]; exists e; set_solver|].
  intros (e' & He & Ee)%IH. exists e'. set_solver.
Qed.

Lemma last_source_layer l m b l' :
  last_source (layer_ops l m) b l' = if decide (l' = l) then last_writer m b else None.
Proof using.
  unfold last_source, layer_ops, last_writer. rewrite foldl_fmap. cbn [fst snd].
  case_decide as El.
  - apply foldl_pointwise. intros acc e. repeat case_decide; naive_solver.
  - induction m as [|e m IH] using rev_ind; [done|]. rewrite foldl_app. simpl.
    rewrite decide_False by naive_solver. exact IH.
Qed.

Lemma copies_local src dst l m :
  src ≠ dst → src ≠ Disk → dst ≠ Disk → in_layers l → Forall (valid_op w0 src dst) (layer_ops l m) →
  local l (λ s, (s.1, copies src dst s.2 (layer_ops l m))).
Proof using.
  intros Hne Hs Hd Hl Hops.
  assert (∀ w, passed w0 w → Forall (valid_op w src dst) (layer_ops l m)) as Hvalid.
  { intros w [[_ Hsh] _ _]. eapply Forall_impl; [exact Hops|]. intros op. unfold valid_op.
    by rewrite !(same_shape_valid _ _ _ _ _ Hsh). }
  assert (∀ w d b l', passed w0 w → 0 ≤ b < num_blocks w0 d → in_layers l' →
    read_block (copies src dst w (layer_ops l m)) d b l'
    = if decide (d = dst) then match last_source (layer_ops l m) b l' with
        | Some a => read_block w src a l' | None => read_block w dst b l' end
      else read_block w d b l') as Hread.
  { intros w d b l' Hw Hb Hl'.
    destruct (copy_entries w src dst _ Hne (proj1 (pa_like _ _ Hw)) (Hvalid _ Hw)) as (_ & _ & _ & Hr).
    apply Hr. destruct Hw as [[_ (EL & _ & EB)] _ _]. unfold valid_block. by rewrite EB, EL. }
  split; cbn [fst snd].
  - intros s Hp. destruct (copy_entries s.2 src dst _ Hne (proj1 (pa_like _ _ Hp)) (Hvalid _ Hp))
      as (Hwf & Hsh & Ha & _). destruct Hp as [[_ Hsh0] Ha0 Hd0]. split.
    + split; [exact Hwf|]. by eapply same_shape_trans.
    + unfold copies. by rewrite Ha.
    + by rewrite copies_disk.
  - intros s l' Hp Hl' Hn d b Hdd Hb. rewrite Hread, last_source_layer, (decide_False (P := l' = l)) by done.
    case_decide; [by subst|done].
  - intros s s' Hp Hp' Ha Hsame. split; [|done]. intros d b Hdd Hb. rewrite !Hread by done.
    rewrite last_source_layer, (decide_True (P := l = l)) by done. case_decide; [|by apply Hsame]. subst d.
    destruct (last_writer m b) as [a|] eqn:E; [|by apply Hsame]. apply Hsame; [done|].
    apply last_writer_in in E as (e & He & <-). rewrite Forall_forall in Hops.
    exact (proj1 (proj1 (Hops (l, e) (list_elem_of_fmap_2 _ _ _ He)))).
Qed.

(** *** The kernels of a layer *)

(** What the kernels of a layer make of the activations and of the layer's caches. *)
Context (kernel : nat → A → list Z → A * list Z).
Context (kernel_size : ∀ l a bytes, len (kernel l a bytes).2 = len bytes).
Context (Hblocks : 0 < gpu_num_blocks w0).

Definition layer_size (w : KVWorker) : Z := gpu_num_blocks w * block_stride w.
Definition layer_bytes (w : KVWorker) (l : nat) : list Z :=
  block (gpu_kv_caches w) (layer_size w) (Z.of_nat l).
Definition run_kernel (l : nat) (s : memory) : memory :=
  let '(a, bytes) := kernel l s.1 (layer_bytes s.2 l) in
  (a, set_gpu (block_set (gpu_kv_caches s.2) (layer_size s.2) (Z.of_nat l) bytes) s.2).

Lemma passed_gpu w :
  passed w0 w → gpu_num_blocks w = gpu_num_blocks w0 ∧ num_layers w = num_layers w0 ∧
  0 < layer_size w ∧ len (gpu_kv_caches w) = num_layers w0 * layer_size w ∧ 0 < block_stride w.
Proof using Hblocks.
  intros [[[Hs HL HN Hp Hg Hh _] (EL & ES & EB)] _ _]. pose proof (EB GPU) as EG. cbn [num_blocks] in EG.
  unfold layer_size. split_and!; try done; [nia|]. rewrite Hg, EL. lia.
Qed.

(** A block of the layer is a part of its bytes. *)
Lemma read_layer w b (l : nat) :
  passed w0 w → 0 ≤ b < gpu_num_blocks w0 → in_layers (Z.of_nat l) →
  read_block w GPU b (Z.of_nat l) = Some (block (layer_bytes w l) (block_stride w) b).
Proof using Hblocks.
  intros Hw Hb Hl. destruct (passed_gpu w Hw) as (EN & EL & Hpos & Hlen & Hs).
  rewrite read_gpu_block by lia. f_equal. unfold layer_bytes, layer_size in *.
  rewrite (block_block _ _ _ (num_layers w0)) by (lia || done). done.
Qed.

Lemma len_layer_bytes w (l : nat) :
  passed w0 w → in_layers (Z.of_nat l) → len (layer_bytes w l) = layer_size w.
Proof using Hblocks.
  intros Hw Hl. destruct (passed_gpu w Hw) as (_ & _ & Hpos & Hlen & _).
  apply (len_block _ _ (num_layers w0)); (lia || done).
Qed.

Lemma set_layer_passed w bytes (l : nat) :
  passed w0 w → in_layers (Z.of_nat l) → len bytes = layer_size w →
  passed w0 (set_gpu (block_set (gpu_kv_caches w) (layer_size w) (Z.of_nat l) bytes) w).
Proof using Hblocks.
  intros Hw Hl Hb. destruct (passed_gpu w Hw) as (EN & EL & Hpos & Hlen & Hs).
  destruct Hw as [[[? HL HN Hp Hg Hh Hd] Hsh] Ha Hdk]. split; [|done|done]. split; [|done].
  split; try done. cbn [gpu_kv_caches set_gpu num_layers gpu_num_blocks block_stride].
  rewrite (len_block_set _ _ (num_layers w0)) by done. unfold layer_size. rewrite EL. lia.
Qed.

Lemma set_layer_bytes w bytes (l l' : nat) :
  passed w0 w → in_layers (Z.of_nat l) → in_layers (Z.of_nat l') → len bytes = layer_size w →
  layer_bytes (set_gpu (block_set (gpu_kv_caches w) (layer_size w) (Z.of_nat l) bytes) w) l'
  = if decide (l = l') then bytes else layer_bytes w l'.
Proof using Hblocks.
  intros Hw Hl Hl' Hb. destruct (passed_gpu w Hw) as (EN & EL & Hpos & Hlen & Hs).
  unfold layer_bytes at 1. change (layer_size (set_gpu _ w)) with (layer_size w). cbn [gpu_kv_caches set_gpu].
  rewrite (block_block_set _ _ (num_layers w0)) by done.
  destruct (decide (l = l')) as [->|Hne]; [by rewrite decide_True|by rewrite decide_False by lia].
Qed.

Lemma kernel_local (l : nat) : in_layers (Z.of_nat l) → local (Z.of_nat l) (run_kernel l).
Proof using Hblocks kernel_size.
  intros Hl.
  assert (∀ s, passed w0 s.2 → len (kernel l s.1 (layer_bytes s.2 l)).2 = layer_size s.2) as Hsize
    by (intros s Hs; by rewrite kernel_size, len_layer_bytes).
  split; unfold run_kernel.
  - intros s Hs. specialize (Hsize s Hs). destruct (kernel _ _ _) as [a bytes]. by apply set_layer_passed.
  - intros s l' Hs Hl' Hne d b Hd Hb. specialize (Hsize s Hs). destruct (kernel _ _ _) as [a bytes].
    cbn [snd] in *. pose proof (set_layer_passed s.2 bytes l Hs Hl Hsize) as Hs'.
    destruct d; [|done|done]. replace l' with (Z.of_nat (Z.to_nat l')) in * by lia.
    rewrite !read_layer by done. f_equal. rewrite set_layer_bytes, decide_False by (done || lia). done.
  - intros s s' Hs Hs' Ha Hsame.
    assert (layer_bytes s.2 l = layer_bytes s'.2 l) as Eb.
    { pose proof (passed_gpu _ Hs) as (EN & _ & _ & _ & Hst).
      pose proof (passed_gpu _ Hs') as (EN' & _).
      pose proof (proj1 (proj2 (proj2 (pa_like _ _ Hs)))) as ES.
      pose proof (proj1 (proj2 (proj2 (pa_like _ _ Hs')))) as ES'.
      apply (blocks_ext _ _ (block_stride w0) (gpu_num_blocks w0)); [lia|lia| | |].
      - rewrite len_layer_bytes by done. unfold layer_size. congruence.
      - rewrite len_layer_bytes by done. unfold layer_size. congruence.
      - intros b Hb. specialize (Hsame GPU b ltac:(done) Hb). rewrite !read_layer in Hsame by done.
        injection Hsame as Hsame. congruence. }
    pose proof (Hsize s Hs) as Hz. pose proof (Hsize s' Hs') as Hz'. rewrite <-Ha, <-Eb in Hz'.
    rewrite <-Ha, <-Eb. destruct (kernel l s.1 (layer_bytes s.2 l)) as [a bytes]. cbn [fst snd] in *.
    split; [|done]. intros d b Hd Hb.
    destruct d; [|by apply (Hsame Host)|done].
    rewrite !read_layer by (done || by apply set_layer_passed).
    rewrite !set_layer_bytes, !decide_True by done. f_equal. cbn [block_stride set_gpu].
    pose proof (proj1 (proj2 (proj2 (pa_like _ _ Hs)))). pose proof (proj1 (proj2 (proj2 (pa_like _ _ Hs')))).
    congruence.
Qed.
End local.

(** ** The pass on the memory *)

Section pass.
Context {A : Type} (kernel : nat → A → list Z → A * list Z).
Context (kernel_size : ∀ l a bytes, len (kernel l a bytes).2 = len bytes).
Context (p : pass) (load_maps save_maps : list BlockMapping) (w0 : KVWorker).
Notation memory := (A * KVWorker)%type.
Notation run_kernel := (run_kernel kernel).

(** An operation of a stream.  Events only order. *)
Definition run_op (s : memory) (op : stream_op) : memory :=
  match op with
  | LoadCopy l m =>
      (s.1, (_load_layer_kv_blocks_from_host (default [] (load_maps !! m)) (Z.of_nat l) s.2).2)
  | Kernel l => run_kernel l s
  | SaveCopy l m =>
      (s.1, (_save_layer_kv_blocks_to_host (default [] (save_maps !! m)) (Z.of_nat l) s.2).2)
  | _ => s
  end.

(** The model on all layers. *)
Definition model_pass (s : memory) : memory := foldl (λ s l, run_kernel l s) s (seq 0 (layers_of p)).

(** The pass of a request: the transfers, and a store they are valid for. *)
Record pass_of : Prop := {
  po_layers : Z.of_nat (layers_of p) = num_layers w0;
  po_loads : loads p = length load_maps;
  po_saves : saves p = length save_maps;
  po_flags : flags_agree p;
  po_wf : store_wf w0;
  po_blocks : 0 < gpu_num_blocks w0;
  po_load : valid_request w0 Host GPU load_maps;
  po_save : valid_request w0 GPU Host save_maps;
}.
Hypothesis (Hp : pass_of).

Lemma map_valid src dst maps m l :
  valid_request w0 src dst maps → 0 ≤ l < num_layers w0 →
  Forall (valid_op w0 src dst) (layer_ops l (default [] (maps !! m))).
Proof using.
  intros Hv Hl. destruct (maps !! m) as [es|] eqn:E; [|constructor]. cbn [default from_option id].
  apply list_elem_of_lookup_2 in E. apply Forall_forall. intros op (e & -> & He)%list_elem_of_fmap.
  destruct (Hv e) as [Hs Hd]; [|by split; split].
  rewrite <-(list_fmap_id maps). apply elem_of_concat_fmap. by exists es.
Qed.

Lemma load_op s l m :
  passed w0 s.2 → (l < layers_of p)%nat →
  run_op s (LoadCopy l m)
  = (s.1, copies Host GPU s.2 (layer_ops (Z.of_nat l) (default [] (load_maps !! m)))).
Proof using Hp.
  intros Hs Hl. cbn [run_op]. pose proof (po_layers Hp).
  rewrite (load_layer_from_host w0 (Z.of_nat l)); [done|lia|by apply pa_like|].
  apply map_valid; [by apply Hp|lia].
Qed.
Lemma save_op s l m :
  passed w0 s.2 → (l < layers_of p)%nat →
  run_op s (SaveCopy l m)
  = (s.1, copies GPU Host s.2 (layer_ops (Z.of_nat l) (default [] (save_maps !! m)))).
Proof using Hp.
  intros Hs Hl. cbn [run_op]. pose proof (po_layers Hp).
  rewrite (save_layer_to_host w0 (Z.of_nat l)); [done|lia|by apply pa_like|].
  apply map_valid; [by apply Hp|lia].
Qed.

Notation in_pass op := (layer_of op < layers_of p)%nat.
Notation passive op g := (local w0 (Z.of_nat (layer_of op)) (λ s : memory, (s.1, g s.2)) ∧
  ∀ s : memory, passed w0 s.2 → run_op s op = (s.1, g s.2)).

(** Every operation is one of its layer; only those of the model's stream change the
    activations. *)
Lemma passive_op op : in_pass op → is_compute op = false → ∃ g, passive op g.
Proof using Hp.
  intros Hl Hc. pose proof (po_layers Hp). destruct op as [l m|l|l c|l|l|l c|l m]; try done; cbn [layer_of] in *.
  - exists (λ w, copies Host GPU w (layer_ops (Z.of_nat l) (default [] (load_maps !! m)))).
    split; [|by intros s Hs; apply load_op]. apply copies_local; [done..|lia|].
    apply map_valid; [by apply Hp|lia].
  - exists (λ w, w). split; [by split|]. by intros [].
  - exists (λ w, w). split; [by split|]. by intros [].
  - exists (λ w, copies GPU Host w (layer_ops (Z.of_nat l) (default [] (save_maps !! m)))).
    split; [|by intros s Hs; apply save_op]. apply copies_local; [done..|lia|].
    apply map_valid; [by apply Hp|lia].
Qed.

Lemma op_local op :
  in_pass op → ∃ f, local w0 (Z.of_nat (layer_of op)) f ∧ ∀ s, passed w0 s.2 → run_op s op = f s.
Proof using Hp kernel_size.
  intros Hl. destruct (is_compute op) eqn:Hc.
  - pose proof (po_layers Hp). destruct op as [| |l c|l|l| |]; try done; cbn [layer_of] in *;
      try (by exists (λ s, s)).
    exists (run_kernel l). split; [|done]. apply kernel_local; [done|apply Hp|lia].
  - destruct (passive_op op Hl Hc) as (g & Hg & E). eauto.
Qed.

Lemma run_op_passed s op : passed w0 s.2 → in_pass op → passed w0 (run_op s op).2.
Proof using Hp kernel_size.
  intros Hs Hl. destruct (op_local op Hl) as (f & Hf & ->); [|done]. by eapply lc_passed.
Qed.

Lemma run_op_commute s x y :
  passed w0 s.2 → in_pass x → in_pass y → layer_of x ≠ layer_of y →
  is_compute x && is_compute y = false → run_op (run_op s x) y = run_op (run_op s y) x.
Proof using Hp kernel_size.
  assert (∀ s x y, passed w0 s.2 → in_pass x → in_pass y → layer_of x ≠ layer_of y →
    is_compute x = false → run_op (run_op s x) y = run_op (run_op s y) x) as Hone.
  { clear s x y. intros s x y Hs Hx Hy Hne Hc. pose proof (po_layers Hp).
    pose proof (run_op_passed s x Hs Hx) as Hsx. pose proof (run_op_passed s y Hs Hy) as Hsy.
    destruct (passive_op x Hx Hc) as (g & Hg & Ex). destruct (op_local y Hy) as (f & Hf & Ey).
    rewrite (Ey _ Hsx), (Ex _ Hsy), (Ex _ Hs), (Ey _ Hs). symmetry.
    eapply local_commute; [exact Hg|exact Hf|lia|lia|lia|done]. }
  intros Hs Hx Hy Hne [Hc|Hc]%andb_false_iff; [by apply Hone|symmetry; by apply Hone].
Qed.

(** *** The three streams, one after the other *)

Lemma passed_w0 : passed w0 w0.
Proof using Hp. split; [apply like_refl, Hp|done|done]. Qed.

Notation copied src dst s es := (s.1, copies src dst s.2 es).

(** A stream that copies, mapping by mapping and layer by layer. *)
Section stream.
Context (src dst : Device) (maps : list BlockMapping) (copy : nat → nat → stream_op).
Context (copy_op : ∀ s l m, passed w0 s.2 → (l < layers_of p)%nat →
  run_op s (copy l m) = copied src dst s (layer_ops (Z.of_nat l) (default [] (maps !! m))))
  (copy_layer : ∀ l m, layer_of (copy l m) = l).

Lemma run_copies s l k :
  passed w0 s.2 → (l < layers_of p)%nat → (k ≤ length maps)%nat →
  foldl run_op s (copy l <$> seq 0 k) = copied src dst s (layer_ops (Z.of_nat l) (concat (take k maps))) ∧
  passed w0 (copies src dst s.2 (layer_ops (Z.of_nat l) (concat (take k maps)))).
Proof using Hp kernel_size copy_op copy_layer.
  intros Hs Hl. induction k as [|k IH]; intros Hk; [by destruct s|].
  destruct IH as [E Hpass]; [lia|]. rewrite seq_S, fmap_app, foldl_app, E. cbn [fmap list_fmap foldl].
  destruct (lookup_lt_is_Some_2 maps k) as [es Hes]; [lia|].
  assert (copies src dst s.2 (layer_ops (Z.of_nat l) (concat (take (S k) maps)))
    = copies src dst (copies src dst s.2 (layer_ops (Z.of_nat l) (concat (take k maps))))
        (layer_ops (Z.of_nat l) (default [] (maps !! k)))) as ->.
  { rewrite (take_S_r _ _ _ Hes), concat_app, Hes. unfold layer_ops, copies. simpl.
    by rewrite app_nil_r, fmap_app, foldl_app. }
  pose proof (run_op_passed (copied src dst s (layer_ops (Z.of_nat l) (concat (take k maps)))) (copy l k)) as Hr.
  rewrite copy_layer, copy_op in Hr by done. rewrite copy_op by done. split; [done|by apply Hr].
Qed.

Context (layer : nat → list stream_op).
Context (layer_copies : ∀ s l, (l < layers_of p)%nat → passed w0 s.2 →
  foldl run_op s (layer l) = foldl run_op s (copy l <$> seq 0 (length maps))).

Lemma run_layers s n :
  passed w0 s.2 → (n ≤ layers_of p)%nat →
  foldl run_op s (concat (layer <$> seq 0 n)) = copied src dst s (all_ops (Z.of_nat n) (concat maps)) ∧
  passed w0 (copies src dst s.2 (all_ops (Z.of_nat n) (concat maps))).
Proof using Hp kernel_size copy_op copy_layer layer_copies.
  intros Hs. induction n as [|n IH]; intros Hn; [by destruct s|].
  destruct IH as [E Hpass]; [lia|]. rewrite seq_S, fmap_app, concat_app, foldl_app, E. csimpl.
  rewrite app_nil_r, layer_copies by (done || lia).
  destruct (run_copies (copied src dst s (all_ops (Z.of_nat n) (concat maps))) n (length maps))
    as [E' Hpass']; [done|lia|done|]. rewrite E'. cbn [fst snd] in *. rewrite firstn_all in *.
  assert (copies src dst s.2 (all_ops (Z.of_nat (S n)) (concat maps))
    = copies src dst (copies src dst s.2 (all_ops (Z.of_nat n) (concat maps)))
        (layer_ops (Z.of_nat n) (concat maps))) as ->; [|done].
  unfold all_ops, copies. rewrite Nat2Z.inj_succ, <-Z.add_1_r, py_range_snoc, fmap_app, concat_app by lia.
  csimpl. by rewrite app_nil_r, foldl_app.
Qed.
End stream.

Lemma run_kernels s n :
  foldl run_op s (concat (c_layer p <$> seq 0 n)) = foldl (λ s l, run_kernel l s) s (seq 0 n).
Proof using.
  induction n as [|n IH]; [done|]. rewrite seq_S, fmap_app, concat_app, !foldl_app, IH. csimpl.
  rewrite app_nil_r. unfold c_layer. by destruct (wait p), (record p).
Qed.

Lemma run_kernels_passed s n :
  passed w0 s.2 → (n ≤ layers_of p)%nat → passed w0 (foldl (λ s l, run_kernel l s) s (seq 0 n)).2.
Proof using Hp kernel_size.
  intros Hs. induction n as [|n IH]; intros Hn; [done|]. rewrite seq_S, foldl_app. simpl.
  apply (run_op_passed _ (Kernel n)); [apply IH; lia|done].
Qed.

Lemma done_final st :
  inv p st → final p st →
  done_ops st = concat (h_layer p <$> seq 0 (loaded p st)) ++ concat (c_layer p <$> seq 0 (layers_of p))
                ++ concat (d_layer p <$> seq 0 (saved p st)).
Proof using.
  intros Hinv (El & Em & Es & Eh & Ec & Ed). unfold done_ops. rewrite Eh, Ec, Ed, !firstn_all.
  rewrite (inv_htod _ _ Hinv), (inv_compute _ _ Hinv), (inv_dtoh _ _ Hinv).
  rewrite (inv_l0 _ _ Hinv), (inv_m0 _ _ Hinv), (inv_s0 _ _ Hinv), Em by auto.
  unfold upto. change (launched p 0) with 0%nat. by rewrite !take_0, !app_nil_r.
Qed.

(** Nothing to copy: the loops over the layers are empty. *)
Lemma no_copies src dst maps w n : length maps = 0%nat → copies src dst w (all_ops n (concat maps)) = w.
Proof using.
  intros Hm. destruct maps; [|done]. unfold all_ops, copies. simpl.
  induction (py_range 0 n) as [|l ls IH]; [done|exact IH].
Qed.

Lemma copied_layers (src dst : Device) maps (s : memory) k m :
  (length maps = 0%nat → k = 0%nat) → (length maps ≠ 0%nat → k = m) →
  copied src dst s (all_ops (Z.of_nat k) (concat maps)) = copied src dst s (all_ops (Z.of_nat m) (concat maps)).
Proof using.
  intros H0 H1. destruct (decide (length maps = 0%nat)) as [E|E].
  - by rewrite !no_copies.
  - by rewrite (H1 E).
Qed.

(** The memory of a finished pass. *)
Lemma final_memory a st s :
  rtc (pass_step run_op p) (init p, (a, w0)) (st, s) → final p st →
  let w1 := copies Host GPU w0 (all_ops (num_layers w0) (concat load_maps)) in
  let s2 := model_pass (a, w1) in
  s = copied GPU Host s2 (all_ops (num_layers w0) (concat save_maps)) ∧ passed w0 w1 ∧ passed w0 s2.2.
Proof using Hp kernel_size.
  intros Hr Hfin w1 s2.
  destruct (effects_done run_op p (λ s, passed w0 s.2) run_op_passed run_op_commute (a, w0) st s) as [Hinv ->];
    [apply Hp|apply passed_w0|done|].
  rewrite (done_final _ Hinv Hfin), !foldl_app. pose proof (po_layers Hp) as HL.
  destruct Hfin as (El & _ & Es & _).
  assert (loaded p st ≤ layers_of p ∧ saved p st ≤ layers_of p)%nat as [Hl Hs]
    by (unfold loaded, saved; repeat case_decide; lia).
  destruct (run_layers Host GPU load_maps LoadCopy load_op ltac:(done) (h_layer p)) with (s := (a, w0))
    (n := loaded p st) as [E1 H1]; [|apply passed_w0|done|].
  { intros s l _ _. unfold h_layer. by rewrite (po_loads Hp), foldl_app. }
  rewrite (copied_layers _ _ _ _ _ (layers_of p)) in E1.
  2:{ unfold loaded. rewrite (po_loads Hp). intros ->. done. }
  2:{ unfold loaded. rewrite (po_loads Hp). intros ?. by rewrite decide_False. }
  rewrite E1, HL. cbn [fst snd]. fold w1.
  assert (passed w0 w1) as Hw1.
  { destruct (run_layers Host GPU load_maps LoadCopy load_op ltac:(done) (h_layer p)) with (s := (a, w0))
      (n := layers_of p) as [_ H2]; [|apply passed_w0|done|].
    { intros s l _ _. unfold h_layer. by rewrite (po_loads Hp), foldl_app. }
    by rewrite HL in H2. }
  rewrite run_kernels. fold (model_pass (a, w1)). fold s2.
  assert (passed w0 s2.2) as Hs2 by (by apply run_kernels_passed).
  destruct (run_layers GPU Host save_maps SaveCopy save_op ltac:(done) (d_layer p)) with (s := s2)
    (n := saved p st) as [E3 _]; [|done|done|].
  { intros s l _ _. unfold d_layer. by rewrite (po_saves Hp). }
  rewrite (copied_layers _ _ _ _ _ (layers_of p)) in E3.
  2:{ unfold saved. rewrite (po_saves Hp). intros ->. done. }
  2:{ unfold saved. rewrite (po_saves Hp). intros ?. by rewrite decide_False. }
  by rewrite E3, HL.
Qed.

Lemma pass_steps st st' s : rtc (step p) st st' → ∃ s', rtc (pass_step run_op p) (st, s) (st', s').
Proof using.
  intros Hr. revert s. induction Hr as [st|st st1 st2 Hst _ IH]; intros s; [by exists s; apply rtc_refl|].
  destruct (IH (foldl run_op s (ran st st1))) as [s' Hs']. exists s'. by eapply rtc_l; [constructor|].
Qed.

(** C17: overlapping is not observable.  When the flags agree with the transfers, a pass
    that loads blocks, runs the model and saves blocks, with the three threads and the
    three streams interleaved in any way, can always be finished, and then it leaves the
    activations and all three tiers as [copy_kv] from the host, the model on all layers
    and [copy_kv] to the host leave them one after the other. *)
Theorem overlapped_pass_is_sequential a st s :
  rtc (pass_step run_op p) (init p, (a, w0)) (st, s) →
  (∃ st' s', rtc (pass_step run_op p) (st, s) (st', s') ∧ final p st') ∧
  (final p st → ∃ w1 w2 acts1 acts2,
     copy_kv load_maps Host GPU w0 = (Ok tt, add_actions acts1 w1) ∧
     model_pass (a, w1) = (s.1, w2) ∧
     copy_kv save_maps GPU Host w2 = (Ok tt, add_actions acts2 s.2)).
Proof using Hp kernel_size.
  intros Hr. split.
  - destruct (effects_done run_op p (λ s, passed w0 s.2) run_op_passed run_op_commute (a, w0) st s) as [Hinv _];
      [apply Hp|apply passed_w0|done|].
    destruct (po_flags Hp) as [Hw Hs].
    destruct (completes p st) as (st' & Hst & Hfin); [by apply Hw|by intros ?; apply Hs|done|].
    destruct (pass_steps _ _ s Hst) as [s' Hs']. by exists st', s'.
  - intros Hfin. destruct (final_memory a st s Hr Hfin) as (-> & _ & Hs2).
    set (w1 := copies Host GPU w0 _) in *. set (s2 := model_pass (a, w1)) in *.
    exists w1, s2.2. eexists _, _. split; [|split; [exact (surjective_pairing s2)|]].
    + apply (copy_kv_Ok w0 load_maps); [apply Hp|done|]. apply valid_request_ops, Hp.
    + destruct Hs2 as [[Hwf (HL & HS & HB)] _ _].
      rewrite (copy_kv_Ok s2.2 save_maps) by first [done|apply valid_request_ops; intros e He;
        rewrite !HB; by apply (po_save Hp)].
      by rewrite HL.
Qed.
End pass.

(** ** One layer: a block comes in, the kernels add to every byte, it goes out *)

Definition add_kernel (l : nat) (a : Z) (bytes : list Z) : Z * list Z := (a + 1, (λ x, x + a) <$> bytes).
Definition store_1 : KVWorker := {|
  num_layers := 1; gpu_num_blocks := 2; gpu_kv_caches := [10; 11]; gpu_kv_cache_ptrs := [0];
  block_stride := 1; host_kv_caches := [[[7]]; [[8]]]; disk_kv_caches := None; actions := [] |}.
Definition load_1 : list BlockMapping := [[Build_BlockMappingEntry 0 1]].
Definition save_1 : list BlockMapping := [[Build_BlockMappingEntry 1 1]].

Lemma pass_of_1 : pass_of one_layer load_1 save_1 store_1.
Proof.
  split; try done.
  - by split; try apply (bool_decide_unpack _); vm_compute.
  - by apply valid_request_dec; vm_compute.
  - by apply valid_request_dec; vm_compute.
Qed.

Example overlapped_pass_is_sequential_witness :
  ∃ s, rtc (pass_step (run_op add_kernel load_1 save_1) one_layer) (init one_layer, (5, store_1)) (one_layer_done, s) ∧
    s.1 = 6 ∧ gpu_kv_caches s.2 = [15; 12] ∧ host_kv_caches s.2 = [[[7]]; [[12]]].
Proof.
  destruct (pass_steps add_kernel one_layer load_1 save_1 (init one_layer) one_layer_done (5, store_1))
    as [s Hs]; [exact one_layer_reachable|].
  exists s. split; [exact Hs|].
  assert (∀ (l : nat) (a : Z) bytes, len (add_kernel l a bytes).2 = len bytes) as Hsize
    by (intros; unfold add_kernel; cbn [snd]; by rewrite len_fmap).
  destruct (overlapped_pass_is_sequential add_kernel Hsize one_layer load_1 save_1 store_1 pass_of_1
    5 one_layer_done s Hs) as [_ Hfin].
  destruct Hfin as (w1 & w2 & acts1 & acts2 & E1 & E2 & E3); [by split_and!|].
  destruct w1, w2, s as [a w3], w3. vm_compute in E1. injection E1 as <- <- <- <- <- <- <- _.
  vm_compute in E2. injection E2 as <- <- <- <- <- <- <- <- _.
  vm_compute in E3. injection E3 as <- <- <- <- <- <- <- _. by split_and!.
Defined.
