(* ===== verification/PageRows.v ===== *)
(** * Pages and blocks

    What the client of the KV workers needs of lists: requests that copy one list of
    blocks to another, the slots of a page read from the bytes of a block, and the rows
    of the ranks side by side. *)
From stdpp Require Import gmap.
From S2P Require Import Prelude Tensor FlashInfer Heads KVStore KVCopies.

#[local] Opaque py_range.

(** ** Lists of copies *)

Definition entries_of (srcs dsts : list Z) : list BlockMappingEntry := zip_with Build_BlockMappingEntry srcs dsts.

Lemma dst_entries srcs dsts : length srcs = length dsts → dst_block_id <$> entries_of srcs dsts = dsts.
Proof. intros Hl. unfold entries_of. rewrite fmap_zip_with_r; [done|done|lia]. Qed.

Lemma elem_of_entries srcs dsts (i : nat) a b :
  srcs !! i = Some a → dsts !! i = Some b → Build_BlockMappingEntry a b ∈ entries_of srcs dsts.
Proof. intros Ha Hb. apply list_elem_of_lookup. exists i. unfold entries_of. by rewrite lookup_zip_with, Ha, Hb. Qed.

Lemma last_writer_entries srcs dsts (i : nat) a b :
  length srcs = length dsts → NoDup dsts → srcs !! i = Some a → dsts !! i = Some b →
  last_writer (entries_of srcs dsts) b = Some a.
Proof.
  intros Hl Hnd Ha Hb.
  apply (last_writer_unique _ (Build_BlockMappingEntry a b)); [by eapply elem_of_entries|].
  by rewrite dst_entries.
Qed.

Lemma last_writer_other es b : b ∉ dst_block_id <$> es → last_writer es b = None.
Proof.
  unfold last_writer. induction es as [|e es IH] using rev_ind; intros Hb; [done|].
  rewrite fmap_app, not_elem_of_app in Hb. destruct Hb as [Hes He]. rewrite foldl_app. simpl.
  rewrite decide_False, IH; [done|done|]. intros <-. apply He. by left.
Qed.

(** ** The slots of a page, from the bytes of a block *)

Section see.
Context {K V : Type} (page : Z).
(** [f b i]: what slot [i] of page [b] holds. *)
Definition page_slots (bs : list Z) : list (Z * Z) := concat ((λ b, (λ i, (b, i)) <$> py_range 0 page) <$> bs).
Definition see_slots (f : Z → Z → K * V) (bs : list Z) (slots : gmap (Z * Z) (K * V)) : gmap (Z * Z) (K * V) :=
  foldr (λ s, <[s := f s.1 s.2]>) slots (page_slots bs).

Lemma elem_of_page_slots bs b i : (b, i) ∈ page_slots bs ↔ b ∈ bs ∧ 0 ≤ i < page.
Proof.
  unfold page_slots. rewrite elem_of_concat_fmap. split.
  - intros (b' & Hb & Hi). apply list_elem_of_fmap in Hi as (i' & [= -> ->] & Hi%elem_of_py_range). done.
  - intros [Hb Hi]. exists b. split; [done|]. apply list_elem_of_fmap. exists i.
    split; [done|]. by apply elem_of_py_range.
Qed.

Lemma lookup_see f bs slots b i :
  see_slots f bs slots !! (b, i) = if decide (b ∈ bs ∧ 0 ≤ i < page) then Some (f b i) else slots !! (b, i).
Proof.
  assert (∀ l, foldr (λ s, <[s := f s.1 s.2]>) slots l !! (b, i)
    = if decide ((b, i) ∈ l) then Some (f b i) else slots !! (b, i)) as E.
  { induction l as [|s l IH]; simpl; [done|]. destruct (decide (s = (b, i))) as [->|Hne].
    - rewrite lookup_insert_eq, decide_True; [done|by left].
    - rewrite lookup_insert_ne, IH by done. apply decide_ext. rewrite elem_of_cons. naive_solver. }
  unfold see_slots. rewrite E. apply decide_ext. apply elem_of_page_slots.
Qed.
End see.

Lemma see_fmap {K K' V V'} (g : K * V → K' * V') page (f : Z → Z → K * V) bs slots :
  g <$> see_slots page f bs slots = see_slots page (λ b i, g (f b i)) bs (g <$> slots).
Proof.
  apply map_eq. intros [b i]. rewrite lookup_fmap, !lookup_see, lookup_fmap. by case_decide.
Qed.

(** ** The rows of the ranks, side by side *)

Section join.
Context {V : Type} (n : Z).
Definition rank_row (row : head_row V * head_row V) : Prop := len row.1 = n ∧ len row.2 = n.
Definition join_rows (rows : list (head_row V * head_row V)) : head_row V * head_row V :=
  (concat rows.*1, concat rows.*2).

Lemma len_concat_const {A} (ls : list (list A)) :
  Forall (λ l, len l = n) ls → len (concat ls) = len ls * n.
Proof.
  induction 1 as [|l ls Hl _ IH]; [done|]. simpl. rewrite len_app, len_cons, IH. lia.
Qed.

Lemma block_concat {A} (ls : list (list A)) (r : nat) l :
  Forall (λ l, len l = n) ls → ls !! r = Some l → block (concat ls) n (Z.of_nat r) = l.
Proof.
  intros Hls Hl. rewrite <-(concat_block _ _ _ Hl). unfold block.
  assert (∀ k : nat, (k ≤ length ls)%nat → sumZ (len <$> take k ls) = Z.of_nat k * n) as Hsum.
  { intros k Hk. rewrite sumZ_len_concat, len_concat_const by (by apply Forall_take).
    unfold len. rewrite length_take. f_equal. lia. }
  pose proof (lookup_lt_Some _ _ _ Hl). rewrite !Hsum by lia. f_equal; lia.
Qed.

Lemma shard_join rows (r : nat) row :
  Forall rank_row rows → rows !! r = Some row → shard_kv n (Z.of_nat r) (join_rows rows) = row.
Proof.
  intros Hrows Hr. unfold shard_kv, join_rows. cbn [fst snd].
  rewrite (block_concat _ _ row.1), (block_concat _ _ row.2); [by destruct row|..];
    rewrite ?list_lookup_fmap, ?Hr; try done;
    apply Forall_fmap; (eapply Forall_impl; [exact Hrows|]); by intros ? [].
Qed.

Lemma join_shard w row :
  0 ≤ n → 0 ≤ w → len row.1 = w * n → len row.2 = w * n →
  join_rows ((λ r, shard_kv n r row) <$> py_range 0 w) = row.
Proof.
  intros Hn Hw H1 H2. unfold join_rows. rewrite <-!list_fmap_compose.
  unfold compose, shard_kv. cbn [fst snd]. rewrite !concat_blocks by done. by destruct row.
Qed.

Lemma len_join rows :
  Forall rank_row rows →
  len (join_rows rows).1 = len rows * n ∧ len (join_rows rows).2 = len rows * n.
Proof.
  intros Hrows. unfold join_rows. cbn [fst snd]. rewrite !len_concat_const, !len_fmap; [done|..];
    apply Forall_fmap; (eapply Forall_impl; [exact Hrows|]); by intros ? [].
Qed.
End join.
