(* ===== verification/Offload.v ===== *)
(** * Serving with offloaded sequences

    The model workers of [Serving] together with their KV workers, which move the
    pages of a sequence to host memory and disk and bring them back to other pages of
    the device: the two see the same device memory, the one as keys and values, the
    other as bytes.  What is generated does not change. *)
From stdpp Require Import strings gmap pretty.
From S2P Require Import Prelude Tensor FlashInfer Batch PagedAttention Triton Rotary Activations.
From S2P Require Import Llama ModelWorker Heads ModelSpec Causal Decoder.
From S2P Require Import KVStore KVCopies PageRows WorkerService LlamaSpec LlamaTheorems DenseLlama Serving.

#[local] Opaque py_range.

(** ** The ranks with their KV workers *)

Section offload.
Context {V : Type} `{!Sampling V}.
Context `{!FlashInfer (head_row V) (head_row V) (head_row V) (head_row V)}.
Context (D : Decoder V) (z : sizes) (w page : Z) (config : ModelConfig) (layers : nat).
Context `{!DecoderLaws D z w page config layers}.
Context (tokenizer_decode : Z → string) (eos : list Z).
Notation cache := (paged_cache (head_row V) (head_row V)).
Notation node := (WorkerService.node (K := head_row V) (V := head_row V) (F := V)).
Context (copy_blocks : list cache → list (Z * list Z) → list cache).
Notation rank_heads := (sz_kv z / w).
(** The keys and values of token [i] of a block, from the bytes of the block. *)
Context (block_rows : list Z → Z → head_row V * head_row V).
Context (block_rows_heads : ∀ bytes i, rank_row rank_heads (block_rows bytes i)).
(** The blocks every worker has room for, on its devices. *)
Context (tiers : Device → Z).
(** The bytes of a block in a layer. *)
Context (stride : Z).
Notation serve_step := (serve_step D page layers tokenizer_decode copy_blocks (tiers GPU)).
Notation sequence := Serving.sequence.

(** The block as the KV worker reads it, as rows. *)
Definition rows_at (kv : KVWorker) (d : Device) (b l i : Z) : head_row V * head_row V :=
  block_rows (default [] (read_block kv d b l)) i.

(** The caches of a worker are the device memory of its KV worker: blocks that the
    KV worker has written are pages of the caches. *)
Definition see_device (kv : KVWorker) (bs : list Z) (l : nat) (c : cache) : cache :=
  PagedCache (pc_page_size c)
    (see_slots page (λ b i, rows_at kv GPU b (Z.of_nat l) i) bs (pc_slots c)).
Definition device_writes (request : CopyKVRequest) : list Z :=
  match dst_device request with GPU => dst_block_id <$> concat (block_mappings request) | _ => [] end.
Definition copied (request : CopyKVRequest) (kv : KVWorker) (n : node) : node := {|
  nd_service := {|
    worker := set_kv_caches (imap (see_device kv (device_writes request)) <$> kv_caches (node_worker n))
                (node_worker n);
    uds_path := uds_path (nd_service n); kv_worker := kv_worker (nd_service n) |};
  nd_files := nd_files n; nd_socket := nd_socket n; nd_kv := Some kv |}.

(** [CopyKV] on the KV worker of every rank. *)
Definition copy_node (request : CopyKVRequest) (n : node) : option (res bool * node) :=
  (λ kv, let '(r, kv) := CopyKV request kv in (r, copied request kv n)) <$> nd_kv n.
Definition copy_group (request : CopyKVRequest) (ns : list node) : option (list (res bool * node)) :=
  mapM (copy_node request) ns.

(** ** A client that parks sequences *)

Record parked := { pk_seq : sequence; pk_tier : Device; pk_blocks : list Z }.
Record offloaded := { of_sys : system (V := V); of_parked : gmap Z parked }.

(** A request that copies the blocks [srcs] to [dsts], in any number of mappings. *)
Record relocation (src dst : Device) (srcs dsts : list Z) (request : CopyKVRequest) : Prop := {
  rl_src : src_device request = src;
  rl_dst : dst_device request = dst;
  rl_supported : COPY_KV_OP_MAP src dst ≠ None;
  rl_entries : concat (block_mappings request) = entries_of srcs dsts;
  rl_length : length srcs = length dsts;
  rl_distinct : NoDup dsts;
  rl_blocks b : b ∈ dsts → 0 ≤ b < tiers dst;
}.

(** Blocks of a device that hold nothing that is still needed. *)
Definition free_blocks (s : offloaded) (d : Device) (bs : list Z) : Prop :=
  match d with
  | GPU => ∀ id q x, sy_seqs (of_sys s) !! id = Some q → x ∈ cached_slots page q → x.1 ∉ bs
  | _ => ∀ id p b, of_parked s !! id = Some p → pk_tier p = d → b ∈ pk_blocks p → b ∉ bs
  end.

(** A round leaves some bytes in the device memory: those of the new caches. *)
Definition shows (kv : KVWorker) (n : node) : Prop :=
  ∀ caches (l : nat) c b i row, kv_caches (node_worker n) = Some caches → caches !! l = Some c →
    pc_slots c !! (b, i) = Some row → (l < layers)%nat → 0 ≤ b < tiers GPU → 0 ≤ i < page →
    rows_at kv GPU b (Z.of_nat l) i = row.
Definition rewritten (m m' : node) : Prop :=
  nd_service m' = nd_service m ∧
  ∃ kv gpu, nd_kv m = Some kv ∧ len gpu = len (gpu_kv_caches kv) ∧
    nd_kv m' = Some (set_gpu gpu kv) ∧ shows (set_gpu gpu kv) m'.

Definition answered (request : CopyKVRequest) (s : offloaded) (ns : list node) : Prop :=
  copy_group request (sy_nodes (of_sys s)) = Some ((λ n, (Ok true, n)) <$> ns).

Inductive off_step : offloaded → offloaded → Prop :=
| off_serve s s' ns :
    serve_step (of_sys s) s' → Forall2 rewritten (sy_nodes s') ns →
    off_step s {| of_sys := {| sy_nodes := ns; sy_seqs := sy_seqs s' |}; of_parked := of_parked s |}
| off_save s id q tier bs request ns :
    sy_seqs (of_sys s) !! id = Some q → of_parked s !! id = None →
    relocation GPU tier (sq_blocks q) bs request → free_blocks s tier bs →
    answered request s ns →
    off_step s {| of_sys := {| sy_nodes := ns; sy_seqs := delete id (sy_seqs (of_sys s)) |};
                  of_parked := <[id := {| pk_seq := q; pk_tier := tier; pk_blocks := bs |}]>
                                 (of_parked s) |}
| off_move s id p tier bs request ns :
    of_parked s !! id = Some p → tier ≠ GPU →
    relocation (pk_tier p) tier (pk_blocks p) bs request → free_blocks s tier bs →
    answered request s ns →
    off_step s {| of_sys := {| sy_nodes := ns; sy_seqs := sy_seqs (of_sys s) |};
                  of_parked := <[id := {| pk_seq := pk_seq p; pk_tier := tier; pk_blocks := bs |}]>
                                 (of_parked s) |}
| off_load s id p bs request ns :
    of_parked s !! id = Some p → sy_seqs (of_sys s) !! id = None →
    relocation (pk_tier p) GPU (pk_blocks p) bs request → free_blocks s GPU bs →
    answered request s ns →
    off_step s {| of_sys := {| sy_nodes := ns;
                    sy_seqs := <[id := {| sq_prompt := sq_prompt (pk_seq p);
                      sq_tokens := sq_tokens (pk_seq p); sq_cached := sq_cached (pk_seq p);
                      sq_blocks := bs |}]> (sy_seqs (of_sys s)) |};
                  of_parked := delete id (of_parked s) |}.

(** The start: the workers of [Serving], each with the KV worker of its caches. *)
Record kv_ok (kv : KVWorker) : Prop := {
  ko_wf : store_wf kv;
  ko_layers : num_layers kv = Z.of_nat layers;
  ko_stride : block_stride kv = stride;
  ko_tiers d : tiers d ≤ num_blocks kv d;
}.
Record off_start (s : offloaded) : Prop := {
  os_serving : serve_start w page config layers eos (tiers GPU) (of_sys s);
  os_stores m : m ∈ sy_nodes (of_sys s) → ∃ kv, nd_kv m = Some kv ∧ kv_ok kv;
  os_parked : of_parked s = ∅;
}.

(** ** Copies on the ranks *)

Notation sources_ok src srcs := (∀ b, b ∈ srcs → 0 ≤ b < tiers src).

(** What a relocation does to the rows of a store. *)
Record moved (src dst : Device) (srcs dsts : list Z) (kv kv' : KVWorker) : Prop := {
  mv_ok : kv_ok kv';
  mv_copied (i : nat) a b l j : srcs !! i = Some a → dsts !! i = Some b → 0 ≤ l < Z.of_nat layers →
    rows_at kv' dst b l j = rows_at kv src a l j;
  mv_kept d b l j : 0 ≤ b < tiers d → 0 ≤ l < Z.of_nat layers → d ≠ dst ∨ b ∉ dsts →
    rows_at kv' d b l j = rows_at kv d b l j;
}.

Lemma CopyKV_moves src dst srcs dsts request kv :
  relocation src dst srcs dsts request → sources_ok src srcs → kv_ok kv →
  ∃ kv', CopyKV request kv = (Ok true, kv') ∧ moved src dst srcs dsts kv kv'.
Proof using.
  intros [<- <- Hop He Hl Hnd Hb] Hs [Hwf HL Hst Ht].
  destruct (copy_kv_blocks kv (block_mappings request) (src_device request) (dst_device request))
    as (kv' & E & Hwf' & (HL' & Hst' & Hn) & Hread); [done|done| |].
  { intros e (i & Hi)%list_elem_of_lookup. rewrite He in Hi. unfold entries_of in Hi.
    apply lookup_zip_with_Some in Hi as (a & b & -> & Ha%list_elem_of_lookup_2 & Hb'%list_elem_of_lookup_2).
    cbn [src_block_id dst_block_id].
    pose proof (Ht (src_device request)). pose proof (Ht (dst_device request)).
    specialize (Hs a Ha). specialize (Hb b Hb'). lia. }
  exists kv'. split; [unfold CopyKV; by rewrite M_bind_eq, E|]. split.
  - split; [done|congruence|congruence|]. intros d. by rewrite Hn.
  - intros i a b l j Ha Hb' Hlt. unfold rows_at. f_equal.
    pose proof (Ht (dst_device request)).
    pose proof (Hb b (list_elem_of_lookup_2 _ _ _ Hb')). rewrite Hread by lia.
    by rewrite decide_True, He, (last_writer_entries _ _ i a b).
  - intros d b l j Hbd Hlt Hor. unfold rows_at. f_equal. pose proof (Ht d). rewrite Hread by lia.
    case_decide as Hd; [|done]. subst d. rewrite last_writer_other; [done|].
    rewrite He, dst_entries by done. by destruct Hor.
Qed.

(** A node with the store of its caches. *)
Definition node_ok (m : node) : Prop := ∃ kv, nd_kv m = Some kv ∧ kv_ok kv ∧ shows kv m.

Definition relocated (src dst : Device) (srcs dsts : list Z) (request : CopyKVRequest)
    (m m' : node) : Prop :=
  ∃ kv kv', nd_kv m = Some kv ∧ kv_ok kv ∧ shows kv m ∧
    moved src dst srcs dsts kv kv' ∧ m' = copied request kv' m.

Lemma copy_group_moves src dst srcs dsts request ns :
  relocation src dst srcs dsts request → sources_ok src srcs → Forall node_ok ns →
  ∃ ns', copy_group request ns = Some ((λ n, (Ok true, n)) <$> ns') ∧
    Forall2 (relocated src dst srcs dsts request) ns ns'.
Proof using.
  intros Hrl Hs Hns. unfold copy_group. induction Hns as [|m ns (kv & Hkv & Hok & Hsh) _ IH]; [by exists []|].
  destruct (CopyKV_moves src dst srcs dsts request kv) as (kv' & E & Hmv); [done..|].
  destruct IH as (ns' & Ens & Hns'). exists (copied request kv' m :: ns').
  split; [|constructor; [by exists kv, kv'|done]].
  assert (copy_node request m = Some (Ok true, copied request kv' m)) as Em
    by (unfold copy_node; rewrite Hkv; simpl; by rewrite E).
  cbn [mapM]. by rewrite Em, Ens.
Qed.

Lemma answered_moves src dst srcs dsts request s ns :
  relocation src dst srcs dsts request → sources_ok src srcs → Forall node_ok (sy_nodes (of_sys s)) →
  answered request s ns →
  Forall2 (relocated src dst srcs dsts request) (sy_nodes (of_sys s)) ns.
Proof using.
  intros Hrl Hs Hns Hans. destruct (copy_group_moves _ _ _ _ _ _ Hrl Hs Hns) as (ns' & E & Hall).
  unfold answered in Hans. rewrite E in Hans. injection Hans as Heq.
  assert (ns' = ns) as ->; [|done].
  apply (f_equal (fmap snd)) in Heq. rewrite <-!list_fmap_compose in Heq.
  unfold compose in Heq. cbn [snd] in Heq. by rewrite !list_fmap_id in Heq.
Qed.

(** ** The caches afterwards *)

Notation ranks_ok := (ranks_ok z w page config tokenizer_decode eos).
Notation caches_ok := (caches_ok D z w page config layers tokenizer_decode eos).

(** The rows of the ranks together. *)
Definition see_ranks (kvs : list KVWorker) (bs : list Z) (l : nat) (c : cache) : cache :=
  PagedCache (pc_page_size c)
    (see_slots page (λ b i, join_rows ((λ kv, rows_at kv GPU b (Z.of_nat l) i) <$> kvs)) bs (pc_slots c)).

Lemma rank_heads_nonneg : 0 ≤ rank_heads.
Proof using block_rows_heads. destruct (block_rows_heads [] 0) as [<- _]. apply len_nonneg. Qed.

Lemma rows_at_heads kv d b l i : rank_row rank_heads (rows_at kv d b l i).
Proof using block_rows_heads. apply block_rows_heads. Qed.

Lemma shard_see (kvs : list KVWorker) (r : nat) kv bs l c :
  kvs !! r = Some kv →
  shard_cache rank_heads (Z.of_nat r) (see_ranks kvs bs l c)
  = see_device kv bs l (shard_cache rank_heads (Z.of_nat r) c).
Proof using block_rows_heads.
  intros Hr. unfold shard_cache, see_ranks, see_device. cbn [pc_page_size pc_slots].
  rewrite see_fmap. f_equal. apply map_eq. intros [b i]. rewrite !lookup_see.
  case_decide; [|done]. f_equal. apply shard_join; [|by rewrite list_lookup_fmap, Hr].
  apply Forall_fmap, Forall_true. intros kv'. apply rows_at_heads.
Qed.

Lemma copied_ranks cs ns ns' kvs src dst srcs dsts request :
  ranks_ok cs ns → Forall2 (relocated src dst srcs dsts request) ns ns' →
  Forall2 (λ m kv, nd_kv m = Some kv) ns' kvs →
  ranks_ok (imap (see_ranks kvs (device_writes request)) cs) ns'.
Proof using block_rows_heads.
  intros [Hlen Hok] Hns Hkvs. split.
  { unfold len in *. by rewrite <-(Forall2_length _ _ _ Hns). }
  intros r m' Hm'. destruct (Forall2_lookup_r _ _ _ _ _ Hns Hm') as (m & Hm & kv & kv' & _ & _ & _ & _ & ->).
  destruct (Forall2_lookup_l _ _ _ _ _ Hkvs Hm') as (kv2 & Hr & [= <-]).
  destruct (Hok r m Hm) as [Hcfg Hpg Hkv Hvc Heos Hgr]. split; try done.
  unfold copied, node_worker. cbn [nd_service worker set_kv_caches kv_caches].
  unfold node_worker in Hkv. rewrite Hkv. cbn [fmap option_fmap option_map]. f_equal.
  apply list_eq. intros l. rewrite list_lookup_imap, !list_lookup_fmap, list_lookup_imap.
  destruct (cs !! l) as [c|]; [|done]. cbn [fmap option_fmap option_map]. f_equal.
  symmetry. by apply shard_see.
Qed.

Lemma heads_whole : sz_kv z = w * rank_heads.
Proof using DecoderLaws0.
  by apply (dl_heads (D := D) (page := page) (config := config) (layers := layers)).
Qed.

Lemma see_ranks_heads kvs bs l c :
  len kvs = w → cache_ok z page c → cache_ok z page (see_ranks kvs bs l c).
Proof using DecoderLaws0 block_rows_heads.
  intros Hl [Hp Hh]. split; [done|]. intros [b i] row. unfold see_ranks. cbn [pc_slots].
  rewrite lookup_see. case_decide; [|apply Hh]. intros [= <-].
  set (rs := (λ kv, rows_at kv GPU b (Z.of_nat l) i) <$> kvs).
  destruct (len_join rank_heads rs) as [-> ->].
  { apply Forall_fmap, Forall_true. intros kv'. apply rows_at_heads. }
  unfold rs. rewrite len_fmap, Hl, <-heads_whole. done.
Qed.

(** The caches after a copy: [bs] are the pages written. *)
Record recached (bs : list Z) (kvs : list KVWorker) (cs cs' : list cache) : Prop := {
  rc_length : length cs' = layers;
  rc_caches : Forall (cache_ok z page) cs';
  rc_frame : Forall2 (λ c c', ∀ x, x.1 ∉ bs → pc_slots c' !! x = pc_slots c !! x) cs cs';
  rc_written (l : nat) c' b i : cs' !! l = Some c' → b ∈ bs → 0 ≤ i < page →
    pc_slots c' !! (b, i) = Some (join_rows ((λ kv, rows_at kv GPU b (Z.of_nat l) i) <$> kvs));
}.

Lemma see_recached bs kvs cs :
  length cs = layers → len kvs = w → Forall (cache_ok z page) cs →
  recached bs kvs cs (imap (see_ranks kvs bs) cs).
Proof using DecoderLaws0 block_rows_heads.
  intros Hl Hw Hcs. split.
  - by rewrite length_imap.
  - apply Forall_lookup. intros l c' (c & Hc & ->)%list_lookup_imap_Some.
    apply see_ranks_heads; [done|]. by eapply Forall_lookup_1.
  - apply Forall2_same_length_lookup_2; [by rewrite length_imap|].
    intros l c c' Hc (c0 & Hc0 & ->)%list_lookup_imap_Some [b i] Hx. simplify_eq.
    unfold see_ranks. cbn [pc_slots]. rewrite lookup_see, decide_False; [done|]. by intros [??].
  - intros l c' b i (c & Hc & ->)%list_lookup_imap_Some Hb Hi.
    unfold see_ranks. cbn [pc_slots]. by rewrite lookup_see, decide_True.
Qed.

Lemma stores_of ns :
  Forall node_ok ns → ∃ kvs, Forall2 (λ m kv, nd_kv m = Some kv) ns kvs.
Proof using.
  induction 1 as [|m ns (kv & Hkv & _) _ (kvs & Hkvs)]; [by exists []|].
  exists (kv :: kvs). by constructor.
Qed.

(** A copied node shows its caches. *)
Lemma relocated_ok src dst srcs dsts request m m' :
  relocation src dst srcs dsts request → relocated src dst srcs dsts request m m' → node_ok m'.
Proof using.
  intros [_ Hd _ He Hl _ _] (kv & kv' & _ & _ & Hsh & Hmv & ->).
  exists kv'. split; [done|]. split; [apply Hmv|].
  intros caches l c b i row Hc Hl' Hrow Hll Hb Hi. unfold copied, node_worker in Hc.
  cbn [nd_service worker set_kv_caches kv_caches] in Hc.
  apply fmap_Some in Hc as (own & Hown & ->).
  apply list_lookup_imap_Some in Hl' as (c0 & Hc0 & ->). unfold see_device in Hrow. cbn [pc_slots] in Hrow.
  rewrite lookup_see in Hrow. case_decide as Hin; [by injection Hrow|].
  rewrite (mv_kept _ _ _ _ _ _ Hmv); [by eapply Hsh|done|lia|].
  destruct (decide (GPU = dst)) as [<-|]; [|by left]. right. intros Hbd. apply Hin. split; [|done].
    unfold device_writes. by rewrite Hd, He, dst_entries.
Qed.

(** ** Where a sequence is stored *)

(** Blocks [blocks] of device [d] hold, in the store of every rank, the rank's part
    of what is cached of a sequence. *)
Definition stored_at (r : nat) (kv : KVWorker) (q : sequence) (d : Device) (blocks : list Z) : Prop :=
  ∀ (l : nat) kvs pos row,
    dc_pages D (sq_tokens q) !! l = Some kvs → 0 ≤ pos < sq_cached q →
    kvs !! Z.to_nat pos = Some row →
    ∃ b, blocks !! Z.to_nat (pos / page) = Some b ∧
      rows_at kv d b (Z.of_nat l) (pos `mod` page) = shard_kv rank_heads (Z.of_nat r) row.
Record stored (ns : list node) (q : sequence) (d : Device) (blocks : list Z) : Prop := {
  sd_generated : ∃ k, sq_tokens q = generate D k (sq_prompt q);
  sd_cached : 0 ≤ sq_cached q ≤ len (sq_tokens q);
  sd_room : sq_cached q ≤ page * len blocks;
  sd_range b : b ∈ blocks → 0 ≤ b < tiers d;
  sd_heads (l : nat) kvs pos row :
    dc_pages D (sq_tokens q) !! l = Some kvs → 0 ≤ pos < sq_cached q →
    kvs !! Z.to_nat pos = Some row → len row.1 = sz_kv z ∧ len row.2 = sz_kv z;
  sd_at r m kv : ns !! r = Some m → nd_kv m = Some kv → stored_at r kv q d blocks;
}.

Lemma page_layers tokens (l : nat) kvs : dc_pages D tokens !! l = Some kvs → (l < layers)%nat.
Proof using DecoderLaws0.
  intros Hl.
  rewrite <-(dl_layers (D := D) (z := z) (w := w) (page := page) (config := config) (layers := layers) tokens).
  by eapply lookup_lt_Some.
Qed.

(** A relocation moves a sequence. *)
Lemma stored_moved src dst srcs dsts request ns ns' q :
  relocation src dst srcs dsts request →
  Forall2 (relocated src dst srcs dsts request) ns ns' →
  stored ns q src srcs → stored ns' q dst dsts.
Proof using DecoderLaws0.
  intros [_ _ _ _ Hlen _ Hb] Hns [Hg Hc Hr _ Hh Hat].
  split; try done; [unfold len in *; by rewrite <-Hlen|].
  intros r m' kv' Hm' Hkv' l kvs pos row Hl Hpos Hrow.
  destruct (Forall2_lookup_r _ _ _ _ _ Hns Hm') as (m & Hm & kv & kv1 & Hkv & _ & _ & Hmv & ->).
  injection Hkv' as ->.
  destruct (Hat r m kv Hm Hkv l kvs pos row Hl Hpos Hrow) as (a & Ha & Erow).
  destruct (lookup_lt_is_Some_2 dsts (Z.to_nat (pos / page))) as [b Hbl].
  { rewrite <-Hlen. by eapply lookup_lt_Some. }
  exists b. split; [done|]. rewrite (mv_copied _ _ _ _ _ _ Hmv (Z.to_nat (pos / page)) a b); [done..|].
  pose proof (page_layers _ _ _ Hl). lia.
Qed.

(** Copies elsewhere, and other writes elsewhere, leave it where it is. *)
Lemma stored_kept ns ns' q d blocks :
  Forall2 (λ m m', ∀ kv', nd_kv m' = Some kv' → ∃ kv, nd_kv m = Some kv ∧
    ∀ b l i, b ∈ blocks → 0 ≤ l < Z.of_nat layers → rows_at kv' d b l i = rows_at kv d b l i) ns ns' →
  stored ns q d blocks → stored ns' q d blocks.
Proof using DecoderLaws0.
  intros Hns [Hg Hc Hr Hb Hh Hat]. split; try done.
  intros r m' kv' Hm' Hkv' l kvs pos row Hl Hpos Hrow.
  destruct (Forall2_lookup_r _ _ _ _ _ Hns Hm') as (m & Hm & Hkeep).
  destruct (Hkeep kv' Hkv') as (kv & Hkv & Hrows).
  destruct (Hat r m kv Hm Hkv l kvs pos row Hl Hpos Hrow) as (b & Hbl & Erow).
  exists b. split; [done|]. rewrite Hrows; [done|by eapply list_elem_of_lookup_2|].
  pose proof (page_layers _ _ _ Hl). lia.
Qed.

Lemma stored_relocated src dst srcs dsts request ns ns' q d blocks :
  Forall2 (relocated src dst srcs dsts request) ns ns' →
  (d = dst → ∀ b, b ∈ blocks → b ∉ dsts) →
  stored ns q d blocks → stored ns' q d blocks.
Proof using DecoderLaws0.
  intros Hns Hfree Hq. eapply stored_kept; [|exact Hq]. eapply Forall2_impl; [exact Hns|].
  intros m m' (kv & kv1 & Hkv & _ & _ & Hmv & ->) kv' [= <-]. exists kv. split; [done|].
  intros b l i Hb Hl. apply (mv_kept _ _ _ _ _ _ Hmv); [by apply Hq|done|].
  destruct (decide (d = dst)); [right; auto|by left].
Qed.

(** ** Between the caches and the stores *)

Lemma holds_at (cs : list cache) blocks N pages (l : nat) kvs pos row :
  Forall (cache_ok z page) cs → holds cs blocks N pages → pages !! l = Some kvs →
  0 ≤ pos < N → kvs !! Z.to_nat pos = Some row →
  ∃ c, cs !! l = Some c ∧ pc_slots c !! slot page blocks pos = Some row.
Proof using.
  intros Hcs Hh Hl Hpos Hrow. unfold holds in Hh.
  apply (f_equal (λ x, x !! l)) in Hh. rewrite !list_lookup_fmap, Hl in Hh.
  destruct (cs !! l) as [c|] eqn:Hc; [|done]. exists c. split; [done|].
  cbn [fmap option_fmap option_map] in Hh. injection Hh as Hh.
  apply (f_equal (λ x, x !! Z.to_nat pos)) in Hh. unfold paged_kv in Hh.
  rewrite !list_lookup_fmap, lookup_take_lt, Hrow, lookup_py_range in Hh by lia.
  cbn [fmap option_fmap option_map] in Hh. injection Hh as Hh.
  destruct (Forall_lookup_1 _ _ _ _ Hcs Hc) as [Hp _]. rewrite Hp in Hh.
  by replace (0 + Z.of_nat (Z.to_nat pos)) with pos in Hh by lia.
Qed.

Lemma holds_intro (cs : list cache) blocks N pages :
  Forall (cache_ok z page) cs → length cs = length pages →
  Forall (λ kvs, (Z.to_nat N ≤ length kvs)%nat) pages →
  (∀ (l : nat) c kvs pos row, cs !! l = Some c → pages !! l = Some kvs → 0 ≤ pos < N →
     kvs !! Z.to_nat pos = Some row → pc_slots c !! slot page blocks pos = Some row) →
  holds cs blocks N pages.
Proof using.
  intros Hcs Hlen Hpages Hall. unfold holds. apply list_eq. intros l. rewrite !list_lookup_fmap.
  destruct (decide (l < length cs)%nat) as [Hl|Hl]; [|by rewrite !lookup_ge_None_2 by lia].
  destruct (lookup_lt_is_Some_2 cs l Hl) as [c Hc], (lookup_lt_is_Some_2 pages l) as [kvs Hkvs]; [lia|].
  rewrite Hc, Hkvs. cbn [fmap option_fmap option_map]. f_equal.
  destruct (Forall_lookup_1 _ _ _ _ Hcs Hc) as [Hp _].
  pose proof (Forall_lookup_1 _ _ _ _ Hpages Hkvs) as Hk. cbn beta in Hk.
  unfold paged_kv. rewrite Hp. apply list_eq. intros i. rewrite !list_lookup_fmap.
  destruct (decide (i < Z.to_nat N)%nat) as [Hi|Hi].
  - rewrite lookup_py_range, lookup_take_lt by lia.
    destruct (lookup_lt_is_Some_2 kvs i) as [row Hrow]; [lia|]. rewrite Hrow.
    cbn [fmap option_fmap option_map]. f_equal. replace (0 + Z.of_nat i) with (Z.of_nat i) by lia.
    eapply Hall; [done|done|lia|]. by rewrite Nat2Z.id.
  - rewrite lookup_take_ge by lia. by rewrite lookup_ge_None_2 by (rewrite length_py_range; lia).
Qed.

(** Position [pos] of a sequence with room for it is in one of its pages. *)
Lemma page_of blocks N pos :
  0 < page → N ≤ page * len blocks → 0 ≤ pos < N →
  ∃ b, blocks !! Z.to_nat (pos / page) = Some b ∧ slot page blocks pos = (b, pos `mod` page) ∧
    0 ≤ pos `mod` page < page.
Proof using.
  intros Hp Hroom Hpos. assert (0 ≤ pos / page < len blocks) as Hd.
  { split; [apply Z.div_pos; lia|]. apply Z.div_lt_upper_bound; lia. }
  destruct (lookup_lt_is_Some_2 blocks (Z.to_nat (pos / page))) as [b Hb]; [unfold len in Hd; lia|].
  exists b. split; [done|]. split; [unfold slot; by rewrite Hb|]. apply Z.mod_pos_bound. lia.
Qed.

(** A sequence of the system is stored on the device. *)
Lemma stored_on_device cs ns q :
  length cs = layers → Forall (cache_ok z page) cs → ranks_ok cs ns → Forall node_ok ns →
  seq_ok D page cs q → (∃ k, sq_tokens q = generate D k (sq_prompt q)) →
  (∀ b, b ∈ sq_blocks q → 0 ≤ b < tiers GPU) →
  stored ns q GPU (sq_blocks q).
Proof using DecoderLaws0.
  intros Hlen Hcs [_ Hr] Hns [Hc Hroom Hh] Hg Hb.
  pose proof (dl_page (D := D) (z := z) (w := w) (page := page) (config := config) (layers := layers)).
  split; try done.
  - intros l kvs pos row Hl Hpos Hrow.
    destruct (holds_at _ _ _ _ _ _ _ _ Hcs Hh Hl Hpos Hrow) as (c & Hcl & Hslot).
    by apply (Forall_lookup_1 _ _ _ _ Hcs Hcl) in Hslot.
  - intros r m kv Hm Hkv l kvs pos row Hl Hpos Hrow.
    destruct (holds_at _ _ _ _ _ _ _ _ Hcs Hh Hl Hpos Hrow) as (c & Hcl & Hslot).
    destruct (page_of _ _ pos ltac:(lia) Hroom Hpos) as (b & Hbl & Es & Hi). rewrite Es in Hslot.
    exists b. split; [done|].
    destruct (Forall_lookup_1 _ _ _ _ Hns Hm) as (kv0 & Hkv0 & _ & Hsh).
    rewrite Hkv in Hkv0. injection Hkv0 as <-.
    apply (Hsh (shard_cache rank_heads (Z.of_nat r) <$> cs) l (shard_cache rank_heads (Z.of_nat r) c)).
    + by apply Hr.
    + by rewrite list_lookup_fmap, Hcl.
    + cbn [shard_cache pc_slots]. by rewrite lookup_fmap, Hslot.
    + by eapply page_layers.
    + apply Hb. by eapply list_elem_of_lookup_2.
    + done.
Qed.

(** Stored in pages that the caches see, it is a sequence of the system. *)
Lemma seq_from_device bs cs cs' ns kvs q :
  recached bs kvs cs cs' → Forall2 (λ m kv, nd_kv m = Some kv) ns kvs → len ns = w →
  stored ns q GPU bs →
  seq_ok D page cs' {| sq_prompt := sq_prompt q; sq_tokens := sq_tokens q;
                       sq_cached := sq_cached q; sq_blocks := bs |}.
Proof using DecoderLaws0 block_rows_heads.
  intros [Hl Hcs _ Hwr] Hkvs Hlen [Hg Hc Hroom _ Hh Hat].
  pose proof (dl_page (D := D) (z := z) (w := w) (page := page) (config := config) (layers := layers)).
  pose proof (dl_ranks (D := D) (z := z) (w := w) (page := page) (config := config) (layers := layers)).
  split; [done|done|]. cbn [sq_tokens sq_cached sq_blocks]. apply holds_intro; [done| | |].
  - by rewrite Hl, (dl_layers (D := D) (z := z) (w := w) (page := page) (config := config)).
  - eapply Forall_impl; [apply (dl_lengths (D := D) (z := z) (w := w) (page := page) (config := config)
      (layers := layers))|]. intros kv ->. unfold len in Hc. lia.
  - intros l c pages pos row Hcl Hpl Hpos Hrow.
    destruct (page_of bs _ pos ltac:(lia) Hroom Hpos) as (b & Hbl & -> & Hi).
    rewrite (Hwr l c b _ Hcl); [|by eapply list_elem_of_lookup_2|done]. f_equal.
    destruct (Hh l pages pos row Hpl Hpos Hrow) as [H1 H2].
    rewrite <-(join_shard rank_heads w row); [|apply rank_heads_nonneg|lia|by rewrite H1 at 1; apply heads_whole|
      by rewrite H2 at 1; apply heads_whole].
    f_equal. apply list_eq. intros r. rewrite !list_lookup_fmap.
    destruct (kvs !! r) as [kv|] eqn:Hr.
    + destruct (Forall2_lookup_r _ _ _ _ _ Hkvs Hr) as (m & Hm & Hkv).
      pose proof (lookup_lt_Some _ _ _ Hm) as Hlt. unfold len in Hlen.
      rewrite lookup_py_range by lia. cbn [fmap option_fmap option_map]. f_equal.
      destruct (Hat r m kv Hm Hkv l pages pos row Hpl Hpos Hrow) as (b' & Hb' & E).
      assert (b' = b) as -> by congruence. exact E.
    + apply lookup_ge_None in Hr. rewrite <-(Forall2_length _ _ _ Hkvs) in Hr. unfold len in Hlen.
      by rewrite lookup_ge_None_2 by (rewrite length_py_range; lia).
Qed.

(** ** The invariant *)

Record off_ok (s : offloaded) : Prop := {
  oo_caches : ∃ cs, caches_ok cs (of_sys s);
  oo_generated : generated D (sy_seqs (of_sys s));
  oo_blocks id q b : sy_seqs (of_sys s) !! id = Some q → b ∈ sq_blocks q → 0 ≤ b < tiers GPU;
  oo_nodes : Forall node_ok (sy_nodes (of_sys s));
  oo_parked id p : of_parked s !! id = Some p →
    pk_tier p ≠ GPU ∧ stored (sy_nodes (of_sys s)) (pk_seq p) (pk_tier p) (pk_blocks p);
}.

Notation moved_to q bs := {| sq_prompt := sq_prompt q; sq_tokens := sq_tokens q;
                             sq_cached := sq_cached q; sq_blocks := bs |}.
Notation with_nodes s ns := {| sy_nodes := ns; sy_seqs := sy_seqs (of_sys s) |}.

Lemma off_serving s :
  off_ok s → serving_ok D z w page config layers tokenizer_decode eos (of_sys s).
Proof using. by intros []. Qed.

Lemma seq_recached bs kvs cs cs' q :
  Forall (cache_ok z page) cs → recached bs kvs cs cs' →
  (∀ x, x ∈ cached_slots page q → x.1 ∉ bs) → seq_ok D page cs q → seq_ok D page cs' q.
Proof using DecoderLaws0.
  intros Hcs [_ Hcs' Hframe _] Hfree [Hc Hroom Hh].
  pose proof (dl_page (D := D) (z := z) (w := w) (page := page) (config := config) (layers := layers)).
  split; [done..|]. eapply (holds_same z page cs cs'); [done|done|lia|exact Hroom|done| |exact Hh].
  eapply Forall2_impl; [exact Hframe|]. intros c c' Hcc x Hx. apply Hcc. by apply Hfree.
Qed.

(** Copies into free blocks leave all sequences in place, and what they copy to the
    device can be used there. *)
Lemma copy_keeps s src dst srcs dsts request ns :
  off_ok s → relocation src dst srcs dsts request → sources_ok src srcs → free_blocks s dst dsts →
  answered request s ns →
  Forall2 (relocated src dst srcs dsts request) (sy_nodes (of_sys s)) ns ∧
  off_ok {| of_sys := with_nodes s ns; of_parked := of_parked s |} ∧
  ∃ cs, caches_ok cs (with_nodes s ns) ∧
    ∀ q, dst = GPU → stored ns q GPU dsts → seq_ok D page cs (moved_to q dsts).
Proof using DecoderLaws0 block_rows_heads.
  intros [[cs [Hl Hcs Hr Hseqs]] Hgen Hbl Hns Hpk] Hrl Hsrc Hfree Hans.
  pose proof (answered_moves _ _ _ _ _ _ _ Hrl Hsrc Hns Hans) as Hall.
  assert (Forall node_ok ns) as Hns'.
  { apply Forall_forall. intros m' (r & Hm')%list_elem_of_lookup.
    destruct (Forall2_lookup_r _ _ _ _ _ Hall Hm') as (m & _ & Hm). by eapply relocated_ok. }
  destruct (stores_of ns Hns') as (kvs & Hkvs).
  assert (len ns = w) as Hlen.
  { destruct Hr as [<- _]. unfold len. by rewrite (Forall2_length _ _ _ Hall). }
  assert (recached (device_writes request) kvs cs (imap (see_ranks kvs (device_writes request)) cs)) as Hrc.
  { apply see_recached; [done| |done]. unfold len in *. by rewrite <-(Forall2_length _ _ _ Hkvs). }
  pose proof (copied_ranks _ _ _ _ _ _ _ _ _ Hr Hall Hkvs) as Hr'.
  assert (dst = GPU → device_writes request = dsts) as Hgpu.
  { intros Hd. destruct Hrl as [_ Hd' _ He Hle _ _]. unfold device_writes.
    by rewrite Hd', Hd, He, dst_entries. }
  assert (∀ id q x, sy_seqs (of_sys s) !! id = Some q → x ∈ cached_slots page q →
    x.1 ∉ device_writes request) as Hkeep.
  { intros id q x Hq Hx. destruct (decide (dst = GPU)) as [Hd|Hd].
    - rewrite (Hgpu Hd). rewrite Hd in Hfree. by eapply Hfree.
    - unfold device_writes. rewrite (rl_dst _ _ _ _ _ Hrl). destruct dst; try done; apply not_elem_of_nil. }
  assert (caches_ok (imap (see_ranks kvs (device_writes request)) cs) (with_nodes s ns)) as Hco.
  { split; cbn [sy_nodes sy_seqs]; [apply Hrc|apply Hrc|done|].
    intros id q Hq. eapply seq_recached; [exact Hcs|exact Hrc| |by eapply Hseqs].
    intros x Hx. by eapply Hkeep. }
  split; [done|]. split.
  - split; cbn [of_sys of_parked sy_nodes sy_seqs]; [by eexists|done|done|done|].
    intros id p Hp. destruct (Hpk id p Hp) as [Hne Hst]. split; [done|].
    eapply stored_relocated; [exact Hall| |exact Hst].
    intros Hd b Hb. destruct dst; try done; by eapply (Hfree id p b).
  - eexists. split; [exact Hco|]. intros q Hd Hq.
    eapply seq_from_device; [|exact Hkvs|done|exact Hq]. rewrite <-(Hgpu Hd). exact Hrc.
Qed.

(** ** Every step keeps it *)

(** A round leaves the KV workers alone. *)
Lemma infer_group_stores request ns outputs ns' :
  infer_group D layers tokenizer_decode copy_blocks request ns = (λ n, (Ok outputs, n)) <$> ns' →
  Forall2 (λ m m', nd_kv m' = nd_kv m) ns ns'.
Proof using.
  intros E. apply Forall2_same_length_lookup_2.
  { apply (f_equal length) in E. unfold infer_group in E. by rewrite length_imap, length_fmap in E. }
  intros r m m' Hm Hm'. apply (f_equal (λ x, x !! r)) in E. unfold infer_group in E.
  rewrite list_lookup_imap, list_lookup_fmap, Hm, Hm' in E. cbn [fmap option_fmap option_map] in E.
  injection E as E. unfold Infer in E. destruct (execute _ _ _ _ _ _ _ _) as [r' [w' ?]].
  by injection E as _ <-.
Qed.

Lemma serve_stores s s' :
  serve_step s s' → Forall2 (λ m m', nd_kv m' = nd_kv m) (sy_nodes s) (sy_nodes s').
Proof using.
  destruct 1; cbn [sy_nodes]; try by (eapply infer_group_stores).
  all: by apply Forall_Forall2_diag, Forall_true.
Qed.

(** The pages of the sequences are blocks of the device. *)
Lemma serve_blocks s s' :
  serve_step s s' →
  (∀ id q b, sy_seqs s !! id = Some q → b ∈ sq_blocks q → 0 ≤ b < tiers GPU) →
  ∀ id q b, sy_seqs s' !! id = Some q → b ∈ sq_blocks q → 0 ≤ b < tiers GPU.
Proof using.
  destruct 1 as [s id prompt|s id prompt id0 q0 k blocks Hid Hq0 _ _ _ Hpre _|s id|s ins wt rc outputs ns Had _];
    intros Hs id' q b; cbn [sy_seqs].
  - intros [[-> <-]|[_ Hq]]%lookup_insert_Some; [by intros ?%not_elem_of_nil|by eapply Hs].
  - intros [[-> <-]|[_ Hq]]%lookup_insert_Some; [|by eapply Hs]. cbn [sq_blocks].
    intros Hb. eapply Hs; [exact Hq0|]. destruct Hpre as [more ->]. apply elem_of_app. by left.
  - intros [_ Hq]%lookup_delete_Some. by eapply Hs.
  - intros [(d & q0 & Hd & -> & Hq & ->)|[_ Hq]]%advance_all_inv; [|by eapply Hs|apply Had].
    unfold advance. cbn [sq_blocks]. intros Hb. by eapply (ad_blocks _ _ _ _ _ Had).
Qed.

Lemma set_gpu_ok gpu kv :
  len gpu = len (gpu_kv_caches kv) → kv_ok kv → kv_ok (set_gpu gpu kv).
Proof using.
  intros Hl [[H1 H2 H3 H4 H5 H6 H7] HL Hst Ht]. split; [|done|done|].
  - split; try done. cbn [gpu_kv_caches set_gpu]. by rewrite Hl, H5.
  - intros []; apply Ht.
Qed.

Lemma serve_keeps s s' ns :
  off_ok s → serve_step (of_sys s) s' → Forall2 rewritten (sy_nodes s') ns →
  off_ok {| of_sys := {| sy_nodes := ns; sy_seqs := sy_seqs s' |}; of_parked := of_parked s |}.
Proof using DecoderLaws0.
  intros Hok Hstep Hns. pose proof (serve_stores _ _ Hstep) as Hkv.
  pose proof (step_keeps D z w page config layers tokenizer_decode eos copy_blocks (tiers GPU)
    _ _ Hstep (off_serving _ Hok)) as [[cs [Hl Hcs [Hlen Hr] Hseqs]] Hgen].
  destruct Hok as [_ _ Hbl Hnodes Hpk].
  split; cbn [of_sys of_parked sy_nodes sy_seqs]; [| done| | |].
  - exists cs. split; cbn [sy_nodes sy_seqs]; try done. split.
    { unfold len in *. by rewrite <-(Forall2_length _ _ _ Hns). }
    intros r m' Hm'. destruct (Forall2_lookup_r _ _ _ _ _ Hns Hm') as (m & Hm & Hsv & _).
    destruct (Hr r m Hm). split; unfold node_worker in *; by rewrite Hsv.
  - by eapply serve_blocks.
  - apply Forall_forall. intros m' (r & Hm')%list_elem_of_lookup.
    destruct (Forall2_lookup_r _ _ _ _ _ Hns Hm') as (m & Hm & _ & kv & gpu & Hmkv & Hg & Hm'kv & Hsh).
    destruct (Forall2_lookup_r _ _ _ _ _ Hkv Hm) as (m0 & Hm0 & E).
    destruct (Forall_lookup_1 _ _ _ _ Hnodes Hm0) as (kv0 & Hkv0 & Hok0 & _).
    rewrite E, Hkv0 in Hmkv. injection Hmkv as <-.
    exists (set_gpu gpu kv0). split; [done|]. split; [by apply set_gpu_ok|done].
  - intros id p Hp. destruct (Hpk id p Hp) as [Hne Hst]. split; [done|].
    eapply stored_kept; [|exact Hst].
    apply Forall2_same_length_lookup_2.
    { by rewrite (Forall2_length _ _ _ Hkv), (Forall2_length _ _ _ Hns). }
    intros r m0 m' Hm0 Hm' kv' Hkv'.
    destruct (Forall2_lookup_r _ _ _ _ _ Hns Hm') as (m & Hm & _ & kv & gpu & Hmkv & _ & Hm'kv & _).
    destruct (Forall2_lookup_r _ _ _ _ _ Hkv Hm) as (m1 & Hm1 & E).
    rewrite Hm0 in Hm1. injection Hm1 as <-. rewrite Hkv' in Hm'kv. injection Hm'kv as ->.
    exists kv. split; [by rewrite <-E|]. intros b l i _ _. by destruct (pk_tier p).
Qed.

Lemma off_keeps s s' : off_step s s' → off_ok s → off_ok s'.
Proof using DecoderLaws0 block_rows_heads.
  destruct 1 as [s s' ns Hstep Hns|s id q tier bs request ns Hq Hp Hrl Hfree Hans
    |s id p tier bs request ns Hp Ht Hrl Hfree Hans|s id p bs request ns Hp Hid Hrl Hfree Hans]; intros Hok.
  - by eapply serve_keeps.
  - destruct (copy_keeps _ _ _ _ _ _ ns Hok Hrl) as (Hall & [Hcs Hgen Hbl Hns Hpk] & _); [|done..|].
    { intros b. by eapply (oo_blocks _ Hok). }
    destruct Hcs as [cs [Hl Hc Hr Hseqs]].
    split; cbn [of_sys of_parked sy_nodes sy_seqs] in *; [| | |done|].
    + exists cs. split; cbn [sy_nodes sy_seqs]; try done.
      intros i q' [_ Hq']%lookup_delete_Some. by eapply Hseqs.
    + intros i q' [_ Hq']%lookup_delete_Some. by eapply Hgen.
    + intros i q' b [_ Hq']%lookup_delete_Some. by eapply Hbl.
    + intros i p' [[-> <-]|[_ Hp']]%lookup_insert_Some; [|by eapply Hpk].
      cbn [pk_tier pk_seq pk_blocks]. split; [intros ->; by apply (rl_supported _ _ _ _ _ Hrl)|].
      eapply stored_moved; [exact Hrl|exact Hall|].
      destruct Hok as [(cs0 & [Hl0 Hc0 Hr0 Hs0]) Hg0 Hb0 Hn0 _].
      eapply stored_on_device; [exact Hl0|done|done|done|by eapply Hs0|by eapply Hg0|].
      intros b. by eapply Hb0.
  - destruct (oo_parked _ Hok _ _ Hp) as [Hne Hst].
    destruct (copy_keeps _ _ _ _ _ _ ns Hok Hrl) as (Hall & [Hcs Hgen Hbl Hns Hpk] & _);
      [by apply Hst|done..|].
    split; cbn [of_sys of_parked sy_nodes sy_seqs] in *; try done.
    intros i p' [[-> <-]|[_ Hp']]%lookup_insert_Some; [|by eapply Hpk].
    split; [done|]. by eapply stored_moved.
  - destruct (oo_parked _ Hok _ _ Hp) as [Hne Hst].
    destruct (copy_keeps _ _ _ _ _ _ ns Hok Hrl)
      as (Hall & [_ Hgen Hbl Hns Hpk] & cs & [Hl Hc Hr Hseqs] & Hback); [by apply Hst|done..|].
    pose proof (stored_moved _ _ _ _ _ _ _ _ Hrl Hall Hst) as Hst'.
    split; cbn [of_sys of_parked sy_nodes sy_seqs] in *; [| | |done|].
    + exists cs. split; cbn [sy_nodes sy_seqs]; try done.
      intros i q' [[-> <-]|[_ Hq']]%lookup_insert_Some; [by apply Hback|by eapply Hseqs].
    + intros i q' [[-> <-]|[_ Hq']]%lookup_insert_Some; [apply Hst'|by eapply Hgen].
    + intros i q' b [[-> <-]|[_ Hq']]%lookup_insert_Some; [apply Hst'|by eapply Hbl].
    + intros i p' [_ Hp']%lookup_delete_Some. by eapply Hpk.
Qed.

Lemma off_start_ok s : off_start s → off_ok s.
Proof using DecoderLaws0.
  intros [Hsv Hst Hpk].
  pose proof (start_ok D z w page config layers tokenizer_decode eos (tiers GPU) _ Hsv) as [Hcs Hgen].
  split; [done|done| | |].
  - intros id q b. by rewrite (st_seqs _ _ _ _ _ _ _ Hsv), lookup_empty.
  - apply Forall_forall. intros m Hm. destruct (Hst m Hm) as (kv & Hkv & Hok). exists kv.
    split; [done|]. split; [done|]. apply list_elem_of_lookup in Hm as [r Hr].
    destruct (st_workers _ _ _ _ _ _ _ Hsv r m Hr) as (g & h & dk & path & params & E & _).
    apply init_cache_state in E. intros caches l c b i row Hc Hl Hrow. rewrite E in Hc.
    cbn [kv_caches set_kv_caches] in Hc. injection Hc as <-.
    apply list_elem_of_lookup_2, list_elem_of_fmap in Hl as (? & -> & _).
    cbn [pc_slots] in Hrow. by rewrite lookup_empty in Hrow.
  - intros id p. by rewrite Hpk, lookup_empty.
Qed.

Lemma off_reachable s0 s : off_start s0 → rtc off_step s0 s → off_ok s.
Proof using DecoderLaws0 block_rows_heads.
  intros H0 Hr. apply off_start_ok in H0. induction Hr; [done|]. eauto using off_keeps.
Qed.

Lemma relocation_answered s src dst srcs dsts request :
  off_ok s → relocation src dst srcs dsts request → sources_ok src srcs →
  ∃ ns, answered request s ns.
Proof using.
  intros Hok Hrl Hs.
  destruct (copy_group_moves _ _ _ _ _ _ Hrl Hs (oo_nodes _ Hok)) as (ns & E & _). by exists ns.
Qed.

Lemma off_generated s id q :
  off_ok s → sy_seqs (of_sys s) !! id = Some q ∨ pk_seq <$> of_parked s !! id = Some q →
  ∃ k, sq_tokens q = generate D k (sq_prompt q).
Proof using.
  intros Hok [Hq|(p & Hp & ->)%fmap_Some]; [by eapply (oo_generated _ Hok)|].
  by apply (oo_parked _ Hok) in Hp as [_ []].
Qed.


(** ** The device can show any caches *)

Section packing.
(** Bytes of a block with given rows. *)
Context (pack : (Z → head_row V * head_row V) → list Z).
Context (pack_stride : ∀ f, len (pack f) = stride)
  (pack_rows : ∀ f i, (∀ j, rank_row rank_heads (f j)) → 0 ≤ i < page → block_rows (pack f) i = f i).

Definition slot_row (caches : list cache) (l b i : Z) : head_row V * head_row V :=
  default (block_rows [] 0) (caches !! Z.to_nat l ≫= λ c, pc_slots c !! (b, i)).
Definition shown_memory (caches : list cache) (kv : KVWorker) : list Z :=
  let blocks := gpu_num_blocks kv in
  concat ((λ k, pack (slot_row caches (k / blocks) (k `mod` blocks)))
            <$> py_range 0 (num_layers kv * blocks)).

Lemma device_can_show m kv caches :
  nd_kv m = Some kv → kv_ok kv → kv_caches (node_worker m) = Some caches →
  (∀ (l : nat) c x row, caches !! l = Some c → pc_slots c !! x = Some row → rank_row rank_heads row) →
  ∃ m', rewritten m m'.
Proof using block_rows_heads pack_stride pack_rows.
  intros Hkv Hok Hc Hrows. set (gpu := shown_memory caches kv).
  exists {| nd_service := nd_service m; nd_files := nd_files m; nd_socket := nd_socket m;
            nd_kv := Some (set_gpu gpu kv) |}.
  destruct Hok as [[Hs HL0 Hg0 _ Hlen _ _] HL Hst Ht].
  assert (Forall (λ l, len l = stride) ((λ k, pack (slot_row caches (k / gpu_num_blocks kv)
    (k `mod` gpu_num_blocks kv))) <$> py_range 0 (num_layers kv * gpu_num_blocks kv))) as Hall
    by (apply Forall_fmap, Forall_true; intros k; apply pack_stride).
  split; [done|]. exists kv, gpu. split; [done|]. split; [|split; [done|]].
  { unfold gpu, shown_memory. cbn zeta. rewrite (len_concat_const stride) by done.
    rewrite len_fmap, Hlen, Hst. unfold len. rewrite length_py_range. nia. }
  intros own l c b i row Hown Hl Hrow Hll Hb Hi. unfold node_worker in Hown, Hc.
  cbn [nd_service] in Hown. rewrite Hc in Hown. injection Hown as <-.
  specialize (Ht GPU). cbn [num_blocks] in Ht.
  pose proof (gpu_index (gpu_num_blocks kv) (num_layers kv) b (Z.of_nat l) ltac:(lia) ltac:(lia)) as Hk.
  unfold rows_at. rewrite (read_gpu_block (set_gpu gpu kv)) by (cbn [gpu_num_blocks num_layers set_gpu]; lia).
  cbn [default from_option id gpu_kv_caches block_stride gpu_num_blocks set_gpu].
  set (k := Z.of_nat l * gpu_num_blocks kv + b) in *.
  assert (k / gpu_num_blocks kv = Z.of_nat l ∧ k `mod` gpu_num_blocks kv = b) as [Ekl Ekb].
  { split; symmetry; [apply (Z.div_unique_pos _ _ _ b)|apply (Z.mod_unique_pos _ _ (Z.of_nat l))]; lia. }
  unfold gpu, shown_memory. cbn zeta. rewrite Hst. replace k with (Z.of_nat (Z.to_nat k)) at 1 by lia.
  erewrite (block_concat stride); [|done|by rewrite list_lookup_fmap, lookup_py_range by lia].
  replace (0 + Z.of_nat (Z.to_nat k)) with k by lia. rewrite Ekl, Ekb, pack_rows; [| |done].
  - unfold slot_row. rewrite Nat2Z.id, Hl. cbn [mbind option_bind]. by rewrite Hrow.
  - intros j. unfold slot_row. rewrite Nat2Z.id, Hl. cbn [mbind option_bind].
    destruct (pc_slots c !! (b, j)) as [row'|] eqn:E; [by eapply Hrows|apply block_rows_heads].
Qed.

Lemma rank_rows (cs : list cache) (r : nat) m caches (l : nat) c x row :
  Z.of_nat r < w → Forall (cache_ok z page) cs →
  rank_ok z w page config tokenizer_decode eos cs r m → kv_caches (node_worker m) = Some caches →
  caches !! l = Some c → pc_slots c !! x = Some row → rank_row rank_heads row.
Proof using DecoderLaws0 block_rows_heads.
  intros Hr Hcs [_ _ Hkv _ _ _] Hc Hl Hrow. rewrite Hkv in Hc. injection Hc as <-.
  rewrite list_lookup_fmap in Hl. apply fmap_Some in Hl as (c0 & Hc0 & ->).
  cbn [shard_cache pc_slots] in Hrow. rewrite lookup_fmap in Hrow.
  apply fmap_Some in Hrow as (full & Hfull & ->).
  destruct (Forall_lookup_1 _ _ _ _ Hcs Hc0) as [_ Hh]. destruct (Hh _ _ Hfull) as [H1 H2].
  pose proof rank_heads_nonneg. pose proof heads_whole as Hw.
  split; unfold shard_kv; cbn [fst snd]; apply (len_block _ _ w); lia.
Qed.

(** A round of the system is a round with offloaded sequences. *)
Lemma round_off_step s ins :
  off_ok s → admissible D page (tiers GPU) (of_sys s) ins →
  ∃ ns, off_step s {| of_sys := {| sy_nodes := ns;
      sy_seqs := advance_all (answer D tokenizer_decode eos (of_sys s) ins) ins (sy_seqs (of_sys s)) |};
    of_parked := of_parked s |}.
Proof using DecoderLaws0 block_rows_heads pack_stride pack_rows.
  intros Hok Had.
  destruct (round_step D z w page config layers tokenizer_decode eos copy_blocks (tiers GPU) (of_sys s) ins
    (off_serving _ Hok) Had) as (ns & Hstep).
  pose proof (serve_stores _ _ Hstep) as Hkv. cbn [sy_nodes] in Hkv.
  pose proof (step_keeps D z w page config layers tokenizer_decode eos copy_blocks (tiers GPU)
    _ _ Hstep (off_serving _ Hok)) as [[cs [_ Hcs [Hlen Hr] _]] _].
  cbn [sy_nodes] in Hlen, Hr.
  assert (∃ ns', Forall2 rewritten ns ns') as (ns' & Hns').
  { assert (∀ m, m ∈ ns → ∃ m', rewritten m m') as Hex.
    { intros m (r & Hm)%list_elem_of_lookup.
      destruct (Forall2_lookup_r _ _ _ _ _ Hkv Hm) as (m0 & Hm0 & E).
      destruct (Forall_lookup_1 _ _ _ _ (oo_nodes _ Hok) Hm0) as (kv & Hkv0 & Hkok & _).
      pose proof (rk_caches _ _ _ _ _ _ _ _ _ (Hr r m Hm)) as Hc.
      apply (device_can_show m kv (shard_cache rank_heads (Z.of_nat r) <$> cs)); [by rewrite E|done|done|].
      intros l c x row. eapply rank_rows; [|exact Hcs|by apply Hr|exact Hc].
      apply lookup_lt_Some in Hm. unfold len in Hlen. lia. }
    clear -Hex. induction ns as [|m ns IH]; [by exists []|].
    destruct (Hex m) as [m' Hm']; [by left|]. destruct IH as [ns' Hns']; [intros; apply Hex; by right|].
    exists (m' :: ns'). by constructor. }
  exists ns'. by apply (off_serve s _ ns' Hstep Hns').
Qed.
End packing.

(** So is an arrival. *)
Lemma arrive_off_step s id prompt :
  off_ok s → sy_seqs (of_sys s) !! id = None →
  off_step s {| of_sys := {| sy_nodes := sy_nodes (of_sys s);
      sy_seqs := <[id := {| sq_prompt := prompt; sq_tokens := prompt;
                            sq_cached := 0; sq_blocks := [] |}]> (sy_seqs (of_sys s)) |};
    of_parked := of_parked s |}.
Proof using.
  intros Hok Hid.
  pose proof (serve_arrive D page layers tokenizer_decode copy_blocks (tiers GPU) (of_sys s) id prompt Hid) as Hs.
  apply (off_serve s _ (sy_nodes (of_sys s)) Hs). apply Forall_Forall2_diag.
  eapply Forall_impl; [exact (oo_nodes _ Hok)|]. intros m (kv & Hkv & _ & Hsh).
  assert (set_gpu (gpu_kv_caches kv) kv = kv) as E by (by destruct kv).
  split; [done|]. exists kv, (gpu_kv_caches kv). by rewrite E.
Qed.
End offload.

(** ** Two ranks, over the integers *)

#[local] Existing Instances floats_Z norm_Z heads_Z heads_Z_laws heads_Z_headwise sampling_Z decoder_Z_laws.

Notation rows_Z := (head_row Z * head_row Z)%type.
Definition heads_of (k : Z) (row : rows_Z) : rows_Z :=
  (resize (Z.to_nat k) [] row.1, resize (Z.to_nat k) [] row.2).

(** A block is one unbounded byte, which codes its rows. *)
Definition block_rows_Z (bytes : list Z) (i : Z) : rows_Z :=
  heads_of (sz_kv sizes_Z / 2)
    (default ([], []) (head bytes ≫= λ x, decode (A := list rows_Z) (Z.to_pos x) ≫= λ rows, rows !! Z.to_nat i)).
Definition pack_Z (f : Z → rows_Z) : list Z := [Zpos (encode (f <$> py_range 0 2))].

Lemma block_rows_Z_heads bytes i : rank_row (sz_kv sizes_Z / 2) (block_rows_Z bytes i).
Proof. by split; unfold block_rows_Z, heads_of, len; cbn [fst snd]; rewrite length_resize. Qed.

Lemma pack_Z_rows f i :
  (∀ j, rank_row (sz_kv sizes_Z / 2) (f j)) → 0 ≤ i < 2 → block_rows_Z (pack_Z f) i = f i.
Proof.
  intros Hf Hi. unfold block_rows_Z, pack_Z. cbn [head mbind option_bind Z.to_pos].
  rewrite decode_encode. cbn [mbind option_bind].
  rewrite list_lookup_fmap, lookup_py_range by lia. replace (0 + Z.of_nat (Z.to_nat i)) with i by lia.
  cbn [fmap option_fmap option_map default from_option id]. destruct (Hf i) as [H1 H2].
  unfold heads_of. unfold len in H1, H2. rewrite !resize_all_alt by lia. by destruct (f i).
Qed.

Definition tiers_Z (d : Device) : Z := match d with GPU => 6 | Host => 2 | Disk => 0 end.
Definition store_Z : KVWorker := {|
  num_layers := 1; gpu_num_blocks := 6; gpu_kv_caches := [0; 0; 0; 0; 0; 0]; gpu_kv_cache_ptrs := [0];
  block_stride := 1; host_kv_caches := [[[0]]; [[0]]]; disk_kv_caches := None; actions := [] |}.
Definition store_node (r : nat) : node_Z := {|
  nd_service := nd_service (node_of r); nd_files := ∅; nd_socket := true; nd_kv := Some store_Z |}.
Definition off_Z : offloaded := {|
  of_sys := {| sy_nodes := [store_node 0; store_node 1]; sy_seqs := ∅ |}; of_parked := ∅ |}.
Notation off_start_Z := (off_start 2 2 config_Z 1 [1] tiers_Z 1).

Lemma off_Z_ok : off_start_Z off_Z.
Proof.
  split; [|intros m Hm; exists store_Z|done].
  - destruct start_Z_ok as [HL Hlen Hw Hs]. split; [done|done| |done].
    intros r m Hm. destruct r as [|[|r]]; simplify_eq/=;
      [by apply (Hw 0%nat (node_of 0))|by apply (Hw 1%nat (node_of 1))].
  - split; [by cbn in Hm; set_solver|]. split; [|done|done|by intros []].
    by split; try apply (bool_decide_unpack _); vm_compute.
Qed.

(** Sequence 8 is parked in host block 1; sequence 9 takes its page; 8 comes back to
    page 4 and goes on. *)
Definition prefix_9 : InferInput := {| seq_id := 9; input_ids := [3; 0]; input_len := 2;
  filled_token_len := 0; context_len := 2; block_ids := [0] |}.
Definition moved_8 : InferInput := {| seq_id := 8; input_ids := [2]; input_len := 1;
  filled_token_len := 2; context_len := 3; block_ids := [4; 2] |}.
Definition parked_8 : gmap Z parked :=
  {[8 := {| pk_seq := seq_Z prompt_8 prompt_8 2 [0]; pk_tier := Host; pk_blocks := [1] |}]}.
Definition save_8 : CopyKVRequest :=
  {| block_mappings := [[Build_BlockMappingEntry 0 1]]; src_device := GPU; dst_device := Host |}.
Definition load_8 : CopyKVRequest :=
  {| block_mappings := [[Build_BlockMappingEntry 1 4]]; src_device := Host; dst_device := GPU |}.
Definition seqs_9 : gmap Z sequence := {[9 := seq_Z prompt_9 prompt_9 0 []]}.
Definition seqs_9' : gmap Z sequence := {[9 := seq_Z prompt_9 prompt_9 2 [0]]}.
Definition seqs_back : gmap Z sequence := <[8 := seq_Z prompt_8 prompt_8 2 [4]]> seqs_9'.
Definition state_Z (ns : list node_Z) (seqs : gmap Z sequence) (pk : gmap Z parked) : offloaded :=
  {| of_sys := {| sy_nodes := ns; sy_seqs := seqs |}; of_parked := pk |}.

Lemma round_9 ns :
  advance_all (answer_Z {| sy_nodes := ns; sy_seqs := seqs_9 |} [prefix_9]) [prefix_9] seqs_9 = seqs_9'.
Proof. vm_compute. reflexivity. Qed.

Lemma admissible_9 (ns : list node_Z) : admissible_Z ns seqs_9 [prefix_9].
Proof.
  assert (∀ d, d ∈ [prefix_9] → d = prefix_9) as Hin by (intros d; apply list_elem_of_singleton).
  split; cbn [sy_seqs].
  - split; try (by intros d ->%Hin); try (by apply (bool_decide_unpack _); vm_compute).
    by split; apply (bool_decide_unpack _); vm_compute.
  - by apply (bool_decide_unpack _).
  - intros d ->%Hin. exists (seq_Z prompt_9 prompt_9 0 []). split; [reflexivity|].
    split; [by split|]. split; [done|]. by apply prefix_nil.
  - intros d id q x ->%Hin Hq. unfold seqs_9 in Hq. apply lookup_singleton_Some in Hq as [<- <-]. by intros [].
  - intros d b ->%Hin Hb. cbn in Hb. rewrite elem_of_cons, elem_of_nil in Hb. lia.
Qed.

Lemma admissible_back (ns : list node_Z) : admissible_Z ns seqs_back [moved_8].
Proof.
  assert (∀ d, d ∈ [moved_8] → d = moved_8) as Hin by (intros d; apply list_elem_of_singleton).
  split; cbn [sy_seqs].
  - split; try (by intros d ->%Hin); try (by apply (bool_decide_unpack _); vm_compute).
    by split; apply (bool_decide_unpack _); vm_compute.
  - by apply (bool_decide_unpack _).
  - intros d ->%Hin. exists (seq_Z prompt_8 prompt_8 2 [4]). split; [reflexivity|].
    split; [by split|]. split; [done|]. by apply (bool_decide_unpack _).
  - intros d id q x ->%Hin Hq Hne. unfold seqs_back, seqs_9' in Hq.
    apply lookup_insert_Some in Hq as [[<- <-]|[_ Hq]]; [done|].
    apply lookup_singleton_Some in Hq as [<- <-].
    intros ->%list_elem_of_singleton. by apply (bool_decide_unpack _).
  - intros d b ->%Hin Hb. cbn in Hb. rewrite !elem_of_cons, elem_of_nil in Hb. lia.
Qed.

Notation off_steps_Z := (rtc (off_step decoder_Z 2 1 (λ i, pretty i) (λ kv _, kv) block_rows_Z tiers_Z)).
Lemma off_reachable_Z s :
  off_steps_Z off_Z s →
  off_ok decoder_Z sizes_Z 2 2 config_Z 1 (λ i, pretty i) [1] block_rows_Z tiers_Z 1 s.
Proof.
  intros Hr. by eapply (off_reachable decoder_Z sizes_Z 2 2 config_Z 1 _ [1] _ block_rows_Z
    block_rows_Z_heads tiers_Z 1 off_Z _ off_Z_ok).
Qed.

Lemma off_round_Z ns seqs seqs' pk ins :
  off_steps_Z off_Z (state_Z ns seqs pk) → admissible_Z ns seqs ins →
  (∀ ns, advance_all (answer_Z {| sy_nodes := ns; sy_seqs := seqs |} ins) ins seqs = seqs') →
  ∃ ns', off_steps_Z off_Z (state_Z ns' seqs' pk).
Proof.
  intros Hr Had E.
  destruct (round_off_step decoder_Z sizes_Z 2 2 config_Z 1 (λ i, pretty i) [1] (λ kv _, kv) block_rows_Z
    block_rows_Z_heads tiers_Z 1 pack_Z ltac:(done) pack_Z_rows _ ins (off_reachable_Z _ Hr) Had) as [ns' S].
  cbn [of_sys state_Z sy_seqs of_parked] in S. rewrite E in S.
  exists ns'. eapply rtc_r; [exact Hr|exact S].
Qed.

Lemma relocation_one (src dst : Device) a b :
  COPY_KV_OP_MAP src dst ≠ None → 0 ≤ b < tiers_Z dst →
  relocation tiers_Z src dst [a] [b]
    {| block_mappings := [[Build_BlockMappingEntry a b]]; src_device := src; dst_device := dst |}.
Proof.
  intros Hop Hb. split; try done; [by apply NoDup_singleton|]. by intros ? ->%list_elem_of_singleton.
Qed.

Lemma back_state : ∃ ns, off_steps_Z off_Z (state_Z ns seqs_back ∅).
Proof.
  assert (off_steps_Z off_Z (state_Z [store_node 0; store_node 1] seqs_1 ∅)) as R1.
  { eapply rtc_r; [apply rtc_refl|]. apply (arrive_off_step decoder_Z sizes_Z 2 2 config_Z 1 _ [1] _
      block_rows_Z tiers_Z 1 off_Z 8 prompt_8); [apply off_reachable_Z, rtc_refl|done]. }
  destruct (off_round_Z _ _ _ _ _ R1 (first_admissible _) first_round) as [ns2 R2].
  destruct (relocation_answered decoder_Z sizes_Z 2 2 config_Z 1 (λ i, pretty i) [1] block_rows_Z tiers_Z 1
    _ GPU Host [0] [1] save_8 (off_reachable_Z _ R2)) as [ns3 A3];
    [by apply relocation_one|by intros ? ->%list_elem_of_singleton|].
  assert (off_steps_Z off_Z (state_Z ns3 ∅ parked_8)) as R3.
  { eapply rtc_r; [exact R2|].
    exact (off_save decoder_Z 2 1 (λ i, pretty i) (λ kv _, kv) block_rows_Z tiers_Z
      (state_Z ns2 seqs_2 ∅) 8 (seq_Z prompt_8 prompt_8 2 [0]) Host [1] save_8 ns3 eq_refl eq_refl
      (relocation_one GPU Host 0 1 ltac:(done) ltac:(done)) ltac:(done) A3). }
  assert (off_steps_Z off_Z (state_Z ns3 seqs_9 parked_8)) as R4.
  { eapply rtc_r; [exact R3|]. by apply (arrive_off_step decoder_Z sizes_Z 2 2 config_Z 1 _ [1] _
      block_rows_Z tiers_Z 1 _ 9 prompt_9 (off_reachable_Z _ R3)). }
  destruct (off_round_Z _ _ _ _ _ R4 (admissible_9 _) round_9) as [ns5 R5].
  destruct (relocation_answered decoder_Z sizes_Z 2 2 config_Z 1 (λ i, pretty i) [1] block_rows_Z tiers_Z 1
    _ Host GPU [1] [4] load_8 (off_reachable_Z _ R5)) as [ns6 A6];
    [by apply relocation_one|by intros ? ->%list_elem_of_singleton|].
  exists ns6. eapply rtc_r; [exact R5|].
  refine (off_load decoder_Z 2 1 (λ i, pretty i) (λ kv _, kv) block_rows_Z tiers_Z
    (state_Z ns5 seqs_9' parked_8) 8
    {| pk_seq := seq_Z prompt_8 prompt_8 2 [0]; pk_tier := Host; pk_blocks := [1] |} [4] load_8 ns6
    eq_refl eq_refl (relocation_one Host GPU 1 4 ltac:(done) ltac:(done)) _ A6).
  intros id q x Hq. cbn [of_sys sy_seqs state_Z] in Hq. unfold seqs_9' in Hq.
  apply lookup_singleton_Some in Hq as [<- <-]. revert x.
  apply (Forall_forall (λ x : Z * Z, x.1 ∉ [4])). by apply (bool_decide_unpack _).
Qed.

