(* ===== verification/ModelLoading.v ===== *)
(** * Loading a Llama checkpoint

    The module tree of the Llama model on a rank, with the names its attributes
    give to the parameters, and the theorem that [load_weights] of [ModelUtils]
    leaves every rank with its shards of the checkpoint, which is what
    [LlamaTheorems] assumes of the ranks. *)
From Stdlib Require Import Ascii.
From stdpp Require Import strings pretty.
From S2P Require Import Prelude PyString ParallelUtils Tensor TensorParallel ModelUtils.
From S2P Require Import FlashInfer Batch PagedAttention Triton Rotary Activations Heads Llama ModelSpec LlamaSpec LlamaTheorems.
Import TensorParallel.Mappings TensorParallel.Layers.

#[local] Opaque py_range.
#[local] Arguments block : simpl never.
#[local] Arguments load_weights : simpl never.

(** ** Numbers in names *)

Lemma no_dot_pretty (i : nat) : no_dot (pretty i) = true.
Proof. apply no_char_pretty. not_a_digit. Qed.

(** ** The module tree *)

Section tree.
Context {V : Type}.
Notation module := (module V).

Definition leaf (cls : string) (ps : list (string * tensor V)) : module := Module_ cls ps [] [].

(** [weight], and [bias] if there is one. *)
Definition linear_parameters (p : params (V := V)) : list (string * tensor V) :=
  ("weight"%string, Matrix p.1) ::
  match p.2 with Some b => [("bias"%string, Vec b)] | None => [] end.
Definition norm_parameters (n : LlamaRMSNorm (V := V)) : list (string * tensor V) :=
  [("weight"%string, Vec (rn_weight n))].

(** The attributes in the order the constructors assign them; [act] is the
    class of the activation module. *)
Context (act : string) (rope : RotaryEmbedding V).

Definition attention_tree (L : layer_weights V) : module :=
  Module_ "LlamaAttention" [] [] [
    ("q_proj", leaf "ColumnParallelLinear" (linear_parameters (lw_q L)));
    ("k_proj", leaf "ColumnParallelLinear" (linear_parameters (lw_k L)));
    ("v_proj", leaf "ColumnParallelLinear" (linear_parameters (lw_v L)));
    ("o_proj", leaf "RowParallelLinear" (linear_parameters (lw_o L, None)));
    ("rotary_emb", Module_ "RotaryEmbedding" [] [Matrix (re_cos_sin_cached rope)] []);
    ("attn", leaf "Attention" [])]%string.

Definition mlp_tree (L : layer_weights V) : module :=
  Module_ "LlamaMLP" [] [] [
    ("gate_proj", leaf "ColumnParallelLinear" (linear_parameters (lw_gate L, None)));
    ("up_proj", leaf "ColumnParallelLinear" (linear_parameters (lw_up L, None)));
    ("down_proj", leaf "RowParallelLinear" (linear_parameters (lw_down L, None)));
    ("activation_fn", leaf act [])]%string.

Definition layer_tree (L : layer_weights V) : module :=
  Module_ "LlamaDecoderLayer" [] [] [
    ("self_attn", attention_tree L); ("mlp", mlp_tree L);
    ("input_layernorm", leaf "LlamaRMSNorm" (norm_parameters (lw_input_norm L)));
    ("post_attention_layernorm", leaf "LlamaRMSNorm" (norm_parameters (lw_post_norm L)))]%string.

Definition layers_tree (Ls : list (layer_weights V)) : list (string * module) :=
  imap (λ i L, (pretty i, layer_tree L)) Ls.

Definition model_tree (M : model_weights V) : module :=
  Module_ "LlamaForCausalLM" [] [] [
    ("model", Module_ "LlamaModel" [] [] [
       ("embed_tokens", leaf "VocabParallelEmbedding" [("weight", Matrix (mw_embed M))]);
       ("layers", Module_ "ModuleList" [] [] (layers_tree (mw_layers M)));
       ("norm", leaf "LlamaRMSNorm" (norm_parameters (mw_norm M)))]);
    ("lm_head", leaf "ColumnParallelLinear" (linear_parameters (mw_head M, None)))]%string.

(** The parameters of rank [r]. *)
Definition rank_params (ps : list (params (V := V))) (r : Z) : params :=
  default (Mat 0 [], None) (ps !! Z.to_nat r).
Definition rank_layer (r : Z) (l : LlamaDecoderLayer (V := V)) : layer_weights V := {|
  lw_q := rank_params (cpl_params (q_proj (self_attn l))) r;
  lw_k := rank_params (cpl_params (k_proj (self_attn l))) r;
  lw_v := rank_params (cpl_params (v_proj (self_attn l))) r;
  lw_o := (rank_params (rpl_params (o_proj (self_attn l))) r).1;
  lw_gate := (rank_params (cpl_params (gate_proj (mlp l))) r).1;
  lw_up := (rank_params (cpl_params (up_proj (mlp l))) r).1;
  lw_down := (rank_params (rpl_params (down_proj (mlp l))) r).1;
  lw_act := activation_fn (mlp l);
  lw_input_norm := input_layernorm l; lw_post_norm := post_attention_layernorm l |}.
Definition rank_model (r : Z) (m : LlamaForCausalLM (V := V)) : model_weights V := {|
  mw_embed := default (Mat 0 []) (vpe_weight <$> embed_tokens (model m) !! Z.to_nat r);
  mw_layers := rank_layer r <$> layers (model m);
  mw_norm := norm (model m);
  mw_head := (rank_params (cpl_params (lm_head m)) r).1 |}.

(** The module of rank [r]. *)
Definition llama_module (r : Z) (m : LlamaForCausalLM (V := V)) : module :=
  model_tree (rank_model r m).

(** *** Its names *)

Lemma leaf_ok cls ps :
  Forall (λ p, p.1 = "weight"%string ∨ p.1 = "bias"%string) ps → NoDup ps.*1 →
  names_ok (leaf cls ps).
Proof. intros. by constructor; [..|constructor|constructor|constructor]. Qed.

Lemma linear_leaf_ok cls p : names_ok (leaf cls (linear_parameters p)).
Proof.
  unfold linear_parameters. apply leaf_ok; destruct (p.2); csimpl.
  - by repeat constructor; auto.
  - by repeat constructor; auto.
  - by apply (bool_decide_unpack _).
  - by apply (bool_decide_unpack _).
Qed.

Lemma norm_leaf_ok cls n : names_ok (leaf cls (norm_parameters n)).
Proof. by apply leaf_ok; [repeat constructor; auto|apply (bool_decide_unpack _)]. Qed.

Lemma node_ok cls bs (cs : list (string * module)) :
  bool_decide (NoDup cs.*1) && forallb (λ e, no_dot e.1) cs = true →
  Forall (λ e, names_ok e.2) cs → names_ok (Module_ cls [] bs cs).
Proof.
  intros [Hnd Hdots]%andb_prop Hcs. apply bool_decide_eq_true in Hnd.
  constructor; try done; [constructor|].
  rewrite List.forallb_forall in Hdots. apply Forall_forall. intros e He.
  by apply Hdots, list_elem_of_In.
Qed.

(** The children of a list are named by their numbers. *)
Lemma numbered_ok {A} (f : A → module) Ls :
  (∀ L, L ∈ Ls → names_ok (f L)) →
  names_ok (Module_ "ModuleList" [] [] (imap (λ i L, (pretty i, f L)) Ls)).
Proof using.
  intros HL. constructor; [by constructor|constructor|..].
  - apply Forall_lookup_2. intros i e Hi. rewrite list_lookup_imap in Hi.
    apply fmap_Some in Hi as (L & _ & ->). apply no_dot_pretty.
  - rewrite fmap_imap. apply NoDup_alt. intros i j n Hi Hj.
    rewrite list_lookup_imap in Hi, Hj.
    apply fmap_Some in Hi as (? & _ & ->), Hj as (? & _ & Hj).
    simpl in Hj. by apply (inj pretty) in Hj.
  - apply Forall_lookup_2. intros i e Hi. rewrite list_lookup_imap in Hi.
    apply fmap_Some in Hi as (L & HLi & ->). by eapply HL, list_elem_of_lookup_2.
Qed.

Lemma model_tree_ok M : model_ok (model_tree M).
Proof.
  split; [|done].
  repeat first [apply linear_leaf_ok | apply norm_leaf_ok | apply node_ok; [done|]
    | apply (numbered_ok layer_tree); intros ? _ | apply Forall_cons; split | apply Forall_nil
    | progress cbn [snd]
    | apply leaf_ok; [by repeat constructor; auto | by apply (bool_decide_unpack _)] ]; done.
Qed.
End tree.

(** ** The shards of a checkpoint *)

Section shards.
Context {V : Type} `{!Scalar V}.
Context (z : sizes) (w : Z) (Hz : sizes_ok z w) (r : Z) (Hr : 0 ≤ r < w).

Lemma rank_params_at (f : Z → params (V := V)) : rank_params (f <$> py_range 0 w) r = f r.
Proof using Hr.
  unfold rank_params. rewrite list_lookup_fmap, lookup_py_range by lia. simpl.
  by rewrite Z2Nat.id by lia.
Qed.

(** One model is built like another. *)
Definition alike (p p0 : params (V := V)) : Prop := is_Some p.2 ↔ is_Some p0.2.

Lemma loads_leaf cls (ps ts qs : list (string * tensor V)) :
  Forall3 (λ p t q, p.1 = t.1 ∧ p.1 = q.1 ∧ load_weights p.2 t.2 (cls, p.1) r = Ok q.2) ps ts qs →
  loads r (leaf cls ps) (leaf cls ts) (leaf cls qs).
Proof using. intros H. by constructor; [|constructor]. Qed.

Lemma linear_block (p : params (V := V)) inp out :
  linear_wf p inp out → out = w * (out / w) → len (block (rows p.1) (out / w) r) = out / w.
Proof using Hr.
  intros (_ & _ & Hn & _) Hout. pose proof (len_nonneg (rows p.1)) as Hpos. unfold nrows in Hn.
  apply (len_block _ _ w); [apply Z.div_pos; lia|done|congruence].
Qed.

Lemma bias_block (p : params (V := V)) inp out b :
  linear_wf p inp out → p.2 = Some b → out = w * (out / w) → len (block b (out / w) r) = out / w.
Proof using Hr.
  intros (_ & _ & _ & Hb) Hpb Hout. pose proof (len_nonneg b) as Hpos. specialize (Hb b Hpb).
  apply (len_block _ _ w); [apply Z.div_pos; lia|done|congruence].
Qed.

Lemma loads_column g (p0 p : params (V := V)) inp out :
  linear_wf p0 inp out → linear_wf p inp out → alike p p0 → out = w * (out / w) →
  loads r (leaf "ColumnParallelLinear" (linear_parameters (rank_params (cpl_params (column w g p0)) r)))
          (leaf "ColumnParallelLinear" (linear_parameters p))
          (leaf "ColumnParallelLinear" (linear_parameters (rank_params (cpl_params (column w g p)) r))).
Proof using Hr.
  intros Hp0 Hp Hb Hout. unfold column, column_shards. cbn [cpl_params]. rewrite !rank_params_at.
  pose proof Hp0 as (_ & Hc0 & Hn0 & _). pose proof Hp as (_ & Hc & Hn & _). rewrite Hn0, Hn.
  apply loads_leaf. unfold linear_parameters. constructor.
  - split_and!; [done|done|]. cbn [fst snd]. apply load_row_shard; [by right|congruence|..];
      by eapply linear_block.
  - destruct p as [W [b|]], p0 as [W0 [b0|]]; simpl in *; unfold alike in Hb; simpl in Hb.
    + constructor; [|constructor]. split_and!; [done|done|]. cbn [fst snd].
      apply load_bias_shard; [by apply (bias_block (W0, Some b0) inp)|by apply (bias_block (W, Some b) inp)].
    + destruct Hb as [Hb _]. by destruct Hb.
    + destruct Hb as [_ Hb]. by destruct Hb.
    + constructor.
Qed.

Lemma loads_column_weight g (W0 W : mat V) inp out :
  linear_wf (W0, None) inp out → linear_wf (W, None) inp out → out = w * (out / w) →
  loads r
    (leaf "ColumnParallelLinear"
       (linear_parameters ((rank_params (cpl_params (column w g (W0, None))) r).1, None)))
    (leaf "ColumnParallelLinear" (linear_parameters (W, None)))
    (leaf "ColumnParallelLinear"
       (linear_parameters ((rank_params (cpl_params (column w g (W, None))) r).1, None))).
Proof using Hr.
  intros H0 H1 Hout. pose proof (loads_column g _ _ inp out H0 H1 ltac:(done) Hout) as E.
  unfold column, column_shards in E |- *. cbn [cpl_params] in E |- *.
  rewrite !rank_params_at in E |- *. exact E.
Qed.

Lemma loads_row (W0 W : mat V) inp out :
  linear_wf (W0, None) inp out → linear_wf (W, None) inp out → inp = w * (inp / w) → 0 ≤ inp →
  loads r (leaf "RowParallelLinear" (linear_parameters ((rank_params (rpl_params (row w W0)) r).1, None)))
          (leaf "RowParallelLinear" (linear_parameters (W, None)))
          (leaf "RowParallelLinear" (linear_parameters ((rank_params (rpl_params (row w W)) r).1, None))).
Proof using Hr.
  intros (_ & Hc0 & Hn0 & _) (_ & Hc & Hn & _) Hinp Hpos. simpl in *. unfold row, row_shards.
  cbn [rpl_params]. rewrite !rank_params_at. rewrite Hc0, Hc. apply loads_leaf.
  constructor; [|constructor]. split_and!; [done|done|]. cbn [fst snd].
  apply (load_col_shard _ _ w); [congruence|congruence|apply Z.div_pos; lia|done].
Qed.

Lemma loads_norm (n0 n : LlamaRMSNorm (V := V)) :
  len (rn_weight n0) = len (rn_weight n) →
  loads r (leaf "LlamaRMSNorm" (norm_parameters n0)) (leaf "LlamaRMSNorm" (norm_parameters n))
          (leaf "LlamaRMSNorm" (norm_parameters n)).
Proof using Hz Hr.
  intros Hn. apply loads_leaf. constructor; [|constructor]. split_and!; [done|done|]. cbn [fst snd].
  apply load_whole; [set_solver|]. simpl. by rewrite Hn.
Qed.

Lemma loads_embed (W0 W : mat V) :
  cols W0 = cols W → nrows W0 = sz_vocab z → nrows W = sz_vocab z →
  loads r
    (leaf "VocabParallelEmbedding" [("weight"%string,
       Matrix (default (Mat 0 []) (vpe_weight <$> vocab_shards W0 w (sz_vocab z / w) !! Z.to_nat r)))])
    (leaf "VocabParallelEmbedding" [("weight"%string, Matrix W)])
    (leaf "VocabParallelEmbedding" [("weight"%string,
       Matrix (default (Mat 0 []) (vpe_weight <$> vocab_shards W w (sz_vocab z / w) !! Z.to_nat r)))]).
Proof using Hz Hr.
  intros Hc Hn0 Hn. pose proof (so_vocab _ _ Hz). pose proof (so_vocab_w _ _ Hz) as Hv.
  unfold vocab_shards. rewrite !list_lookup_fmap, lookup_py_range by lia. simpl.
  rewrite Z2Nat.id by lia. apply loads_leaf. constructor; [|constructor].
  split_and!; [done|done|]. cbn [fst snd].
  apply load_row_shard; [by left|done|..]; unfold nrows in *;
    (apply (len_block _ _ w); [apply Z.div_pos; lia|done|congruence]).
Qed.

Lemma loads_node cls bs bs' bs'' (cs cs' cs'' : list (string * module V)) :
  Forall3 (λ x y z, x.1 = y.1 ∧ x.1 = z.1 ∧ loads r x.2 y.2 z.2) cs cs' cs'' →
  loads r (Module_ cls [] bs cs) (Module_ cls [] bs' cs') (Module_ cls [] bs'' cs'').
Proof using. intros H. by constructor; [constructor|]. Qed.

Record alike_layers (L0 L : layer_weights V) : Prop := {
  al_q : alike (lw_q L) (lw_q L0); al_k : alike (lw_k L) (lw_k L0); al_v : alike (lw_v L) (lw_v L0);
}.

Context (act : string) (rope : RotaryEmbedding V).

Lemma loads_layer L0 L :
  layer_wf z L0 → layer_wf z L → alike_layers L0 L →
  loads r (layer_tree act rope (rank_layer r (shard_layer z w rope L0))) (layer_tree act rope L)
          (layer_tree act rope (rank_layer r (shard_layer z w rope L))).
Proof using Hz Hr.
  intros H0 H1 [Hq Hk Hv]. destruct (hidden_w z w Hz) as [EH EHw]. destruct (kv_hd_w z w Hz) as [EK EKw].
  pose proof (hidden_nonneg z w Hz) as Hpos.
  unfold layer_tree, attention_tree, mlp_tree.
  repeat first [apply loads_node | apply Forall3_cons | apply Forall3_nil | split_and!; [done..|];
    cbn [snd]].
  - eapply loads_column; [apply (lwf_q _ _ H0)|apply (lwf_q _ _ H1)|done|lia].
  - eapply loads_column; [apply (lwf_k _ _ H0)|apply (lwf_k _ _ H1)|done|lia].
  - eapply loads_column; [apply (lwf_v _ _ H0)|apply (lwf_v _ _ H1)|done|lia].
  - eapply loads_row; [apply (lwf_o _ _ H0)|apply (lwf_o _ _ H1)|lia|done].
  - eapply loads_column_weight; [apply (lwf_gate _ _ H0)|apply (lwf_gate _ _ H1)|apply Hz].
  - eapply loads_column_weight; [apply (lwf_up _ _ H0)|apply (lwf_up _ _ H1)|apply Hz].
  - eapply loads_row; [apply (lwf_down _ _ H0)|apply (lwf_down _ _ H1)|apply Hz..].
  - apply loads_norm. exact (eq_trans (lwf_input_norm _ _ H0) (eq_sym (lwf_input_norm _ _ H1))).
  - apply loads_norm. exact (eq_trans (lwf_post_norm _ _ H0) (eq_sym (lwf_post_norm _ _ H1))).
Qed.

Notation module_of M := (llama_module act rope r (shard_model z w rope M)).

Lemma loads_layers (name : nat → string) Ls0 Ls :
  Forall2 alike_layers Ls0 Ls → Forall (layer_wf z) Ls0 → Forall (layer_wf z) Ls →
  Forall3 (λ x y z, x.1 = y.1 ∧ x.1 = z.1 ∧ loads r x.2 y.2 z.2)
    (imap (λ i L, (name i, layer_tree act rope L)) (rank_layer r ∘ shard_layer z w rope <$> Ls0))
    (imap (λ i L, (name i, layer_tree act rope L)) Ls)
    (imap (λ i L, (name i, layer_tree act rope L)) (rank_layer r ∘ shard_layer z w rope <$> Ls)).
Proof using Hz Hr.
  intros Hb. revert name. induction Hb as [|L0 L Ls0 Ls HL _ IH]; intros name HL0 HL1; csimpl; [constructor|].
  apply Forall_cons in HL0 as [H0' HL0], HL1 as [H1' HL1]. constructor.
  - split_and!; [done|done|]. by apply loads_layer.
  - by apply (IH (name ∘ S)).
Qed.

Lemma loads_model M0 M :
  model_wf z M0 → model_wf z M → Forall2 alike_layers (mw_layers M0) (mw_layers M) →
  loads r (module_of M0) (model_tree act rope M) (module_of M).
Proof using Hz Hr.
  intros H0 H1 Hb. destruct (mwf_embed _ _ H0) as (_ & Ec0 & En0), (mwf_embed _ _ H1) as (_ & Ec & En).
  unfold llama_module, model_tree.
  repeat first [apply loads_node | apply Forall3_cons | apply Forall3_nil | split_and!; [done..|];
    cbn [snd]].
  - apply loads_embed; congruence.
  - unfold rank_model, layers_tree. cbn [mw_layers model layers shard_model].
    rewrite <-!list_fmap_compose. by apply (loads_layers pretty), (mwf_layers _ _ H1);
      [|apply (mwf_layers _ _ H0)].
  - apply loads_norm. exact (eq_trans (mwf_norm _ _ H0) (eq_sym (mwf_norm _ _ H1))).
  - eapply loads_column_weight; [apply (mwf_head _ _ H0)|apply (mwf_head _ _ H1)|apply Hz].
Qed.
End shards.

(** ** The theorems *)

Section theorems.
Context {V : Type} `{!Scalar V}.
Context (act : string) (rope : RotaryEmbedding V).

(** A module that is not kept itself contributes what its children do. *)
Lemma travel_node cls (ps : list (string * tensor V)) bs cs includes :
  included includes (Module_ cls ps bs cs) = false →
  travel_layers (Module_ cls ps bs cs) includes
  = concat ((λ '(_, child), travel_layers child includes) <$> cs).
Proof using. intros Hi. destruct cs as [|c cs]; cbn [travel_layers named_children]; [by rewrite Hi|done]. Qed.

(** What [init_cache] hooks: one attention module per layer. *)
Lemma travel_layer L :
  contains (lower "Attention") (lower act) = false →
  travel_layers (layer_tree act rope L) (Some ["Attention"%string]) = [leaf "Attention" []].
Proof using.
  intros Hact. cbn [travel_layers named_children layer_tree attention_tree mlp_tree leaf fmap list_fmap concat].
  unfold included, existsb. cbn [class_of]. rewrite Hact. reflexivity.
Qed.

Lemma travel_layers_tree (name : nat → string) Ls :
  contains (lower "Attention") (lower act) = false →
  concat ((λ '(_, child), travel_layers child (Some ["Attention"%string])) <$>
          imap (λ i L, (name i, layer_tree act rope L)) Ls)
  = replicate (length Ls) (leaf "Attention" []).
Proof using.
  intros Hact. revert name. induction Ls as [|L Ls IH]; intros name; [done|].
  rewrite imap_cons, fmap_cons. cbn [concat]. rewrite travel_layer by done.
  cbn [app length replicate]. f_equal. apply (IH (name ∘ S)).
Qed.

(** With [includes=["Attention"]], [travel_layers] collects from a Llama
    model exactly one module per layer, its attention, in the order of the
    layers: the hooks [init_cache] registers wait for and record the event of
    their own layer. *)
Theorem travel_layers_one_attention_per_layer r (m : LlamaForCausalLM (V := V)) :
  contains (lower "Attention") (lower act) = false →
  travel_layers (llama_module act rope r m) (Some ["Attention"%string])
  = replicate (length (layers (model m))) (leaf "Attention" []).
Proof using.
  intros Hact. unfold llama_module, model_tree. rewrite travel_node by done.
  cbn [fmap list_fmap concat]. rewrite travel_node by done. cbn [fmap list_fmap concat].
  rewrite (travel_node "ModuleList") by done.
  unfold leaf at 1 2 3. rewrite !(travel_node _ _ _ []) by done. cbn [fmap list_fmap concat].
  rewrite !app_nil_r. cbn [app mw_layers rank_model]. unfold layers_tree.
  rewrite travel_layers_tree by done. by rewrite length_fmap.
Qed.

Context (z : sizes) (w : Z) (Hz : sizes_ok z w) (r : Z) (Hr : 0 ≤ r < w).
Notation module_of M := (llama_module act rope r (shard_model z w rope M)).

Lemma dict_embed (T : model_weights V) :
  dict_of (model_tree act rope T) !! "model.embed_tokens.weight"%string = Some (Matrix (mw_embed T)).
Proof using.
  apply (lookup_dict _ (["model"; "embed_tokens"], ("VocabParallelEmbedding", "weight"),
    Matrix (mw_embed T))%string (model_tree_ok act rope T)). by apply list_elem_of_here.
Qed.

Lemma dict_head (T : model_weights V) :
  dict_of (model_tree act rope T) !! "lm_head.weight"%string = Some (Matrix (mw_head T)).
Proof using.
  apply (lookup_dict _ (["lm_head"], ("ColumnParallelLinear", "weight"),
    Matrix (mw_head T))%string (model_tree_ok act rope T)).
  cbn [parameter_paths model_tree fmap list_fmap concat leaf app linear_parameters fst snd].
  apply list_elem_of_further, elem_of_app. right. by apply list_elem_of_here.
Qed.

(** The copy of the embedding into the head does what loading an equal head
    would have done. *)
Lemma copy_tied (T : model_weights V) (P : gmap string (tensor V)) p :
  mw_head T = mw_embed T → P !! "lm_head.weight"%string = Some p →
  shape p = shape (Matrix (mw_head T)) →
  <["lm_head.weight"%string := Matrix (mw_head T)]> P = dict_of (model_tree act rope T) →
  copy_param P "lm_head.weight" "model.embed_tokens.weight" = Ok (dict_of (model_tree act rope T)).
Proof using.
  intros E Hp Hs HP. eapply copy_param_equal; [done|apply dict_embed|exact Hp|by rewrite <-E|by rewrite <-E].
Qed.

Lemma tied_rank (M : model_weights V) :
  model_wf z M → mw_head M = mw_embed M →
  mw_head (rank_model r (shard_model z w rope M)) = mw_embed (rank_model r (shard_model z w rope M)).
Proof using Hr.
  intros HM E. destruct (mwf_embed _ _ HM) as (_ & _ & En). unfold rank_model, shard_model.
  cbn [mw_head mw_embed lm_head model embed_tokens]. rewrite E.
  unfold column, column_shards, vocab_shards. cbn [cpl_params fst snd].
  etransitivity; [exact (f_equal fst (rank_params_at w r Hr _))|].
  rewrite En, list_lookup_fmap, lookup_py_range by lia. simpl. by rewrite Z2Nat.id by lia.
Qed.

Lemma load_weights_Ok (p t q : tensor V) ty : load_weights p t ty r = Ok q → shape p = shape q.
Proof using.
  unfold load_weights. destruct ty. intros H. res_inv. by bool_prop.
Qed.

Lemma load_entry_Ok model_ (P Q : gmap string (tensor V)) n t :
  load_entry model_ r P n t = Ok Q →
  ∃ p q, P !! n = Some p ∧ shape p = shape q ∧ Q = <[n := q]> P.
Proof using.
  unfold load_entry. intros H. destruct (P !! n) as [p|]; res_inv.
  eauto 6 using load_weights_Ok.
Qed.

(** The weight files of a repository and the directory they are read from. *)
Definition weight_files_of (h : hub (V := V)) (names : list string) (dir : string) : Prop :=
  let of_type ext := filter (λ f, endswith ext f = true) (list_repo_files h) in
  names ≠ [] ∧
  (names = of_type ".bin" ∨ of_type ".bin" = [] ∧ names = of_type ".safetensors")%string ∧
  (snapshot_local h = Ok dir ∧ Forall (λ f, path_exists h (path_join dir f) = true) names ∨
   snapshot_download h = Ok dir ∧
   (snapshot_local h = Raise FileNotFoundError ∨
    ∃ old, snapshot_local h = Ok old ∧ ¬ Forall (λ f, path_exists h (path_join old f) = true) names)).

Lemma files_exist (h : hub (V := V)) names dir :
  mapM (λ f, py_require (path_exists h (path_join dir f)) FileNotFoundError) names
  = if forallb (λ f, path_exists h (path_join dir f)) names then Ok (const () <$> names)
    else Raise FileNotFoundError.
Proof using.
  induction names as [|f names IH]; [done|]. cbn [mapM forallb]. rewrite IH.
  destruct (path_exists _ _); [|done]. simpl. by destruct (forallb _ _).
Qed.

Lemma hf_weight_iter_eq (h : hub (V := V)) names dir states :
  weight_files_of h names dir → mapM (λ f, load_file h (path_join dir f)) names = Ok states →
  hf_weight_iter h = (concat states, None).
Proof using.
  intros (Hne & Hsel & Hdir) Hstates. unfold hf_weight_iter, _get_hf_weight_files.
  assert (select_files (list_repo_files h) [".bin"; ".safetensors"]%string = names) as ->.
  { assert (∀ l : list string, l ≠ [] → 0 <? len l = true) as Hpos by (by intros []).
    unfold select_files. destruct Hsel as [<- |[-> <-]]; [by rewrite Hpos|]. simpl. by rewrite Hpos. }
  assert (len names =? 0 = false) as -> by (by destruct names). simpl.
  assert (∀ d, Forall (λ f, path_exists h (path_join d f) = true) names ↔
    forallb (λ f, path_exists h (path_join d f)) names = true) as Hall.
  { intros d. rewrite Forall_forall, forallb_forall. by setoid_rewrite list_elem_of_In. }
  assert (match (local_path ← snapshot_local h;
           _ ← mapM (λ fname, py_require (path_exists h (path_join local_path fname))
                                FileNotFoundError) names; Ok local_path) with
    | Raise FileNotFoundError => snapshot_download h | r => r end = Ok dir) as ->.
  { destruct Hdir as [[-> Hd%Hall]|[Hd [-> |(old & -> & Hold)]]]; simpl; [|done|].
    - by rewrite files_exist, Hd.
    - rewrite files_exist. rewrite Hall in Hold. by destruct (forallb _ _). }
  simpl. clear -Hstates. revert states Hstates. induction names as [|f names IH]; intros states H.
  - by injection H as <-.
  - cbn [mapM] in H. apply bind_Ok in H as (st & E & (sts & Es & [= <-])%bind_Ok).
    csimpl. by rewrite E, (IH sts Es).
Qed.

(** What a repository holds of the checkpoint of [M]: its weight files, all of the first
    type there is, are read from a complete snapshot on the disk or else downloaded, and
    have the parameters in any order, with entries for [rotary_emb.inv_freq] or without.
    With tied embeddings the head may be left out. *)
Definition checkpoint_of (tie : bool) (M : model_weights V) (h : hub (V := V)) : Prop :=
  ∃ names dir states omitted,
    weight_files_of h names dir ∧ mapM (λ f, load_file h (path_join dir f)) names = Ok states ∧
    (omitted = [] ∨ tie = true ∧ omitted = [("lm_head.weight"%string, Matrix (mw_head M))]) ∧
    filter (λ e, contains "rotary_emb.inv_freq" e.1 = false) (concat states ++ omitted)
    ≡ₚ named_parameters (model_tree act rope M).

Lemma llama_load_weights_Ok (h : hub (V := V)) M0 M tie :
  checkpoint_of tie M h →
  model_wf z M0 → model_wf z M → Forall2 alike_layers (mw_layers M0) (mw_layers M) →
  (tie = true → mw_head M = mw_embed M) →
  llama_load_weights (module_of M0) r tie (hf_weight_iter h) (dict_of (module_of M0))
  = Ok (dict_of (module_of M)).
Proof using Hz Hr.
  intros (names & dir & states & omitted & Hf & Hst & Hom & Hws) H0 H1 Hb Htie.
  rewrite (hf_weight_iter_eq h names dir states Hf Hst).
  unfold llama_load_weights, for_weights, llama_module. cbn [fst snd].
  pose proof (load_checkpoint r _ _ _ (contains "rotary_emb.inv_freq") _ (model_tree_ok act rope _)
    (loads_model z w Hz r Hr act rope M0 M H0 H1 Hb) Hws) as E.
  unfold llama_module in E. destruct Hom as [-> | [-> ->]].
  - rewrite app_nil_r in E. rewrite E, !Ok_bind. destruct tie; [|done].
    apply (copy_tied _ _ _ (tied_rank M H1 (Htie eq_refl)) (dict_head _) eq_refl).
    apply insert_id, dict_head.
  - rewrite foldM_app in E. apply bind_Ok in E as (P & EP & E). rewrite EP, !Ok_bind.
    change (contains "rotary_emb.inv_freq" "lm_head.weight") with false in E.
    apply bind_Ok in E as (Q & (p & q & Hp & Hs & ->)%load_entry_Ok & [= HQ]).
    assert (q = Matrix (mw_head (rank_model r (shard_model z w rope M)))) as ->.
    { apply (inj Some). by rewrite <-dict_head, <-HQ, lookup_insert_eq. }
    exact (copy_tied _ _ _ (tied_rank M H1 (Htie eq_refl)) Hp Hs HQ).
Qed.

(** C14: [load_weights] of the Llama model distributes a checkpoint.  The model of rank
    [r] of [w] holds parameters of the right shapes ([M0], e.g. uninitialised); the
    weight files of the repository, all of the first type there is, together hold the
    checkpoint of [M], and are read from a complete snapshot on the disk or else
    downloaded.  Whatever the order of the entries, and whichever entries for
    [rotary_emb.inv_freq] are among them, nothing raises and every parameter of the
    rank is left its shard of the tensor of that name: the rank is rank [r] of
    [shard_model], on which [LlamaTheorems] is stated.  With tied embeddings the
    checkpoint may leave the head out ([omitted]): the copy at the end supplies it. *)
Theorem llama_load_weights_shards (h : hub (V := V)) names dir states M0 M tie omitted :
  weight_files_of h names dir → mapM (λ f, load_file h (path_join dir f)) names = Ok states →
  model_wf z M0 → model_wf z M → Forall2 alike_layers (mw_layers M0) (mw_layers M) →
  (tie = true → mw_head M = mw_embed M) →
  omitted = [] ∨ tie = true ∧ omitted = [("lm_head.weight"%string, Matrix (mw_head M))] →
  filter (λ e, contains "rotary_emb.inv_freq" e.1 = false) (concat states ++ omitted)
  ≡ₚ named_parameters (model_tree act rope M) →
  llama_load_weights (module_of M0) r tie (hf_weight_iter h) (dict_of (module_of M0))
  = Ok (dict_of (module_of M)).
Proof using Hz Hr.
  intros. eapply llama_load_weights_Ok; eauto. by exists names, dir, states, omitted.
Qed.
End theorems.

(** ** A checkpoint over the integers *)

(** The trained model, with tied embeddings; [model_Z] is what is overwritten. *)
Definition trained_layer_Z : layer_weights Z := {|
  lw_q := (eye, Some [0; 3; 0; 5]); lw_k := (Mat 4 [[1; 2; 3; 4]; [5; 6; 7; 8]; [1; 0; 1; 0]; [2; 0; 0; 2]], None);
  lw_v := (eye, None); lw_o := eye;
  lw_gate := Mat 4 [[1; 0; 1; 0]; [0; 2; 0; 2]]; lw_up := Mat 4 [[3; 0; 0; 0]; [0; 0; 0; 3]];
  lw_down := Mat 2 [[1; 2]; [3; 4]; [5; 6]; [7; 8]]; lw_act := λ x, Z.max 0 x;
  lw_input_norm := ones; lw_post_norm := ones |}.
Definition trained_Z : model_weights Z :=
  {| mw_embed := eye; mw_layers := [trained_layer_Z]; mw_norm := ones; mw_head := eye |}.
Definition checkpoint_Z : list (string * tensor Z) :=
  ("model.layers.0.self_attn.rotary_emb.inv_freq"%string, Vec [1]) ::
  filter (λ e, e.1 ≠ "lm_head.weight"%string)
    (reverse (named_parameters (model_tree "SiluAndMul" rope_Z trained_Z))).
Notation module_Z M := (llama_module "SiluAndMul" rope_Z 1 (shard_model sizes_Z 2 rope_Z M)).

#[local] Instance mat_Z_eq_dec : EqDecision (mat Z).
Proof. solve_decision. Defined.
#[local] Instance tensor_Z_eq_dec : EqDecision (tensor Z).
Proof. solve_decision. Defined.

Lemma trained_wf : model_wf sizes_Z trained_Z.
Proof.
  split; [by split_and!; apply (bool_decide_unpack _)| |done|by apply linear_Z].
  constructor; [|constructor]. split; try done; by apply linear_Z.
Qed.

(** The checkpoint in two files, of which the disk has one. *)
Definition hub_Z : hub (V := Z) := {|
  list_repo_files := ["config.json"; "a.safetensors"; "b.safetensors"]%string;
  snapshot_local := Ok "/cache"%string; snapshot_download := Ok "/hub"%string;
  path_exists p := bool_decide (p = "/cache/a.safetensors"%string);
  load_safetensors p := Ok (if bool_decide (p = "/hub/a.safetensors"%string)
                            then take 3 checkpoint_Z else drop 3 checkpoint_Z);
  torch_load _ := Raise ValueError |}.

Example llama_load_weights_shards_witness :
  llama_load_weights (module_Z model_Z) 1 true (hf_weight_iter hub_Z) (dict_of (module_Z model_Z))
  = Ok (dict_of (module_Z trained_Z)) ∧
  dict_of (module_Z model_Z) !! "model.layers.0.self_attn.q_proj.bias"%string = Some (Vec [0; 0]) ∧
  dict_of (module_Z trained_Z) !! "model.layers.0.self_attn.q_proj.bias"%string = Some (Vec [0; 5]).
Proof.
  split; [|by split; vm_compute].
  apply (llama_load_weights_shards "SiluAndMul" rope_Z sizes_Z 2) with
    (names := ["a.safetensors"; "b.safetensors"]%string) (dir := "/hub"%string)
    (states := [take 3 checkpoint_Z; drop 3 checkpoint_Z])
    (omitted := [("lm_head.weight"%string, Matrix eye)]); try done.
  - split_and!; [done|by right|]. right. split; [done|]. right. exists "/cache"%string.
    split; [done|]. intros [_ [Hb _]%Forall_cons]%Forall_cons. by vm_compute in Hb.
  - apply (dp_model _ _ _ _ _ _ deployment_Z).
  - apply trained_wf.
  - constructor; [|constructor]. split; split; intros [? ?]; by eexists.
  - by right.
  - by apply (bool_decide_unpack _); vm_compute.
Defined.

Example travel_layers_one_attention_per_layer_witness :
  travel_layers (module_Z model_Z) (Some ["Attention"%string]) = [leaf "Attention" []].
Proof. by apply (travel_layers_one_attention_per_layer "SiluAndMul" rope_Z 1). Defined.
