(* ===== verification/OptLoading.v ===== *)
(** * Loading an OPT checkpoint

    The module tree of the OPT model on a rank, and why a checkpoint with biases
    cannot be loaded. *)
From Stdlib Require Import Ascii.
From stdpp Require Import strings pretty.
From S2P Require Import Prelude PyString ParallelUtils Tensor TensorParallel ModelUtils.
From S2P Require Import FlashInfer Batch PagedAttention Triton Rotary Activations Heads Llama.
From S2P Require Import ModelSpec LlamaSpec LlamaTheorems Opt OptSpec OptTheorems ModelLoading.
Import TensorParallel.Mappings TensorParallel.Layers OPT.

#[local] Opaque py_range.
#[local] Arguments block : simpl never.
#[local] Arguments load_weights : simpl never.

Section tree.
Context {V : Type}.
Notation module := (module V).

Definition layer_norm_parameters (n : LayerNorm V) : list (string * tensor V) :=
  match n with Some (g, b) => [("weight", Vec g); ("bias", Vec b)]%string | None => [] end.

(** The attributes in the order the constructors assign them; an attribute that
    is [None] is not a child.  [act] is the class of the activation module. *)
Context (act : string).

Definition opt_attention_tree (L : opt_layer V) : module :=
  Module_ "OPTAttention" [] [] [
    ("q_proj", leaf "ColumnParallelLinear" (linear_parameters (ol_q L)));
    ("k_proj", leaf "ColumnParallelLinear" (linear_parameters (ol_k L)));
    ("v_proj", leaf "ColumnParallelLinear" (linear_parameters (ol_v L)));
    ("out_proj", leaf "RowParallelLinear" (linear_parameters (ol_out L)));
    ("attn", leaf "Attention" [])]%string.

Definition opt_layer_tree (L : opt_layer V) : module :=
  Module_ "OPTDecoderLayer" [] [] [
    ("self_attn", opt_attention_tree L);
    ("activation_fn", leaf act []);
    ("self_attn_layer_norm", leaf "LayerNorm" (layer_norm_parameters (ol_norm1 L)));
    ("fc1", leaf "ColumnParallelLinear" (linear_parameters (ol_fc1 L)));
    ("fc2", leaf "RowParallelLinear" (linear_parameters (ol_fc2 L)));
    ("final_layer_norm", leaf "LayerNorm" (layer_norm_parameters (ol_norm2 L)))]%string.

Definition child_if {A} (name : string) (f : A → module) (m : option A) : list (string * module) :=
  match m with Some x => [(name, f x)] | None => [] end.

Definition opt_decoder_children (M : opt_model V) : list (string * module) :=
  [("embed_tokens", leaf "VocabParallelEmbedding" [("weight", Matrix (om_embed M))]);
   ("embed_positions", leaf "OPTPositionalEmbedding" [("weight", Matrix (om_positions M))])]%string
  ++ child_if "project_out" (λ W, leaf "Linear" [("weight"%string, Matrix W)]) (om_project_out M)
  ++ child_if "project_in" (λ W, leaf "Linear" [("weight"%string, Matrix W)]) (om_project_in M)
  ++ child_if "final_layer_norm" (λ n, leaf "LayerNorm" (layer_norm_parameters n)) (om_norm M)
  ++ [("layers"%string, Module_ "ModuleList" [] []
        (imap (λ i L, (pretty i, opt_layer_tree L)) (om_layers M)))].

Definition opt_tree (M : opt_model V) : module :=
  Module_ "OPTForCausalLM" [] [] [
    ("model", Module_ "OPTModel" [] [] [
       ("decoder", Module_ "OPTDecoder" [] [] (opt_decoder_children M))]);
    ("lm_head", leaf "ColumnParallelLinear" (linear_parameters (om_head M, None)))]%string.

Lemma layer_norm_leaf_ok cls n : names_ok (leaf cls (layer_norm_parameters n)).
Proof.
  unfold layer_norm_parameters. destruct n as [[g b]|]; apply leaf_ok; csimpl;
    try by apply (bool_decide_unpack _). all: by repeat constructor; auto.
Qed.

Lemma opt_layer_tree_ok L : names_ok (opt_layer_tree L).
Proof.
  repeat first [apply linear_leaf_ok | apply layer_norm_leaf_ok | apply node_ok; [done|]
    | apply Forall_cons; split | apply Forall_nil | progress cbn [snd]
    | apply leaf_ok; [by repeat constructor; auto | by apply (bool_decide_unpack _)] ]; done.
Qed.

Lemma opt_tree_ok M : model_ok (opt_tree M).
Proof.
  split; [|done].
  assert (names_ok (Module_ "ModuleList" [] [] (imap (λ i L, (pretty i, opt_layer_tree L)) (om_layers M)))).
  { apply numbered_ok. intros L _. apply opt_layer_tree_ok. }
  unfold opt_tree, opt_decoder_children, child_if.
  destruct (om_project_out M), (om_project_in M), (om_norm M);
    repeat first [apply linear_leaf_ok | apply layer_norm_leaf_ok | done | apply node_ok; [done|]
    | apply Forall_cons; split | apply Forall_nil | progress cbn [snd app]
    | apply leaf_ok; [by repeat constructor; auto | by apply (bool_decide_unpack _)] ].
Qed.
End tree.

(** ** The parameters of a rank *)

Section rank.
Context {V : Type}.

Definition opt_rank_layer (r : Z) (l : OPTDecoderLayer (V := V)) : opt_layer V := {|
  ol_q := rank_params (cpl_params (q_proj (self_attn l))) r;
  ol_k := rank_params (cpl_params (k_proj (self_attn l))) r;
  ol_v := rank_params (cpl_params (v_proj (self_attn l))) r;
  ol_out := rank_params (rpl_params (out_proj (self_attn l))) r;
  ol_fc1 := rank_params (cpl_params (fc1 l)) r;
  ol_fc2 := rank_params (rpl_params (fc2 l)) r;
  ol_act := activation_fn l; ol_before := norm_before l;
  ol_norm1 := self_attn_layer_norm l; ol_norm2 := layer_final_norm l |}.
Definition opt_rank_model (r : Z) (m : OPTForCausalLM (V := V)) : opt_model V :=
  let d := decoder (OPT.model m) in {|
  om_embed := default (Mat 0 []) (vpe_weight <$> embed_tokens d !! Z.to_nat r);
  om_positions := pe_weight (embed_positions d);
  om_project_in := project_in d; om_project_out := project_out d;
  om_layers := opt_rank_layer r <$> layers d;
  om_norm := final_layer_norm d;
  om_head := (rank_params (cpl_params (lm_head m)) r).1 |}.
Definition opt_module (act : string) (r : Z) (m : OPTForCausalLM (V := V)) : module V :=
  opt_tree act (opt_rank_model r m).

(** The bias of the output projection of layer [i]. *)
Definition out_bias_path (i : nat) : list string :=
  ["model"; "decoder"; "layers"; pretty i; "self_attn"; "out_proj"]%string.
Definition out_bias (i : nat) : string :=
  "decoder.layers." +:+ pretty i +:+ ".self_attn.out_proj.bias".

Lemma out_bias_entry act (M : opt_model V) i L b :
  om_layers M !! i = Some L → (ol_out L).2 = Some b →
  (out_bias_path i, ("RowParallelLinear", "bias")%string, Vec b) ∈ parameter_paths [] (opt_tree act M).
Proof.
  intros Hi Hb. apply elem_of_parameter_paths. right. eexists "model"%string, _.
  split; [apply list_elem_of_here|].
  apply elem_of_parameter_paths. right. eexists "decoder"%string, _. split; [apply list_elem_of_here|].
  apply elem_of_parameter_paths. right. eexists "layers"%string, _. split.
  { unfold opt_decoder_children. rewrite !elem_of_app. do 4 right. apply list_elem_of_here. }
  apply elem_of_parameter_paths. right. exists (pretty i), (opt_layer_tree act L). split.
  { apply list_elem_of_lookup. exists i. by rewrite list_lookup_imap, Hi. }
  apply elem_of_parameter_paths. right. eexists "self_attn"%string, _. split; [apply list_elem_of_here|].
  apply elem_of_parameter_paths. right. eexists "out_proj"%string, _. split.
  { do 3 apply list_elem_of_further. apply list_elem_of_here. }
  apply elem_of_parameter_paths. left. exists "bias"%string, (Vec b). split; [|done].
  unfold linear_parameters. rewrite Hb. apply list_elem_of_further, list_elem_of_here.
Qed.

Lemma out_bias_not_head i : contains "lm_head.weight" (out_bias i) = false ∧
  contains "lm_head.weight" ("model." +:+ out_bias i) = false.
Proof.
  assert (no_char "w" (out_bias i) = true) as Hw.
  { unfold out_bias. rewrite !no_char_app, no_char_pretty; [done|]. not_a_digit. }
  split; apply not_true_is_false; intros Hc; eapply (contains_chars "w"%char) in Hc; try done.
Qed.
End rank.

(** ** A checkpoint without biases of row-parallel layers *)

Notation alike_norms := (option_Forall2 (λ _ _ : list _ * list _, True)).

(** Models that are built alike, as their constructors are with equal configurations; the
    output projections have no bias. *)
Record same_opt_layer {V} (L0 L : opt_layer V) : Prop := {
  sol_q : alike (ol_q L) (ol_q L0); sol_k : alike (ol_k L) (ol_k L0); sol_v : alike (ol_v L) (ol_v L0);
  sol_fc1 : alike (ol_fc1 L) (ol_fc1 L0);
  sol_out : (ol_out L).2 = None; sol_out0 : (ol_out L0).2 = None;
  sol_fc2 : (ol_fc2 L).2 = None; sol_fc20 : (ol_fc2 L0).2 = None;
  sol_act : ol_act L = ol_act L0; sol_before : ol_before L = ol_before L0;
  sol_norm1 : alike_norms (ol_norm1 L0) (ol_norm1 L); sol_norm2 : alike_norms (ol_norm2 L0) (ol_norm2 L);
}.
Record same_opt {V} (M0 M : opt_model V) : Prop := {
  so_layers : Forall2 same_opt_layer (om_layers M0) (om_layers M);
  so_in : option_Forall2 (λ _ _, True) (om_project_in M0) (om_project_in M);
  so_out : option_Forall2 (λ _ _, True) (om_project_out M0) (om_project_out M);
  so_norm : option_Forall2 alike_norms (om_norm M0) (om_norm M);
}.

Section loading.
Context {V : Type} `{!Scalar V} (act : string).
Context (z : sizes) (w : Z) (Hz : sizes_ok z w) (r : Z) (Hr : 0 ≤ r < w).

Lemma loads_whole_matrix cls (W0 W : mat V) :
  cls ∉ ["VocabParallelEmbedding"; "ColumnParallelLinear"; "RowParallelLinear"]%string →
  shape (Matrix W0) = shape (Matrix W) →
  loads r (leaf cls [("weight"%string, Matrix W0)]) (leaf cls [("weight"%string, Matrix W)])
          (leaf cls [("weight"%string, Matrix W)]).
Proof using.
  intros Hcls Hs. apply loads_leaf. constructor; [|constructor]. split_and!; [done|done|]. cbn [fst snd].
  by apply load_whole.
Qed.

Lemma loads_layer_norm (n0 n : LayerNorm V) :
  norm_wf z n0 → norm_wf z n → alike_norms n0 n →
  loads r (leaf "LayerNorm" (layer_norm_parameters n0)) (leaf "LayerNorm" (layer_norm_parameters n))
          (leaf "LayerNorm" (layer_norm_parameters n)).
Proof using Hz Hr.
  intros H0 H1 Hn. apply loads_leaf. destruct Hn as [[g0 b0] [g b] _|]; [|constructor].
  destruct (H0 _ _ eq_refl) as [Eg0 Eb0], (H1 _ _ eq_refl) as [Eg Eb].
  repeat constructor; try (split_and!; [done|done|]); cbn [fst snd];
    apply load_whole; try set_solver; simpl; congruence.
Qed.

Lemma loads_row_params (p0 p : params (V := V)) inp out :
  linear_wf p0 inp out → linear_wf p inp out → p0.2 = None → p.2 = None → inp = w * (inp / w) → 0 ≤ inp →
  loads r (leaf "RowParallelLinear" (linear_parameters (rank_params (rpl_params (row_bias w p0)) r)))
          (leaf "RowParallelLinear" (linear_parameters p))
          (leaf "RowParallelLinear" (linear_parameters (rank_params (rpl_params (row_bias w p)) r))).
Proof using Hr.
  destruct p0 as [W0 b0], p as [W b]. cbn [snd]. intros H0 H1 -> -> Hinp Hpos.
  pose proof (loads_row w r Hr W0 W inp out H0 H1 Hinp Hpos) as E. unfold row in E.
  assert (∀ W1 : mat V, (rank_params (rpl_params (row_bias w (W1, None))) r).2 = None) as Hn.
  { intros W1. exact (f_equal snd (rank_params_at w r Hr _)). }
  pose proof (Hn W0). pose proof (Hn W). by destruct (rank_params _ r) as [? ?], (rank_params _ r) as [? ?]; simplify_eq/=.
Qed.

Lemma loads_opt_layer (L0 L : opt_layer V) :
  opt_layer_wf z L0 → opt_layer_wf z L → same_opt_layer L0 L →
  loads r (opt_layer_tree act (opt_rank_layer r (shard_opt_layer z w L0))) (opt_layer_tree act L)
          (opt_layer_tree act (opt_rank_layer r (shard_opt_layer z w L))).
Proof using Hz Hr.
  intros H0 H1 Hs. destruct (hidden_w z w Hz) as [EH EHw]. pose proof (hidden_nonneg z w Hz) as Hpos.
  unfold opt_layer_tree, opt_attention_tree.
  repeat first [apply loads_node | apply Forall3_cons | apply Forall3_nil | split_and!; [done..|];
    cbn [snd]].
  - eapply loads_column; [done|apply (olwf_q _ _ H0)|apply (olwf_q _ _ H1)|apply Hs|lia].
  - eapply loads_column; [done|apply (olwf_k _ _ H0)|apply (olwf_k _ _ H1)|apply Hs|lia].
  - eapply loads_column; [done|apply (olwf_v _ _ H0)|apply (olwf_v _ _ H1)|apply Hs|lia].
  - eapply loads_row_params; [apply (olwf_out _ _ H0)|apply (olwf_out _ _ H1)|apply Hs|apply Hs|lia|done].
  - apply loads_layer_norm; [apply H0|apply H1|apply Hs].
  - eapply loads_column; [done|apply (olwf_fc1 _ _ H0)|apply (olwf_fc1 _ _ H1)|apply Hs|apply Hz].
  - eapply loads_row_params; [apply (olwf_fc2 _ _ H0)|apply (olwf_fc2 _ _ H1)|apply Hs|apply Hs|apply Hz..].
  - apply loads_layer_norm; [apply H0|apply H1|apply Hs].
Qed.

Notation module_of M := (opt_module act r (shard_opt z w M)).

Lemma loads_opt_layers (name : nat → string) (Ls0 Ls : list (opt_layer V)) :
  Forall2 same_opt_layer Ls0 Ls → Forall (opt_layer_wf z) Ls0 → Forall (opt_layer_wf z) Ls →
  Forall3 (λ x y z, x.1 = y.1 ∧ x.1 = z.1 ∧ loads r x.2 y.2 z.2)
    (imap (λ i L, (name i, opt_layer_tree act L)) (opt_rank_layer r ∘ shard_opt_layer z w <$> Ls0))
    (imap (λ i L, (name i, opt_layer_tree act L)) Ls)
    (imap (λ i L, (name i, opt_layer_tree act L)) (opt_rank_layer r ∘ shard_opt_layer z w <$> Ls)).
Proof using Hz Hr.
  intros Hb. revert name. induction Hb as [|L0 L Ls0 Ls HL _ IH]; intros name HL0 HL1; csimpl; [constructor|].
  apply Forall_cons in HL0 as [H0' HL0], HL1 as [H1' HL1]. constructor.
  - split_and!; [done|done|]. by apply loads_opt_layer.
  - by apply (IH (name ∘ S)).
Qed.

Lemma loads_child_if {A} (R : A → A → Prop) name (f : A → module V) (m0 m : option A) cs0 cs cs' :
  option_Forall2 R m0 m → (∀ x0 x, m0 = Some x0 → m = Some x → R x0 x → loads r (f x0) (f x) (f x)) →
  Forall3 (λ x y z, x.1 = y.1 ∧ x.1 = z.1 ∧ loads r x.2 y.2 z.2) cs0 cs cs' →
  Forall3 (λ x y z, x.1 = y.1 ∧ x.1 = z.1 ∧ loads r x.2 y.2 z.2)
    (child_if name f m0 ++ cs0) (child_if name f m ++ cs) (child_if name f m ++ cs').
Proof using. intros [x0 x Hx|] Hf Hcs; simpl; [|done]. constructor; [|done]. split_and!; eauto. Qed.

Lemma loads_opt_model p (M0 M : opt_model V) :
  opt_model_wf z p M0 → opt_model_wf z p M → same_opt M0 M →
  nrows (om_positions M0) = nrows (om_positions M) →
  loads r (module_of M0) (opt_tree act M) (module_of M).
Proof using Hz Hr.
  intros H0 H1 Hs Hn. pose proof (omwf_embed _ _ _ H0) as (_ & Ec0 & En0).
  pose proof (omwf_embed _ _ _ H1) as (_ & Ec & En).
  unfold opt_module, opt_tree, opt_decoder_children.
  assert (∀ (W0 W : mat V) a b, linear_wf (W0, None) a b → linear_wf (W, None) a b →
    shape (Matrix W0) = shape (Matrix W)) as Hshape.
  { intros W0 W a b (_ & E1 & E2 & _) (_ & E3 & E4 & _). simpl in *. congruence. }
  repeat first [apply loads_node | apply Forall3_cons | apply Forall3_nil | split_and!; [done..|];
    cbn [snd app opt_rank_model om_embed om_positions om_head]].
  - apply (loads_embed z w Hz r Hr); congruence.
  - apply loads_whole_matrix; [set_solver|]. simpl. f_equal; [done|].
    by rewrite (proj2 (omwf_positions _ _ _ H0)), (proj2 (omwf_positions _ _ _ H1)).
  - apply (loads_child_if _ _ _ _ _ _ _ _ (so_out _ _ Hs)).
    { intros W0 W E0 E1 _. apply loads_whole_matrix; [set_solver|].
      pose proof (omwf_out _ _ _ H0) as Hw0. pose proof (omwf_out _ _ _ H1) as Hw1.
      cbn in E0, E1. rewrite E0 in Hw0. rewrite E1 in Hw1. by eapply Hshape. }
    apply (loads_child_if _ _ _ _ _ _ _ _ (so_in _ _ Hs)).
    { intros W0 W E0 E1 _. apply loads_whole_matrix; [set_solver|].
      pose proof (omwf_in _ _ _ H0) as Hw0. pose proof (omwf_in _ _ _ H1) as Hw1.
      cbn in E0, E1. rewrite E0 in Hw0. rewrite E1 in Hw1. by eapply Hshape. }
    apply (loads_child_if _ _ _ _ _ _ _ _ (so_norm _ _ Hs)).
    { intros n0 n E0 E1 Hn'. apply loads_layer_norm; [by apply H0|by apply H1|done]. }
    repeat constructor. cbn.
    rewrite <-!list_fmap_compose. by apply (loads_opt_layers pretty), (omwf_layers _ _ _ H1);
      [apply Hs|apply (omwf_layers _ _ _ H0)].
  - eapply loads_column_weight; [done|apply (omwf_head _ _ _ H0)|apply (omwf_head _ _ _ H1)|apply Hz].
Qed.

(** The name of a parameter in the model: checkpoints also leave "model." out. *)
Definition opt_name (name : string) : string :=
  if String.prefix "decoder." name then ("model." +:+ name)%string else name.

(** What a repository holds of the checkpoint of [M], as [checkpoint_of]. *)
Definition opt_checkpoint_of (tie : bool) (M : opt_model V) (h : hub (V := V)) : Prop :=
  ∃ names dir states omitted,
    weight_files_of h names dir ∧ mapM (λ f, load_file h (path_join dir f)) names = Ok states ∧
    (omitted = [] ∨ omitted = [("lm_head.weight"%string, Matrix (om_head M))]) ∧
    (prod_map opt_name id <$> filter (λ e, contains "lm_head.weight" e.1 && tie = false) (concat states))
      ++ omitted ≡ₚ named_parameters (opt_tree act M).

(** The loop skips and renames. *)
Lemma foldM_renamed {S} (f : S → string → tensor V → res S) (skip : string → bool) (g : string → string) ws s :
  foldM (λ P '(n, t), if skip n then Ok P else f P (g n) t) s ws
  = foldM (λ P '(n, t), f P n t) s (prod_map g id <$> filter (λ e, skip e.1 = false) ws).
Proof using.
  revert s. induction ws as [|[n t] ws IH]; intros s; [done|]. rewrite filter_cons. simpl.
  destruct (skip n); simpl; [apply IH|]. destruct (f s (g n) t); [|done]. apply IH.
Qed.

Lemma opt_dict_embed (T : opt_model V) :
  dict_of (opt_tree act T) !! "model.decoder.embed_tokens.weight"%string = Some (Matrix (om_embed T)).
Proof using.
  apply (lookup_dict _ (["model"; "decoder"; "embed_tokens"], ("VocabParallelEmbedding", "weight"),
    Matrix (om_embed T))%string (opt_tree_ok act T)).
  apply elem_of_parameter_paths. right. eexists "model"%string, _. split; [apply list_elem_of_here|].
  apply elem_of_parameter_paths. right. eexists "decoder"%string, _. split; [apply list_elem_of_here|].
  apply elem_of_parameter_paths. right. eexists "embed_tokens"%string, _. split; [apply list_elem_of_here|].
  by apply list_elem_of_here.
Qed.

Lemma opt_dict_head (T : opt_model V) :
  dict_of (opt_tree act T) !! "lm_head.weight"%string = Some (Matrix (om_head T)).
Proof using.
  apply (lookup_dict _ (["lm_head"], ("ColumnParallelLinear", "weight"), Matrix (om_head T))%string
    (opt_tree_ok act T)).
  apply elem_of_parameter_paths. right. eexists "lm_head"%string, _.
  split; [apply list_elem_of_further, list_elem_of_here|]. by apply list_elem_of_here.
Qed.

Lemma opt_tied_rank p (M : opt_model V) :
  opt_model_wf z p M → om_head M = om_embed M →
  om_head (opt_rank_model r (shard_opt z w M)) = om_embed (opt_rank_model r (shard_opt z w M)).
Proof using Hr.
  intros HM E. destruct (omwf_embed _ _ _ HM) as (_ & _ & En). unfold opt_rank_model, shard_opt.
  cbn [om_head om_embed OPT.lm_head OPT.model decoder embed_tokens]. rewrite E.
  unfold column, column_shards, vocab_shards. cbn [cpl_params fst snd].
  etransitivity; [exact (f_equal fst (rank_params_at w r Hr _))|].
  rewrite En, list_lookup_fmap, lookup_py_range by lia. simpl. by rewrite Z2Nat.id by lia.
Qed.

Lemma opt_load_weights_Ok p (h : hub (V := V)) M0 M tie :
  opt_checkpoint_of tie M h →
  opt_model_wf z p M0 → opt_model_wf z p M → same_opt M0 M →
  nrows (om_positions M0) = nrows (om_positions M) → om_head M = om_embed M →
  opt_load_weights (module_of M0) r tie (hf_weight_iter h) (dict_of (module_of M0))
  = Ok (dict_of (module_of M)).
Proof using Hz Hr.
  intros (names & dir & states & omitted & Hf & Hst & Hom & Hws) H0 H1 Hs Hn Htie.
  rewrite (hf_weight_iter_eq h names dir states Hf Hst).
  unfold opt_load_weights, for_weights. cbn [fst snd].
  rewrite (foldM_renamed (load_entry (module_of M0) r) (λ n, contains "lm_head.weight" n && tie) opt_name).
  set (ws := prod_map opt_name id <$> _) in *.
  pose proof (load_checkpoint r _ _ _ (λ _, false) (ws ++ omitted) (opt_tree_ok act _)
    (loads_opt_model p M0 M H0 H1 Hs Hn)) as E.
  rewrite (filter_all (λ e, (λ _ : string, false) e.1 = false)) in E by done.
  specialize (E Hws). cbv beta iota in E. unfold opt_module in *.
  destruct Hom as [-> | ->].
  - rewrite app_nil_r in E. rewrite E, !Ok_bind.
    eapply copy_param_equal; [done|apply opt_dict_embed|apply opt_dict_head|..].
    + by rewrite (opt_tied_rank p M H1 Htie).
    + rewrite <-(opt_tied_rank p M H1 Htie). apply insert_id, opt_dict_head.
  - rewrite foldM_app in E. apply bind_Ok in E as (P & EP & E). rewrite EP, !Ok_bind.
    apply bind_Ok in E as (Q & (q0 & q & Hp & Hq & ->)%load_entry_Ok & [= HQ]).
    assert (q = Matrix (om_head (opt_rank_model r (shard_opt z w M)))) as ->.
    { apply (inj Some). by rewrite <-opt_dict_head, <-HQ, lookup_insert_eq. }
    rewrite (opt_tied_rank p M H1 Htie) in Hq, HQ.
    eapply copy_param_equal; [done|apply opt_dict_embed|exact Hp|exact Hq|exact HQ].
Qed.
End loading.

(** Whatever is loaded, tied or not, the head is the embedding in the end. *)
Lemma opt_head_is_embedding {V : Type} (m : module V) r tie ws (params params' : gmap string (tensor V)) :
  opt_load_weights m r tie ws params = Ok params' →
  params' !! "lm_head.weight"%string = params' !! "model.decoder.embed_tokens.weight"%string.
Proof.
  unfold opt_load_weights, copy_param. intros (P & _ & H)%bind_Ok.
  destruct (P !! "model.decoder.embed_tokens.weight"%string) as [t|] eqn:Et; [|done].
  destruct (P !! "lm_head.weight"%string); [|done].
  apply bind_Ok in H as (_ & _ & [= <-]). by rewrite lookup_insert_eq, lookup_insert_ne, Et by done.
Qed.

(** ** The theorem *)

Section theorems.
Context {V : Type} `{!Scalar V} (act : string) (z : sizes) (w : Z) (r : Z) (Hr : 0 ≤ r < w).
Notation module_of M := (opt_module act r (shard_opt z w M)).

Lemma rank_out_bias (M : opt_model V) i L b :
  om_layers M !! i = Some L → (ol_out L).2 = Some b →
  ∃ L', om_layers (opt_rank_model r (shard_opt z w M)) !! i = Some L' ∧ (ol_out L').2 = Some b.
Proof using Hr.
  intros Hi Hb. eexists. split.
  - cbn [opt_rank_model om_layers shard_opt OPT.model decoder layers]. by rewrite !list_lookup_fmap, Hi.
  - cbn [opt_rank_layer ol_out shard_opt_layer self_attn out_proj row_bias rpl_params]. unfold row_shards.
    rewrite <-Hb. exact (f_equal snd (rank_params_at w r Hr _)).
Qed.

(** One iteration of the loop at the bias. *)
Lemma out_bias_raises (M : opt_model V) i L b t P :
  om_layers M !! i = Some L → (ol_out L).2 = Some b →
  (∃ e, load_entry (module_of M) r P ("model." +:+ out_bias i) (Vec t) = Raise e) ∧
  (P !! ("model." +:+ out_bias i) = dict_of (module_of M) !! ("model." +:+ out_bias i) →
   load_entry (module_of M) r P ("model." +:+ out_bias i) (Vec t) = Raise IndexError).
Proof using Hr.
  intros Hi Hb. destruct (rank_out_bias M i L b Hi Hb) as (L' & Hi' & Hb').
  pose proof (out_bias_entry act _ i L' b Hi' Hb') as He.
  pose proof (layer_type_of_entry _ _ (opt_tree_ok act _) He) as Hty.
  pose proof (lookup_dict _ _ (opt_tree_ok act _) He) as Hd.
  change (entry_name _) with ("model." +:+ out_bias i) in Hty, Hd.
  fold (module_of M) in Hty, Hd. unfold load_entry.
  split.
  - destruct (P !! _) as [p|]; [|by eexists]. rewrite !Ok_bind, Hty, Ok_bind. cbn [fst snd].
    rewrite load_row_bias. by eexists.
  - intros ->. rewrite Hd, !Ok_bind, Hty, Ok_bind. cbn [fst snd]. by rewrite load_row_bias.
Qed.

Lemma foldM_raises {S A} (f : S → A → res S) (x : A) l1 l2 s :
  (∀ s, ∃ e, f s x = Raise e) → ∃ e, foldM f s (l1 ++ x :: l2) = Raise e.
Proof using.
  intros Hx. rewrite foldM_app. destruct (foldM f s l1) as [s'|e]; [|by eexists]. simpl.
  destruct (Hx s') as [e ->]. by eexists.
Qed.

(** One iteration at the bias, under either of its names. *)
Lemma out_bias_step (M : opt_model V) i t name tie P :
  name = out_bias i ∨ name = "model." +:+ out_bias i →
  (if contains "lm_head.weight" name && tie then Ok P
   else load_entry (module_of M) r P
          (if String.prefix "decoder." name then ("model." +:+ name)%string else name) (Vec t))
  = load_entry (module_of M) r P ("model." +:+ out_bias i) (Vec t).
Proof using. destruct (out_bias_not_head i) as [Hh1 Hh2]. intros [-> | ->]; [by rewrite Hh1|by rewrite Hh2]. Qed.

Lemma out_bias_never_loads (M : opt_model V) i L b t name tie ws e params :
  om_layers M !! i = Some L → (ol_out L).2 = Some b →
  name = out_bias i ∨ name = "model." +:+ out_bias i → (name, Vec t) ∈ ws →
  ∃ e', opt_load_weights (module_of M) r tie (ws, e) params = Raise e'.
Proof using Hr.
  intros Hi Hb Hname (ws1 & ws2 & ->)%list_elem_of_split. unfold opt_load_weights, for_weights. cbn [fst].
  destruct (foldM_raises (λ P '(n, t), if contains "lm_head.weight" n && tie then Ok P
    else load_entry (module_of M) r P
      (if String.prefix "decoder." n then ("model." +:+ n)%string else n) t)
    (name, Vec t) ws1 ws2 params) as [e' E].
  - intros P. rewrite (out_bias_step M i t name tie P Hname). apply (out_bias_raises M i L b t P Hi Hb).
  - exists e'. by rewrite E.
Qed.

End theorems.

