(* ===== verification/GetModel.v ===== *)
(** * Getting a model

    [get_model] of [models/__init__.py]: the constructor of the model type, and its
    [load_weights] on the checkpoint.  For Llama and Qwen2 the result is the model
    on which [LlamaTheorems] and [Serving] are stated. *)
From stdpp Require Import strings pretty.
From S2P Require Import Prelude PyString ParallelUtils Tensor TensorParallel ModelUtils.
From S2P Require Import FlashInfer Batch PagedAttention Triton Rotary Activations Heads Llama ModelSpec LlamaSpec.
From S2P Require Setup.
From S2P Require Import ModelInit LlamaTheorems ModelLoading Opt OptSpec OptInit OptLoading.
Import TensorParallel.Mappings TensorParallel.Layers.

#[local] Opaque py_range.

(** ** The parameters after [load_weights] *)

Section params.
Context {V : Type}.
Notation params_dict := (gmap string (tensor V)).

(** [load_weights] copies into the tensors the layers use: after it they hold what
    the dictionaries of the ranks, [ds], have under their names. *)
Definition matrix_of (d : params_dict) (path : list string) (old : mat V) : mat V :=
  match d !! full_name path "weight" with Some (Matrix m) => m | _ => old end.
Definition vector_of (d : params_dict) (path : list string) (n : string) (old : list V) : list V :=
  match d !! full_name path n with Some (Vec v) => v | _ => old end.
Definition linear_of (path : list string) (d : params_dict) (p : params (V := V)) : params :=
  (matrix_of d path p.1, vector_of d path "bias" <$> p.2).

Definition column_of (ds : list params_dict) (path : list string) (l : ColumnParallelLinear)
    : ColumnParallelLinear :=
  {| cpl_gather_output := cpl_gather_output l; cpl_params := zip_with (linear_of path) ds (cpl_params l) |}.
Definition row_of (ds : list params_dict) (path : list string) (l : RowParallelLinear) : RowParallelLinear :=
  {| rpl_input_is_parallel := rpl_input_is_parallel l;
     rpl_params := zip_with (linear_of path) ds (rpl_params l) |}.
Definition embedding_of (ds : list params_dict) (path : list string)
    (l : list (VocabParallelEmbedding (V := V))) : list VocabParallelEmbedding :=
  zip_with (λ d e, {| vpe_vocab_start_index := vpe_vocab_start_index e;
                      vpe_vocab_end_index := vpe_vocab_end_index e;
                      vpe_weight := matrix_of d path (vpe_weight e) |}) ds l.
(** Every rank has its own copy of a normalization; they are all loaded whole, and the
    model has one of them. *)
Definition norm_of (ds : list params_dict) (path : list string) (n : LlamaRMSNorm (V := V)) : LlamaRMSNorm :=
  {| rn_eps := rn_eps n;
     rn_weight := match ds with d :: _ => vector_of d path "weight" (rn_weight n) | [] => rn_weight n end |}.

Definition layer_of (ds : list params_dict) (path : list string) (l : LlamaDecoderLayer (V := V))
    : LlamaDecoderLayer :=
  let at_ (names : list string) := path ++ names in {|
  self_attn := {|
    q_proj := column_of ds (at_ ["self_attn"; "q_proj"]) (q_proj (self_attn l));
    k_proj := column_of ds (at_ ["self_attn"; "k_proj"]) (k_proj (self_attn l));
    v_proj := column_of ds (at_ ["self_attn"; "v_proj"]) (v_proj (self_attn l));
    o_proj := row_of ds (at_ ["self_attn"; "o_proj"]) (o_proj (self_attn l));
    rotary_emb := rotary_emb (self_attn l); attn := attn (self_attn l) |};
  mlp := {|
    gate_proj := column_of ds (at_ ["mlp"; "gate_proj"]) (gate_proj (mlp l));
    up_proj := column_of ds (at_ ["mlp"; "up_proj"]) (up_proj (mlp l));
    down_proj := row_of ds (at_ ["mlp"; "down_proj"]) (down_proj (mlp l));
    activation_fn := activation_fn (mlp l) |};
  input_layernorm := norm_of ds (at_ ["input_layernorm"]) (input_layernorm l);
  post_attention_layernorm := norm_of ds (at_ ["post_attention_layernorm"]) (post_attention_layernorm l) |}%string.

Definition loaded_llama (ds : list params_dict) (m : LlamaForCausalLM (V := V)) : LlamaForCausalLM := {|
  model := {|
    embed_tokens := embedding_of ds ["model"; "embed_tokens"] (embed_tokens (model m));
    layers := imap (λ i, layer_of ds ["model"; "layers"; pretty i]) (layers (model m));
    norm := norm_of ds ["model"; "norm"] (norm (model m)) |};
  lm_head := column_of ds ["lm_head"] (lm_head m) |}%string.

(** The same for OPT; what every rank holds whole is taken from the first. *)
Definition whole_matrix_of (ds : list params_dict) (path : list string) (old : mat V) : mat V :=
  match ds with d :: _ => matrix_of d path old | [] => old end.
Definition layer_norm_of (ds : list params_dict) (path : list string) (n : LayerNorm V) : LayerNorm V :=
  match ds with
  | d :: _ => (λ '(g, b), (vector_of d path "weight" g, vector_of d path "bias" b)) <$> n
  | [] => n
  end.
Definition opt_layer_of (ds : list params_dict) (path : list string) (l : OPT.OPTDecoderLayer (V := V))
    : OPT.OPTDecoderLayer :=
  let at_ (names : list string) := path ++ names in
  let a := OPT.self_attn l in {|
  OPT.self_attn := {|
    OPT.q_proj := column_of ds (at_ ["self_attn"; "q_proj"]) (OPT.q_proj a);
    OPT.k_proj := column_of ds (at_ ["self_attn"; "k_proj"]) (OPT.k_proj a);
    OPT.v_proj := column_of ds (at_ ["self_attn"; "v_proj"]) (OPT.v_proj a);
    OPT.out_proj := row_of ds (at_ ["self_attn"; "out_proj"]) (OPT.out_proj a);
    OPT.attn := OPT.attn a |};
  OPT.norm_before := OPT.norm_before l; OPT.activation_fn := OPT.activation_fn l;
  OPT.self_attn_layer_norm := layer_norm_of ds (at_ ["self_attn_layer_norm"]) (OPT.self_attn_layer_norm l);
  OPT.fc1 := column_of ds (at_ ["fc1"]) (OPT.fc1 l);
  OPT.fc2 := row_of ds (at_ ["fc2"]) (OPT.fc2 l);
  OPT.layer_final_norm := layer_norm_of ds (at_ ["final_layer_norm"]) (OPT.layer_final_norm l) |}%string.
Definition loaded_opt (ds : list params_dict) (m : OPT.OPTForCausalLM (V := V)) : OPT.OPTForCausalLM :=
  let d := OPT.decoder (OPT.model m) in
  let at_ (names : list string) := ["model"; "decoder"] ++ names in {|
  OPT.model := {| OPT.decoder := {|
    OPT.embed_tokens := embedding_of ds (at_ ["embed_tokens"]) (OPT.embed_tokens d);
    OPT.embed_positions := {|
      OPT.offset := OPT.offset (OPT.embed_positions d);
      OPT.pe_weight := whole_matrix_of ds (at_ ["embed_positions"]) (OPT.pe_weight (OPT.embed_positions d)) |};
    OPT.project_out := whole_matrix_of ds (at_ ["project_out"]) <$> OPT.project_out d;
    OPT.project_in := whole_matrix_of ds (at_ ["project_in"]) <$> OPT.project_in d;
    OPT.final_layer_norm := layer_norm_of ds (at_ ["final_layer_norm"]) <$> OPT.final_layer_norm d;
    OPT.layers := imap (λ i, opt_layer_of ds (at_ ["layers"; pretty i])) (OPT.layers d) |} |};
  OPT.lm_head := column_of ds ["lm_head"] (OPT.lm_head m) |}%string.
End params.

(** ** [get_model] *)

Section get_model.
Context {V : Type} `{!Scalar V} `{!TorchMat V} `{!Floats V} `{!TorchFunctional V} `{!NormFloats V}.
Context (torch_empty nn_weight : Z → Z → mat V) (init_method : mat V → mat V) (version : Z * Z).
(** The class of the activation module, which has no parameters. *)
Context (act_class : string).

(** What [AutoConfig] found: an attribute the model type lacks is missing. *)
Record hf_config := {
  hf_model_type : string;
  hf_tf : Setup.tf_config;
  hf_tie_word_embeddings : bool;
  hf_llama : res (LlamaConfig V);
  hf_opt : res OPT.OPTConfig;
}.

Inductive causal_lm :=
  | OPT_model (m : OPT.OPTForCausalLM (V := V))
  | Llama_model (m : LlamaForCausalLM (V := V))
  | Qwen2_model (m : LlamaForCausalLM (V := V)).

(** The buffer of a layer, in its module tree. *)
Definition rope_of (m : LlamaForCausalLM (V := V)) : RotaryEmbedding V :=
  match layers (model m) with
  | l :: _ => rotary_emb (self_attn l)
  | [] => {| re_rotary_dim := 0; re_head_dim := 0; re_cos_sin_cached := Mat 0 [] |}
  end.

(** [load_weights] on every rank; each reads the files for itself. *)
Definition load_llama (tp_size : Z) (tie : bool) (hubs : Z → hub (V := V)) (m : LlamaForCausalLM (V := V))
    : res LlamaForCausalLM :=
  ds ← mapM (λ r, let mod_ := llama_module act_class (rope_of m) r m in
                  llama_load_weights mod_ r tie (hf_weight_iter (hubs r)) (dict_of mod_))
         (py_range 0 tp_size);
  Ok (loaded_llama ds m).

Definition load_opt (tp_size : Z) (tie : bool) (hubs : Z → hub (V := V)) (m : OPT.OPTForCausalLM (V := V))
    : res OPT.OPTForCausalLM :=
  ds ← mapM (λ r, let mod_ := opt_module act_class r m in
                  opt_load_weights mod_ r tie (hf_weight_iter (hubs r)) (dict_of mod_))
         (py_range 0 tp_size);
  Ok (loaded_opt ds m).

Definition get_model (tp_size : Z) (config : hf_config) (hubs : Z → hub (V := V)) : res causal_lm :=
  let model_type := lower (hf_model_type config) in
  if String.eqb model_type "opt" then
    c ← hf_opt config;
    m ← OPT.OPTForCausalLM_init torch_empty nn_weight version init_method tp_size c;
    OPT_model <$> load_opt tp_size (hf_tie_word_embeddings config) hubs m
  else if String.eqb model_type "llama" then
    c ← hf_llama config;
    m ← LlamaForCausalLM_init torch_empty version false init_method tp_size c;
    Llama_model <$> load_llama tp_size (hf_tie_word_embeddings config) hubs m
  else if String.eqb model_type "qwen2" then
    c ← hf_llama config;
    m ← Qwen2ForCausalLM_init torch_empty version init_method tp_size c;
    Qwen2_model <$> load_llama tp_size (hf_tie_word_embeddings config) hubs m
  else Raise ValueError.
End get_model.

(** ** The loaded Llama model *)

Section loaded.
Context {V : Type} `{!Scalar V}.
Notation params_dict := (gmap string (tensor V)).

Lemma linear_of_Ok path (d : params_dict) (p q : params (V := V)) :
  d !! full_name path "weight" = Some (Matrix q.1) →
  (∀ b, q.2 = Some b → d !! full_name path "bias" = Some (Vec b)) → alike q p →
  linear_of path d p = q.
Proof.
  intros Hw Hb Ha. unfold linear_of, matrix_of. rewrite Hw.
  destruct q as [W [b|]], p as [W0 [b0|]]; unfold alike in Ha; simpl in *.
  - unfold vector_of. by rewrite (Hb b eq_refl).
  - destruct Ha as [Ha _]. by destruct Ha.
  - destruct Ha as [_ Ha]. by destruct Ha.
  - done.
Qed.

(** The module trees of the ranks after loading, and their dictionaries. *)
Context (tree : Z → module V) (tree_ok : ∀ r, model_ok (tree r)) (w : Z).
Notation ds := ((λ r, dict_of (tree r)) <$> py_range 0 w).

(** Where a leaf of the tree is, its parameters are in the dictionary. *)
Lemma leaf_weight r path cls (q : params (V := V)) :
  foldM py_getattr (tree r) path = Ok (leaf cls (linear_parameters q)) →
  dict_of (tree r) !! full_name path "weight" = Some (Matrix q.1) ∧
  ∀ b, q.2 = Some b → dict_of (tree r) !! full_name path "bias" = Some (Vec b).
Proof using tree_ok.
  intros Hp. split; [|intros b Hb]; eapply (lookup_dict_path _ _ _ _ _ _ _ _ (tree_ok r) Hp);
    unfold linear_parameters; [by left|]. rewrite Hb. right. by left.
Qed.

Lemma column_at g (p : params (V := V)) r :
  0 ≤ r < w →
  rank_params (cpl_params (column w g p)) r
  = (row_shard p.1 (nrows p.1 / w) r, (λ b, block b (nrows p.1 / w) r) <$> p.2).
Proof using. intros Hr. exact (rank_params_at w r Hr _). Qed.

Lemma row_at (W : mat V) r :
  0 ≤ r < w → rank_params (rpl_params (row w W)) r = (col_shard W (cols W / w) r, None).
Proof using. intros Hr. exact (rank_params_at w r Hr _). Qed.

Lemma column_of_Ok path cls g (p0 p : params (V := V)) :
  (∀ r, 0 ≤ r < w → foldM py_getattr (tree r) path
    = Ok (leaf cls (linear_parameters (rank_params (cpl_params (column w g p)) r)))) →
  alike p p0 → column_of ds path (column w g p0) = column w g p.
Proof using tree_ok.
  intros Hp Ha. unfold column_of, column. cbn [cpl_gather_output cpl_params]. f_equal.
  unfold column_shards. rewrite zip_with_fmap_l, zip_with_fmap_r, zip_with_diag.
  apply fmap_range_ext. intros r Hr. destruct (leaf_weight r path cls _ (Hp r Hr)) as [Hwt Hb].
  rewrite (column_at g p r Hr) in Hwt, Hb. apply linear_of_Ok; [exact Hwt|exact Hb|].
  unfold alike in *. simpl. by rewrite !fmap_is_Some.
Qed.

Lemma row_of_Ok path cls (W0 W : mat V) :
  (∀ r, 0 ≤ r < w → foldM py_getattr (tree r) path
    = Ok (leaf cls (linear_parameters ((rank_params (rpl_params (row w W)) r).1, None)))) →
  row_of ds path (row w W0) = row w W.
Proof using tree_ok.
  intros Hp. unfold row_of, row, row_bias. cbn [rpl_input_is_parallel rpl_params]. f_equal.
  unfold row_shards. rewrite zip_with_fmap_l, zip_with_fmap_r, zip_with_diag.
  apply fmap_range_ext. intros r Hr. destruct (leaf_weight r path cls _ (Hp r Hr)) as [Hwt _].
  rewrite (row_at W r Hr) in Hwt. by apply linear_of_Ok.
Qed.

Lemma norm_of_Ok path cls (n0 n : LlamaRMSNorm (V := V)) :
  0 < w → foldM py_getattr (tree 0) path = Ok (leaf cls (norm_parameters n)) →
  rn_eps n0 = rn_eps n → norm_of ds path n0 = n.
Proof using tree_ok.
  intros Hw Hp He. unfold norm_of. rewrite py_range_cons by done. csimpl. unfold vector_of.
  rewrite (lookup_dict_path _ _ _ _ _ _ "weight" (Vec (rn_weight n)) (tree_ok 0) Hp) by by left.
  destruct n. simpl in *. by rewrite He.
Qed.

Lemma whole_matrix_of_Ok path cls (W0 W : mat V) :
  0 < w → foldM py_getattr (tree 0) path = Ok (leaf cls [("weight"%string, Matrix W)]) →
  whole_matrix_of ds path W0 = W.
Proof using tree_ok.
  intros Hw Hp. unfold whole_matrix_of. rewrite py_range_cons by done. csimpl. unfold matrix_of.
  by rewrite (lookup_dict_path _ _ _ _ _ _ "weight" (Matrix W) (tree_ok 0) Hp) by by left.
Qed.

Lemma layer_norm_of_Ok path cls (n0 n : LayerNorm V) :
  0 < w → foldM py_getattr (tree 0) path = Ok (leaf cls (layer_norm_parameters n)) →
  option_Forall2 (λ _ _, True) n0 n → layer_norm_of ds path n0 = n.
Proof using tree_ok.
  intros Hw Hp Hn. unfold layer_norm_of. rewrite py_range_cons by done. csimpl.
  destruct Hn as [[g0 b0] [g b] _|]; [|done]. simpl. unfold vector_of.
  rewrite (lookup_dict_path _ _ _ _ _ _ "weight" (Vec g) (tree_ok 0) Hp) by by left.
  by rewrite (lookup_dict_path _ _ _ _ _ _ "bias" (Vec b) (tree_ok 0) Hp) by (right; left).
Qed.

(** A projection without bias. *)
Lemma column_weight_at g (W : mat V) r :
  0 ≤ r < w →
  ((rank_params (cpl_params (column w g (W, None))) r).1, None)
  = rank_params (cpl_params (column w g (W, None))) r.
Proof using. intros Hr. by rewrite column_at. Qed.

Lemma embedding_of_Ok path (W0 W : mat V) k :
  (∀ r, 0 ≤ r < w → foldM py_getattr (tree r) path
    = Ok (leaf "VocabParallelEmbedding" [("weight"%string, Matrix (row_shard W k r))])) →
  embedding_of ds path (vocab_shards W0 w k) = vocab_shards W w k.
Proof using tree_ok.
  intros Hp. unfold embedding_of, vocab_shards. rewrite zip_with_fmap_l, zip_with_fmap_r, zip_with_diag.
  apply fmap_range_ext. intros r Hr. cbn [vpe_vocab_start_index vpe_vocab_end_index vpe_weight].
  unfold matrix_of. by rewrite (lookup_dict_path _ _ _ _ _ _ "weight" _ (tree_ok r) (Hp r Hr)) by by left.
Qed.

Lemma embedding_at (W : mat V) k r :
  0 ≤ r < w →
  default (Mat 0 []) (vpe_weight <$> vocab_shards W w k !! Z.to_nat r) = row_shard W k r.
Proof using.
  intros Hr. unfold vocab_shards. rewrite list_lookup_fmap, lookup_py_range by lia. simpl.
  by rewrite Z2Nat.id by lia.
Qed.

End loaded.

Section loaded_llama.
Context {V : Type} `{!Scalar V}.
Context (act_class : string) (rope rope0 : RotaryEmbedding V) (z : sizes) (w : Z) (Hw : 0 < w).
Context (M : model_weights V).
Notation tree r := (llama_module act_class rope0 r (shard_model z w rope M)).
Notation ds := ((λ r, dict_of (tree r)) <$> py_range 0 w).

Lemma llama_tree_ok r : model_ok (tree r).
Proof using. apply model_tree_ok. Qed.

(** What the constructor fixes and no checkpoint changes. *)
Record same_structure_layer (L0 L : layer_weights V) : Prop := {
  sl_alike : alike_layers L0 L;
  sl_act : lw_act L = lw_act L0;
  sl_eps1 : rn_eps (lw_input_norm L) = rn_eps (lw_input_norm L0);
  sl_eps2 : rn_eps (lw_post_norm L) = rn_eps (lw_post_norm L0);
}.
Record same_structure (M0 M : model_weights V) : Prop := {
  sm_layers : Forall2 same_structure_layer (mw_layers M0) (mw_layers M);
  sm_eps : rn_eps (mw_norm M) = rn_eps (mw_norm M0);
}.

Lemma layers_child r i L :
  mw_layers M !! i = Some L →
  foldM py_getattr (tree r) ["model"; "layers"; pretty i]%string
  = Ok (layer_tree act_class rope0 (rank_layer r (shard_layer z w rope L))).
Proof using.
  intros Hi. unfold llama_module, model_tree. cbn [foldM].
  change (py_getattr (Module_ "LlamaForCausalLM" [] [] _) "model") with
    (Ok (Module_ "LlamaModel" [] [] [
       ("embed_tokens", leaf "VocabParallelEmbedding" [("weight", Matrix (mw_embed (rank_model r (shard_model z w rope M))))]);
       ("layers", Module_ "ModuleList" [] [] (layers_tree act_class rope0 (mw_layers (rank_model r (shard_model z w rope M)))));
       ("norm", leaf "LlamaRMSNorm" (norm_parameters (mw_norm (rank_model r (shard_model z w rope M)))))]%string)).
  rewrite Ok_bind.
  change (py_getattr (Module_ "LlamaModel" [] [] _) "layers") with
    (Ok (Module_ "ModuleList" [] [] (layers_tree act_class rope0 (mw_layers (rank_model r (shard_model z w rope M)))))).
  rewrite Ok_bind.
  assert (names_ok (Module_ "ModuleList" [] [] (layers_tree act_class rope0
    (mw_layers (rank_model r (shard_model z w rope M)))))) as Hok.
  { apply numbered_ok. intros L' _.
    pose proof (model_tree_ok act_class rope0 {| mw_embed := mw_embed M; mw_layers := [L'];
      mw_norm := mw_norm M; mw_head := mw_head M |}) as [Ht _].
    inversion Ht as [? ? ? ? _ _ _ _ Hc]; subst. apply Forall_cons in Hc as [Hc _].
    inversion Hc as [? ? ? ? _ _ _ _ Hc']; subst. apply Forall_cons in Hc' as [_ Hc'].
    apply Forall_cons in Hc' as [Hl _]. inversion Hl as [? ? ? ? _ _ _ _ Hl']; subst.
    by apply Forall_cons in Hl' as [? _]. }
  inversion Hok as [? ? ? ? _ _ _ Hnd _]; subst.
  erewrite py_getattr_child; [reflexivity|exact Hnd|].
  apply list_elem_of_lookup. exists i. unfold layers_tree. rewrite list_lookup_imap.
  cbn [mw_layers rank_model model layers shard_model].
  by rewrite <-list_fmap_compose, list_lookup_fmap, Hi.
Qed.

Lemma layer_path r i L names :
  mw_layers M !! i = Some L →
  foldM py_getattr (tree r) (["model"; "layers"; pretty i]%string ++ names)
  = foldM py_getattr (layer_tree act_class rope0 (rank_layer r (shard_layer z w rope L))) names.
Proof using. intros Hi. by rewrite foldM_app, (layers_child r i L Hi), Ok_bind. Qed.

Lemma layer_of_Ok i L0 L :
  mw_layers M !! i = Some L → same_structure_layer L0 L →
  layer_of ds ["model"; "layers"; pretty i]%string (shard_layer z w rope L0) = shard_layer z w rope L.
Proof using Hw.
  intros Hi [[Hq Hk Hv] Hact He1 He2]. unfold layer_of, shard_layer. cbn [self_attn mlp
    q_proj k_proj v_proj o_proj rotary_emb attn gate_proj up_proj down_proj activation_fn
    input_layernorm post_attention_layernorm]. rewrite Hact.
  f_equal; [f_equal|f_equal|..].
  all: first [ eapply (norm_of_Ok _ llama_tree_ok); [done|by rewrite (layer_path _ _ _ _ Hi)|done]
    | eapply (row_of_Ok _ llama_tree_ok); intros r Hr; by rewrite (layer_path _ _ _ _ Hi)
    | eapply (column_of_Ok _ llama_tree_ok); [|done]; intros r Hr; rewrite (layer_path _ _ _ _ Hi);
      try rewrite <-column_weight_at by done; reflexivity ].
Qed.

(** Whatever the model held, after [load_weights] it is that of the dictionaries. *)
Lemma loaded_llama_Ok M0 :
  same_structure M0 M → loaded_llama ds (shard_model z w rope M0) = shard_model z w rope M.
Proof using Hw.
  intros [HL He]. unfold loaded_llama, shard_model.
  cbn [model embed_tokens layers norm lm_head]. f_equal; [f_equal|].
  - apply (embedding_of_Ok _ llama_tree_ok). intros r Hr. rewrite <-(embedding_at _ _ _ r Hr). reflexivity.
  - apply list_eq. intros i. rewrite list_lookup_imap, !list_lookup_fmap.
    destruct (mw_layers M !! i) as [L|] eqn:Hi.
    + destruct (Forall2_lookup_r _ _ _ _ _ HL Hi) as (L0 & Hi0 & Hs). rewrite Hi0. simpl. f_equal.
      by apply layer_of_Ok.
    + rewrite lookup_ge_None_2; [done|]. rewrite (Forall2_length _ _ _ HL). by apply lookup_ge_None_1.
  - by eapply (norm_of_Ok _ llama_tree_ok).
  - eapply (column_of_Ok _ llama_tree_ok); [|done]. intros r Hr. by rewrite <-column_weight_at.
Qed.
End loaded_llama.

(** ** The loaded OPT model *)

Section loaded_opt.
Context {V : Type} `{!Scalar V}.
Context (act_class : string) (z : sizes) (w : Z) (Hw : 0 < w).
Context (M : opt_model V).
Notation rank_of r := (opt_rank_model r (shard_opt z w M)).
Notation tree r := (opt_module act_class r (shard_opt z w M)).
Notation ds := ((λ r, dict_of (tree r)) <$> py_range 0 w).

Lemma opt_module_ok r : model_ok (tree r).
Proof using. apply opt_tree_ok. Qed.

Lemma opt_decoder_child r n child :
  (n, child) ∈ opt_decoder_children act_class (rank_of r) →
  foldM py_getattr (tree r) (["model"; "decoder"]%string ++ [n]) = Ok child.
Proof using.
  intros Hin. rewrite foldM_app.
  assert (foldM py_getattr (tree r) ["model"; "decoder"]%string
    = Ok (Module_ "OPTDecoder" [] [] (opt_decoder_children act_class (rank_of r)))) as -> by reflexivity.
  rewrite Ok_bind. cbn [foldM]. erewrite py_getattr_child; [reflexivity| |exact Hin].
  destruct (opt_module_ok r) as [Ht _]. unfold opt_module, opt_tree in Ht.
  inversion Ht as [? ? ? ? _ _ _ _ Hc]; subst. apply Forall_cons in Hc as [Hc _].
  inversion Hc as [? ? ? ? _ _ _ _ Hc']; subst. apply Forall_cons in Hc' as [Hc' _].
  by inversion Hc'; subst.
Qed.

Lemma opt_layers_child r i L names :
  om_layers M !! i = Some L →
  foldM py_getattr (tree r) ((["model"; "decoder"]%string ++ ["layers"%string; pretty i]) ++ names)
  = foldM py_getattr (opt_layer_tree act_class (opt_rank_layer r (shard_opt_layer z w L))) names.
Proof using.
  intros Hi. rewrite foldM_app.
  change (["model"; "decoder"]%string ++ ["layers"%string; pretty i])
    with ((["model"; "decoder"]%string ++ ["layers"%string]) ++ [pretty i]). rewrite foldM_app.
  erewrite opt_decoder_child.
  2:{ unfold opt_decoder_children. rewrite !elem_of_app. do 4 right. by left. }
  rewrite Ok_bind. cbn [foldM]. erewrite py_getattr_child; [by rewrite !Ok_bind| |].
  - assert (names_ok (Module_ "ModuleList" [] [] (imap (λ i L, (pretty i, opt_layer_tree act_class L))
      (om_layers (rank_of r))))) as Hok.
    { apply numbered_ok. intros L' _. apply opt_layer_tree_ok. }
    by inversion Hok; subst.
  - apply list_elem_of_lookup. exists i. rewrite list_lookup_imap.
    cbn [om_layers opt_rank_model OPT.model OPT.decoder OPT.layers shard_opt].
    by rewrite <-list_fmap_compose, list_lookup_fmap, Hi.
Qed.

Lemma row_params_of_Ok path cls (p0 p : params (V := V)) :
  (∀ r, 0 ≤ r < w → foldM py_getattr (tree r) path
    = Ok (leaf cls (linear_parameters (rank_params (rpl_params (row_bias w p)) r)))) →
  p0.2 = None → p.2 = None → row_of ds path (row_bias w p0) = row_bias w p.
Proof using.
  destruct p0 as [W0 b0], p as [W b]. cbn [snd]. intros Hp -> ->.
  apply (row_of_Ok (λ r, tree r) opt_module_ok w path cls). intros r Hr. rewrite (Hp r Hr).
  change (row_bias w (W, None)) with (row w W). by rewrite (row_at w W r Hr).
Qed.

Lemma opt_layer_of_Ok i L0 L :
  om_layers M !! i = Some L → same_opt_layer L0 L →
  opt_layer_of ds (["model"; "decoder"]%string ++ ["layers"%string; pretty i]) (shard_opt_layer z w L0)
  = shard_opt_layer z w L.
Proof using Hw.
  intros Hi Hs. unfold opt_layer_of, shard_opt_layer. cbn [OPT.self_attn OPT.q_proj OPT.k_proj OPT.v_proj
    OPT.out_proj OPT.attn OPT.norm_before OPT.activation_fn OPT.self_attn_layer_norm OPT.fc1 OPT.fc2
    OPT.layer_final_norm]. rewrite (sol_act _ _ Hs), (sol_before _ _ Hs).
  f_equal; [f_equal|..].
  all: first [ eapply (layer_norm_of_Ok _ opt_module_ok); [done|by rewrite (opt_layers_child _ _ _ _ Hi)|apply Hs]
    | eapply row_params_of_Ok; [intros r Hr; by rewrite (opt_layers_child _ _ _ _ Hi)|apply Hs|apply Hs]
    | eapply (column_of_Ok _ opt_module_ok); [|apply Hs]; intros r Hr;
      by rewrite (opt_layers_child _ _ _ _ Hi) ].
Qed.

(** A module of the decoder that the model may lack. *)
Lemma whole_matrix_if name (W0 W : option (mat V)) :
  (∀ T, W = Some T → (name, leaf "Linear" [("weight"%string, Matrix T)])
     ∈ opt_decoder_children act_class (rank_of 0)) →
  option_Forall2 (λ _ _, True) W0 W →
  whole_matrix_of ds (["model"; "decoder"]%string ++ [name]) <$> W0 = W.
Proof using Hw.
  intros Hin Hf. revert Hin. destruct Hf as [T0 T _|]; [|done]. intros Hin. simpl. f_equal.
  eapply (whole_matrix_of_Ok _ opt_module_ok); [done|]. exact (opt_decoder_child 0 _ _ (Hin T eq_refl)).
Qed.

(** Whatever the model held, after [load_weights] it is that of the dictionaries. *)
Lemma loaded_opt_Ok M0 : same_opt M0 M → loaded_opt ds (shard_opt z w M0) = shard_opt z w M.
Proof using Hw.
  intros Hs. set (dicts := ds). unfold loaded_opt, shard_opt.
  cbn [OPT.model OPT.decoder OPT.embed_tokens OPT.embed_positions OPT.project_out OPT.project_in
    OPT.final_layer_norm OPT.layers OPT.lm_head OPT.offset OPT.pe_weight].
  f_equal; [f_equal; f_equal|].
  - apply (embedding_of_Ok _ opt_module_ok). intros r Hr.
    rewrite (opt_decoder_child r _ _ ltac:(by left)). by rewrite <-(embedding_at _ _ _ r Hr).
  - f_equal. eapply (whole_matrix_of_Ok _ opt_module_ok); [done|].
    by rewrite (opt_decoder_child 0 _ _ ltac:(right; left)).
  - apply whole_matrix_if; [|apply Hs]. intros T ET. unfold opt_decoder_children.
    rewrite !elem_of_app. right. left. cbn. rewrite ET. by left.
  - apply whole_matrix_if; [|apply Hs]. intros T ET. unfold opt_decoder_children.
    rewrite !elem_of_app. do 2 right. left. cbn. rewrite ET. by left.
  - pose proof (so_norm _ _ Hs) as Hnorm. inversion Hnorm as [n0 n Hn E0 E|E0 E]; [|done]. simpl. f_equal.
    eapply (layer_norm_of_Ok _ opt_module_ok); [done| |done].
    apply (opt_decoder_child 0 "final_layer_norm" (leaf "LayerNorm" (layer_norm_parameters n))).
    unfold opt_decoder_children. rewrite !elem_of_app. do 3 right. left. cbn. rewrite <-E. by left.
  - apply list_eq. intros i. rewrite list_lookup_imap, !list_lookup_fmap.
    destruct (om_layers M !! i) as [L|] eqn:Hi.
    + destruct (Forall2_lookup_r _ _ _ _ _ (so_layers _ _ Hs) Hi) as (L0 & Hi0 & HL). rewrite Hi0. simpl. f_equal.
      by apply opt_layer_of_Ok.
    + rewrite lookup_ge_None_2; [done|]. rewrite (Forall2_length _ _ _ (so_layers _ _ Hs)). by apply lookup_ge_None_1.
  - eapply (column_of_Ok _ opt_module_ok); [|done]. intros r Hr. by rewrite <-column_weight_at.
Qed.
End loaded_opt.

(** ** The models [get_model] returns *)

Section result.
Context {V : Type} `{!Scalar V} `{!TorchMat V} `{!TorchMatLaws V} `{!Floats V} `{!TorchFunctional V}.
Context `{!NormFloats V}.
Context (torch_empty nn_weight : Z → Z → mat V) (init_method : mat V → mat V) (version : Z * Z).
Context (act_class : string) (Hinit : init_laws torch_empty init_method).

(** The parameters do not depend on the buffer. *)
Lemma rank_model_rope z w r (R R' : RotaryEmbedding V) M :
  rank_model r (shard_model z w R M) = rank_model r (shard_model z w R' M).
Proof using. unfold rank_model. cbn. by rewrite <-!list_fmap_compose. Qed.

(** Nor do their names. *)
Lemma named_parameters_rope (R R' : RotaryEmbedding V) M :
  named_parameters (model_tree act_class R M) = named_parameters (model_tree act_class R' M).
Proof using.
  unfold named_parameters, model_tree, layers_tree. cbn [parameter_paths fmap list_fmap concat].
  rewrite !fmap_imap. by do 7 f_equal.
Qed.

Lemma checkpoint_of_rope (R R' : RotaryEmbedding V) tie M (h : hub (V := V)) :
  checkpoint_of act_class R tie M h → checkpoint_of act_class R' tie M h.
Proof using.
  intros (names & dir & states & omitted & H). exists names, dir, states, omitted.
  by rewrite (named_parameters_rope R' R).
Qed.

(** Every rank loads its shards. *)
Lemma load_llama_Ok z w M0 M tie (hubs : Z → hub (V := V)) R :
  sizes_ok z w → model_wf z M0 → model_wf z M → same_structure M0 M →
  (tie = true → mw_head M = mw_embed M) →
  (∀ r, 0 ≤ r < w → checkpoint_of act_class R tie M (hubs r)) →
  load_llama act_class w tie hubs (shard_model z w R M0) = Ok (shard_model z w R M).
Proof using.
  intros Hz H0 H1 Hs Htie Hh. unfold load_llama. set (rope0 := rope_of _) in *.
  rewrite (mapM_res_total _ (λ r, dict_of (llama_module act_class rope0 r (shard_model z w R M)))).
  - rewrite Ok_bind. f_equal. by apply loaded_llama_Ok; [apply Hz|].
  - intros r Hr%elem_of_py_range. unfold llama_module. rewrite !(rank_model_rope z w r R rope0).
    apply (llama_load_weights_Ok act_class rope0 z w Hz r Hr (hubs r) M0 M tie); try done.
    + by eapply checkpoint_of_rope, Hh.
    + eapply Forall2_impl; [apply Hs|]. by intros ?? [].
Qed.

(** A Llama or Qwen2 configuration [c] that fits [w] ranks, and the repository of every
    rank with the checkpoint of [M], a model of that structure; [R] is the table of its
    rotations. *)
Definition is_qwen2 (config : hf_config (V := V)) : bool := String.eqb (lower (hf_model_type config)) "qwen2".
Record llama_repository (w : Z) (config : hf_config (V := V)) (hubs : Z → hub (V := V))
    (c : LlamaConfig V) (M : model_weights V) (R : RotaryEmbedding V) : Prop := {
  lr_type : lower (hf_model_type config) ∈ ["llama"; "qwen2"]%string;
  lr_config : hf_llama config = Ok c;
  lr_sizes : llama_config_ok w c;
  lr_rope : RotaryEmbedding_init (rope c) (of_Z 10000) = Ok R;
  lr_structure : ∃ act, ACT2FN version (hidden_act c) = Ok act ∧
    same_structure (initial_model torch_empty init_method c (is_qwen2 config) act) M;
  lr_wf : model_wf (llama_sizes c) M;
  lr_tied : hf_tie_word_embeddings config = true → mw_head M = mw_embed M;
  lr_hubs r : 0 ≤ r < w → checkpoint_of act_class R (hf_tie_word_embeddings config) M (hubs r);
}.
Definition llama_result (config : hf_config (V := V)) : LlamaForCausalLM (V := V) → causal_lm (V := V) :=
  if is_qwen2 config then Qwen2_model else Llama_model.

Lemma get_model_Ok w config hubs c M R :
  llama_repository w config hubs c M R →
  get_model torch_empty nn_weight init_method version act_class w config hubs
  = Ok (llama_result config (shard_model (llama_sizes c) w R M)).
Proof using Hinit TorchMatLaws0.
  intros [Ht Hcfg Hc HR (act & Hact & Hs) HM Htie Hh].
  pose proof (load_llama_Ok _ _ _ M _ hubs R (lc_sizes _ _ Hc)
    (initial_model_wf torch_empty init_method w Hinit c Hc _ act) HM Hs Htie Hh) as E.
  unfold get_model, llama_result, is_qwen2 in *. rewrite Hcfg, !Ok_bind. unfold Qwen2ForCausalLM_init.
  rewrite !elem_of_cons in Ht. destruct Ht as [Ht|[Ht|[]%elem_of_nil]]; rewrite Ht in *; cbn in *;
    rewrite (llama_init torch_empty init_method version w Hinit c Hc _ act R Hact HR), Ok_bind; by rewrite E.
Qed.

(** *** OPT *)

(** The weights [nn.Embedding] and [nn.Linear] start with. *)
Definition nn_laws : Prop := ∀ r k, 0 ≤ r → 0 ≤ k →
  mat_wf (nn_weight r k) ∧ nrows (nn_weight r k) = r ∧ cols (nn_weight r k) = k.
Context (Hnn : nn_laws).

Lemma load_opt_Ok z w p M0 M tie (hubs : Z → hub (V := V)) :
  sizes_ok z w → opt_model_wf z p M0 → opt_model_wf z p M → same_opt M0 M →
  nrows (om_positions M0) = nrows (om_positions M) → om_head M = om_embed M →
  (∀ r, 0 ≤ r < w → opt_checkpoint_of act_class tie M (hubs r)) →
  load_opt act_class w tie hubs (shard_opt z w M0) = Ok (shard_opt z w M).
Proof using.
  intros Hz H0 H1 Hs Hn Htie Hh. unfold load_opt.
  rewrite (mapM_res_total _ (λ r, dict_of (opt_module act_class r (shard_opt z w M)))).
  - rewrite Ok_bind. f_equal. by apply loaded_opt_Ok; [apply Hz|].
  - intros r Hr%elem_of_py_range. by apply (opt_load_weights_Ok act_class z w Hz r Hr p (hubs r) M0 M tie); auto.
Qed.

(** An OPT configuration [c] that fits [w] ranks. *)
Record opt_configured (w : Z) (config : hf_config (V := V)) (c : OPT.OPTConfig) (act : V → V) : Prop := {
  or_type : lower (hf_model_type config) = "opt"%string;
  or_config : hf_opt config = Ok c;
  or_sizes : opt_config_ok w c;
  or_act : ACT2FN version (OPT.activation_function c) = Ok act;
}.
(** The repository of every rank has the checkpoint of [M], which is tied. *)
Record opt_repository (w : Z) (config : hf_config (V := V)) (hubs : Z → hub (V := V)) (c : OPT.OPTConfig)
    (M : opt_model V) : Prop := {
  or_structure : ∃ act, opt_configured w config c act ∧
    same_opt (initial_opt torch_empty nn_weight init_method c act) M;
  or_wf : opt_model_wf (opt_sizes c) (OPT.word_embed_proj_dim c) M;
  or_positions : nrows (om_positions M) = OPT.max_position_embeddings c + 2;
  or_tied : om_head M = om_embed M;
  or_hubs r : 0 ≤ r < w → opt_checkpoint_of act_class (hf_tie_word_embeddings config) M (hubs r);
}.
(** The weight files that rank [r] finds have a bias of an output projection. *)
Definition has_out_bias (num_layers : Z) (h : hub (V := V)) : Prop :=
  ∃ (i : nat) ws e b name, Z.of_nat i < num_layers ∧ hf_weight_iter h = (ws, e) ∧ (name, Vec b) ∈ ws ∧
    (name = out_bias i ∨ name = "model." +:+ out_bias i).

Notation get_model := (get_model torch_empty nn_weight init_method version act_class).

Lemma get_model_opt_eq w config hubs c act :
  opt_configured w config c act →
  get_model w config hubs
  = OPT_model <$> load_opt act_class w (hf_tie_word_embeddings config) hubs
      (shard_opt (opt_sizes c) w (initial_opt torch_empty nn_weight init_method c act)).
Proof using Hinit TorchMatLaws0.
  intros [Ht Hcfg Hc Hact]. unfold GetModel.get_model. rewrite Ht, Hcfg. cbn [String.eqb Ascii.eqb Bool.eqb].
  rewrite Ok_bind. by rewrite (opt_init torch_empty nn_weight init_method version w c Hinit Hc act Hact).
Qed.

Lemma get_model_opt_Ok w config hubs c M :
  opt_repository w config hubs c M → get_model w config hubs = Ok (OPT_model (shard_opt (opt_sizes c) w M)).
Proof using Hinit Hnn TorchMatLaws0.
  intros [(act & Hcf & Hs) HM Hpos Htie Hh]. pose proof (or_sizes _ _ _ _ Hcf) as Hc.
  rewrite (get_model_opt_eq w config hubs c act Hcf).
  rewrite (load_opt_Ok _ _ (OPT.word_embed_proj_dim c) _ M); try done; [apply Hc| |].
  - by apply (initial_opt_wf torch_empty nn_weight init_method w c Hinit Hnn).
  - cbn [initial_opt om_positions]. pose proof (oc_positions _ _ Hc). destruct (opt_hidden w c Hc) as (_ & EH & ? & _).
    destruct (Hnn (OPT.max_position_embeddings c + 2) (OPT.hidden_size c)) as (_ & -> & _); lia.
Qed.

Lemma mapM_raises {A B} (f : A → res B) (l : list A) x :
  x ∈ l → (∃ e, f x = Raise e) → ∃ e, mapM f l = Raise e.
Proof using.
  intros Hin [e He]. induction Hin as [l|x y l Hin IH]; simpl.
  - rewrite He. by eexists.
  - destruct (f y) as [b|e']; [|by eexists]. destruct (IH He) as [e' E]. simpl. rewrite E. by eexists.
Qed.

Lemma get_model_opt_raises w config (hubs : Z → hub (V := V)) c act r :
  opt_configured w config c act → OPT.enable_bias c = true → 0 ≤ r < w →
  has_out_bias (OPT.num_hidden_layers c) (hubs r) → ∃ e, get_model w config hubs = Raise e.
Proof using Hinit TorchMatLaws0.
  intros Hcf Hb Hr (i & ws & e & b & name & Hi & Hw & Hin & Hname).
  rewrite (get_model_opt_eq w config hubs c act Hcf). unfold load_opt.
  set (M0 := initial_opt _ _ _ _ _).
  match goal with |- context [mapM ?f _] => destruct (mapM_raises f (py_range 0 w) r) as [e' E] end.
  - by apply elem_of_py_range.
  - rewrite Hw.
    apply (out_bias_never_loads act_class (opt_sizes c) w r Hr M0 i (initial_opt_layer torch_empty init_method c act)
      ((λ _, szero) <$> py_range 0 (sz_hidden (opt_sizes c))) b name); try done.
    + cbn [M0 initial_opt om_layers]. by rewrite list_lookup_fmap, lookup_py_range by lia.
    + cbn [initial_opt_layer ol_out]. unfold initial_params. by rewrite Hb.
  - exists e'. by rewrite E.
Qed.

(** C12: what [get_model] returns on [w] ranks, by the type of the configuration in any
    case.  Llama and Qwen2: if [w] divides the sizes and the repository has the checkpoint
    of [M], the shards of [M] on all ranks: the constructors build modules of the right
    shapes out of uninitialised memory, every parameter is in a file and is copied, and
    nothing raises; only what no checkpoint has, the activation, the epsilons and the
    table of the rotary embedding, is kept from the constructors.  OPT: the same as long
    as the output projections have no biases (and the head is the embedding); with
    biases, a repository that has one of them is never loaded.  Any other type is a
    [ValueError]. *)
Theorem get_model_is_the_checkpoint w config (hubs : Z → hub (V := V)) :
  (∀ c M R, llama_repository w config hubs c M R →
     get_model w config hubs = Ok (llama_result config (shard_model (llama_sizes c) w R M))) ∧
  (∀ c M, opt_repository w config hubs c M →
     get_model w config hubs = Ok (OPT_model (shard_opt (opt_sizes c) w M))) ∧
  (∀ c act r, opt_configured w config c act → OPT.enable_bias c = true → 0 ≤ r < w →
     has_out_bias (OPT.num_hidden_layers c) (hubs r) → ∃ e, get_model w config hubs = Raise e) ∧
  (lower (hf_model_type config) ∉ ["opt"; "llama"; "qwen2"]%string →
     get_model w config hubs = Raise ValueError).
Proof using Hinit Hnn TorchMatLaws0.
  split_and!.
  - intros c M R. apply get_model_Ok.
  - intros c M. apply get_model_opt_Ok.
  - intros c act r. apply get_model_opt_raises.
  - intros Ht. rewrite !not_elem_of_cons in Ht. destruct Ht as (H1 & H2 & H3 & _).
    unfold GetModel.get_model. by rewrite !(proj2 (String.eqb_neq _ _)).
Qed.
End result.

(** ** A Qwen2 checkpoint over the integers *)

#[local] Existing Instance floats_Z.
#[local] Existing Instance norm_Z.
#[local] Existing Instance tensor_Z_eq_dec.
#[local] Instance functional_Z : TorchFunctional Z := {|
  torch_tanh := λ x, x; torch_erf := λ x, x; torch_sigmoid := λ x, x; torch_clip := λ lo hi x, Z.max lo (Z.min hi x);
  math_sqrt := Z.sqrt; F_gelu := λ x, x; F_gelu_tanh := λ x, x; F_softplus := λ x, x; F_mish := λ x, x;
  F_relu := Z.max 0; F_silu := λ x, x; nn_LeakyReLU := λ x, x; nn_ReLU6 := λ x, Z.max 0 (Z.min 6 x) |}.

(** Memory that held minus ones, and initializers that leave it. *)
Definition empty2_Z (r c : Z) : mat Z := Mat c ((λ _, (λ _, -1) <$> py_range 0 c) <$> py_range 0 r).

Lemma init_laws_Z : init_laws empty2_Z id.
Proof.
  split; [|done]. intros r c Hr Hc. split_and!; [|unfold nrows, empty2_Z; simpl; rewrite len_fmap; by apply len_range|done].
  split; [done|]. apply Forall_fmap, Forall_forall. intros i _. simpl. rewrite len_fmap. by apply len_range.
Qed.

Definition qwen_config_Z : LlamaConfig Z := {|
  hidden_size := 4; intermediate_size := 2; num_attention_heads := 2; num_key_value_heads := 2;
  max_position_embeddings := 3; num_hidden_layers := 1; vocab_size := 4; rms_norm_eps := 0;
  hidden_act := "relu"; rope := {| rc_hidden_size := 4; rc_num_attention_heads := 2;
    rc_head_dim := None; rc_rope_theta := None; rc_partial_rotary_factor := None;
    rc_rope_scaling := None; rc_max_position_embeddings := 3 |} |}.
Definition qwen_layer_Z : layer_weights Z := {|
  lw_q := (eye, Some [0; 3; 0; 5]); lw_k := ((lw_k trained_layer_Z).1, Some [1; 0; 0; 1]); lw_v := (eye, Some [0; 0; 2; 0]);
  lw_o := eye; lw_gate := lw_gate trained_layer_Z; lw_up := lw_up trained_layer_Z;
  lw_down := lw_down trained_layer_Z; lw_act := Z.max 0; lw_input_norm := ones; lw_post_norm := ones |}.
Definition qwen_Z : model_weights Z :=
  {| mw_embed := eye; mw_layers := [qwen_layer_Z]; mw_norm := ones; mw_head := eye |}.
(** A repository of one file, without the head. *)
Definition qwen_hub_Z : hub (V := Z) := {|
  list_repo_files := ["config.json"; "model.safetensors"]%string;
  snapshot_local := Ok "/cache"%string; snapshot_download := Raise ValueError;
  path_exists _ := true;
  load_safetensors _ := Ok (filter (λ e, e.1 ≠ "lm_head.weight"%string)
                              (reverse (named_parameters (model_tree "ReLU" rope_Z qwen_Z))));
  torch_load _ := Raise ValueError |}.
Definition hf_config_Z : hf_config (V := Z) := {|
  hf_model_type := "Qwen2";
  hf_tf := {| Setup.num_hidden_layers := 1; Setup.hidden_size := 4; Setup.num_attention_heads := 2;
    Setup.num_key_value_heads := Some 2; Setup.torch_dtype := None |};
  hf_tie_word_embeddings := true;
  hf_llama := Ok qwen_config_Z; hf_opt := Raise AttributeError |}.

Lemma qwen_wf : model_wf sizes_Z qwen_Z.
Proof.
  split; [by split_and!; apply (bool_decide_unpack _)| |done|by apply linear_Z].
  constructor; [|constructor]. split; try done; by apply linear_Z.
Qed.

Lemma qwen_hub_ok R : checkpoint_of "ReLU" R true qwen_Z qwen_hub_Z.
Proof.
  exists ["model.safetensors"%string], "/cache"%string,
    [filter (λ e, e.1 ≠ "lm_head.weight"%string) (reverse (named_parameters (model_tree "ReLU" rope_Z qwen_Z)))],
    [("lm_head.weight"%string, Matrix eye)].
  split_and!.
  - split_and!; [done|by right|]. left. split; [done|]. by constructor.
  - done.
  - by right.
  - change (named_parameters (model_tree "ReLU" R qwen_Z)) with
      (named_parameters (model_tree "ReLU" rope_Z qwen_Z)).
    by apply (bool_decide_unpack _); vm_compute.
Qed.

Definition qwen_rope_Z : RotaryEmbedding Z := {| re_rotary_dim := 2; re_head_dim := 2;
  re_cos_sin_cached := Mat 4 [[1; 1; 0; 0]; [1; 1; 0; 0]; [1; 1; 0; 0]] |}.
Lemma qwen_repository :
  llama_repository empty2_Z id (2, 1) "ReLU" 2 hf_config_Z (λ _, qwen_hub_Z) qwen_config_Z qwen_Z qwen_rope_Z.
Proof.
  split; try done; try (by vm_compute).
  - right. by left.
  - exists (Z.max 0). split; [done|]. split; [|done]. constructor; [|constructor]. by split.
  - apply qwen_wf.
  - intros r _. apply qwen_hub_ok.
Qed.

(** An OPT model without biases, and the same configuration with them. *)
Definition opt_config_Z (bias : bool) : OPT.OPTConfig := {|
  OPT.hidden_size := 4; OPT.ffn_dim := 2; OPT.num_attention_heads := 2; OPT.max_position_embeddings := 3;
  OPT.num_hidden_layers := 1; OPT.vocab_size := 4; OPT.word_embed_proj_dim := 2; OPT.enable_bias := bias;
  OPT.do_layer_norm_before := false; OPT.layer_norm_elementwise_affine := true;
  OPT._remove_final_layer_norm := false; OPT.activation_function := "relu" |}.
Definition plain_layer_Z : opt_layer Z := {|
  ol_q := (eye, None); ol_k := ((lw_k qwen_layer_Z).1, None); ol_v := (eye, None); ol_out := (eye, None);
  ol_fc1 := (lw_gate trained_layer_Z, None); ol_fc2 := (lw_down trained_layer_Z, None);
  ol_act := Z.max 0; ol_before := false;
  ol_norm1 := Some ([1; 1; 1; 1], [0; 0; 0; 1]); ol_norm2 := Some ([1; 2; 1; 2], [0; 0; 0; 0]) |}.
Definition plain_opt_Z : opt_model Z := {|
  om_embed := Mat 2 [[1; 0]; [0; 1]; [1; 1]; [2; 0]];
  om_positions := Mat 4 [[9; 9; 9; 9]; [9; 9; 9; 9]; [1; 0; 0; 0]; [0; 1; 0; 0]; [0; 0; 1; 0]];
  om_project_in := Some (Mat 2 [[1; 0]; [0; 1]; [1; 1]; [0; 0]]);
  om_project_out := Some (Mat 4 [[1; 0; 0; 0]; [0; 0; 0; 1]]);
  om_layers := [plain_layer_Z]; om_norm := None; om_head := Mat 2 [[1; 0]; [0; 1]; [1; 1]; [2; 0]] |}.
Definition opt_hf_config_Z (bias : bool) : hf_config (V := Z) := {|
  hf_model_type := "opt"; hf_tf := hf_tf hf_config_Z; hf_tie_word_embeddings := true;
  hf_llama := Raise AttributeError; hf_opt := Ok (opt_config_Z bias) |}.
Definition file_Z (entries : list (string * tensor Z)) : hub (V := Z) := {|
  list_repo_files := ["pytorch_model.bin"]%string;
  snapshot_local := Raise FileNotFoundError; snapshot_download := Ok "/hub"%string;
  path_exists _ := true; load_safetensors _ := Raise ValueError; torch_load _ := Ok entries |}.
(** The names in the file start with "decoder". *)
Definition opt_entries_Z : list (string * tensor Z) :=
  (λ '(n, t), (String.substring 6 (String.length n - 6) n, t)) <$>
    filter (λ e, e.1 ≠ "lm_head.weight"%string) (named_parameters (opt_tree "ReLU" plain_opt_Z)).

Lemma opt_configured_Z bias : opt_configured (2, 1) 2 (opt_hf_config_Z bias) (opt_config_Z bias) (Z.max 0).
Proof. by split. Qed.

Lemma nn_laws_Z : nn_laws empty2_Z.
Proof. intros r k Hr Hk. by apply init_laws_Z. Qed.

Lemma opt_repository_Z :
  opt_repository empty2_Z empty2_Z id (2, 1) "ReLU" 2 (opt_hf_config_Z false) (λ _, file_Z opt_entries_Z)
    (opt_config_Z false) plain_opt_Z.
Proof.
  split; try done.
  - exists (Z.max 0). split; [apply opt_configured_Z|]. split; try by constructor.
    constructor; [|constructor]. by split; try done; constructor.
  - split; try by apply linear_Z.
    + by split_and!; apply (bool_decide_unpack _).
    + by split; apply (bool_decide_unpack _).
    + constructor; [|constructor]. split; try (by apply linear_Z); by intros g b [= <- <-].
    + done.
  - intros r _. exists ["pytorch_model.bin"%string], "/hub"%string, [opt_entries_Z],
      [("lm_head.weight"%string, Matrix (om_head plain_opt_Z))].
    split_and!; [|done|by right|].
    + split_and!; [done|by left|]. right. split; [done|by left].
    + by apply (bool_decide_unpack _); vm_compute.
Qed.

Example get_model_is_the_checkpoint_witness :
  let get := get_model empty2_Z empty2_Z id (2, 1) "ReLU" 2 in
  get hf_config_Z (λ _, qwen_hub_Z) = Ok (Qwen2_model (shard_model sizes_Z 2 qwen_rope_Z qwen_Z)) ∧
  get (opt_hf_config_Z false) (λ _, file_Z opt_entries_Z)
  = Ok (OPT_model (shard_opt (opt_sizes (opt_config_Z false)) 2 plain_opt_Z)) ∧
  ∃ e, get (opt_hf_config_Z true) (λ _, file_Z [(out_bias 0, Vec [1; 2; 3; 4])]) = Raise e.
Proof.
  intros get.
  pose proof (get_model_is_the_checkpoint empty2_Z empty2_Z id (2, 1) "ReLU" init_laws_Z nn_laws_Z 2) as H.
  split_and!.
  - destruct (H hf_config_Z (λ _, qwen_hub_Z)) as [Hllama _]. exact (Hllama _ _ _ qwen_repository).
  - destruct (H (opt_hf_config_Z false) (λ _, file_Z opt_entries_Z)) as (_ & Hopt & _).
    exact (Hopt _ _ opt_repository_Z).
  - destruct (H (opt_hf_config_Z true) (λ _, file_Z [(out_bias 0, Vec [1; 2; 3; 4])])) as (_ & _ & Hbias & _).
    apply (Hbias _ _ 1 (opt_configured_Z true)); [done|lia|].
    exists 0%nat, [(out_bias 0, Vec [1; 2; 3; 4])], None, [1; 2; 3; 4], (out_bias 0).
    split_and!; [done|reflexivity|by left|by left].
Defined.
