(* ===== verification/Startup.v ===== *)
(** * From the launch to the first answer

    [serve] of [cli.py] and [ModelWorker.__init__] on every rank: the world of the
    environment, the configuration of a rank, the model of the checkpoint.  With
    [InitCache] this is where [Serving] starts. *)
From stdpp Require Import strings gmap pretty.
From S2P Require Import Prelude Torch ParallelState Tensor TensorParallel FlashInfer Batch PagedAttention.
From S2P Require Import Triton Rotary Activations Heads Llama ModelWorker ModelSpec Causal Decoder KVStore.
From S2P Require Import KVCopies PageRows WorkerService Setup LlamaSpec ModelInit LlamaTheorems DenseLlama Opt.
From S2P Require Import OptSpec OptInit OptTheorems DenseOpt Serving Offload ModelUtils ModelLoading OptLoading GetModel.

#[local] Opaque py_range.

(** ** [serve] *)

(** The tokenizer's [eos_token_ids], one or several. *)
Inductive token_ids := One_id (id : Z) | Id_list (ids : list Z).
Definition eos_token_ids_of (eos_token_ids : token_ids) : list Z :=
  match eos_token_ids with One_id id => [id] | Id_list ids => ids end.

Section start.
Context `{Dist} `{LongTensor}.
Context {V : Type} `{!Scalar V} `{!TorchMat V} `{!Floats V} `{!TorchFunctional V} `{!NormFloats V}.
Context `{!Sampling V} `{!FlashInfer (head_row V) (head_row V) (head_row V) (head_row V)}.
Context (torch_empty nn_weight : Z → Z → mat V) (init_method : mat V → mat V) (version : Z * Z).
Context (act_class : string).
(** What the model hub has under the name: the configuration, the files as every
    rank sees them, the tokenizer's identifiers. *)
Context (config : hf_config (V := V)) (hubs : Z → hub (V := V)) (eos_token_ids : token_ids).
Notation worker := (ModelWorker (K := head_row V) (V := head_row V) (F := V)).

(** The worker, and its model, which [Serving.rank_model] calls. *)
Definition ModelWorker___init__ (environ : gmap string string) (block_size : Z)
    : M process (worker * causal_lm (V := V)) :=
  '(rank, _) ← init_distributed environ;
  p ← get_st;
  tp_size ← lift (get_model_parallel_world_size (vars (mp_state p)));
  model_config ← lift (ModelConfig_init (hf_tf config) tp_size);
  model ← lift (get_model torch_empty nn_weight init_method version act_class tp_size config hubs);
  mret (ModelWorker_init rank model_config (eos_token_ids_of eos_token_ids) block_size, model).

Definition ModelWorker___del__ : M process unit := deinit_distributed.

(** The process: the CPUs it may use, and its part of the world. *)
Record machine := { cpus : list Z; proc : process }.
Definition on_cpus {A} (m : M (list Z) A) : M machine A := λ s,
  let '(r, c) := m (cpus s) in (r, {| cpus := c; proc := proc s |}).
Definition on_process {A} (m : M process A) : M machine A := λ s,
  let '(r, p) := m (proc s) in (r, {| cpus := cpus s; proc := p |}).

(** [nvidia_smi], [files] and [sched_setaffinity] as in [Setup]. *)
Definition serve (nvidia_smi : option string) (files : gmap string string)
    (sched_setaffinity : list Z → res unit) (environ : gmap string string)
    (block_size device : Z) (uds_path : string)
    : M machine (WorkerService (K := head_row V) (V := head_row V) (F := V) * causal_lm (V := V)) :=
  _ ← on_cpus (PCIBus.set_cpu_affinity_for_gpu nvidia_smi files sched_setaffinity device);
  '(worker, model) ← on_process (ModelWorker___init__ environ block_size);
  mret (WorkerService_init worker uds_path, model).
End start.

(** The call of a model, by its class. *)
Section forward.
Context {V : Type} `{!Scalar V} `{!TorchMat V} `{!Floats V} `{!NormFloats V} `{!LayerNormOps V}.
Context `{!FlashInfer (head_row V) (head_row V) (head_row V) (head_row V)}.
Context (torch_empty_flat : Z → list V) (uninit : head_row V).
Notation cache := (paged_cache (head_row V) (head_row V)).

Definition model_forward (m : causal_lm (V := V)) : list Z → InputParams → option (list (list cache)) →
    res (list (mat V) * list (list (option cache))) :=
  match m with
  | OPT_model m => OPT.OPTForCausalLM_forward uninit m
  | Llama_model m => LlamaForCausalLM_forward torch_empty_flat uninit m
  | Qwen2_model m => Qwen2ForCausalLM_forward torch_empty_flat uninit m
  end.
End forward.

(** ** Every rank starts *)

(** What the worker's configuration takes from the object the model reads. *)
Record describes (tf : tf_config) (layers hidden heads kv_heads : Z) : Prop := {
  ds_layers : num_hidden_layers tf = layers;
  ds_hidden : hidden_size tf = hidden;
  ds_heads : num_attention_heads tf = heads;
  ds_kv_heads : default heads (num_key_value_heads tf) = kv_heads;
}.

(** A rotary embedding over the whole head. *)
Record rope_fits `{Floats V} (hd : Z) (rc : RopeConfig V) : Prop := {
  rf_heads : rc_num_attention_heads rc ≠ 0;
  rf_head_dim : default (rc_hidden_size rc / rc_num_attention_heads rc) (rc_head_dim rc) = hd;
  rf_rotary : to_Z (smul (of_Z hd) (default (of_Z 1) (rc_partial_rotary_factor rc))) = hd;
}.

Lemma rope_init_fits {V} `{Floats V} hd rc base R :
  0 < hd → 2 * (hd / 2) = hd → rope_fits hd rc → RotaryEmbedding_init rc base = Ok R →
  re_head_dim R = hd ∧ mat_wf (re_cos_sin_cached R) ∧ cols (re_cos_sin_cached R) = 2 * hd.
Proof.
  intros Hpos Heven [Hne Hhd Hrot]. unfold RotaryEmbedding_init, py_floordiv.
  destruct (Z.eqb_spec (rc_num_attention_heads rc) 0); [done|]. rewrite Ok_bind, Hhd, Hrot.
  intros [= <-]. cbn [re_head_dim re_cos_sin_cached]. split; [done|].
  match goal with |- context [cos_sin_table _ ?f] => set (freqs := f) end.
  assert (len freqs = hd / 2) as Hlen.
  { unfold freqs. assert (∀ (l : list V) g, len (match rc_rope_scaling rc with Some s => g s <$> l | None => l end)
      = len l) as E by (intros; destruct (rc_rope_scaling rc); [apply len_fmap|done]).
    rewrite E. unfold base_inv_freq. rewrite len_fmap. unfold range_step. rewrite len_fmap, len_range;
      [|apply Z.div_pos; lia]. rewrite <-Heven at 1. replace (2 * (hd / 2) - 0 + 2 - 1) with (1 + (hd / 2) * 2) by lia.
    rewrite Z.div_add by done. done. }
  unfold cos_sin_table. cbn [cols]. split; [|lia]. split; [simpl; pose proof (len_nonneg freqs); lia|].
  apply Forall_fmap, Forall_forall. intros t _. simpl. rewrite len_app, !len_fmap, len_app, len_fmap. lia.
Qed.

(** The checkpoint of a model, with its configuration and, for Llama and Qwen2, the table
    of rotations. *)
Inductive checkpoint (V : Type) :=
  | Llama_checkpoint (c : LlamaConfig V) (M : model_weights V) (R : RotaryEmbedding V)
  | OPT_checkpoint (c : OPT.OPTConfig) (M : opt_model V).
Arguments Llama_checkpoint {V} c M R.
Arguments OPT_checkpoint {V} c M.

Section checkpoints.
Context {V : Type}.

Definition ck_sizes (ck : checkpoint V) : sizes :=
  match ck with Llama_checkpoint c _ _ => llama_sizes c | OPT_checkpoint c _ => opt_sizes c end.
Definition ck_layers (ck : checkpoint V) : nat :=
  match ck with Llama_checkpoint _ M _ => length (mw_layers M) | OPT_checkpoint _ M => length (om_layers M) end.
Definition ck_max_len (ck : checkpoint V) : Z :=
  match ck with
  | Llama_checkpoint _ _ R => nrows (re_cos_sin_cached R)
  | OPT_checkpoint _ M => nrows (om_positions M) - 2
  end.
(** The model [w] ranks share. *)
Definition ck_model `{!Scalar V} (config : hf_config (V := V)) (w : Z) (ck : checkpoint V) : causal_lm :=
  match ck with
  | Llama_checkpoint c M R => llama_result config (shard_model (llama_sizes c) w R M)
  | OPT_checkpoint c M => OPT_model (shard_opt (opt_sizes c) w M)
  end.

(** What every worker is configured with. *)
Definition rank_config (config : hf_config (V := V)) (w : Z) (ck : checkpoint V) : ModelConfig :=
  let z := ck_sizes ck in {|
  mc_num_layers := Z.of_nat (ck_layers ck);
  mc_num_heads := sz_kv z / w * sz_group z;
  mc_num_kv_heads := sz_kv z / w;
  mc_head_dim := sz_hd z;
  mc_dtype := default float16 (torch_dtype (hf_tf config)) |}.

(** The attention modules of a loaded model. *)
Definition attentions (model : causal_lm (V := V)) : list Attention :=
  match model with
  | OPT_model m => (λ l, OPT.attn (OPT.self_attn l)) <$> OPT.layers (OPT.decoder (OPT.model m))
  | Llama_model m | Qwen2_model m => (λ l, attn (self_attn l)) <$> layers (Llama.model m)
  end.

Lemma ModelConfig_init_Ok config w ck hidden :
  sizes_ok (ck_sizes ck) w →
  describes (hf_tf config) (Z.of_nat (ck_layers ck)) hidden (sz_kv (ck_sizes ck) * sz_group (ck_sizes ck))
    (sz_kv (ck_sizes ck)) →
  hidden / (sz_kv (ck_sizes ck) * sz_group (ck_sizes ck)) = sz_hd (ck_sizes ck) →
  ModelConfig_init (hf_tf config) w = Ok (rank_config config w ck).
Proof.
  set (z := ck_sizes ck). intros Hz [E1 E2 E3 E4] Ehd.
  pose proof (so_w _ _ Hz) as Hw. pose proof (so_kv _ _ Hz). pose proof (so_group _ _ Hz).
  destruct (total_heads z w Hz) as [Ekv Enq]. assert (0 < sz_kv z * sz_group z) by nia.
  unfold ModelConfig_init. rewrite E1, E2, E3, E4. rewrite !py_floordiv_pos, !py_mod_pos by done.
  assert (∀ a, (w * a) `mod` w = 0) as Hmod by (intros a; rewrite Z.mul_comm; apply Z.mod_mul; lia).
  assert ((sz_kv z * sz_group z) `mod` w = 0) as -> by (by rewrite <-Enq).
  assert (sz_kv z `mod` w = 0) as -> by (by rewrite <-Ekv at 1).
  assert (sz_kv z * sz_group z / w = sz_kv z / w * sz_group z) as Ediv.
  { rewrite <-Enq, Z.mul_comm. apply Z.div_mul. lia. }
  cbn. unfold rank_config. fold z. by rewrite Ehd, Ediv.
Qed.
End checkpoints.

Section launched.
Context `{Dist_laws : DistLaws} `{LongTensor_laws : LongTensorLaws}.
Context {V : Type} `{!Scalar V} `{!TorchMat V} `{!TorchMatLaws V} `{!ScalarZero V} `{!DotSplit V}.
Context `{!Floats V} `{!TorchFunctional V} `{!NormFloats V} `{!LayerNormOps V} `{!LayerNormLaws V} `{!Sampling V}.
Context `{!FlashInfer (head_row V) (head_row V) (head_row V) (head_row V)}.
Context (attend : head_row V → list (option (head_row V * head_row V)) → head_row V).
Context (attend1 : list V → list (option (list V * list V)) → list V).
Context `{!FlashInferLaws attend} `{!Headwise attend attend1}.
Context (torch_empty nn_weight : Z → Z → mat V) (init_method : mat V → mat V) (version : Z * Z).
Context (Hinit : init_laws torch_empty init_method) (Hnn : nn_laws nn_weight).
Context (torch_empty_flat : Z → list V) (uninit : head_row V) (act_class : string).
Context (config : hf_config (V := V)) (hubs : Z → hub (V := V)) (eos_token_ids : token_ids).
Context (size : N) (page : Z) (ck : checkpoint V).
Notation w := (Z.of_N size).
Notation z := (ck_sizes ck).
Notation start := (ModelWorker___init__ torch_empty nn_weight init_method version act_class config hubs
                     eos_token_ids).
Notation get_model := (get_model torch_empty nn_weight init_method version act_class).

(** A launch: the repository of every rank has the checkpoint, for a configuration that
    [w] ranks can share. *)
Record launch_ok : Prop := {
  la_page : 0 < page < 2 ^ 31;
  la_empty k : 0 ≤ k → len (torch_empty_flat k) = k;
  la_checkpoint : match ck with
    | Llama_checkpoint c M R =>
        llama_repository torch_empty init_method version act_class w config hubs c M R ∧
        describes (hf_tf config) (Llama.num_hidden_layers c) (Llama.hidden_size c)
          (Llama.num_attention_heads c) (Llama.num_key_value_heads c) ∧
        rope_fits (sz_hd (llama_sizes c)) (rope c)
    | OPT_checkpoint c M =>
        opt_repository torch_empty nn_weight init_method version act_class w config hubs c M ∧
        describes (hf_tf config) (OPT.num_hidden_layers c) (OPT.hidden_size c)
          (OPT.num_attention_heads c) (OPT.num_attention_heads c)
    end;
}.
Hypothesis (Hok : launch_ok).

Notation rank_config := (rank_config config w ck).
(** The model all of them share. *)
Notation launched_model := (ck_model config w ck).

(** What is served: the model's call, against the dense model of the checkpoint. *)
Definition launched_decoder (model : causal_lm) : Decoder V := {|
  dc_forward := model_forward torch_empty_flat uninit model;
  dc_logits := match ck with
    | Llama_checkpoint _ M R => llama_logits attend z (re_cos_sin_cached R) M
    | OPT_checkpoint _ M => opt_text_logits attend z M
    end;
  dc_pages := match ck with
    | Llama_checkpoint _ M R => llama_pages attend z (re_cos_sin_cached R) M
    | OPT_checkpoint _ M => opt_text_pages attend z M
    end;
  dc_max_len := ck_max_len ck |}.

(** What the rest needs of a launch. *)
Record launchable : Prop := {
  lb_sizes : sizes_ok z w;
  lb_config : ModelConfig_init (hf_tf config) w = Ok rank_config;
  lb_model : get_model w config hubs = Ok launched_model;
  lb_serves : DecoderLaws (launched_decoder launched_model) z w page rank_config (ck_layers ck);
  lb_attentions : attentions launched_model
    = replicate (ck_layers ck) {| num_heads := mc_num_heads rank_config;
        num_kv_heads := mc_num_kv_heads rank_config; head_size := mc_head_dim rank_config |};
}.


(** Llama and Qwen2. *)
Lemma llama_launchable c M R : ck = Llama_checkpoint c M R → launchable.
Proof using Hok Hinit TorchMatLaws0 FlashInferLaws0 Headwise0 ScalarZero0 DotSplit0.
  intros Eck. pose proof (la_checkpoint Hok) as Hc. rewrite Eck in Hc. destruct Hc as (Hr & [D1 D2 D3 D4] & Hrope).
  pose proof (lr_sizes _ _ _ _ _ _ _ _ _ _ Hr) as Hcfg. pose proof (lc_sizes _ _ Hcfg) as Hz.
  destruct (config_heads _ _ Hcfg) as (Hkv & Hheads & EQ & EH).
  destruct (lr_structure _ _ _ _ _ _ _ _ _ _ Hr) as (act & _ & Hs).
  assert (Llama.num_hidden_layers c = Z.of_nat (length (mw_layers M))) as EL.
  { rewrite <-(Forall2_length _ _ _ (sm_layers _ _ Hs)). cbn [mw_layers initial_model].
    pose proof (lc_layers _ _ Hcfg). rewrite length_fmap, length_py_range. lia. }
  destruct (rope_init_fits _ _ _ _ (so_hd _ _ Hz) (so_even _ _ Hz) Hrope
    (lr_rope _ _ _ _ _ _ _ _ _ _ Hr)) as (H1 & H2 & H3).
  split.
  - by rewrite Eck.
  - apply (ModelConfig_init_Ok config w ck (Llama.hidden_size c)); rewrite Eck; [exact Hz| |].
    + split; [by rewrite D1|done|by rewrite D3|]. cbn [ck_sizes]. by rewrite <-EQ, D4.
    + cbn [ck_sizes]. by rewrite <-EQ.
  - rewrite Eck. by apply (get_model_Ok torch_empty nn_weight init_method version act_class Hinit).
  - assert (llama_ok torch_empty_flat (llama_sizes c) page R M w) as Hl.
    { split; try done; [apply Hok|apply Hok|apply Hr]. }
    pose proof (llama_serves attend attend1 torch_empty_flat uninit (llama_sizes c) rank_config page R M w Hl)
      as HD.
    unfold launched_decoder. rewrite Eck in HD |- *. cbn [ck_model ck_sizes ck_layers ck_max_len].
    unfold llama_result. destruct (is_qwen2 config); exact HD.
  - rewrite Eck. cbn [ck_model ck_layers]. unfold llama_result, attentions.
    destruct (is_qwen2 config); cbn [Llama.model layers shard_model];
      rewrite <-list_fmap_compose; by apply const_fmap.
Qed.

Lemma opt_launchable c M : ck = OPT_checkpoint c M → launchable.
Proof using Hok Hinit Hnn TorchMatLaws0 FlashInferLaws0 Headwise0 ScalarZero0 DotSplit0 LayerNormLaws0.
  intros Eck. pose proof (la_checkpoint Hok) as Hc. rewrite Eck in Hc. destruct Hc as (Hr & [D1 D2 D3 D4]).
  destruct (or_structure _ _ _ _ _ _ _ _ _ _ Hr) as (act & Hcf & Hs).
  pose proof (or_sizes _ _ _ _ _ Hcf) as Hcfg. pose proof (oc_sizes _ _ Hcfg) as Hz.
  assert (OPT.num_hidden_layers c = Z.of_nat (length (om_layers M))) as EL.
  { rewrite <-(Forall2_length _ _ _ (so_layers _ _ Hs)). cbn [om_layers initial_opt].
    pose proof (oc_layers _ _ Hcfg). rewrite length_fmap, length_py_range. lia. }
  split.
  - by rewrite Eck.
  - apply (ModelConfig_init_Ok config w ck (OPT.hidden_size c)); rewrite Eck; [exact Hz| |].
    + split; [by rewrite D1|done|by rewrite D3; cbn; rewrite Z.mul_1_r|]. cbn. by rewrite Z.mul_1_r, D4.
    + cbn. by rewrite Z.mul_1_r.
  - rewrite Eck. by apply (get_model_opt_Ok torch_empty nn_weight init_method version act_class Hinit Hnn).
  - assert (opt_ok (opt_sizes c) page (OPT.word_embed_proj_dim c) M w) as Hl.
    { split; [done..|apply Hok|apply Hr]. }
    pose proof (opt_serves attend attend1 uninit (opt_sizes c) rank_config page (OPT.word_embed_proj_dim c) M w Hl)
      as HD.
    unfold launched_decoder. rewrite Eck in HD |- *. exact HD.
  - rewrite Eck. cbn [ck_model ck_layers attentions shard_opt OPT.model OPT.decoder OPT.layers].
    rewrite <-list_fmap_compose. apply const_fmap. intros L. cbn. by rewrite Z.mul_1_r.
Qed.

Lemma launch_launchable : launchable.
Proof using Hok Hinit Hnn TorchMatLaws0 FlashInferLaws0 Headwise0 ScalarZero0 DotSplit0 LayerNormLaws0.
  destruct ck as [c M R|c M] eqn:E; [by eapply llama_launchable|by eapply opt_launchable].
Qed.

Lemma start_Ok environ rank v gs :
  launched environ rank size → (rank < size)%N → groups_unset v →
  ∃ gs', start environ page {| pg := None; mp_state := DistState v gs |}
    = (Ok (ModelWorker_init (Z.of_N rank) rank_config (eos_token_ids_of eos_token_ids) page, launched_model),
       {| pg := Some (Z.of_N rank, w);
          mp_state := DistState (topology 1 1 1 w (Z.of_N rank) None None None None None v) gs' |}).
Proof using All.
  intros Hl Hlt Hv. destruct (init_distributed_eq environ rank size v gs Hl Hlt Hv) as [gs' E].
  destruct (getters_of_topology 1 1 1 w (Z.of_N rank) None None None None None v)
    as (G & _); [lia..|].
  exists gs'. unfold ModelWorker___init__. rewrite M_bind_eq, E. cbn beta iota.
  rewrite M_bind_eq. unfold get_st. cbn [vars mp_state]. rewrite M_bind_eq. unfold lift at 1. rewrite G.
  rewrite M_bind_eq. unfold lift at 1. rewrite (lb_config launch_launchable), M_bind_eq. unfold lift.
  by rewrite (lb_model launch_launchable).
Qed.

Lemma serve_Ok environ rank v gs nvidia_smi files accept device path cpus0 cpus1 :
  launched environ rank size → (rank < size)%N → groups_unset v →
  PCIBus.set_cpu_affinity_for_gpu nvidia_smi files accept device cpus0 = (Ok tt, cpus1) →
  ∃ gs',
    serve torch_empty nn_weight init_method version act_class config hubs eos_token_ids
      nvidia_smi files accept environ page device path
      {| cpus := cpus0; proc := {| pg := None; mp_state := DistState v gs |} |}
    = (Ok (WorkerService_init (ModelWorker_init (Z.of_N rank) rank_config
             (eos_token_ids_of eos_token_ids) page) path, launched_model),
       {| cpus := cpus1; proc := {| pg := Some (Z.of_N rank, w);
          mp_state := DistState (topology 1 1 1 w (Z.of_N rank) None None None None None v) gs' |} |}).
Proof using All.
  intros Hl Hlt Hv Haff. destruct (start_Ok environ rank v gs Hl Hlt Hv) as [gs' E]. exists gs'.
  unfold serve. rewrite M_bind_eq. unfold on_cpus. cbn [cpus proc]. rewrite Haff. cbn beta iota.
  rewrite M_bind_eq. unfold on_process. cbn [cpus proc]. by rewrite E.
Qed.

(** C13: every rank of a launch starts, whatever its module variables held, once its
    CPUs are set: it has its own rank, the world's size, no caches, and the same model
    and configuration as all others.  The configuration fits the model: there is an
    attention module per layer, each with the heads and the head size [_make_inputs]
    plans for and [init_cache] sizes the blocks by. *)
Theorem workers_start_alike environ rank v gs nvidia_smi files accept device path cpus0 cpus1 :
  launched environ rank size → (rank < size)%N → groups_unset v →
  PCIBus.set_cpu_affinity_for_gpu nvidia_smi files accept device cpus0 = (Ok tt, cpus1) →
  ∃ service s,
    serve torch_empty nn_weight init_method version act_class config hubs eos_token_ids
      nvidia_smi files accept environ page device path
      {| cpus := cpus0; proc := {| pg := None; mp_state := DistState v gs |} |}
    = (Ok (service, launched_model), s) ∧
    service = WorkerService_init (ModelWorker_init (Z.of_N rank) rank_config
                (eos_token_ids_of eos_token_ids) page) path ∧
    cpus s = cpus1 ∧ pg (proc s) = Some (Z.of_N rank, w) ∧
    get_model_parallel_world_size (vars (mp_state (proc s))) = Ok w ∧
    attentions launched_model
    = replicate (Z.to_nat (mc_num_layers rank_config))
        {| num_heads := mc_num_heads rank_config; num_kv_heads := mc_num_kv_heads rank_config;
           head_size := mc_head_dim rank_config |}.
Proof using All.
  intros Hl Hlt Hv Haff. destruct (serve_Ok environ rank v gs _ _ _ _ path _ _ Hl Hlt Hv Haff) as [gs' E].
  eexists _, _. split; [exact E|].
  cbn [cpus proc pg mp_state vars]. split_and!; try done.
  - destruct (getters_of_topology 1 1 1 w (Z.of_N rank) None None None None None v) as (G & _); [lia..|].
    exact G.
  - rewrite (lb_attentions launch_launchable). cbn [Startup.rank_config mc_num_layers]. by rewrite Nat2Z.id.
Qed.

(** *** A worker that came up *)

Context (shared_memory : KVWorkerParams → list Z).
Context (pagelocked_empty : Z → Z → Z → list (list (list Z))).
Context (element_size : KVWorkerParams → Z).
Notation node := (WorkerService.node (K := head_row V) (V := head_row V) (F := V)).

(** Rank [rank] runs [serve] in a new process of the launch, on a machine with the memory
    it asks for, and its service has answered an [InitCache] with at least [tiers d]
    blocks on each device [d]. *)
Inductive came_up (tiers : Device → Z) (rank : N) (model : causal_lm) (n : node) : Prop :=
  | came_up_intro environ v gs nvidia_smi files accept device path cpus0 service s bits fuel boot request n0 answer :
    launched environ rank size → groups_unset v →
    serve torch_empty nn_weight init_method version act_class config hubs eos_token_ids
      nvidia_smi files accept environ page device path
      {| cpus := cpus0; proc := {| pg := None; mp_state := DistState v gs |} |}
    = (Ok (service, model), s) →
    nd_service n0 = service → nd_socket n0 = false →
    finfo_bits (mc_dtype (model_config (worker service))) = Ok bits →
    memory_ok shared_memory pagelocked_empty element_size n0 bits →
    0 ≤ host_cache_size request → 0 ≤ disk_cache_size request →
    InitCache shared_memory pagelocked_empty element_size fuel boot request n0 = (Ok (Some answer), n) →
    (∀ d, tiers d ≤ answer_blocks answer d) →
    came_up tiers rank model n.

(** The bytes of a block of a rank in a layer. *)
Definition rank_stride : Z :=
  match finfo_bits (mc_dtype rank_config) with
  | Ok bits => 2 * (page * (sz_kv z / w) * sz_hd z * (bits / 8))
  | Raise _ => 0
  end.

Lemma came_up_worker tiers rank model n :
  (rank < size)%N → came_up tiers rank model n →
  model = launched_model ∧
  (∃ gpu host disk path params,
    init_cache gpu host disk path
      (ModelWorker_init (Z.of_N rank) rank_config (eos_token_ids_of eos_token_ids) page)
    = (Ok params, node_worker n) ∧ tiers GPU ≤ kvp_num_gpu_blocks params) ∧
  ∃ kv, nd_kv n = Some kv ∧ kv_ok (ck_layers ck) tiers rank_stride kv.
Proof using All.
  intros Hlt [environ v gs smi files accept device path cpus0 service s bits fuel boot request n0 answer
    Hl Hv Hs Hn0 Hsock Hbits Hmem Hh Hd Hc Hb].
  unfold serve in Hs. rewrite M_bind_eq in Hs. unfold on_cpus in Hs. cbn [cpus proc] in Hs.
  destruct (PCIBus.set_cpu_affinity_for_gpu _ _ _ _ _) as [[[]|e] cpus']; [|done].
  cbn beta iota in Hs. rewrite M_bind_eq in Hs. unfold on_process in Hs. cbn [cpus proc] in Hs.
  destruct (start_Ok environ rank v gs Hl Hlt Hv) as [gs' E]. rewrite E in Hs.
  injection Hs as Hservice <- _. split; [done|].
  destruct (InitCache_answered _ _ _ _ _ _ _ _ _ Hc) as [(params & Ei & Ha) _].
  assert (worker (nd_service n0) = ModelWorker_init (Z.of_N rank) rank_config
    (eos_token_ids_of eos_token_ids) page) as Ew by (by rewrite Hn0, <-Hservice).
  split.
  { rewrite Ew in Ei. eexists _, _, _, _, params. split; [exact Ei|]. rewrite <-Ha. exact (Hb GPU). }
  pose proof (lb_sizes launch_launchable) as Hz. pose proof (la_page Hok) as Hp.
  set (c := model_config (worker (nd_service n0))).
  assert (c = rank_config) as Ec by (unfold c; by rewrite Ew).
  assert (0 < mc_num_layers c) as HL by (apply init_cache_layers in Ei; fold c in Ei; rewrite Ec in *; cbn in *; lia).
  assert (0 < mc_num_kv_heads c) as Hkv by (rewrite Ec; cbn; by apply kv_pos).
  assert (0 < mc_head_dim c) as Hhd by (rewrite Ec; cbn; apply Hz).
  assert (0 < block_size (worker (nd_service n0))) as Hbs by (rewrite Ew; cbn; lia).
  assert (finfo_bits (mc_dtype c) = Ok bits) as Hbits' by (unfold c; by rewrite Hn0).
  destruct (InitCache_store shared_memory pagelocked_empty element_size n0 bits Hbits' HL Hbs Hkv Hhd Hmem
    fuel boot request n answer Hh Hd Hsock Hc) as (kv & Hkvn & Hwf & HLk & Hst & Hbl).
  exists kv. split; [done|]. fold c in HLk, Hst. rewrite Ec in HLk, Hst, Hbits'. split; [done|done| |].
  - rewrite Hst, Ew. unfold rank_stride. rewrite Hbits'. reflexivity.
  - intros d. rewrite Hbl. apply Hb.
Qed.

(** C1: from the launch to the text.  Workers that were launched with an environment
    that numbers them, found the checkpoint of a Llama, a Qwen2 or (without output
    biases) an OPT model and came up with caches generate, in every order the client
    sends admissible batches, parks sequences in host memory or on disk and brings them
    back, the tokens that greedy decoding with the dense model of the checkpoint
    generates from each prompt, and no admissible batch makes any of them raise. *)
Theorem launched_workers_generate tiers block_rows ns model s tokenizer_decode copy_blocks :
  let D := launched_decoder model in
  let layers := ck_layers ck in
  (∀ bytes i, rank_row (sz_kv z / w) (block_rows bytes i)) →
  len ns = w → (∀ r n, ns !! r = Some n → came_up tiers (N.of_nat r) model n) →
  rtc (off_step D page layers tokenizer_decode copy_blocks block_rows tiers)
    {| of_sys := {| sy_nodes := ns; sy_seqs := ∅ |}; of_parked := ∅ |} s →
  (∀ id q, sy_seqs (of_sys s) !! id = Some q ∨ pk_seq <$> of_parked s !! id = Some q →
     ∃ n, sq_tokens q = generate D n (sq_prompt q)) ∧
  (∀ ins wait record, admissible D page (tiers GPU) (of_sys s) ins → ∃ outputs ns',
     infer_group D layers tokenizer_decode copy_blocks (infer_request ins wait record)
       (sy_nodes (of_sys s)) = (λ n, (Ok outputs, n)) <$> ns').
Proof using All.
  intros D nlayers Hrows Hlen Hup Hsteps.
  assert (∀ r n, ns !! r = Some n → (N.of_nat r < size)%N) as Hrank.
  { intros r n Hn%lookup_lt_Some. unfold len in Hlen. lia. }
  pose proof (so_w _ _ (lb_sizes launch_launchable)) as Hw.
  assert (model = launched_model) as ->.
  { destruct ns as [|n ns]; [unfold len in Hlen; simpl in Hlen; lia|].
    by destruct (came_up_worker tiers 0 model n (Hrank 0%nat n eq_refl) (Hup 0%nat n eq_refl)). }
  assert (off_start w page rank_config nlayers (eos_token_ids_of eos_token_ids) tiers rank_stride
    {| of_sys := {| sy_nodes := ns; sy_seqs := ∅ |}; of_parked := ∅ |}) as Hstart.
  { split; [|intros m (r & Hm)%list_elem_of_lookup|done].
    2:{ by destruct (came_up_worker _ _ _ m (Hrank r m Hm) (Hup r m Hm)) as (_ & _ & Hkv). }
    split; [done|done| |done]. cbn [of_sys sy_nodes]. intros r n Hn.
    destruct (came_up_worker _ _ _ n (Hrank r n Hn) (Hup r n Hn)) as (_ & E & _). by rewrite nat_N_Z in E. }
  pose proof (lb_serves launch_launchable) as HD.
  pose proof (off_reachable D z w page rank_config nlayers tokenizer_decode (eos_token_ids_of eos_token_ids)
    copy_blocks block_rows Hrows tiers rank_stride _ _ Hstart Hsteps) as Hs.
  split; [intros id q; by eapply off_generated|]. intros ins wait record Had.
  destruct (rounds_answered D z w page rank_config nlayers tokenizer_decode (eos_token_ids_of eos_token_ids)
    copy_blocks (tiers GPU) _ ins wait record (off_serving _ _ _ _ _ _ _ _ _ _ _ _ Hs) Had)
    as (outputs & ns' & E & _). eauto.
Qed.
End launched.

(** ** Two workers of a Qwen2 model over the integers *)

#[local] Existing Instances floats_Z norm_Z functional_Z heads_Z heads_Z_laws heads_Z_headwise.
#[local] Existing Instances sampling_Z layer_norm_Z layer_norm_Z_laws.

Definition environ_of (rank : nat) : gmap string string :=
  {["RANK" := pretty (N.of_nat rank); "WORLD_SIZE" := "2"; "MASTER_ADDR" := "localhost";
    "MASTER_PORT" := "29500"]}%string.
Lemma launched_Z rank : launched (environ_of rank) (N.of_nat rank) 2.
Proof. split_and!; try reflexivity; by eexists. Qed.

Definition qwen_checkpoint_Z : checkpoint Z := Llama_checkpoint qwen_config_Z qwen_Z qwen_rope_Z.
Lemma empty_Z_flat k : 0 ≤ k → len (empty_Z k) = k.
Proof. intros Hk. unfold empty_Z. rewrite len_fmap. by apply len_range. Qed.

Lemma launch_ok_Z :
  launch_ok empty2_Z empty2_Z id (2, 1) empty_Z "ReLU" hf_config_Z (λ _, qwen_hub_Z) 2 2 qwen_checkpoint_Z.
Proof. split; [done|apply empty_Z_flat|]. split; [exact qwen_repository|done]. Qed.
Lemma launch_opt_Z :
  launch_ok empty2_Z empty2_Z id (2, 1) empty_Z "ReLU" (opt_hf_config_Z false) (λ _, file_Z opt_entries_Z) 2 2
    (OPT_checkpoint (opt_config_Z false) plain_opt_Z).
Proof. split; [done|apply empty_Z_flat|]. split; [exact opt_repository_Z|done]. Qed.

Notation serve_Z config hub rank :=
  (serve empty2_Z empty2_Z id (2, 1) "ReLU" config (λ _, hub) (One_id 1)
     (Some "0x0000, 0x3B"%string) ∅ (λ _, Ok tt) (environ_of rank) 2 0 "/run/w"
     {| cpus := [0; 1]; proc := {| pg := None; mp_state := DistState module_globals [] |} |}).
Definition qwen_rank_config : ModelConfig := {|
  mc_num_layers := 1; mc_num_heads := 1; mc_num_kv_heads := 1; mc_head_dim := 2; mc_dtype := float16 |}.

Example workers_start_alike_witness :
  (∃ service s, serve_Z hf_config_Z qwen_hub_Z 1
      = (Ok (service, Qwen2_model (shard_model sizes_Z 2 qwen_rope_Z qwen_Z)), s) ∧
    rank (worker service) = 1 ∧ model_config (worker service) = qwen_rank_config ∧
    eos_token_ids (worker service) = [1] ∧ pg (proc s) = Some (1, 2)) ∧
  ∃ service s, serve_Z (opt_hf_config_Z false) (file_Z opt_entries_Z) 0
      = (Ok (service, OPT_model (shard_opt (opt_sizes (opt_config_Z false)) 2 plain_opt_Z)), s) ∧
    rank (worker service) = 0 ∧ model_config (worker service) = qwen_rank_config.
Proof.
  pose proof (λ cfg hub ck Hok rank, workers_start_alike (headwise attend1_Z) attend1_Z empty2_Z empty2_Z id
    (2, 1) init_laws_Z nn_laws_Z empty_Z [] "ReLU" cfg (λ _, hub) (One_id 1) 2 2 ck Hok (environ_of rank)
    (N.of_nat rank) module_globals [] (Some "0x0000, 0x3B"%string) ∅ (λ _, Ok tt) 0 "/run/w"
    [0; 1] [0; 1] (launched_Z rank)) as H.
  split.
  - destruct (H _ _ _ launch_ok_Z 1%nat) as (service & s & E & -> & _ & Hpg & _); [done|done|reflexivity|].
    eexists _, s. split; [exact E|]. by split_and!.
  - destruct (H _ _ _ launch_opt_Z 0%nat) as (service & s & E & -> & _); [done|done|reflexivity|].
    eexists _, s. split; [exact E|]. by split_and!.
Defined.

(** The workers after [InitCache] with room for sixteen blocks on the device and two in
    host memory. *)
Definition node0_Z (rank : Z) : WorkerService.node (K := head_row Z) (V := head_row Z) (F := Z) := {|
  nd_service := WorkerService_init (ModelWorker_init rank qwen_rank_config [1] 2) "/run/w";
  nd_files := ∅; nd_socket := false; nd_kv := None |}.
Definition shared_Z (params : KVWorkerParams) : list Z :=
  replicate (Z.to_nat (kvp_num_layers params * kvp_num_gpu_blocks params * 16)) 0.
Definition init_Z (rank : Z) :=
  InitCache shared_Z pinned_zeros (λ _, 2) 5 3
    {| gpu_cache_size := 256; host_cache_size := 32; disk_cache_size := 0; disk_cache_path := "/tmp" |}
    (node0_Z rank).
Notation came_up_Z :=
  (came_up empty2_Z empty2_Z id (2, 1) "ReLU" hf_config_Z (λ _, qwen_hub_Z) (One_id 1) 2 2
     shared_Z pinned_zeros (λ _, 2) tiers_Z).
Notation qwen_model_Z := (Qwen2_model (shard_model sizes_Z 2 qwen_rope_Z qwen_Z)).

Lemma init_Z_answers (rank : nat) :
  (rank < 2)%nat → (init_Z (Z.of_nat rank)).1
  = Ok (Some {| num_gpu_blocks := 16; num_host_blocks := 2; num_disk_blocks := 0 |}).
Proof. intros Hr. destruct rank as [|[|rank]]; [by vm_compute..|lia]. Qed.

Lemma shared_Z_memory rank : memory_ok shared_Z pinned_zeros (λ _, 2) (node0_Z rank) 16.
Proof.
  split.
  - intros params Hl Hg. unfold len, shared_Z. rewrite length_replicate. change (2 * _) with 16. nia.
  - intros. by apply zeros_wf.
  - done.
Qed.

Lemma came_up_Z_ok (rank : nat) : (rank < 2)%nat → came_up_Z (N.of_nat rank) qwen_model_Z (init_Z (Z.of_nat rank)).2.
Proof.
  intros Hr.
  destruct (serve_Ok (headwise attend1_Z) attend1_Z empty2_Z empty2_Z id (2, 1) init_laws_Z nn_laws_Z empty_Z []
    "ReLU" hf_config_Z (λ _, qwen_hub_Z) (One_id 1) 2 2 qwen_checkpoint_Z launch_ok_Z (environ_of rank) (N.of_nat rank)
    module_globals [] (Some "0x0000, 0x3B"%string) ∅ (λ _, Ok tt) 0 "/run/w" [0; 1] [0; 1])
    as [gs' E]; [apply launched_Z|lia|done|reflexivity|].
  pose proof (surjective_pairing (init_Z (Z.of_nat rank))) as Ei. rewrite init_Z_answers in Ei by done.
  eapply came_up_intro with (bits := 16) (n0 := node0_Z (Z.of_nat rank));
    [apply launched_Z| |exact E| |reflexivity|reflexivity|apply shared_Z_memory| | |exact Ei|];
    [done| |done|done|by intros []].
  by rewrite nat_N_Z.
Qed.

Lemma init_Z_rewritten (rank : nat) :
  (rank < 2)%nat → rewritten 2 1 block_rows_Z tiers_Z (init_Z (Z.of_nat rank)).2 (init_Z (Z.of_nat rank)).2.
Proof.
  intros Hr. split; [done|].
  assert (∃ kv, nd_kv (init_Z (Z.of_nat rank)).2 = Some kv ∧ set_gpu (gpu_kv_caches kv) kv = kv) as (kv & Hkv & E).
  { destruct rank as [|[|rank]]; [eexists; split; vm_compute; reflexivity..|lia]. }
  exists kv, (gpu_kv_caches kv). rewrite E. split_and!; [done..|].
  intros caches l c b i row Hc Hl Hrow.
  assert (kv_caches (node_worker (init_Z (Z.of_nat rank)).2) = Some [PagedCache 2 ∅]) as Hc'.
  { destruct rank as [|[|rank]]; [vm_compute; reflexivity..|lia]. }
  rewrite Hc in Hc'. injection Hc' as ->. destruct l as [|l]; [|done]. injection Hl as <-.
  cbn [pc_slots] in Hrow. by rewrite lookup_empty in Hrow.
Qed.

(** A prompt arrives, and both its tokens are sent. *)
Definition launched_nodes_Z := [(init_Z 0).2; (init_Z 1).2].
Definition prompt_seqs_Z : gmap Z sequence := {[8 := seq_Z [3; 0] [3; 0] 0 []]}.
Notation launched_decoder_Z :=
  (launched_decoder (headwise attend1_Z) empty_Z [] qwen_checkpoint_Z qwen_model_Z).

Lemma prompt_admissible_Z :
  admissible launched_decoder_Z 2 6 {| sy_nodes := launched_nodes_Z; sy_seqs := prompt_seqs_Z |} [prefix_8].
Proof.
  assert (∀ d, d ∈ [prefix_8] → d = prefix_8) as Hin by (intros d; apply list_elem_of_singleton).
  split; cbn [sy_seqs].
  - split; try (by intros d ->%Hin); try (by apply (bool_decide_unpack _); vm_compute).
    by split; apply (bool_decide_unpack _); vm_compute.
  - by apply (bool_decide_unpack _).
  - intros d ->%Hin. exists (seq_Z [3; 0] [3; 0] 0 []). split; [reflexivity|].
    split; [by split|]. split; [done|]. by apply prefix_nil.
  - intros d id q x ->%Hin Hq. unfold prompt_seqs_Z in Hq.
    apply lookup_singleton_Some in Hq as [<- <-]. by intros [].
  - intros d b ->%Hin Hb. cbn in Hb. rewrite elem_of_cons, elem_of_nil in Hb. lia.
Qed.

Example launched_workers_generate_witness :
  ∃ outputs ns',
    infer_group launched_decoder_Z 1 (λ i, pretty i) (λ kv _, kv) (infer_request [prefix_8] false false)
      launched_nodes_Z = (λ n, (Ok outputs, n)) <$> ns'.
Proof.
  destruct (launched_workers_generate (headwise attend1_Z) attend1_Z empty2_Z empty2_Z id (2, 1) init_laws_Z nn_laws_Z
    empty_Z [] "ReLU" hf_config_Z (λ _, qwen_hub_Z) (One_id 1) 2 2 qwen_checkpoint_Z
    launch_ok_Z shared_Z pinned_zeros (λ _, 2) tiers_Z block_rows_Z launched_nodes_Z qwen_model_Z
    (state_Z launched_nodes_Z prompt_seqs_Z ∅) (λ i, pretty i) (λ kv _, kv) block_rows_Z_heads)
    as [_ Hans].
  - reflexivity.
  - intros r n Hn. destruct r as [|[|r]]; simplify_eq/=;
      [exact (came_up_Z_ok 0 ltac:(lia))|exact (came_up_Z_ok 1 ltac:(lia))].
  - eapply rtc_l; [|apply rtc_refl].
    assert (Forall2 (rewritten 2 1 block_rows_Z tiers_Z) launched_nodes_Z launched_nodes_Z) as Hshown.
    { constructor; [exact (init_Z_rewritten 0 ltac:(lia))|].
      constructor; [exact (init_Z_rewritten 1 ltac:(lia))|constructor]. }
    apply (off_serve _ _ _ _ _ _ _ (state_Z launched_nodes_Z ∅ ∅)
      {| sy_nodes := launched_nodes_Z; sy_seqs := prompt_seqs_Z |}); [by apply serve_arrive|exact Hshown].
  - exact (Hans [prefix_8] false false prompt_admissible_Z).
Defined.
